(* ===== verification/_CoqProject ===== *)
-Q . S2P
Prelude.v
Config.v
Types.v
Utils.v
State.v
Accessors.v
Mutators.v
Justification.v
Reward.v
Epoch.v
EpochProps.v
RewardEquiv.v
Block.v
Transition.v
Termination.v
Lifecycle.v
Bls.v
Operations.v
LmdGhost.v
Pool.v
Node.v
Externalities.v
ChainRoots.v
CasperPallet.v
Consensus.v
Ssz.v
SszTypes.v
Typing.v
Serde.v
RocksStore.v
GhostStore.v
StoreImporter.v
BeaconStore.v
Messages.v
Handler.v
DepositTree.v
Authoring.v
Builder.v
RpcHandler.v
Upgrade.v
Discovery.v
Swarm.v
Startup.v
NodeRun.v
TestNames.v
TestRunners.v
Wasm.v
