(* ===== verification/Prelude.v ===== *)
(** * Shasper: verification library

    Shasper is an Ethereum 2.0 beacon chain client in Rust: the state
    transition of the beacon chain (crate [beacon]), a node around it (crate
    [blockchain] with its store, fork choice, network and block builder), the
    SSZ serialization both use, and a Casper FFG pallet for Substrate.  This
    library translates its core into Rocq and proves what makes it correct.

    ** The parts and how they interact

    The node keeps a tree of blocks with the state each leads to.  A block
    arrives from the network or from the node's own builder; the importer runs
    the beacon chain on the state of its parent, stores the block, hands its
    votes to the fork choice and moves the head.  Peers exchange SSZ-encoded
    messages; the state transition hashes, verifies signatures and checks
    Merkle proofs through external libraries.

    ** The files

    - [Prelude] (this file): results with errors, panics and exhausted bounds
      ([res]), stateful code ([M]), [u64] arithmetic in both build modes,
      vectors, bytes, invariants of commands ([steps]) and the tactics that push
      them through a program ([res_inv], [run_inv], [step_tac]).
    - [Config], [Types], [Utils], [State]: [beacon/src/config.rs],
      [consts.rs], [error.rs], [types/], [utils/mod.rs] and the state record of
      [executive/mod.rs].  [Config] and [BLSConfig] are classes, the three
      configurations instances; [ConfigOk] has the laws the theorems use.
    - [Accessors], [Mutators]: [executive/helpers/], [assignment.rs],
      [choice.rs].
    - [Justification], [Reward]: the generic components of [components/],
      written against the traits of [components/mod.rs] as classes.
    - [Epoch], [EpochProps]: [transition/per_epoch/]; [RewardEquiv] compares
      its rewards with those of the generic component.
    - [Block], [Operations]: [transition/per_block/].
    - [Transition], [Termination], [Lifecycle], [Authoring]:
      [transition/mod.rs], [genesis.rs] and the authoring interface of
      [beacon/src/lib.rs].
    - [Bls]: the instance of [BLSConfig] in [crypto/src/lib.rs].
    - [LmdGhost], [Pool], [Node]: the fork choice and importer of
      [blockchain/lmd-ghost], the attestation pool and the executor of
      [blockchain/src] and [blockchain/runtime]; [Externalities]: the wrappers
      of the state the executor reaches it through; [ChainRoots]: which roots a
      state can hold.
    - [DepositTree], [Startup], [Builder], [NodeRun]: of
      [blockchain/src/main.rs], the deposit tree of a generated genesis, the way
      from the command line to the arguments of [run], a turn of the builder
      thread, and [run] itself, which opens the store and starts the network.
    - [RocksStore]: the block store of [blockchain/common/rocksdb] over a
      key-value database with atomic batches; [GhostStore]: the node's store of
      [blockchain/src/backend.rs] on top of it, as the interface the fork choice
      asks for; [StoreImporter]: the importer run on that store;
      [BeaconStore]: the same with the beacon executor, from genesis through
      imports and restarts.
    - [Ssz], [SszTypes], [Messages]: the serialization of [utils/ssz] and its
      derive macro, the codecs of the beacon types ([Typing] shows that a beacon
      state keeps the types these have), and the messages of
      [blockchain/network/messages] with their framing; [Serde]: the textual
      forms of bit fields and integers of [beacon/src/utils/serde.rs] and the
      fixed-length hashes of [primitives].
    - [Handler], [Discovery], [Swarm]: the answers to peers, the discovery of
      peers, the network behaviour, the service and the main loop of
      [blockchain/network/src].
    - [RpcHandler], [Upgrade]: the connection handler and the opening of
      substreams of [common/libp2p-rpc].
    - [CasperPallet], [Consensus]: [substrate/casper/pallet] and the block import
      of [substrate/casper/consensus].
    - [TestNames], [TestRunners]: the runners of the specification tests,
      [yamltests/src]; [Wasm]: the WebAssembly entry point, [beacon/wasm].

    A Rust method on [&mut self] is a command [M S E A] whose state survives an
    error, as the caller's reference sees it; [?] is bind, a failed [unwrap], an
    index out of range and a division by zero are [Panic].  Integers are [Z]
    with the wrap-around or the overflow panic of [u64] written out, for both
    values of [overflow_checks].  Structs are records, enums inductive types,
    hash maps [gmap]s, byte strings lists of [Z].

    ** What the theorems show

    - Finality: a finalized checkpoint rests on epochs with a two-thirds
      majority, an accepted block keeps the order of the justified and finalized
      epochs and never moves them back ([finality_sound],
      [state_transition_finality]); likewise for the sessions of the pallet, and
      the votes its worker makes are never slashable ([session_correct],
      [worker_never_slashed]).
    - Safety of the state: however a block ends, every field of the state keeps
      its type, no validator is lost, un-slashed or moved in its
      life, effective balances stay bounded ([state_transition_well_typed],
      [validator_lifecycle], [effective_balances_bounded]).
    - Signatures: in an accepted block every signature was decoded and accepted
      by the BLS library, for the key, the message and the domain it must be
      made with ([accepted_block_signatures]).
    - The operations and the stages of an epoch, branch by branch, and the
      committees and shuffles they rest on; the two implementations of the
      rewards agree ([reward_component_agrees]).
    - Authoring: the block an author builds, processing the header last, is
      accepted by the import, which processes it first, and leads to the same
      state; so the block the builder thread signs is accepted
      ([authored_block_accepted], [built_block_accepted]).  A node that
      generates its genesis state holds the keys of all its validators
      ([standalone_node_authors]).
    - Fork choice and import: the head is a leaf along children of maximal
      support, a vote counts once; an imported block extends the block whose
      state it was run on.
    - The store: a commit refines the calls of its operation on an abstract
      chain, and survives a restart ([commit_refines], [store_durable]); the
      fork choice is right over every store that imports lead to
      ([ghost_on_store]).
    - The running node: on a store that imports and restarts lead to, where the
      blocks are new to the store or refused by the external [ImportAction], the
      checkpoints of every stored state are blocks of its own chain, an import
      ends in one of the outcomes the code has, panics included, with the store
      it then leaves, the status told to peers is that of such a chain, and a vote for an
      unknown block keeps the head from moving ([node_checkpoints_on_chain],
      [node_import], [hello_on_chain], [unknown_vote_blocks_head]).
    - Consensus: the engine finalizes in the client only what the pallet
      finalized ([client_follows_pallet]).
    - Serialization: encoding and decoding are inverse for blocks, states and
      messages; lists end; and what happens on malformed input.  The textual
      form of a bit field is the SSZ form and reads back, an integer that does
      not fit is an error ([serde_bits_roundtrip], [deserialize_uint_correct]).
    - Networking: which blocks a peer is answered with, that a request arrives
      as it was sent and is answered once, that [poll] drives every substream,
      that events reach the node in order, and when peers are searched and
      dialed ([rpc_answers_once], [events_in_order], [discovery_poll_returns]).
    - The specification tests: what a passed test says of the state transition
      and of the codecs ([passed_blocks_test], [ssz_test_passes_iff]).
    - A number of theorems state what the code does where it is not what it
      means to do; their comments say so.

    ** Bounds

    The slot loop runs with the number of missing slots as its bound, which is
    proved to be enough; the proposer sampling loop has a bound of its own
    ([Fuel]), and is proved to return what the unbounded loop returns whenever
    some candidate within the bound is accepted; the head of the fork choice and
    the search of a start block take a bound that is proved enough when it
    exceeds the height of the chain.  The two loops of the discovery's [poll] have
    a bound that is proved enough when peers are wanted, and proved never enough
    when they are not; the loops of the main network task are proved to end when
    the swarm and the sync component have nothing more to report; the walk over
    the test directories takes a bound on their depth.  Slots are taken below [2 ^ 62] where sums
    of epochs must not overflow.

    ** External code

    SHA-256 ([Digest] of [Config]), tree hashing ([TreeRoot], [TreeRootOk]), Merkle branches
    ([MerkleTree], with [MerkleBranch] what is assumed of it), BLS
    ([BLSConfig]; under it the library, [BlsCrate], and the signing function of
    the builder), the database of the store, the block tree of the fork choice
    ([ChainQuery], [ImportBackend]) and the settling of an import
    ([ImportAction], with [ActionOk] what is assumed of it), the origin and signatures of a Substrate
    runtime ([PalletConfig]) and its client ([CasperClient]), the substreams of
    libp2p ([Substreams]), its timers, discv5, gossipsub and swarm ([DelayOps],
    [Discv5Ops], [GossipsubOps], [SwarmOps], [NetworkWorld]), the hexadecimal
    strings of [impl_serde] ([ImplSerde]), the values of JavaScript ([JsApi]), and
    files with their parsers
    ([NodeEnv], [FileSystem], [Files], [Deserialize], [TreeCodec]) are
    parameters.  Where a theorem needs something of them, a class of laws states
    it and a witness shows an instance.

    ** Not modelled

    The transports of libp2p and the key a node makes for itself, the parser of
    the command line, the scheduling of the node's threads and its in-memory
    store (calls of external crates), and the Keccak hasher, which calls an
    external hash function.  Locks are left out: every modelled operation runs
    alone. *)
From stdpp Require Import base numbers list gmap sorting.
From Stdlib Require Import ZArith Lia Sorted.

#[local] Open Scope Z_scope.

(** ** Outcomes of Rust functions

    [Ok] and [Err] are the two constructors of [Result]; [Panic] is an
    unwinding panic (index out of range, arithmetic overflow in a checked
    build, division by zero, a failed [expect]); [OutOfFuel] is the model's
    answer when the iteration bound of an unbounded loop is used up. *)
Inductive res (E A : Type) : Type :=
  | Ok (a : A)
  | Err (e : E)
  | Panic
  | OutOfFuel.
Arguments Ok {E A} _.
Arguments Err {E A} _.
Arguments Panic {E A}.
Arguments OutOfFuel {E A}.

#[global] Instance res_ret {E} : MRet (res E) := λ A a, Ok a.
#[global] Instance res_bind {E} : MBind (res E) := λ A B f m,
  match m with Ok a => f a | Err e => Err e | Panic => Panic | OutOfFuel => OutOfFuel end.
#[global] Instance res_fmap {E} : FMap (res E) := λ A B f m,
  match m with Ok a => Ok (f a) | Err e => Err e | Panic => Panic | OutOfFuel => OutOfFuel end.

Definition is_ok {E A} (m : res E A) : bool :=
  match m with Ok _ => true | _ => false end.

(** A result that is neither a panic nor the end of the fuel *)
Definition definite {E A} (r : res E A) : Prop :=
  match r with Ok _ | Err _ => True | Panic | OutOfFuel => False end.

(** [map_err]: change the error type of a result. *)
Definition res_map_err {E F A} (f : E → F) (m : res E A) : res F A :=
  match m with Ok a => Ok a | Err e => Err (f e) | Panic => Panic | OutOfFuel => OutOfFuel end.

(** [ok_or] on options. *)
Definition ok_or {E A} (o : option A) (e : E) : res E A :=
  match o with Some a => Ok a | None => Err e end.

(** [.expect(..)] and [.unwrap()] on options. *)
Definition unwrap {E A} (o : option A) : res E A :=
  match o with Some a => Ok a | None => Panic end.

(** [r.unwrap()] and [r.expect(..)]: an error panics, and none is left. *)
Definition unwrap_result {E F A} (r : res E A) : res F A :=
  match r with Ok a => Ok a | OutOfFuel => OutOfFuel | _ => Panic end.

(** [iter().map(f).collect::<Result<Vec<_>, _>>()] *)
Fixpoint res_map {E A B} (f : A → res E B) (l : list A) : res E (list B) :=
  match l with
  | [] => Ok []
  | x :: l' => y ← f x; ys ← res_map f l'; Ok (y :: ys)
  end.

(** A [for] loop over [l] that updates an accumulator. *)
Fixpoint res_fold {E A B} (f : B → A → res E B) (b : B) (l : list A) : res E B :=
  match l with
  | [] => Ok b
  | x :: l' => b' ← f b x; res_fold f b' l'
  end.

(** ** Stateful code

    A method taking [&mut self]: the state survives an error or a panic with
    every write made before it, as the caller's [&mut] reference sees it. *)
Definition M (S E A : Type) : Type := S → res E A * S.

#[global] Instance M_ret {S E} : MRet (M S E) := λ A a s, (Ok a, s).
#[global] Instance M_bind {S E} : MBind (M S E) := λ A B f m s,
  match m s with
  | (Ok a, s') => f a s'
  | (Err e, s') => (Err e, s')
  | (Panic, s') => (Panic, s')
  | (OutOfFuel, s') => (OutOfFuel, s')
  end.

Definition get {S E} : M S E S := λ s, (Ok s, s).
Definition put {S E} (s' : S) : M S E unit := λ _, (Ok tt, s').
Definition lift {S E A} (m : res E A) : M S E A := λ s, (m, s).
Definition throw {S E A} (e : E) : M S E A := λ s, (Err e, s).

(** [if !cond { return Err(e) }] *)
Definition require {S E} (cond : bool) (e : E) : M S E unit := if cond then mret tt else throw e.

(** [for x in l { f(x)? }] *)
Fixpoint for_each {S E A} (l : list A) (f : A → M S E unit) : M S E unit :=
  match l with
  | [] => mret tt
  | x :: l' => f x ;; for_each l' f
  end.

(** [while cond { body }], with a bound on the number of iterations. *)
Fixpoint while_loop {S E} (fuel : nat) (cond : S → bool) (body : M S E unit) : M S E unit :=
  s ← get;
  if cond s then
    match fuel with
    | O => lift OutOfFuel
    | S n => body ;; while_loop n cond body
    end
  else mret tt.

(** ** Machine integers

    A [u64] is a [Z] in [0, 2^64).  Overflow panics when the build has
    overflow checks (debug builds) and wraps around otherwise (release
    builds); the library is parametric in that choice. *)
Class ArithMode := overflow_checks : bool.

Definition u64_modulus : Z := 2 ^ 64.
Definition is_u64 (z : Z) : Prop := 0 ≤ z < 2 ^ 64.
Definition is_u64b (z : Z) : bool := (0 <=? z) && (z <? 2 ^ 64).
Definition u64_max : Z := 2 ^ 64 - 1.

Section Arith.
Context `{ArithMode} {E : Type}.

Definition u64_check (z : Z) : res E Z :=
  if is_u64b z then Ok z
  else if overflow_checks then Panic else Ok (z mod 2 ^ 64).

Definition u64_add (a b : Z) : res E Z := u64_check (a + b).
Definition u64_sub (a b : Z) : res E Z := u64_check (a - b).
Definition u64_mul (a b : Z) : res E Z := u64_check (a * b).
Definition u64_div (a b : Z) : res E Z := if b =? 0 then Panic else Ok (a / b).
Definition u64_rem (a b : Z) : res E Z := if b =? 0 then Panic else Ok (a mod b).
End Arith.

Definition saturating_sub (a b : Z) : Z := Z.max 0 (a - b).

(** ** Vectors and arrays: indexing panics out of range. *)
Definition vec_index {E A} (l : list A) (i : Z) : res E A :=
  match l !! Z.to_nat i with Some x => Ok x | None => Panic end.

Definition vec_set {E A} (l : list A) (i : Z) (x : A) : res E (list A) :=
  if decide (Z.to_nat i < length l)%nat then Ok (<[Z.to_nat i := x]> l) else Panic.

(** [&v[a..b]] *)
Definition slice {E A} (l : list A) (a b : Z) : res E (list A) :=
  if (a <=? b) && (b <=? Z.of_nat (length l))
  then Ok (take (Z.to_nat (b - a)) (drop (Z.to_nat a) l)) else Panic.

(** [v.len() as u64] *)
Definition zlen {A} (l : list A) : Z := Z.of_nat (length l).

(** [0..n] as a list of integers; [a..b] *)
Definition zrange (a b : Z) : list Z := seqZ a (b - a).

(** [v.iter().enumerate()] *)
Definition enumerate {A} (l : list A) : list (Z * A) :=
  zip (zrange 0 (zlen l)) l.

(** [v.contains(&x)] *)
Definition contains {A} `{EqDecision A} (l : list A) (x : A) : bool :=
  bool_decide (x ∈ l).

(** [v.iter().position(p)] *)
Fixpoint position {A} (p : A → bool) (l : list A) : option Z :=
  match l with
  | [] => None
  | x :: l' => if p x then Some 0 else Z.succ <$> position p l'
  end.

(** [sort_by_key]: the stable sort of the standard library, whose result is
    determined by being sorted, a permutation and order-preserving on ties. *)
Fixpoint insert_by_key {A} (key : A → Z) (x : A) (l : list A) : list A :=
  match l with
  | [] => [x]
  | y :: l' => if key x <=? key y then x :: y :: l' else y :: insert_by_key key x l'
  end.

Definition sort_by_key {A} (key : A → Z) (l : list A) : list A :=
  foldr (insert_by_key key) [] l.

(** [sort] on a vector of integers. *)
Definition sort (l : list Z) : list Z := sort_by_key id l.

(** [if !ret.contains(&x) { ret.push(x) }] over the elements of a list. *)
Definition push_new {A} `{EqDecision A} (ret : list A) (x : A) : list A :=
  if contains ret x then ret else ret ++ [x].
Definition push_all_new {A} `{EqDecision A} (ret : list A) (l : list A) : list A :=
  foldl push_new ret l.

(** ** Bytes, little endian *)
Definition is_u8 (z : Z) : Prop := 0 ≤ z < 256.

Fixpoint to_le_bytes (n : nat) (z : Z) : list Z :=
  match n with
  | O => []
  | S n' => z mod 256 :: to_le_bytes n' (z / 256)
  end.

Fixpoint from_le_bytes (l : list Z) : Z :=
  match l with
  | [] => 0
  | b :: l' => b + 256 * from_le_bytes l'
  end.

(** * Lemmas shared by the components *)

Create HintDb shasper.

(** ** Outcomes *)

Lemma bind_Ok {E A B} (m : res E A) (f : A → res E B) r :
  m ≫= f = Ok r ↔ ∃ a, m = Ok a ∧ f a = Ok r.
Proof. destruct m; cbn; naive_solver. Qed.

Lemma res_bind_Ok {E A B} (a : A) (f : A → res E B) : Ok a ≫= f = f a.
Proof. done. Qed.

Lemma Mbind_Ok {S E A B} (m : M S E A) (f : A → M S E B) s r s' :
  (m ≫= f) s = (Ok r, s') ↔ ∃ a s1, m s = (Ok a, s1) ∧ f a s1 = (Ok r, s').
Proof. unfold mbind, M_bind. destruct (m s) as [[] ?]; naive_solver. Qed.

Lemma Mbind_lift {S E A B} (m : res E A) (f : A → M S E B) s r s' :
  (lift m ≫= f) s = (Ok r, s') ↔ ∃ a, m = Ok a ∧ f a s = (Ok r, s').
Proof. rewrite Mbind_Ok. unfold lift. naive_solver. Qed.

Lemma run_eta {S E A} (r : res E A * S) (a : A) : r.1 = Ok a → r = (Ok a, r.2).
Proof. destruct r. by intros [= ->]. Qed.

Lemma Mbind_get {S E B} (f : S → M S E B) s : (get ≫= f) s = f s s.
Proof. done. Qed.

Lemma Mbind_put {S E B} (t : S) (f : unit → M S E B) s : (put t ≫= f) s = f tt t.
Proof. done. Qed.

Lemma Mbind_lift_Ok {S E A B} (a : A) (f : A → M S E B) s :
  (lift (Ok a) ≫= f) s = f a s.
Proof. done. Qed.

Lemma Mbind_lift_case {S E A B} (m : res E A) (f : A → M S E B) s :
  (lift m ≫= f) s =
  match m with
  | Ok a => f a s
  | Err e => (Err e, s)
  | Panic => (Panic, s)
  | OutOfFuel => (OutOfFuel, s)
  end.
Proof. by destruct m. Qed.

Lemma Mbind_require {S E B} (b : bool) (e : E) (f : unit → M S E B) s r s' :
  (require b e ≫= f) s = (Ok r, s') ↔ b = true ∧ f tt s = (Ok r, s').
Proof.
  unfold require. destruct b; split; [done|by intros [_ ?]|done|by intros [? _]].
Qed.

Lemma require_Ok {S E} (b : bool) (e : E) (s s' : S) r :
  require b e s = (Ok r, s') ↔ b = true ∧ s' = s.
Proof.
  unfold require. destruct b, r; split; try done; [by intros [= ->]|by intros [_ ->]|by intros [? _]].
Qed.

Lemma Mbind_step {S E A B} (m : M S E A) (f : A → M S E B) s a s' :
  m s = (Ok a, s') → (m ≫= f) s = f a s'.
Proof. unfold mbind, M_bind. by intros ->. Qed.

Lemma res_map_Ok {E A B} (f : A → res E B) l l' :
  res_map f l = Ok l' ↔ Forall2 (λ x y, f x = Ok y) l l'.
Proof.
  revert l'. induction l as [|x l IH]; intros l'; cbn.
  - split; [intros [= <-]; constructor | intros H; by inversion H].
  - rewrite bind_Ok. setoid_rewrite bind_Ok. setoid_rewrite IH. split.
    + intros (y & Hy & ys & Hys & [= <-]). by constructor.
    + intros H. inversion H; subst. naive_solver.
Qed.

Lemma res_map_total {E A B} (f : A → res E B) (g : A → B) l :
  (∀ x, x ∈ l → f x = Ok (g x)) → res_map f l = Ok (g <$> l).
Proof.
  intros H. apply res_map_Ok. induction l; constructor; [apply H; left|].
  apply IHl. intros x Hx. apply H. by right.
Qed.

Lemma res_fold_app {E A B} (f : B → A → res E B) b l1 l2 :
  res_fold f b (l1 ++ l2) = (b' ← res_fold f b l1; res_fold f b' l2).
Proof.
  revert b. induction l1 as [|x l1 IH]; intros b; [done|]. cbn.
  destruct (f b x); cbn; auto.
Qed.

(** The invariant rule for accumulator loops. *)
Lemma res_fold_inv {E A B} (I : B → Prop) (f : B → A → res E B) b l b' :
  (∀ b x b', x ∈ l → I b → f b x = Ok b' → I b') →
  I b → res_fold f b l = Ok b' → I b'.
Proof.
  revert b. induction l as [|x l IH]; intros b Hf HI; cbn; [by intros [= <-]|].
  rewrite bind_Ok. intros (b1 & H1 & H2). eapply (IH b1); [|eapply Hf|]; eauto; [|by left].
  intros b2 y b3 Hy. apply Hf. by right.
Qed.

Lemma for_each_app {S E A} (l1 l2 : list A) (f : A → M S E unit) s :
  for_each (l1 ++ l2) f s = (for_each l1 f ;; for_each l2 f) s.
Proof.
  revert s. induction l1 as [|x l1 IH]; intros s; [done|]. cbn.
  unfold mbind, M_bind in *. destruct (f x s) as [[] s1]; auto.
Qed.

(** A loop that ended: its invariant holds and its condition does not. *)
Lemma while_loop_Ok {S E} (R : relation S) `{!PreOrder R} (I : S → Prop) n c (body : M S E unit) s s' :
  (∀ t t', I t → c t = true → body t = (Ok tt, t') → I t' ∧ R t t') →
  I s → while_loop n c body s = (Ok tt, s') → I s' ∧ c s' = false ∧ R s s'.
Proof.
  intros Hb. revert s. induction n as [|n IH]; intros s HI; cbn; unfold mbind, M_bind; cbn;
    destruct (c s) eqn:Hc; try done; try by intros [= <-].
  destruct (body s) as [[[]|e| |] s1] eqn:E1; try done. intros Hr.
  destruct (Hb _ _ HI Hc E1) as [HI1 HR]. destruct (IH s1 HI1 Hr) as (? & ? & ?).
  split; [done|]. split; [done|]. by etrans.
Qed.

(** ** Relational reasoning about stateful code

    [steps R m]: every run of [m], whatever its outcome, relates its first to
    its last state by the preorder [R].  With [R s s' := I s → I s'] this is
    the preservation of an invariant, on errors and panics too. *)
Definition steps {S E A} (R : relation S) (m : M S E A) : Prop := ∀ s, R s (m s).2.

Section Steps.
Context {S E : Type} (R : relation S) `{!PreOrder R}.

Lemma steps_ret {A} (a : A) : steps R (mret a : M S E A).
Proof. intros s. cbn. reflexivity. Qed.

Lemma steps_lift {A} (m : res E A) : steps R (lift m : M S E A).
Proof. intros s. cbn. reflexivity. Qed.

Lemma steps_throw {A} (e : E) : steps R (throw e : M S E A).
Proof. intros s. cbn. reflexivity. Qed.

Lemma steps_bind {A B} (m : M S E A) (f : A → M S E B) :
  steps R m → (∀ a, steps R (f a)) → steps R (m ≫= f).
Proof.
  intros Hm Hf s. specialize (Hm s). unfold mbind, M_bind.
  destruct (m s) as [[a|e| |] s1]; cbn in *; auto. etrans; [done|apply Hf].
Qed.

(** What [get] returned is the current state until the next write. *)
Lemma steps_get {B} (f : S → M S E B) :
  (∀ s, R s (f s s).2) → steps R (get ≫= f).
Proof. intros Hf s. apply Hf. Qed.

Lemma steps_if {A} (b : bool) (m1 m2 : M S E A) :
  steps R m1 → steps R m2 → steps R (if b then m1 else m2).
Proof. by destruct b. Qed.

Lemma steps_for_each {A} (l : list A) (f : A → M S E unit) :
  (∀ x, steps R (f x)) → steps R (for_each l f).
Proof.
  intros Hf. induction l; cbn; [apply steps_ret|]. by apply steps_bind.
Qed.

Lemma steps_for_each_in {A} (l : list A) (f : A → M S E unit) :
  (∀ x, x ∈ l → steps R (f x)) → steps R (for_each l f).
Proof.
  induction l as [|x l IH]; intros Hf; cbn; [apply steps_ret|].
  apply steps_bind; [apply Hf; left|]. intros _. apply IH. intros y Hy. apply Hf. by right.
Qed.

Lemma steps_while n (c : S → bool) (body : M S E unit) :
  steps R body → steps R (while_loop n c body).
Proof.
  intros Hb. induction n as [|n IH]; intros s; cbn; unfold mbind, M_bind; cbn;
    destruct (c s); cbn; try reflexivity.
  specialize (Hb s). destruct (body s) as [[] s1]; cbn in *; auto. etrans; [done|apply IH].
Qed.

(** Step-wise rules at a known state, for the body behind a [get]. *)
Lemma step_lift {A B} (m : res E A) (f : A → M S E B) s :
  (∀ a, m = Ok a → R s (f a s).2) → R s ((lift m ≫= f) s).2.
Proof. intros H. unfold mbind, M_bind, lift. destruct m; cbn; auto; reflexivity. Qed.

Lemma step_put {B} (t : S) (f : unit → M S E B) s :
  R s t → R t (f tt t).2 → R s ((put t ≫= f) s).2.
Proof. intros H1 H2. unfold mbind, M_bind, put. cbn. by etrans. Qed.

Lemma step_require {B} (b : bool) (e : E) (f : unit → M S E B) s :
  (b = true → R s (f tt s).2) → R s ((require b e ≫= f) s).2.
Proof. intros H. unfold require. destruct b; cbn; [by apply H|reflexivity]. Qed.

Lemma steps_require (b : bool) (e : E) : steps R (require b e).
Proof. intros s. unfold require. destruct b; cbn; reflexivity. Qed.

(** When [m] returns [a] from [s], its continuation may use that. *)
Lemma step_call {A B} (m : M S E A) (f : A → M S E B) s :
  R s (m s).2 → (∀ a s1, m s = (Ok a, s1) → R s1 (f a s1).2) → R s ((m ≫= f) s).2.
Proof.
  intros Hm Hf. unfold mbind, M_bind.
  destruct (m s) as [[a|e| |] s1] eqn:E1; cbn in *; auto. etrans; [done|]. eauto.
Qed.
End Steps.

Definition keeps {S} (I : S → Prop) : relation S := λ s s', I s → I s'.

#[global] Instance keeps_preorder {S} (I : S → Prop) : PreOrder (keeps I).
Proof. split; unfold keeps; [intros s; auto | intros s t u; auto]. Qed.

(** A field (or any function of the state) that a command leaves alone. *)
Definition same {S T} (f : S → T) : relation S := λ s s', f s' = f s.

#[global] Instance same_preorder {S T} (f : S → T) : PreOrder (same f).
Proof. split; unfold same; [done | intros s t u -> ->; done]. Qed.

(** ** Machine integers *)

Lemma is_u64b_spec z : is_u64b z = true ↔ is_u64 z.
Proof. unfold is_u64b, is_u64. lia. Qed.

Lemma is_u64b_false z : is_u64b z = false ↔ ¬ is_u64 z.
Proof. rewrite <- is_u64b_spec. destruct (is_u64b z); naive_solver. Qed.

#[global] Instance is_u64_dec z : Decision (is_u64 z).
Proof. unfold is_u64. apply _. Defined.

#[global] Instance is_u8_dec z : Decision (is_u8 z).
Proof. unfold is_u8. apply _. Defined.

Section ArithLemmas.
Context `{AM : ArithMode} {E : Type}.

Lemma u64_check_ok z : is_u64 z → u64_check z = Ok (E:=E) z.
Proof. intros H. unfold u64_check. by rewrite (proj2 (is_u64b_spec z) H). Qed.

Lemma u64_check_range z r : u64_check z = Ok (E:=E) r → is_u64 r.
Proof.
  unfold u64_check. destruct (is_u64b z) eqn:Hz.
  - intros [= <-]. by apply is_u64b_spec.
  - destruct overflow_checks; [done|]. intros [= <-].
    unfold is_u64. apply Z.mod_pos_bound. lia.
Qed.

Lemma u64_add_ok a b : is_u64 (a + b) → u64_add a b = Ok (E:=E) (a + b).
Proof. apply u64_check_ok. Qed.
Lemma u64_sub_ok a b : is_u64 (a - b) → u64_sub a b = Ok (E:=E) (a - b).
Proof. apply u64_check_ok. Qed.
Lemma u64_mul_ok a b : is_u64 (a * b) → u64_mul a b = Ok (E:=E) (a * b).
Proof. apply u64_check_ok. Qed.
Lemma u64_div_ok a b : b ≠ 0 → u64_div a b = Ok (E:=E) (a / b).
Proof. unfold u64_div. destruct (Z.eqb_spec b 0); naive_solver. Qed.
Lemma u64_rem_ok a b : b ≠ 0 → u64_rem a b = Ok (E:=E) (a mod b).
Proof. unfold u64_rem. destruct (Z.eqb_spec b 0); naive_solver. Qed.

Lemma u64_add_range a b r : u64_add a b = Ok (E:=E) r → is_u64 r.
Proof. apply u64_check_range. Qed.
Lemma u64_sub_range a b r : u64_sub a b = Ok (E:=E) r → is_u64 r.
Proof. apply u64_check_range. Qed.
Lemma u64_mul_range a b r : u64_mul a b = Ok (E:=E) r → is_u64 r.
Proof. apply u64_check_range. Qed.

Lemma u64_div_inv a b r : u64_div a b = Ok (E:=E) r → b ≠ 0 ∧ r = a / b.
Proof. unfold u64_div. destruct (Z.eqb_spec b 0); naive_solver. Qed.
Lemma u64_rem_inv a b r : u64_rem a b = Ok (E:=E) r → b ≠ 0 ∧ r = a mod b.
Proof. unfold u64_rem. destruct (Z.eqb_spec b 0); naive_solver. Qed.

Lemma u64_div_range a b r :
  is_u64 a → is_u64 b → u64_div a b = Ok (E:=E) r → is_u64 r.
Proof.
  intros [??] [??] [? ->]%u64_div_inv. unfold is_u64. split.
  - apply Z.div_pos; lia.
  - apply Z.le_lt_trans with a; [|lia]. apply Z.div_le_upper_bound; nia.
Qed.

(** In range the machine operation is the mathematical one. *)
Lemma u64_add_inv a b r :
  u64_add a b = Ok (E:=E) r → is_u64 (a + b) → r = a + b.
Proof. intros H Hr. rewrite u64_add_ok in H by done. by injection H. Qed.
Lemma u64_sub_inv a b r :
  u64_sub a b = Ok (E:=E) r → is_u64 (a - b) → r = a - b.
Proof. intros H Hr. rewrite u64_sub_ok in H by done. by injection H. Qed.
Lemma u64_mul_inv a b r :
  u64_mul a b = Ok (E:=E) r → is_u64 (a * b) → r = a * b.
Proof. intros H Hr. rewrite u64_mul_ok in H by done. by injection H. Qed.
End ArithLemmas.

Fixpoint sum_list_z (l : list Z) : Z :=
  match l with [] => 0 | x :: l' => x + sum_list_z l' end.

Lemma sum_list_z_nonneg l : Forall (λ x, 0 ≤ x) l → 0 ≤ sum_list_z l.
Proof. induction 1; cbn; lia. Qed.

Lemma sum_list_z_app l1 l2 : sum_list_z (l1 ++ l2) = sum_list_z l1 + sum_list_z l2.
Proof. induction l1; cbn; lia. Qed.

(** A checked sum that stays in range is the sum. *)
Lemma res_fold_sum_ok `{ArithMode} {E A} (f : A → Z) acc l :
  0 ≤ acc → Forall (λ x, 0 ≤ f x) l → acc + sum_list_z (f <$> l) < 2 ^ 64 →
  res_fold (E:=E) (λ acc x, u64_add acc (f x)) acc l = Ok (acc + sum_list_z (f <$> l)).
Proof.
  revert acc. induction l as [|x l IH]; intros acc Ha Hl Hs; cbn in *; [by rewrite Z.add_0_r|].
  apply Forall_cons in Hl as [Hx Hl].
  assert (0 ≤ sum_list_z (f <$> l)) by by apply sum_list_z_nonneg, Forall_fmap.
  rewrite u64_add_ok, res_bind_Ok by (unfold is_u64; lia). rewrite IH by (done || lia). f_equal. lia.
Qed.

Lemma res_fold_add_ok `{ArithMode} {E} acc l :
  0 ≤ acc → Forall (λ x, 0 ≤ x) l → acc + sum_list_z l < 2 ^ 64 →
  res_fold (E:=E) u64_add acc l = Ok (acc + sum_list_z l).
Proof.
  intros Ha Hl Hs. rewrite <- (list_fmap_id l) in Hs at 1.
  by rewrite (res_fold_sum_ok id), list_fmap_id.
Qed.

Lemma is_u64_0 : is_u64 0.
Proof. unfold is_u64. lia. Qed.

Lemma saturating_sub_u64 a b : is_u64 a → 0 ≤ b → is_u64 (saturating_sub a b).
Proof. unfold is_u64, saturating_sub. lia. Qed.

(** The quotient of the successor, at and off a boundary. *)
Lemma div_succ_boundary x n : 0 < n → (x + 1) mod n = 0 → (x + 1) / n = x / n + 1.
Proof.
  intros Hn [q Hq]%Z.mod_divide; [|lia]. rewrite Hq, Z.div_mul by lia.
  assert (q - 1 = x / n); [|lia]. apply (Z.div_unique _ _ _ (n - 1)); lia.
Qed.

Lemma div_succ_inside x n : 0 < n → (x + 1) mod n ≠ 0 → (x + 1) / n = x / n.
Proof.
  intros Hn Hm. pose proof (Z.mod_pos_bound (x + 1) n ltac:(lia)).
  pose proof (Z.div_mod (x + 1) n ltac:(lia)). apply (Z.div_unique _ _ _ ((x + 1) mod n - 1)); lia.
Qed.

Lemma saturating_sub_le a b : is_u64 a → 0 ≤ b → saturating_sub a b ≤ a.
Proof. unfold is_u64, saturating_sub. lia. Qed.

#[export] Hint Resolve u64_add_range u64_sub_range u64_mul_range u64_div_range
  is_u64_0 saturating_sub_u64 : shasper.

(** ** Vectors *)

Lemma vec_index_Ok {E A} (l : list A) i x :
  vec_index l i = Ok (E:=E) x ↔ l !! Z.to_nat i = Some x.
Proof. unfold vec_index. destruct (l !! _); naive_solver. Qed.

Lemma vec_index_lt {E A} (l : list A) i :
  0 ≤ i < zlen l → ∃ x, l !! Z.to_nat i = Some x ∧ vec_index l i = Ok (E:=E) x.
Proof.
  unfold zlen. intros H. destruct (lookup_lt_is_Some_2 l (Z.to_nat i)) as [x Hx]; [lia|].
  exists x. split; [done|]. by apply vec_index_Ok.
Qed.

Lemma vec_set_Ok {E A} (l l' : list A) i x :
  vec_set l i x = Ok (E:=E) l' ↔ (Z.to_nat i < length l)%nat ∧ l' = <[Z.to_nat i := x]> l.
Proof. unfold vec_set. case_decide; naive_solver. Qed.

Lemma vec_set_in {E A} (l : list A) i x :
  0 ≤ i < zlen l → vec_set l i x = Ok (E:=E) (<[Z.to_nat i := x]> l).
Proof. unfold zlen. intros H. apply vec_set_Ok. split; [lia|done]. Qed.

Lemma vec_set_length {E A} (l l' : list A) i x :
  vec_set l i x = Ok (E:=E) l' → length l' = length l.
Proof. intros [_ ->]%vec_set_Ok. apply length_insert. Qed.

Lemma vec_set_Forall {E A} (P : A → Prop) (l l' : list A) i x :
  vec_set l i x = Ok (E:=E) l' → Forall P l → P x → Forall P l'.
Proof. intros [_ ->]%vec_set_Ok ??. by apply Forall_insert. Qed.

Lemma vec_index_Forall {E A} (P : A → Prop) (l : list A) i x :
  vec_index l i = Ok (E:=E) x → Forall P l → P x.
Proof. intros ?%vec_index_Ok ?. by eapply Forall_lookup_1. Qed.

Lemma slice_ok {E A} (l : list A) a b :
  a ≤ b → b ≤ zlen l →
  slice l a b = Ok (E:=E) (take (Z.to_nat (b - a)) (drop (Z.to_nat a) l)).
Proof.
  unfold slice, zlen. intros Ha Hb.
  by rewrite (proj2 (Z.leb_le a b) Ha), (proj2 (Z.leb_le b _) Hb).
Qed.

Lemma slice_Ok {E A} (l l' : list A) a b :
  slice l a b = Ok (E:=E) l' →
  a ≤ b ≤ zlen l ∧ l' = take (Z.to_nat (b - a)) (drop (Z.to_nat a) l).
Proof.
  unfold slice, zlen. destruct (_ && _) eqn:Hc; [|done]. intros [= <-].
  apply andb_true_iff in Hc as [?%Z.leb_le ?%Z.leb_le]. done.
Qed.

Lemma zrange_lookup a b (i : nat) x :
  zrange a b !! i = Some x ↔ x = a + Z.of_nat i ∧ a + Z.of_nat i < b.
Proof. unfold zrange. rewrite lookup_seqZ. lia. Qed.

Lemma zrange_length a b : length (zrange a b) = Z.to_nat (b - a).
Proof. unfold zrange. by rewrite length_seqZ. Qed.

Lemma elem_of_zrange a b x : x ∈ zrange a b ↔ a ≤ x < b.
Proof. unfold zrange. rewrite elem_of_seqZ. lia. Qed.

Lemma zrange_cons a b : a < b → zrange a b = a :: zrange (a + 1) b.
Proof. intros H. unfold zrange. rewrite seqZ_cons by lia. do 2 f_equal; lia. Qed.

Lemma zrange_nil a b : b ≤ a → zrange a b = [].
Proof. intros H. unfold zrange. apply seqZ_nil. lia. Qed.

Lemma zrange_app a b c : a ≤ b ≤ c → zrange a c = zrange a b ++ zrange b c.
Proof.
  intros H. unfold zrange. replace (c - a) with ((b - a) + (c - b)) by lia.
  rewrite seqZ_app by lia. do 2 f_equal; lia.
Qed.

Lemma zrange_snoc a b : a ≤ b → zrange a (b + 1) = zrange a b ++ [b].
Proof.
  intros H. rewrite (zrange_app a b (b + 1)) by lia. f_equal.
  rewrite zrange_cons by lia. by rewrite zrange_nil by lia.
Qed.

Lemma fmap_lookup_total_zrange {A} `{Inhabited A} (l : list A) :
  (λ j, l !!! Z.to_nat j) <$> zrange 0 (zlen l) = l.
Proof.
  apply list_eq. intros k. rewrite list_lookup_fmap.
  destruct (decide (k < length l)%nat) as [Hk|Hk].
  - destruct (lookup_lt_is_Some_2 l k Hk) as [x Hx]. rewrite Hx.
    rewrite (proj2 (zrange_lookup 0 (zlen l) k (Z.of_nat k))) by (unfold zlen; lia).
    cbn. rewrite Nat2Z.id. by rewrite (list_lookup_total_correct _ _ _ Hx).
  - rewrite (lookup_ge_None_2 l) by lia.
    rewrite lookup_ge_None_2; [done|]. rewrite zrange_length. unfold zlen. lia.
Qed.

Lemma zlen_fmap {A B} (f : A → B) (l : list A) : zlen (f <$> l) = zlen l.
Proof. unfold zlen. by rewrite length_fmap. Qed.

Lemma zlen_zrange a b : a ≤ b → zlen (zrange a b) = b - a.
Proof. unfold zlen. rewrite zrange_length. lia. Qed.

Lemma zlen_nonneg {A} (l : list A) : 0 ≤ zlen l.
Proof. unfold zlen. lia. Qed.

Lemma fmap_concat {A B} (f : A → B) (ls : list (list A)) :
  f <$> concat ls = concat (fmap (M:=list) f <$> ls).
Proof. induction ls as [|l ls IH]; [done|]. cbn. by rewrite fmap_app, IH. Qed.

Lemma NoDup_zrange a b : NoDup (zrange a b).
Proof. apply NoDup_seqZ. Qed.

Lemma enumerate_lookup {A} (l : list A) (k : nat) i x :
  enumerate l !! k = Some (i, x) ↔ i = Z.of_nat k ∧ l !! k = Some x.
Proof.
  unfold enumerate. rewrite lookup_zip_Some, zrange_lookup. unfold zlen. split.
  - intros [[-> ?] ?]. split; [lia|done].
  - intros [-> Hx]. split; [|done]. apply lookup_lt_Some in Hx. lia.
Qed.

Lemma elem_of_enumerate {A} (l : list A) i x :
  (i, x) ∈ enumerate l ↔ 0 ≤ i ∧ l !! Z.to_nat i = Some x.
Proof.
  rewrite list_elem_of_lookup. setoid_rewrite enumerate_lookup. split.
  - intros (k & -> & Hx). rewrite Nat2Z.id. split; [lia|done].
  - intros [Hi Hx]. exists (Z.to_nat i). split; [lia|done].
Qed.

Lemma enumerate_fst {A} (l : list A) : (enumerate l).*1 = zrange 0 (zlen l).
Proof.
  unfold enumerate. apply fst_zip. rewrite zrange_length. unfold zlen. lia.
Qed.

Lemma contains_spec {A} `{EqDecision A} (l : list A) x : contains l x = true ↔ x ∈ l.
Proof. unfold contains. apply bool_decide_eq_true. Qed.

Lemma position_Some {A} (p : A → bool) (l : list A) i :
  position p l = Some i →
  0 ≤ i ∧ ∃ x, l !! Z.to_nat i = Some x ∧ p x = true ∧
    ∀ j y, (j < Z.to_nat i)%nat → l !! j = Some y → p y = false.
Proof.
  revert i. induction l as [|x l IH]; intros i; cbn; [done|].
  destruct (p x) eqn:Hp.
  - intros [= <-]. split; [lia|]. exists x. naive_solver lia.
  - destruct (position p l) as [k|]; cbn; [|done]. intros [= <-].
    destruct (IH k eq_refl) as (Hk & y & Hy & Hpy & Hmin). split; [lia|].
    exists y. rewrite Z2Nat.inj_succ by lia. split; [done|]. split; [done|].
    intros [|j] z Hj Hz; [naive_solver|]. cbn in Hz. eapply Hmin; [|done]. lia.
Qed.

Lemma position_None {A} (p : A → bool) (l : list A) :
  position p l = None ↔ ∀ x, x ∈ l → p x = false.
Proof.
  induction l as [|x l IH]; cbn.
  - split; [intros _ x Hx; by apply not_elem_of_nil in Hx|done].
  - destruct (p x) eqn:Hp.
    + split; [done|]. intros H. specialize (H x (list_elem_of_here _ _)). congruence.
    + rewrite fmap_None, IH. setoid_rewrite elem_of_cons. naive_solver.
Qed.

(** [fold(0, max)] *)
Lemma foldl_max_ge a l : a ≤ foldl Z.max a l.
Proof. revert a. induction l as [|y l IH]; intros a; cbn; [lia|]. specialize (IH (Z.max a y)). lia. Qed.

Lemma foldl_max_elem a l x : x ∈ l → x ≤ foldl Z.max a l.
Proof.
  revert a. induction l as [|y l IH]; intros a; cbn; [by intros ?%elem_of_nil|].
  intros [->|Hx]%elem_of_cons; [|auto]. pose proof (foldl_max_ge (Z.max a y) l). lia.
Qed.

Lemma foldl_max_lub a l b : a ≤ b → (∀ x, x ∈ l → x ≤ b) → foldl Z.max a l ≤ b.
Proof.
  revert a. induction l as [|y l IH]; intros a Ha Hl; cbn; [done|]. apply IH.
  - apply Z.max_lub; [done|]. apply Hl. by left.
  - intros x Hx. apply Hl. by right.
Qed.

(** Counting after a point update. *)
Lemma filter_insert_length {A} (P : A → Prop) `{∀ x, Decision (P x)} (l : list A) i x y :
  l !! i = Some x →
  (length (filter P (<[i := y]> l)) + (if decide (P x) then 1 else 0) =
   length (filter P l) + (if decide (P y) then 1 else 0))%nat.
Proof.
  revert i. induction l as [|z l IH]; intros [|i] Hi; try done; cbn in Hi.
  - injection Hi as ->. change (<[0%nat := y]> (x :: l)) with (y :: l).
    rewrite !filter_cons. repeat case_decide; cbn [length]; lia.
  - specialize (IH i Hi). change (<[S i := y]> (z :: l)) with (z :: <[i := y]> l).
    rewrite !filter_cons. destruct (decide (P z)); cbn [length]; lia.
Qed.

(** ** Sorting and deduplication *)

Lemma insert_by_key_perm {A} (key : A → Z) x l : insert_by_key key x l ≡ₚ x :: l.
Proof.
  induction l as [|y l IH]; cbn; [done|]. case_match; [done|].
  rewrite IH. by constructor.
Qed.

Lemma sort_by_key_perm {A} (key : A → Z) l : sort_by_key key l ≡ₚ l.
Proof.
  induction l as [|x l IH]; [done|]. unfold sort_by_key in *. cbn.
  by rewrite insert_by_key_perm, IH.
Qed.

Lemma insert_by_key_sorted {A} (key : A → Z) x l :
  StronglySorted (λ a b, key a ≤ key b) l →
  StronglySorted (λ a b, key a ≤ key b) (insert_by_key key x l).
Proof.
  induction 1 as [|y l Hl IH Hy]; cbn; [by repeat constructor|].
  destruct (Z.leb_spec (key x) (key y)).
  - constructor; [by constructor|]. constructor; [done|].
    eapply Forall_impl; [exact Hy|]. cbn. lia.
  - constructor; [done|]. rewrite insert_by_key_perm. constructor; [lia|done].
Qed.

Lemma sort_by_key_sorted {A} (key : A → Z) l :
  StronglySorted (λ a b, key a ≤ key b) (sort_by_key key l).
Proof.
  induction l as [|x l IH]; [constructor|]. unfold sort_by_key in *. cbn.
  by apply insert_by_key_sorted.
Qed.

Lemma sort_perm l : sort l ≡ₚ l.
Proof. apply sort_by_key_perm. Qed.

Lemma elem_of_sort l x : x ∈ sort l ↔ x ∈ l.
Proof. by rewrite sort_perm. Qed.

(** [windows(2).all(|w| w[0] <= w[1])] on a slice. *)
Fixpoint windows2_sorted (l : list Z) : bool :=
  match l with
  | x :: (y :: _) as l' => (x <=? y) && windows2_sorted l'
  | _ => true
  end.

Lemma windows2_sorted_spec l : windows2_sorted l = true ↔ Sorted Z.le l.
Proof.
  induction l as [|x [|y l] IH]; [split; by repeat constructor..|].
  change (windows2_sorted (x :: y :: l)) with ((x <=? y) && windows2_sorted (y :: l)).
  rewrite andb_true_iff, IH, Z.leb_le. split.
  - intros [??]. constructor; [done | by constructor].
  - intros H. inversion H as [|?? ? Hd]; subst. inversion Hd; subst. done.
Qed.

Lemma sort_windows2 l : windows2_sorted (sort l) = true.
Proof. apply windows2_sorted_spec, StronglySorted_Sorted, (sort_by_key_sorted id). Qed.

Lemma elem_of_push_new {A} `{EqDecision A} (ret : list A) x y :
  y ∈ push_new ret x ↔ y ∈ ret ∨ y = x.
Proof.
  unfold push_new. destruct (contains ret x) eqn:Hc.
  - apply contains_spec in Hc. naive_solver.
  - rewrite elem_of_app, list_elem_of_singleton. done.
Qed.

Lemma push_new_NoDup {A} `{EqDecision A} (ret : list A) x :
  NoDup ret → NoDup (push_new ret x).
Proof.
  intros H. unfold push_new. destruct (contains ret x) eqn:Hc; [done|].
  apply NoDup_app. split; [done|]. split; [|apply NoDup_singleton].
  intros y Hy ->%list_elem_of_singleton. apply contains_spec in Hy. congruence.
Qed.

Lemma elem_of_push_all_new {A} `{EqDecision A} (ret l : list A) y :
  y ∈ push_all_new ret l ↔ y ∈ ret ∨ y ∈ l.
Proof.
  unfold push_all_new. revert ret. induction l as [|x l IH]; intros ret; cbn.
  - rewrite elem_of_nil. naive_solver.
  - rewrite IH, elem_of_push_new, elem_of_cons. naive_solver.
Qed.

Lemma push_all_new_NoDup {A} `{EqDecision A} (ret l : list A) :
  NoDup ret → NoDup (push_all_new ret l).
Proof.
  unfold push_all_new. revert ret. induction l as [|x l IH]; intros ret; cbn; [done|].
  intros H. by apply IH, push_new_NoDup.
Qed.

(** ** Bytes *)

Lemma to_le_bytes_length n z : length (to_le_bytes n z) = n.
Proof. revert z. induction n; intros z; cbn; auto. Qed.

Lemma to_le_bytes_u8 n z : Forall is_u8 (to_le_bytes n z).
Proof.
  revert z. induction n; intros z; cbn; constructor; auto.
  unfold is_u8. apply Z.mod_pos_bound. lia.
Qed.

Lemma from_to_le_bytes n z : from_le_bytes (to_le_bytes n z) = z mod 256 ^ Z.of_nat n.
Proof.
  revert z. induction n as [|n IH]; intros z; cbn [to_le_bytes from_le_bytes].
  - by rewrite Z.mod_1_r.
  - rewrite IH, Nat2Z.inj_succ, Z.pow_succ_r by lia.
    rewrite Z.rem_mul_r by lia. lia.
Qed.

Lemma from_le_bytes_bound l :
  Forall is_u8 l → 0 ≤ from_le_bytes l < 256 ^ zlen l.
Proof.
  unfold zlen. induction 1 as [|b l Hb _ IH]; cbn [from_le_bytes length]; [lia|].
  rewrite Nat2Z.inj_succ, Z.pow_succ_r by lia. unfold is_u8 in Hb. lia.
Qed.

Lemma to_from_le_bytes l :
  Forall is_u8 l → to_le_bytes (length l) (from_le_bytes l) = l.
Proof.
  induction 1 as [|b l Hb Hl IH]; cbn [from_le_bytes length to_le_bytes]; [done|].
  unfold is_u8 in Hb. rewrite (Z.mul_comm 256).
  rewrite Z.mod_add, Z.mod_small by lia.
  rewrite Z.div_add, Z.div_small by lia. by rewrite Z.add_0_l, IH.
Qed.

Lemma from_le_bytes_u64 l : length l = 8%nat → Forall is_u8 l → is_u64 (from_le_bytes l).
Proof.
  intros Hl Hb%from_le_bytes_bound. unfold zlen in Hb. rewrite Hl in Hb. exact Hb.
Qed.

(** ** Pointwise loops *)

(** Loops that rewrite one list of the state entry by entry: [proj] is the
    list, [rest] what the loop leaves alone, [f] the change of an entry. *)
Lemma for_each_pointwise {S E X T} (proj : S → list X) (rest : S → T) (f : nat → X → X)
  (body : Z → M S E unit) l s0 s' :
  NoDup (Z.to_nat <$> l) →
  (∀ i s s1, i ∈ l → rest s = rest s0 → proj s !! Z.to_nat i = proj s0 !! Z.to_nat i →
     body i s = (Ok tt, s1) →
     rest s1 = rest s ∧ ∃ x, proj s !! Z.to_nat i = Some x ∧
       proj s1 = <[Z.to_nat i := f (Z.to_nat i) x]> (proj s)) →
  for_each l body s0 = (Ok tt, s') →
  rest s' = rest s0 ∧ length (proj s') = length (proj s0) ∧ ∀ k x, proj s0 !! k = Some x →
    proj s' !! k = Some (if decide (k ∈ Z.to_nat <$> l) then f k x else x).
Proof.
  intros Hnd Hb. revert s0 Hnd Hb. induction l as [|i l IH]; intros s0 Hnd Hb Hrun.
  { injection Hrun as <-. split; [done|]. split; [done|]. intros k x Hx.
    rewrite decide_False; [done|]. apply not_elem_of_nil. }
  apply NoDup_cons in Hnd as [Hi Hnd]. cbn in Hrun. apply Mbind_Ok in Hrun as ([] & s1 & H1 & Hrun).
  destruct (Hb i s0 s1 (list_elem_of_here _ _) eq_refl eq_refl H1) as (Hr1 & x0 & Hx0 & Hp1).
  assert (∀ k, k ≠ Z.to_nat i → proj s1 !! k = proj s0 !! k) as Hne.
  { intros k Hk. by rewrite Hp1, list_lookup_insert_ne. }
  destruct (IH s1 Hnd) as (Hr & Hl & Hk); [|done|].
  - intros j s s2 Hj Hrs Hps H2. apply (Hb j s s2); [by right|congruence| |done].
    rewrite Hps. apply Hne. intros Heq. apply Hi. rewrite <- Heq. by apply list_elem_of_fmap_2.
  - split; [congruence|]. split; [rewrite Hl, Hp1; apply length_insert|].
    intros k x Hx. destruct (decide (k = Z.to_nat i)) as [->|Hki].
    + rewrite Hx0 in Hx. injection Hx as ->.
      rewrite (Hk (Z.to_nat i) (f (Z.to_nat i) x)).
      * rewrite decide_False by done. by rewrite decide_True by (cbn; left).
      * rewrite Hp1. apply list_lookup_insert_eq. by eapply lookup_lt_Some.
    + rewrite (Hk k x) by (by rewrite Hne). f_equal. apply decide_ext. cbn.
      rewrite elem_of_cons. naive_solver.
Qed.

Lemma NoDup_to_nat_zrange n : NoDup (Z.to_nat <$> zrange 0 n).
Proof.
  apply NoDup_fmap_2_strong; [|apply NoDup_zrange].
  intros x y ?%elem_of_zrange ?%elem_of_zrange ?. lia.
Qed.

Lemma elem_of_to_nat_zrange k n : k ∈ Z.to_nat <$> zrange 0 n ↔ Z.of_nat k < n.
Proof.
  rewrite list_elem_of_fmap. split.
  - intros (y & -> & ?%elem_of_zrange). lia.
  - intros Hk. exists (Z.of_nat k). rewrite elem_of_zrange. lia.
Qed.

(** ** Tactics *)

(** Invert [.. = Ok r] through binds, conditionals and thrown errors. *)
Ltac res_inv :=
  repeat match goal with
  | H : Ok _ = Ok _ |- _ => injection H as H; try subst
  | H : Err _ = Ok _ |- _ => discriminate H
  | H : Panic = Ok _ |- _ => discriminate H
  | H : OutOfFuel = Ok _ |- _ => discriminate H
  | H : mret _ = Ok _ |- _ => injection H as H; try subst
  | H : (_ ≫= _) = Ok _ |- _ =>
      apply bind_Ok in H; let a := fresh "a" in let Ha := fresh "Ha" in
      destruct H as (a & Ha & H)
  | H : (if ?b then _ else _) = Ok _ |- _ => destruct b eqn:?
  | H : match ?b with Some _ => _ | None => _ end = Ok _ |- _ => destruct b eqn:?
  end.

(** The same for runs of stateful code that end in [Ok]. *)
Ltac run_inv :=
  repeat match goal with
  | H : (Ok _, _) = (Ok _, _) |- _ => injection H as H; try subst
  | H : (Err _, _) = (Ok _, _) |- _ => discriminate H
  | H : (Panic, _) = (Ok _, _) |- _ => discriminate H
  | H : (OutOfFuel, _) = (Ok _, _) |- _ => discriminate H
  | H : mret _ _ = (Ok _, _) |- _ => injection H as H; try subst
  | H : throw _ _ = (Ok _, _) |- _ => discriminate H
  | H : put _ _ = (Ok _, _) |- _ => injection H as H; try subst
  | H : (get ≫= _) _ = (Ok _, _) |- _ => rewrite Mbind_get in H
  | H : (put _ ≫= _) _ = (Ok _, _) |- _ => rewrite Mbind_put in H
  | H : (lift _ ≫= _) _ = (Ok _, _) |- _ =>
      apply Mbind_lift in H; let a := fresh "a" in let Ha := fresh "Ha" in
      destruct H as (a & Ha & H)
  | H : (require _ _ ≫= _) _ = (Ok _, _) |- _ =>
      apply Mbind_require in H; let Ha := fresh "Ha" in destruct H as [Ha H]
  | H : require _ _ _ = (Ok _, _) |- _ =>
      apply require_Ok in H; let Ha := fresh "Ha" in destruct H as [Ha H]; try subst
  | H : (_ ≫= _) _ = (Ok _, _) |- _ =>
      apply Mbind_Ok in H; let a := fresh "a" in let t := fresh "t" in
      let Ha := fresh "Ha" in destruct H as (a & t & Ha & H)
  | H : (if ?b then _ else _) _ = (Ok _, _) |- _ => destruct b eqn:?
  end.

(** Push a [steps]-style goal through the body of a command, one statement at
    a time; calls of other commands are left as goals. *)
Ltac step_one :=
  match goal with
  | |- steps _ _ => intros ?
  | |- ?R ?s ((get ≫= _) ?s).2 => rewrite Mbind_get
  | |- ?R ?s (((lift _) ≫= _) ?s).2 => apply step_lift; [apply _|intros ? ?]
  | |- ?R ?s ((put _ ≫= _) ?s).2 => apply step_put; [apply _| | ]
  | |- ?R ?s ((require _ _ ≫= _) ?s).2 => apply step_require; [apply _|intros ?]
  | |- ?R ?s ((require _ _) ?s).2 => apply steps_require; apply _
  | |- ?R ?s ((_ ≫= _) ?s).2 => apply step_call; [apply _| |intros ? ? ?]
  | |- ?R ?s ((put ?t) ?s).2 => change (R s t)
  | |- ?R ?s ((mret _) ?s).2 => apply steps_ret; apply _
  | |- ?R ?s ((throw _) ?s).2 => apply steps_throw; apply _
  | |- ?R ?s ((lift _) ?s).2 => apply steps_lift; apply _
  | |- ?R ?s ((for_each _ _) ?s).2 => apply steps_for_each_in; [apply _|intros ? ?]
  | |- ?R ?s ((if ?b then _ else _) ?s).2 => destruct b eqn:?
  | |- ?R ?s ((let x := _ in _) ?s).2 => cbv zeta
  end.

Ltac step_tac := repeat step_one.

(** Bring the range facts of the hypotheses to [lia]. *)
Ltac u64_lia := unfold is_u64, u64_max, zlen in *; lia.
