(* ===== verification/Config.v ===== *)
(** * Primitives, constants, errors and the configuration traits

    [primitives/src/lib.rs], [beacon/src/consts.rs], [beacon/src/error.rs] and
    [beacon/src/config.rs].  A configuration is an instance of the class
    [Config]; its hash function is the [Digest] parameter, the SHA-256 of an
    external crate in all three configurations of the repository.  A signature
    scheme is an instance of [BLSConfig]. *)
From stdpp Require Import base numbers list.
From Stdlib Require Import ZArith Lia.
From S2P Require Import Prelude.

#[local] Open Scope Z_scope.

(** ** Primitives *)

(** Fixed-size hashes are byte lists; their lengths are part of the
    well-formedness of the values that hold them.  Integers are [Z] with the
    range predicate [is_u64]. *)
Notation Bytes := (list Z) (only parsing).
Notation H256 := (list Z) (only parsing).
Notation H384 := (list Z) (only parsing).
Notation H768 := (list Z) (only parsing).
Notation H32 := (list Z) (only parsing).
Notation ValidatorId := (list Z) (only parsing).
Notation Signature := (list Z) (only parsing).
Notation Version := (list Z) (only parsing).
Notation Uint := Z (only parsing).
Notation Epoch := Z (only parsing).
Notation Slot := Z (only parsing).
Notation ValidatorIndex := Z (only parsing).
Notation Gwei := Z (only parsing).

Definition bytes_of_len (n : nat) (b : Bytes) : Prop := length b = n ∧ Forall is_u8 b.

(** [H256::default()] and its siblings *)
Definition H256_default : H256 := replicate 32 0.
Definition H384_default : H384 := replicate 48 0.
Definition H768_default : H768 := replicate 96 0.
Definition H32_default : H32 := replicate 4 0.

(** Equality of hashes, as a test. *)
Definition bytes_eqb (a b : Bytes) : bool := bool_decide (a = b).

(** [a ^ b] on hashes of the same size *)
Definition H256_xor (a b : H256) : H256 := zip_with Z.lxor a b.

(** ** Constants *)
Definition FAR_FUTURE_EPOCH : Uint := u64_max.
Definition BASE_REWARDS_PER_EPOCH : Uint := 4.
Definition DEPOSIT_CONTRACT_TREE_DEPTH : Uint := 32.
Definition SECONDS_PER_DAY : Uint := 86400.
Definition JustificationBitsLength : nat := 4.

(** ** Errors *)
Inductive Error : Type :=
  | DepositIndexMismatch
  | DepositMerkleInvalid
  | DepositProofInvalid
  | DepositWithdrawalCredentialsMismatch
  | DuplicateIndexes
  | DuplicateTransfer
  | IndexOutOfRange
  | EpochOutOfRange
  | SlotOutOfRange
  | AttestationShardInvalid
  | AttestationBitFieldInvalid
  | ValidatorNotWithdrawable
  | ValidatorAttestationNotFound
  | BlockStateRootInvalid
  | BlockSlotInvalid
  | BlockProposerSlashed
  | BlockPreviousRootInvalid
  | BlockSignatureInvalid
  | RandaoSignatureInvalid
  | ProposerSlashingInvalidProposerIndex
  | ProposerSlashingInvalidSlot
  | ProposerSlashingSameHeader
  | ProposerSlashingAlreadySlashed
  | ProposerSlashingInvalidSignature
  | AttesterSlashingSameAttestation
  | AttesterSlashingNotSlashable
  | AttesterSlashingInvalid
  | AttesterSlashingEmptyIndices
  | AttestationTooFarInHistory
  | AttestationSubmittedTooQuickly
  | AttestationIncorrectJustifiedEpochOrBlockRoot
  | AttestationIncorrectCrosslinkData
  | AttestationEmptyAggregation
  | AttestationEmptyCustody
  | AttestationInvalidData
  | AttestationInvalidShard
  | AttestationInvalidCustody
  | AttestationInvalidSignature
  | AttestationInvalidCrosslink
  | VoluntaryExitAlreadyExited
  | VoluntaryExitAlreadyInitiated
  | VoluntaryExitNotYetValid
  | VoluntaryExitNotLongEnough
  | VoluntaryExitInvalidSignature
  | TransferNoFund
  | TransferNotValidSlot
  | TransferNotWithdrawable
  | TransferInvalidPublicKey
  | TransferInvalidSignature
  | TooManyProposerSlashings
  | TooManyAttesterSlashings
  | TooManyAttestations
  | TooManyDeposits
  | TooManyVoluntaryExits
  | TooManyTransfers
  | InvalidEth1Data.

#[global] Instance Error_eq_dec : EqDecision Error.
Proof. solve_decision. Defined.

(** ** BLS operations *)
Class BLSConfig := {
  verify : ValidatorId → H256 → Signature → Z → bool;
  aggregate_pubkeys : list ValidatorId → ValidatorId;
  aggregate_signatures : list Signature → Signature;
  verify_multiple : list ValidatorId → list H256 → Signature → Z → bool;
}.

Definition BLSNoVerification : BLSConfig := {|
  verify := λ _ _ _ _, true;
  aggregate_pubkeys := λ _, H384_default;
  aggregate_signatures := λ _, H768_default;
  verify_multiple := λ _ _ _ _, true;
|}.

(** ** Configuration *)
Class Config := {
  (** Digest hash function. *)
  Digest : Bytes → H256;
  (** Array and list sizes, type-level naturals in the source. *)
  MaxValidatorsPerCommittee : Uint;
  SlotsPerHistoricalRoot : Uint;
  MaxProposerSlashings : Uint;
  MaxAttesterSlashings : Uint;
  MaxAttestations : Uint;
  MaxDeposits : Uint;
  MaxVoluntaryExits : Uint;
  HistoricalRootsLimit : Uint;
  ShardCount : Uint;
  SlotsPerEpoch : Uint;
  SlotsPerEth1VotingPeriod : Uint;
  ValidatorRegistryLimit : Uint;
  EpochsPerHistoricalVector : Uint;
  EpochsPerSlashingsVector : Uint;
  MaxAttestationsPerEpoch : Uint;
  (** Constants without a default. *)
  max_committees_per_slot : Uint;
  target_committee_size : Uint;
  min_per_epoch_churn_limit : Uint;
  churn_limit_quotient : Uint;
  shuffle_round_count : Uint;
  min_genesis_active_validator_count : Uint;
  min_genesis_time : Uint;
  min_deposit_amount : Uint;
  max_effective_balance : Uint;
  ejection_balance : Uint;
  effective_balance_increment : Uint;
  genesis_slot : Uint;
  genesis_epoch : Uint;
  bls_withdrawal_prefix_byte : Uint;
  min_attestation_inclusion_delay : Uint;
  min_seed_lookahead : Uint;
  max_seed_lookahead : Uint;
  min_validator_withdrawability_delay : Uint;
  persistent_committee_period : Uint;
  max_epochs_per_crosslink : Uint;
  min_epochs_to_inactivity_penalty : Uint;
  base_reward_factor : Uint;
  whistleblower_reward_quotient : Uint;
  proposer_reward_quotient : Uint;
  inactivity_penalty_quotient : Uint;
  min_slashing_penalty_quotient : Uint;
}.

(** Trait methods with a default body. *)
Section Defaults.
Context `{Config}.

Definition max_validators_per_committee : Uint := MaxValidatorsPerCommittee.
Definition slots_per_epoch : Uint := SlotsPerEpoch.
Definition slots_per_eth1_voting_period : Uint := SlotsPerEth1VotingPeriod.
Definition slots_per_historical_root : Uint := SlotsPerHistoricalRoot.
Definition epochs_per_historical_vector : Uint := EpochsPerHistoricalVector.
Definition epochs_per_slashings_vector : Uint := EpochsPerSlashingsVector.
Definition historical_roots_limit : Uint := HistoricalRootsLimit.
Definition validator_registry_limit : Uint := ValidatorRegistryLimit.
Definition max_proposer_slashings : Uint := MaxProposerSlashings.
Definition max_attester_slashings : Uint := MaxAttesterSlashings.
Definition max_attestations : Uint := MaxAttestations.
Definition max_deposits : Uint := MaxDeposits.
Definition max_voluntary_exits : Uint := MaxVoluntaryExits.
Definition domain_beacon_proposer : Uint := 0.
Definition domain_beacon_attester : Uint := 1.
Definition domain_randao : Uint := 2.
Definition domain_deposit : Uint := 3.
Definition domain_voluntary_exit : Uint := 4.

(** The digest is fed the inputs one after the other. *)
Definition hash (inputs : list Bytes) : H256 := Digest (concat inputs).
End Defaults.

Definition MinimalConfig (sha256 : Bytes → H256) : Config := {|
  Digest := sha256;
  MaxValidatorsPerCommittee := 2048;
  SlotsPerHistoricalRoot := 64;
  MaxProposerSlashings := 16;
  MaxAttesterSlashings := 1;
  MaxAttestations := 128;
  MaxDeposits := 16;
  MaxVoluntaryExits := 16;
  HistoricalRootsLimit := 16777216;
  ShardCount := 8;
  SlotsPerEpoch := 8;
  SlotsPerEth1VotingPeriod := 16;
  ValidatorRegistryLimit := 1099511627776;
  EpochsPerHistoricalVector := 64;
  EpochsPerSlashingsVector := 64;
  MaxAttestationsPerEpoch := 128 * 8;
  max_committees_per_slot := 4;
  target_committee_size := 4;
  min_per_epoch_churn_limit := 4;
  churn_limit_quotient := 65536;
  shuffle_round_count := 10;
  min_genesis_active_validator_count := 64;
  min_genesis_time := 1578009600;
  min_deposit_amount := 1000000000;
  max_effective_balance := 32000000000;
  ejection_balance := 16000000000;
  effective_balance_increment := 1000000000;
  genesis_slot := 0;
  genesis_epoch := 0;
  bls_withdrawal_prefix_byte := 0;
  min_attestation_inclusion_delay := 1;
  min_seed_lookahead := 1;
  max_seed_lookahead := 4;
  min_validator_withdrawability_delay := 256;
  persistent_committee_period := 2048;
  max_epochs_per_crosslink := 4;
  min_epochs_to_inactivity_penalty := 4;
  base_reward_factor := 64;
  whistleblower_reward_quotient := 512;
  proposer_reward_quotient := 8;
  inactivity_penalty_quotient := 33554432;
  min_slashing_penalty_quotient := 32;
|}.

Definition MainnetConfig (sha256 : Bytes → H256) : Config := {|
  Digest := sha256;
  MaxValidatorsPerCommittee := 2048;
  SlotsPerHistoricalRoot := 8192;
  MaxProposerSlashings := 16;
  MaxAttesterSlashings := 1;
  MaxAttestations := 128;
  MaxDeposits := 16;
  MaxVoluntaryExits := 16;
  HistoricalRootsLimit := 16777216;
  ShardCount := 1024;
  SlotsPerEpoch := 32;
  SlotsPerEth1VotingPeriod := 1024;
  ValidatorRegistryLimit := 1099511627776;
  EpochsPerHistoricalVector := 65536;
  EpochsPerSlashingsVector := 8192;
  MaxAttestationsPerEpoch := 128 * 32;
  max_committees_per_slot := 64;
  target_committee_size := 128;
  min_per_epoch_churn_limit := 4;
  churn_limit_quotient := 65536;
  shuffle_round_count := 90;
  min_genesis_active_validator_count := 65536;
  min_genesis_time := 1578009600;
  min_deposit_amount := 1000000000;
  max_effective_balance := 32000000000;
  ejection_balance := 16000000000;
  effective_balance_increment := 1000000000;
  genesis_slot := 0;
  genesis_epoch := 0;
  bls_withdrawal_prefix_byte := 0;
  min_attestation_inclusion_delay := 1;
  min_seed_lookahead := 1;
  max_seed_lookahead := 4;
  min_validator_withdrawability_delay := 256;
  persistent_committee_period := 2048;
  max_epochs_per_crosslink := 64;
  min_epochs_to_inactivity_penalty := 4;
  base_reward_factor := 64;
  whistleblower_reward_quotient := 512;
  proposer_reward_quotient := 8;
  inactivity_penalty_quotient := 33554432;
  min_slashing_penalty_quotient := 32;
|}.

Definition SapphireConfig (sha256 : Bytes → H256) : Config := {|
  Digest := sha256;
  MaxValidatorsPerCommittee := 2048;
  SlotsPerHistoricalRoot := 64;
  MaxProposerSlashings := 16;
  MaxAttesterSlashings := 1;
  MaxAttestations := 128;
  MaxDeposits := 16;
  MaxVoluntaryExits := 16;
  HistoricalRootsLimit := 16777216;
  ShardCount := 8;
  SlotsPerEpoch := 8;
  SlotsPerEth1VotingPeriod := 16;
  ValidatorRegistryLimit := 1099511627776;
  EpochsPerHistoricalVector := 64;
  EpochsPerSlashingsVector := 64;
  MaxAttestationsPerEpoch := 128 * 8;
  max_committees_per_slot := 4;
  target_committee_size := 4;
  min_per_epoch_churn_limit := 4;
  churn_limit_quotient := 65536;
  shuffle_round_count := 10;
  min_genesis_active_validator_count := 64;
  min_genesis_time := 1578009600;
  min_deposit_amount := 100;
  max_effective_balance := 3200000000;
  ejection_balance := 3000000000;
  effective_balance_increment := 1000000000;
  genesis_slot := 0;
  genesis_epoch := 0;
  bls_withdrawal_prefix_byte := 0;
  min_attestation_inclusion_delay := 1;
  min_seed_lookahead := 1;
  max_seed_lookahead := 4;
  min_validator_withdrawability_delay := 256;
  persistent_committee_period := 2048;
  max_epochs_per_crosslink := 4;
  min_epochs_to_inactivity_penalty := 4;
  base_reward_factor := 64;
  whistleblower_reward_quotient := 512;
  proposer_reward_quotient := 8;
  inactivity_penalty_quotient := 33554432;
  min_slashing_penalty_quotient := 32;
|}.

(** ** What the state transition relies on

    The laws a configuration has to satisfy; each is used by some theorem, and
    the three configurations of the repository satisfy all of them as soon as
    the hash function returns 32 bytes. *)
Class ConfigOk (C : Config) : Prop := {
  digest_len : ∀ b, bytes_of_len 32 (Digest b);
  slots_per_epoch_pos : 0 < SlotsPerEpoch ≤ 2 ^ 13;
  historical_root_pos : 0 < SlotsPerHistoricalRoot ≤ 2 ^ 20;
  historical_root_epochs : SlotsPerEpoch ≤ SlotsPerHistoricalRoot;
  eth1_period_pos : 0 < SlotsPerEth1VotingPeriod ≤ 2 ^ 20;
  historical_vector_pos : 0 < EpochsPerHistoricalVector ≤ 2 ^ 20;
  slashings_vector_pos : 0 < EpochsPerSlashingsVector ≤ 2 ^ 20;
  seed_lookahead_lt : 0 ≤ min_seed_lookahead < EpochsPerHistoricalVector - 1;
  max_lookahead_small : 0 ≤ max_seed_lookahead ≤ 2 ^ 20;
  committees_pos : 0 < max_committees_per_slot ≤ 2 ^ 10;
  committee_size_pos : 0 < target_committee_size;
  churn_pos : 0 < min_per_epoch_churn_limit ≤ 2 ^ 20;
  churn_quotient_pos : 0 < churn_limit_quotient;
  round_count_small : 0 ≤ shuffle_round_count ≤ 256;
  increment_pos : 0 < effective_balance_increment ≤ max_effective_balance;
  max_effective_small : max_effective_balance ≤ 2 ^ 40;
  withdrawability_small : 0 ≤ min_validator_withdrawability_delay ≤ 2 ^ 20;
  base_factor_small : 0 ≤ base_reward_factor ≤ 2 ^ 10;
  proposer_quotient_pos : 0 < proposer_reward_quotient;
  whistleblower_quotient_pos : 0 < whistleblower_reward_quotient;
  inactivity_quotient_pos : 0 < inactivity_penalty_quotient;
  slashing_quotient_pos : 0 < min_slashing_penalty_quotient;
  persistent_small : 0 ≤ persistent_committee_period ≤ 2 ^ 20;
  genesis_epoch_zero : genesis_epoch = 0;
  limits_nonneg : 0 ≤ max_proposer_slashings ∧ 0 ≤ max_attester_slashings ∧ 0 ≤ max_attestations ∧
                  0 ≤ max_deposits ∧ 0 ≤ max_voluntary_exits;
}.

Section Instances.
Context (sha256 : Bytes → H256) (Hsha : ∀ b, bytes_of_len 32 (sha256 b)).

Lemma MinimalConfig_ok : ConfigOk (MinimalConfig sha256).
Proof using Hsha. split; cbn; unfold is_u64; try lia. exact Hsha. Qed.

Lemma MainnetConfig_ok : ConfigOk (MainnetConfig sha256).
Proof using Hsha. split; cbn; unfold is_u64; try lia. exact Hsha. Qed.

Lemma SapphireConfig_ok : ConfigOk (SapphireConfig sha256).
Proof using Hsha. split; cbn; unfold is_u64; try lia. exact Hsha. Qed.
End Instances.

(** A 32-byte digest for the concrete runs of the witnesses: the input folded
    into one byte, repeated. *)
Definition toy_digest (b : Bytes) : H256 :=
  replicate 32 (foldl (λ acc x, (31 * acc + x + 7) mod 256) 5 b).

Lemma toy_digest_len b : bytes_of_len 32 (toy_digest b).
Proof.
  unfold toy_digest. split; [done|]. apply Forall_replicate.
  assert (∀ l acc, is_u8 acc → is_u8 (foldl (λ acc x, (31 * acc + x + 7) mod 256) acc l)) as H.
  { induction l as [|x l IH]; cbn; [done|]. intros acc _. apply IH.
    unfold is_u8. apply Z.mod_pos_bound. lia. }
  apply H. done.
Qed.

Definition toy_config : Config := MinimalConfig toy_digest.

Lemma toy_config_ok : ConfigOk toy_config.
Proof. apply MinimalConfig_ok, toy_digest_len. Qed.

(** Overflow checks on, as in a debug build. *)
Definition toy_mode : ArithMode := true.
