(* ===== verification/Types.v ===== *)
(** * Data types of the beacon chain

    [beacon/src/types/misc.rs], [operation.rs] and [block.rs]: one record per
    struct, the fields in the order of the source behind a prefix of the
    struct's own; the trait [Block] as a class; the conversions ([From] impls)
    as functions.  [MaxVec] and [VecArray] are lists. *)
From stdpp Require Import base numbers list.
From Stdlib Require Import ZArith Lia.
From S2P Require Import Prelude Config.

#[local] Open Scope Z_scope.

(** Fork information. *)
Record Fork := mkFork {
  fork_previous_version : Version;
  fork_current_version : Version;
  fork_epoch : Uint;
}.

#[global] Instance Fork_eq_dec : EqDecision Fork.
Proof. solve_decision. Defined.

(** Checkpoint *)
Record Checkpoint := mkCheckpoint {
  cp_epoch : Uint;
  cp_root : H256;
}.

#[global] Instance Checkpoint_eq_dec : EqDecision Checkpoint.
Proof. solve_decision. Defined.

(** Validator record. *)
Record Validator := mkValidator {
  v_pubkey : ValidatorId;
  v_withdrawal_credentials : H256;
  v_effective_balance : Uint;
  v_slashed : bool;
  v_activation_eligibility_epoch : Uint;
  v_activation_epoch : Uint;
  v_exit_epoch : Uint;
  v_withdrawable_epoch : Uint;
}.

#[global] Instance Validator_eq_dec : EqDecision Validator.
Proof. solve_decision. Defined.

(** Attestation data. *)
Record AttestationData := mkAttestationData {
  ad_slot : Uint;
  ad_index : Uint;
  ad_beacon_block_root : H256;
  ad_source : Checkpoint;
  ad_target : Checkpoint;
}.

#[global] Instance AttestationData_eq_dec : EqDecision AttestationData.
Proof. solve_decision. Defined.

(** Attestation data with custody bit. *)
Record AttestationDataAndCustodyBit := mkAttestationDataAndCustodyBit {
  adc_data : AttestationData;
  adc_custody_bit : bool;
}.

#[global] Instance AttestationDataAndCustodyBit_eq_dec : EqDecision AttestationDataAndCustodyBit.
Proof. solve_decision. Defined.

(** Indexed attestation. *)
Record IndexedAttestation := mkIndexedAttestation {
  ia_custody_bit_0_indices : list Uint;
  ia_custody_bit_1_indices : list Uint;
  ia_data : AttestationData;
  ia_signature : Signature;
}.

#[global] Instance IndexedAttestation_eq_dec : EqDecision IndexedAttestation.
Proof. solve_decision. Defined.

(** Signing indexed attestation. *)
Record SigningIndexedAttestation := mkSigningIndexedAttestation {
  sia_custody_bit_0_indices : list Uint;
  sia_custody_bit_1_indices : list Uint;
  sia_data : AttestationData;
}.

#[global] Instance SigningIndexedAttestation_eq_dec : EqDecision SigningIndexedAttestation.
Proof. solve_decision. Defined.

(** Pending attestation. *)
Record PendingAttestation := mkPendingAttestation {
  pa_aggregation_bits : list bool;
  pa_data : AttestationData;
  pa_inclusion_delay : Uint;
  pa_proposer_index : Uint;
}.

#[global] Instance PendingAttestation_eq_dec : EqDecision PendingAttestation.
Proof. solve_decision. Defined.

(** Eth1 data. *)
Record Eth1Data := mkEth1Data {
  e1_deposit_root : H256;
  e1_deposit_count : Uint;
  e1_block_hash : H256;
}.

#[global] Instance Eth1Data_eq_dec : EqDecision Eth1Data.
Proof. solve_decision. Defined.

(** Historical batch information. *)
Record HistoricalBatch := mkHistoricalBatch {
  hb_block_roots : list H256;
  hb_state_roots : list H256;
}.

#[global] Instance HistoricalBatch_eq_dec : EqDecision HistoricalBatch.
Proof. solve_decision. Defined.

(** Deposit data. *)
Record DepositData := mkDepositData {
  dd_pubkey : ValidatorId;
  dd_withdrawal_credentials : H256;
  dd_amount : Uint;
  dd_signature : Signature;
}.

#[global] Instance DepositData_eq_dec : EqDecision DepositData.
Proof. solve_decision. Defined.

(** Deposit data without the signature. *)
Record SigningDepositData := mkSigningDepositData {
  sdd_pubkey : ValidatorId;
  sdd_withdrawal_credentials : H256;
  sdd_amount : Uint;
}.

#[global] Instance SigningDepositData_eq_dec : EqDecision SigningDepositData.
Proof. solve_decision. Defined.

(** Beacon block header. *)
Record BeaconBlockHeader := mkBeaconBlockHeader {
  bh_slot : Uint;
  bh_parent_root : H256;
  bh_state_root : H256;
  bh_body_root : H256;
  bh_signature : Signature;
}.

#[global] Instance BeaconBlockHeader_eq_dec : EqDecision BeaconBlockHeader.
Proof. solve_decision. Defined.

(** Beacon block header without the signature. *)
Record SigningBeaconBlockHeader := mkSigningBeaconBlockHeader {
  sbh_slot : Uint;
  sbh_parent_root : H256;
  sbh_state_root : H256;
  sbh_body_root : H256;
}.

#[global] Instance SigningBeaconBlockHeader_eq_dec : EqDecision SigningBeaconBlockHeader.
Proof. solve_decision. Defined.

(** Block proposer slashing. *)
Record ProposerSlashing := mkProposerSlashing {
  ps_proposer_index : Uint;
  ps_header_1 : BeaconBlockHeader;
  ps_header_2 : BeaconBlockHeader;
}.

#[global] Instance ProposerSlashing_eq_dec : EqDecision ProposerSlashing.
Proof. solve_decision. Defined.

(** Block attester slashing. *)
Record AttesterSlashing := mkAttesterSlashing {
  as_attestation_1 : IndexedAttestation;
  as_attestation_2 : IndexedAttestation;
}.

#[global] Instance AttesterSlashing_eq_dec : EqDecision AttesterSlashing.
Proof. solve_decision. Defined.

(** Attestation. *)
Record Attestation := mkAttestation {
  at_aggregation_bits : list bool;
  at_data : AttestationData;
  at_custody_bits : list bool;
  at_signature : Signature;
}.

#[global] Instance Attestation_eq_dec : EqDecision Attestation.
Proof. solve_decision. Defined.

(** Unsealed attestation. *)
Record SigningAttestation := mkSigningAttestation {
  sat_aggregation_bits : list bool;
  sat_data : AttestationData;
  sat_custody_bits : list bool;
}.

#[global] Instance SigningAttestation_eq_dec : EqDecision SigningAttestation.
Proof. solve_decision. Defined.

(** Block deposit. *)
Record Deposit := mkDeposit {
  dep_proof : list H256;
  dep_data : DepositData;
}.

#[global] Instance Deposit_eq_dec : EqDecision Deposit.
Proof. solve_decision. Defined.

(** Block voluntary exit. *)
Record VoluntaryExit := mkVoluntaryExit {
  ve_epoch : Uint;
  ve_validator_index : Uint;
  ve_signature : Signature;
}.

#[global] Instance VoluntaryExit_eq_dec : EqDecision VoluntaryExit.
Proof. solve_decision. Defined.

(** Unsealed voluntary exit transaction. *)
Record SigningVoluntaryExit := mkSigningVoluntaryExit {
  sve_epoch : Uint;
  sve_validator_index : Uint;
}.

#[global] Instance SigningVoluntaryExit_eq_dec : EqDecision SigningVoluntaryExit.
Proof. solve_decision. Defined.

(** Beacon block body. *)
Record BeaconBlockBody := mkBeaconBlockBody {
  body_randao_reveal : H768;
  body_eth1_data : Eth1Data;
  body_graffiti : H256;
  body_proposer_slashings : list ProposerSlashing;
  body_attester_slashings : list AttesterSlashing;
  body_attestations : list Attestation;
  body_deposits : list Deposit;
  body_voluntary_exits : list VoluntaryExit;
}.

#[global] Instance BeaconBlockBody_eq_dec : EqDecision BeaconBlockBody.
Proof. solve_decision. Defined.

(** Beacon block. *)
Record BeaconBlock := mkBeaconBlock {
  blk_slot : Uint;
  blk_parent_root : H256;
  blk_state_root : H256;
  blk_body : BeaconBlockBody;
  blk_signature : Signature;
}.

#[global] Instance BeaconBlock_eq_dec : EqDecision BeaconBlock.
Proof. solve_decision. Defined.

(** Unsealed Beacon block. *)
Record UnsealedBeaconBlock := mkUnsealedBeaconBlock {
  ub_slot : Uint;
  ub_parent_root : H256;
  ub_state_root : H256;
  ub_body : BeaconBlockBody;
}.

#[global] Instance UnsealedBeaconBlock_eq_dec : EqDecision UnsealedBeaconBlock.
Proof. solve_decision. Defined.

(** ** Methods *)

(** [Validator::is_active] *)
Definition is_active (v : Validator) (epoch : Uint) : bool :=
  (v_activation_epoch v <=? epoch) && (epoch <? v_exit_epoch v).

(** [Validator::is_slashable] *)
Definition is_slashable (v : Validator) (epoch : Uint) : bool :=
  Bool.eqb (v_slashed v) false &&
  (v_activation_epoch v <=? epoch) && (epoch <? v_withdrawable_epoch v).

(** [<Validator as ValidatorT>::is_eligible] *)
Definition is_eligible `{ArithMode} {E} (v : Validator) (checkpoint : Checkpoint) : res E bool :=
  if is_active v (cp_epoch checkpoint) then Ok true
  else if v_slashed v then
    e ← u64_add (cp_epoch checkpoint) 1;
    Ok (e <? v_withdrawable_epoch v)
  else Ok false.

(** [AttestationData::is_slashable] *)
Definition is_slashable_data (self other : AttestationData) : bool :=
  (bool_decide (self ≠ other) &&
   (cp_epoch (ad_target self) =? cp_epoch (ad_target other))) ||
  ((cp_epoch (ad_source self) <? cp_epoch (ad_source other)) &&
   (cp_epoch (ad_target other) <? cp_epoch (ad_target self))).

(** ** Conversions *)
Definition signing_indexed_attestation (indexed : IndexedAttestation) : SigningIndexedAttestation := {|
  sia_custody_bit_0_indices := ia_custody_bit_0_indices indexed;
  sia_custody_bit_1_indices := ia_custody_bit_1_indices indexed;
  sia_data := ia_data indexed;
|}.

Definition signing_deposit_data (data : DepositData) : SigningDepositData := {|
  sdd_pubkey := dd_pubkey data;
  sdd_withdrawal_credentials := dd_withdrawal_credentials data;
  sdd_amount := dd_amount data;
|}.

Definition signing_header (header : BeaconBlockHeader) : SigningBeaconBlockHeader := {|
  sbh_slot := bh_slot header;
  sbh_parent_root := bh_parent_root header;
  sbh_state_root := bh_state_root header;
  sbh_body_root := bh_body_root header;
|}.

Definition signing_attestation (a : Attestation) : SigningAttestation := {|
  sat_aggregation_bits := at_aggregation_bits a;
  sat_data := at_data a;
  sat_custody_bits := at_custody_bits a;
|}.

Definition signing_voluntary_exit (v : VoluntaryExit) : SigningVoluntaryExit := {|
  sve_epoch := ve_epoch v;
  sve_validator_index := ve_validator_index v;
|}.

(** ** Sealed and unsealed blocks *)
Class Block (B : Type) := {
  block_slot : B → Uint;
  block_parent_root : B → H256;
  block_state_root : B → H256;
  block_body : B → BeaconBlockBody;
  block_signature : B → option Signature;
}.

#[global] Instance BeaconBlock_Block : Block BeaconBlock := {|
  block_slot := blk_slot;
  block_parent_root := blk_parent_root;
  block_state_root := blk_state_root;
  block_body := blk_body;
  block_signature := λ b, Some (blk_signature b);
|}.

#[global] Instance UnsealedBeaconBlock_Block : Block UnsealedBeaconBlock := {|
  block_slot := ub_slot;
  block_parent_root := ub_parent_root;
  block_state_root := ub_state_root;
  block_body := ub_body;
  block_signature := λ _, None;
|}.

(** [UnsealedBeaconBlock::from(&block)] *)
Definition unsealed_from {B} `{Block B} (t : B) : UnsealedBeaconBlock := {|
  ub_slot := block_slot t;
  ub_parent_root := block_parent_root t;
  ub_state_root := block_state_root t;
  ub_body := block_body t;
|}.

(** [UnsealedBeaconBlock::fake_seal] *)
Definition fake_seal (self : UnsealedBeaconBlock) : BeaconBlock := {|
  blk_slot := ub_slot self;
  blk_parent_root := ub_parent_root self;
  blk_state_root := ub_state_root self;
  blk_body := ub_body self;
  blk_signature := H768_default;
|}.

(** ** Default values *)
Definition Fork_default : Fork := mkFork H32_default H32_default 0.
Definition Checkpoint_default : Checkpoint := mkCheckpoint 0 H256_default.
Definition Eth1Data_default : Eth1Data := mkEth1Data H256_default 0 H256_default.
Definition BeaconBlockHeader_default : BeaconBlockHeader :=
  mkBeaconBlockHeader 0 H256_default H256_default H256_default H768_default.
Definition BeaconBlockBody_default : BeaconBlockBody :=
  mkBeaconBlockBody H768_default Eth1Data_default H256_default [] [] [] [] [].
Definition BeaconBlock_default : BeaconBlock :=
  mkBeaconBlock 0 H256_default H256_default BeaconBlockBody_default H768_default.

(** ** Field updates *)

Definition with_v_effective_balance (x : Uint) (r : Validator) : Validator := {|
  v_pubkey := v_pubkey r;
  v_withdrawal_credentials := v_withdrawal_credentials r;
  v_effective_balance := x;
  v_slashed := v_slashed r;
  v_activation_eligibility_epoch := v_activation_eligibility_epoch r;
  v_activation_epoch := v_activation_epoch r;
  v_exit_epoch := v_exit_epoch r;
  v_withdrawable_epoch := v_withdrawable_epoch r;
|}.

Definition with_v_slashed (x : bool) (r : Validator) : Validator := {|
  v_pubkey := v_pubkey r;
  v_withdrawal_credentials := v_withdrawal_credentials r;
  v_effective_balance := v_effective_balance r;
  v_slashed := x;
  v_activation_eligibility_epoch := v_activation_eligibility_epoch r;
  v_activation_epoch := v_activation_epoch r;
  v_exit_epoch := v_exit_epoch r;
  v_withdrawable_epoch := v_withdrawable_epoch r;
|}.

Definition with_v_activation_eligibility_epoch (x : Uint) (r : Validator) : Validator := {|
  v_pubkey := v_pubkey r;
  v_withdrawal_credentials := v_withdrawal_credentials r;
  v_effective_balance := v_effective_balance r;
  v_slashed := v_slashed r;
  v_activation_eligibility_epoch := x;
  v_activation_epoch := v_activation_epoch r;
  v_exit_epoch := v_exit_epoch r;
  v_withdrawable_epoch := v_withdrawable_epoch r;
|}.

Definition with_v_activation_epoch (x : Uint) (r : Validator) : Validator := {|
  v_pubkey := v_pubkey r;
  v_withdrawal_credentials := v_withdrawal_credentials r;
  v_effective_balance := v_effective_balance r;
  v_slashed := v_slashed r;
  v_activation_eligibility_epoch := v_activation_eligibility_epoch r;
  v_activation_epoch := x;
  v_exit_epoch := v_exit_epoch r;
  v_withdrawable_epoch := v_withdrawable_epoch r;
|}.

Definition with_v_exit_epoch (x : Uint) (r : Validator) : Validator := {|
  v_pubkey := v_pubkey r;
  v_withdrawal_credentials := v_withdrawal_credentials r;
  v_effective_balance := v_effective_balance r;
  v_slashed := v_slashed r;
  v_activation_eligibility_epoch := v_activation_eligibility_epoch r;
  v_activation_epoch := v_activation_epoch r;
  v_exit_epoch := x;
  v_withdrawable_epoch := v_withdrawable_epoch r;
|}.

Definition with_v_withdrawable_epoch (x : Uint) (r : Validator) : Validator := {|
  v_pubkey := v_pubkey r;
  v_withdrawal_credentials := v_withdrawal_credentials r;
  v_effective_balance := v_effective_balance r;
  v_slashed := v_slashed r;
  v_activation_eligibility_epoch := v_activation_eligibility_epoch r;
  v_activation_epoch := v_activation_epoch r;
  v_exit_epoch := v_exit_epoch r;
  v_withdrawable_epoch := x;
|}.

Definition with_bh_state_root (x : H256) (r : BeaconBlockHeader) : BeaconBlockHeader := {|
  bh_slot := bh_slot r;
  bh_parent_root := bh_parent_root r;
  bh_state_root := x;
  bh_body_root := bh_body_root r;
  bh_signature := bh_signature r;
|}.

Definition with_body_proposer_slashings (x : list ProposerSlashing) (r : BeaconBlockBody) : BeaconBlockBody := {|
  body_randao_reveal := body_randao_reveal r;
  body_eth1_data := body_eth1_data r;
  body_graffiti := body_graffiti r;
  body_proposer_slashings := x;
  body_attester_slashings := body_attester_slashings r;
  body_attestations := body_attestations r;
  body_deposits := body_deposits r;
  body_voluntary_exits := body_voluntary_exits r;
|}.

Definition with_body_attester_slashings (x : list AttesterSlashing) (r : BeaconBlockBody) : BeaconBlockBody := {|
  body_randao_reveal := body_randao_reveal r;
  body_eth1_data := body_eth1_data r;
  body_graffiti := body_graffiti r;
  body_proposer_slashings := body_proposer_slashings r;
  body_attester_slashings := x;
  body_attestations := body_attestations r;
  body_deposits := body_deposits r;
  body_voluntary_exits := body_voluntary_exits r;
|}.

Definition with_body_attestations (x : list Attestation) (r : BeaconBlockBody) : BeaconBlockBody := {|
  body_randao_reveal := body_randao_reveal r;
  body_eth1_data := body_eth1_data r;
  body_graffiti := body_graffiti r;
  body_proposer_slashings := body_proposer_slashings r;
  body_attester_slashings := body_attester_slashings r;
  body_attestations := x;
  body_deposits := body_deposits r;
  body_voluntary_exits := body_voluntary_exits r;
|}.

Definition with_body_deposits (x : list Deposit) (r : BeaconBlockBody) : BeaconBlockBody := {|
  body_randao_reveal := body_randao_reveal r;
  body_eth1_data := body_eth1_data r;
  body_graffiti := body_graffiti r;
  body_proposer_slashings := body_proposer_slashings r;
  body_attester_slashings := body_attester_slashings r;
  body_attestations := body_attestations r;
  body_deposits := x;
  body_voluntary_exits := body_voluntary_exits r;
|}.

Definition with_body_voluntary_exits (x : list VoluntaryExit) (r : BeaconBlockBody) : BeaconBlockBody := {|
  body_randao_reveal := body_randao_reveal r;
  body_eth1_data := body_eth1_data r;
  body_graffiti := body_graffiti r;
  body_proposer_slashings := body_proposer_slashings r;
  body_attester_slashings := body_attester_slashings r;
  body_attestations := body_attestations r;
  body_deposits := body_deposits r;
  body_voluntary_exits := x;
|}.

Definition with_ub_parent_root (x : H256) (r : UnsealedBeaconBlock) : UnsealedBeaconBlock := {|
  ub_slot := ub_slot r;
  ub_parent_root := x;
  ub_state_root := ub_state_root r;
  ub_body := ub_body r;
|}.

Definition with_ub_state_root (x : H256) (r : UnsealedBeaconBlock) : UnsealedBeaconBlock := {|
  ub_slot := ub_slot r;
  ub_parent_root := ub_parent_root r;
  ub_state_root := x;
  ub_body := ub_body r;
|}.

Definition with_ub_body (x : BeaconBlockBody) (r : UnsealedBeaconBlock) : UnsealedBeaconBlock := {|
  ub_slot := ub_slot r;
  ub_parent_root := ub_parent_root r;
  ub_state_root := ub_state_root r;
  ub_body := x;
|}.
