(* ===== verification/Utils.v ===== *)
(** * Utilities of the beacon chain: [beacon/src/utils/mod.rs]

    Integer square root, the swap-or-not shuffle, committee computation, slot
    and epoch arithmetic, Merkle branches and signature domains.  The theorems
    show that the square root terminates with the floor of the root, that the
    shuffle is a permutation of the index range, and that the committees of an
    epoch partition the active validators. *)
From stdpp Require Import base numbers list sorting.
From Stdlib Require Import ZArith Lia.
From S2P Require Import Prelude Config Types.

#[local] Open Scope Z_scope.

(** The Merkle tree library [bm]: the root of a compact value built from a
    leaf, its plain proof and the index at a depth; [None] when the proof does
    not fit the index.  It is a parameter: its code is not in the repository. *)
Class MerkleTree := {
  compact_root : H256 → list H256 → Z → Z → option H256;
}.

Section Utils.
Context `{Cfg : Config} `{AM : ArithMode}.

(** Convert integer to bytes. *)
Definition to_bytes (v : Uint) : H256 := to_le_bytes 8 v ++ replicate 24 0.

(** Convert byte to integer: [copy_from_slice] into a [u64]'s eight bytes. *)
Definition to_uint {E} (v : Bytes) : res E Uint :=
  if decide (length v = 8%nat) then Ok (from_le_bytes v) else Panic.

(** Get integer squareroot. *)
Fixpoint integer_squareroot_loop {E} (fuel : nat) (n x y : Uint) : res E Uint :=
  if y <? x then
    match fuel with
    | O => OutOfFuel
    | S fuel' =>
        let x := y in
        q ← u64_div n x;
        t ← u64_add x q;
        y ← u64_div t 2;
        integer_squareroot_loop fuel' n x y
    end
  else Ok x.

(** The distance to the root at least halves in every iteration: 64 of them
    are enough for any [u64] (see [integer_squareroot_correct]). *)
Definition integer_squareroot {E} (n : Uint) : res E Uint :=
  let x := n in
  t ← u64_add x 1;
  y ← u64_div t 2;
  integer_squareroot_loop 64 n x y.

(** Compare hash. *)
Fixpoint compare_hash (a b : H256) : comparison :=
  match a, b with
  | x :: a', y :: b' =>
      if x >? y then Gt else if x <? y then Lt else compare_hash a' b'
  | _, _ => Eq
  end.

(** One round of the shuffle, the body of the loop of [shuffled_index]. *)
Definition shuffle_round (index_count : Uint) (seed : H256) (index round : Uint) : res Error Uint :=
  b ← slice (hash [seed; take 1 (to_le_bytes 8 round)]) 0 8;
  p ← to_uint b;
  pivot ← u64_rem p index_count;
  t ← u64_add pivot index_count;
  t ← u64_sub t index;
  flip ← u64_rem t index_count;
  let position := Z.max index flip in
  let source := hash [seed; take 1 (to_le_bytes 8 round); take 4 (to_le_bytes 8 (position / 256))] in
  byte ← vec_index source ((position mod 256) / 8);
  let bit := Z.shiftr byte (position mod 8) mod 2 in
  Ok (if negb (bit =? 0) then flip else index).

(** Compute shuffled index. *)
Definition shuffled_index (index index_count : Uint) (seed : H256) : res Error ValidatorIndex :=
  if negb ((index <? index_count) && (index_count <=? 2 ^ 40)) then Err IndexOutOfRange
  else res_fold (shuffle_round index_count seed) index (zrange 0 shuffle_round_count).

(** Compute committee indices. *)
Definition compute_committee (indices : list ValidatorIndex) (seed : H256) (index count : Uint)
  : res Error (list ValidatorIndex) :=
  t ← u64_mul (zlen indices) index;
  start ← u64_div t count;
  i ← u64_add index 1;
  t ← u64_mul (zlen indices) i;
  end_ ← u64_div t count;
  res_map (λ i,
    j ← shuffled_index i (zlen indices) seed;
    vec_index indices j) (zrange start end_).

(** Get epoch of slot. *)
Definition epoch_of_slot {E} (slot : Uint) : res E Uint := u64_div slot slots_per_epoch.

(** Get start slot of epoch. *)
Definition start_slot_of_epoch {E} (epoch : Uint) : res E Uint := u64_mul epoch slots_per_epoch.

(** Get activation exit epoch. *)
Definition activation_exit_epoch {E} (epoch : Uint) : res E Uint :=
  t ← u64_add epoch 1; u64_add t max_seed_lookahead.

(** Check whether given proof is valid merkle branch. *)
Definition is_valid_merkle_branch `{MerkleTree} (leaf : H256) (proof : list H256)
  (depth index : Uint) (root : H256) : bool :=
  if negb (zlen proof =? depth) then false
  else match compact_root leaf proof index depth with
       | Some r => bytes_eqb r root
       | None => false
       end.

(** BLS signing domain given a domain type and fork version. *)
Definition bls_domain (domain_type : Z) (fork_version : Version) : Uint :=
  from_le_bytes (to_le_bytes 4 domain_type ++ fork_version).

(** Get genesis domain ([beacon/src/lib.rs]). *)
Definition genesis_domain (domain_type : Z) : Uint := bls_domain domain_type H32_default.
End Utils.

(** ** Integer square root *)

Section Sqrt.
Context `{AM : ArithMode} {E : Type}.

Lemma newton_step s n x :
  0 < s → s * s ≤ n < (s + 1) * (s + 1) → s < x →
  s ≤ (x + n / x) / 2 ∧ (x + n / x) / 2 - s ≤ (x - s) / 2.
Proof.
  intros Hs Hn Hx.
  assert (n / x ≤ s) by (apply Z.lt_succ_r, Z.div_lt_upper_bound; nia).
  assert (0 ≤ n / x) by (apply Z.div_pos; nia).
  assert (2 * s - x ≤ n / x).
  { destruct (Z.le_gt_cases (2 * s) x); [lia|]. apply Z.div_le_lower_bound; nia. }
  split; [apply Z.div_le_lower_bound; lia|].
  replace ((x + n / x) / 2 - s) with ((x + n / x - 2 * s) / 2); [apply Z.div_le_mono; lia|].
  replace (x + n / x - 2 * s) with (x + n / x + (- s) * 2) by lia.
  rewrite Z.div_add; lia.
Qed.

Lemma integer_squareroot_loop_ok s n fuel x :
  0 < s → s * s ≤ n < (s + 1) * (s + 1) → n < u64_max →
  s ≤ x → x - s < 2 ^ Z.of_nat fuel → x ≤ n →
  integer_squareroot_loop (E:=E) fuel n x ((x + n / x) / 2) = Ok s.
Proof.
  intros Hs Hn Hu. revert x. induction fuel as [|fuel IH]; intros x Hx Hd Hxn;
    (destruct (Z.eq_dec x s) as [->|Hne];
     [ assert (s ≤ n / s) by (apply Z.div_le_lower_bound; lia);
       assert (s ≤ (s + n / s) / 2) by (apply Z.div_le_lower_bound; lia);
       cbn; destruct (Z.ltb_spec ((s + n / s) / 2) s); [lia|done] | ]).
  { cbn in Hd. lia. }
  destruct (newton_step s n x Hs Hn ltac:(lia)) as [H1 H2].
  assert (Hyx : (x + n / x) / 2 < x) by (pose proof (Z.div_lt (x - s) 2); lia).
  set (y := (x + n / x) / 2) in *. clearbody y. cbn [integer_squareroot_loop].
  rewrite (proj2 (Z.ltb_lt _ _) Hyx), u64_div_ok by lia. cbn.
  pose proof (Z.div_mod n y ltac:(lia)). pose proof (Z.mod_pos_bound n y ltac:(lia)).
  assert (1 ≤ n / y) by (apply Z.div_le_lower_bound; lia).
  assert (0 ≤ (y - 1) * (n / y - 1)) by (apply Z.mul_nonneg_nonneg; lia).
  rewrite u64_add_ok by (unfold is_u64, u64_max in *; nia). cbn.
  apply IH; [lia| |lia]. rewrite Nat2Z.inj_succ, Z.pow_succ_r in Hd by lia.
  clear -H2 Hd. apply Z.le_lt_trans with ((x - s) / 2); [lia|].
  apply Z.div_lt_upper_bound; lia.
Qed.
End Sqrt.

Lemma integer_squareroot_total `{ArithMode} {E} n :
  0 ≤ n < u64_max →
  ∃ r, integer_squareroot (E:=E) n = Ok r ∧ r * r ≤ n < (r + 1) * (r + 1).
Proof.
  intros Hn. unfold integer_squareroot.
  rewrite u64_add_ok, res_bind_Ok by u64_lia.
  rewrite u64_div_ok, res_bind_Ok by lia.
  pose proof (Z.sqrt_spec n ltac:(lia)) as Hs. cbv zeta in Hs.
  exists (Z.sqrt n). split; [|lia].
  destruct (Z.eq_dec n 0) as [->|H0]; [done|].
  assert (0 < Z.sqrt n) by (apply Z.sqrt_pos; lia).
  replace ((n + 1) / 2) with ((n + n / n) / 2) by (rewrite Z.div_same; lia).
  apply integer_squareroot_loop_ok; try lia.
  - apply Z.sqrt_le_lin. lia.
  - unfold u64_max in *. cbn. lia.
Qed.

(** C39: [integer_squareroot] returns the integer square root of every [u64]
    but the largest, for which it panics in both build profiles: there the
    first addition overflows, or wraps to zero and the loop divides by it. *)
Theorem integer_squareroot_correct `{ArithMode} {E} n :
  is_u64 n →
  (n < u64_max → ∃ r, integer_squareroot (E:=E) n = Ok r ∧ r * r ≤ n < (r + 1) * (r + 1)) ∧
  (n = u64_max → integer_squareroot (E:=E) n = Panic).
Proof.
  intros Hn. split; [intros ?; apply integer_squareroot_total; u64_lia|intros ->].
  unfold integer_squareroot, u64_add, u64_check. destruct overflow_checks; reflexivity.
Qed.

Lemma integer_squareroot_correct_witness :
  is_u64 u64_max ∧ integer_squareroot (AM:=toy_mode) (E:=unit) u64_max = Panic ∧
  ∃ r, integer_squareroot (AM:=toy_mode) (E:=unit) 1000 = Ok r ∧ r * r ≤ 1000 < (r + 1) * (r + 1).
Proof.
  split; [done|]. split.
  - apply (integer_squareroot_correct (H:=toy_mode) u64_max); done.
  - apply (integer_squareroot_correct (H:=toy_mode) 1000); done.
Defined.

(** ** The swap-or-not shuffle *)

Section Shuffle.
Context `{Cfg : Config} `{AM : ArithMode} `{COk : !ConfigOk Cfg}.

(** The round as a total function on the index range. *)
Definition flip_at (n : Z) (seed : H256) (round i : Z) : Z :=
  (from_le_bytes (take 8 (hash [seed; take 1 (to_le_bytes 8 round)])) mod n + n - i) mod n.

Definition bit_at (seed : H256) (round position : Z) : Z :=
  let source := hash [seed; take 1 (to_le_bytes 8 round); take 4 (to_le_bytes 8 (position / 256))] in
  Z.shiftr (source !!! Z.to_nat ((position mod 256) / 8)) (position mod 8) mod 2.

Definition swap_or_not (n : Z) (seed : H256) (i round : Z) : Z :=
  let flip := flip_at n seed round i in
  if negb (bit_at seed round (Z.max i flip) =? 0) then flip else i.

Lemma shuffle_round_total n seed i round :
  0 < n ≤ 2 ^ 40 → 0 ≤ i < n →
  shuffle_round n seed i round = Ok (swap_or_not n seed i round).
Proof using COk.
  intros Hn Hi. unfold shuffle_round.
  destruct (digest_len (concat [seed; take 1 (to_le_bytes 8 round)])) as [Hl _].
  fold (hash [seed; take 1 (to_le_bytes 8 round)]) in Hl.
  rewrite slice_ok, res_bind_Ok by (unfold zlen; rewrite ?Hl; lia). unfold to_uint.
  rewrite decide_True by (rewrite length_take, length_drop, Hl; done).
  rewrite res_bind_Ok, u64_rem_ok, res_bind_Ok by lia.
  change (drop (Z.to_nat 0) ?l) with l.
  change (Z.to_nat (8 - 0)) with 8%nat.
  unfold swap_or_not, flip_at.
  set (p := from_le_bytes _ mod n).
  assert (Hp : 0 ≤ p < n) by (apply Z.mod_pos_bound; lia). clearbody p.
  rewrite u64_add_ok, res_bind_Ok by u64_lia.
  rewrite u64_sub_ok, res_bind_Ok by u64_lia.
  rewrite u64_rem_ok, res_bind_Ok by lia. cbv zeta.
  set (position := Z.max i _). unfold bit_at. cbv zeta.
  set (source := hash _).
  assert (length source = 32%nat) as Hs by apply digest_len.
  pose proof (Z.mod_pos_bound position 256 ltac:(lia)).
  assert (0 ≤ position mod 256 / 8 < zlen source).
  { unfold zlen. rewrite Hs. split; [apply Z.div_pos; lia|].
    apply Z.div_lt_upper_bound; lia. }
  destruct (vec_index_lt (E:=Error) source (position mod 256 / 8)) as (b & Hb & ->); [done|].
  rewrite res_bind_Ok. by rewrite (list_lookup_total_correct _ _ _ Hb).
Qed.

Lemma flip_at_range n seed round i : 0 < n → 0 ≤ flip_at n seed round i < n.
Proof. intros Hn. apply Z.mod_pos_bound. lia. Qed.

Lemma flip_at_involutive n seed round i :
  0 ≤ i < n → flip_at n seed round (flip_at n seed round i) = i.
Proof.
  intros Hi. unfold flip_at. set (p := from_le_bytes _ mod n).
  rewrite Zminus_mod_idemp_r. replace (p + n - (p + n - i)) with i by lia.
  apply Z.mod_small. lia.
Qed.

Lemma swap_or_not_range n seed round i :
  0 ≤ i < n → 0 ≤ swap_or_not n seed i round < n.
Proof.
  intros Hi. unfold swap_or_not. cbv zeta. case_match; [apply flip_at_range; lia|lia].
Qed.

(** Both ends of a swap look at the same bit, so a round undoes itself. *)
Lemma swap_or_not_involutive n seed round i :
  0 ≤ i < n → swap_or_not n seed (swap_or_not n seed i round) round = i.
Proof.
  intros Hi. unfold swap_or_not at 2. cbv zeta. case_match eqn:Hb.
  - unfold swap_or_not. cbv zeta. rewrite flip_at_involutive by lia.
    rewrite Z.max_comm, Hb. done.
  - unfold swap_or_not. cbv zeta. by rewrite Hb.
Qed.

Definition shuffle (n : Z) (seed : H256) (i : Z) (rounds : list Z) : Z :=
  foldl (swap_or_not n seed) i rounds.

Lemma shuffle_range n seed rounds i : 0 ≤ i < n → 0 ≤ shuffle n seed i rounds < n.
Proof.
  unfold shuffle. revert i. induction rounds as [|r rs IH]; intros i Hi; cbn; [done|].
  by apply IH, swap_or_not_range.
Qed.

Lemma shuffle_unshuffle n seed rounds i :
  0 ≤ i < n → shuffle n seed (shuffle n seed i rounds) (reverse rounds) = i.
Proof.
  unfold shuffle. revert i. induction rounds as [|r rs IH]; intros i Hi; [done|].
  rewrite reverse_cons, foldl_app. cbn [foldl].
  rewrite IH by by apply swap_or_not_range. by apply swap_or_not_involutive.
Qed.

Lemma shuffle_rounds_total n seed rounds i :
  0 < n ≤ 2 ^ 40 → 0 ≤ i < n →
  res_fold (shuffle_round n seed) i rounds = Ok (shuffle n seed i rounds).
Proof using COk.
  intros Hn. revert i. induction rounds as [|r rs IH]; intros i Hi; [done|].
  cbn. rewrite shuffle_round_total by done. rewrite res_bind_Ok.
  by apply IH, swap_or_not_range.
Qed.

Lemma shuffled_index_total n seed i :
  n ≤ 2 ^ 40 → 0 ≤ i < n →
  shuffled_index i n seed = Ok (shuffle n seed i (zrange 0 shuffle_round_count)).
Proof using COk.
  intros Hn Hi. unfold shuffled_index.
  rewrite (proj2 (Z.ltb_lt i n)), (proj2 (Z.leb_le n _)) by lia. cbn [andb negb].
  apply shuffle_rounds_total; lia.
Qed.

Lemma shuffle_perm n seed rounds :
  (λ i, shuffle n seed i rounds) <$> zrange 0 n ≡ₚ zrange 0 n.
Proof.
  set (f := λ i, shuffle n seed i rounds).
  assert (Hf : ∀ i, i ∈ zrange 0 n → f i ∈ zrange 0 n).
  { intros i. rewrite !elem_of_zrange. apply shuffle_range. }
  apply submseteq_length_Permutation; [|by rewrite length_fmap].
  apply NoDup_submseteq.
  - apply NoDup_fmap_2_strong; [|apply NoDup_zrange]. intros i j Hi Hj Hij.
    apply elem_of_zrange in Hi, Hj.
    rewrite <- (shuffle_unshuffle n seed rounds i), <- (shuffle_unshuffle n seed rounds j) by lia.
    by fold (f i) (f j); rewrite Hij.
  - intros y (i & -> & Hi)%list_elem_of_fmap. by apply Hf.
Qed.
End Shuffle.

(** C29: the shuffle of [0..n) is a permutation. *)
Theorem shuffled_index_permutation `{Config} `{ArithMode} `{!ConfigOk _} n seed :
  n ≤ 2 ^ 40 →
  ∃ l, res_map (λ i, shuffled_index i n seed) (zrange 0 n) = Ok l ∧ l ≡ₚ zrange 0 n.
Proof.
  intros Hn. eexists. split; [|apply shuffle_perm].
  apply res_map_total. intros i Hi%elem_of_zrange. apply shuffled_index_total; lia.
Qed.

Lemma shuffled_index_permutation_witness :
  ∃ l, res_map (λ i, shuffled_index (Cfg:=toy_config) (AM:=toy_mode) i 7 H256_default) (zrange 0 7) = Ok l ∧
    l ≡ₚ zrange 0 7.
Proof.
  apply (shuffled_index_permutation (H:=toy_config) (H0:=toy_mode) (ConfigOk0:=toy_config_ok)). done.
Defined.

(** ** Committees *)

Section Committees.
Context `{Cfg : Config} `{AM : ArithMode} `{COk : !ConfigOk Cfg}.

Definition shuffled_member (indices : list Z) (seed : H256) (i : Z) : Z :=
  indices !!! Z.to_nat (shuffle (zlen indices) seed i (zrange 0 shuffle_round_count)).

Lemma compute_committee_total indices seed index count :
  zlen indices ≤ 2 ^ 40 → 0 ≤ index < count → count ≤ 2 ^ 23 →
  compute_committee indices seed index count =
  Ok (shuffled_member indices seed <$>
      zrange (zlen indices * index / count) (zlen indices * (index + 1) / count)).
Proof using COk.
  intros Hn Hi Hc. unfold compute_committee.
  assert (0 ≤ zlen indices) by (unfold zlen; lia).
  rewrite u64_mul_ok, res_bind_Ok by (unfold is_u64; nia).
  rewrite u64_div_ok, res_bind_Ok by lia.
  rewrite u64_add_ok, res_bind_Ok by u64_lia.
  rewrite u64_mul_ok, res_bind_Ok by (unfold is_u64; nia).
  rewrite u64_div_ok, res_bind_Ok by lia.
  apply res_map_total. intros i Hr%elem_of_zrange.
  assert (0 ≤ zlen indices * index / count) by (apply Z.div_pos; nia).
  assert (zlen indices * (index + 1) / count ≤ zlen indices) by (apply Z.div_le_upper_bound; nia).
  rewrite shuffled_index_total, res_bind_Ok by lia.
  pose proof (shuffle_range (zlen indices) seed (zrange 0 shuffle_round_count) i ltac:(lia)).
  destruct (vec_index_lt (E:=Error) indices _ H2) as (x & Hx & ->).
  unfold shuffled_member. by rewrite (list_lookup_total_correct _ _ _ Hx).
Qed.

(** The committee ranges are consecutive. *)
Lemma committee_ranges_concat n count k :
  0 < count → 0 ≤ n → 0 ≤ k →
  concat ((λ i, zrange (n * i / count) (n * (i + 1) / count)) <$> zrange 0 k) =
  zrange 0 (n * k / count).
Proof.
  intros Hc Hn. revert k. apply natlike_ind.
  - by rewrite Z.mul_0_r, Z.div_0_l by lia.
  - intros k Hk IH. rewrite <- Z.add_1_r, zrange_snoc, fmap_app, concat_app, IH by lia.
    cbn. rewrite app_nil_r. symmetry. apply zrange_app. split.
    + apply Z.div_pos; nia.
    + apply Z.div_le_mono; nia.
Qed.

Lemma shuffled_members_perm indices seed :
  shuffled_member indices seed <$> zrange 0 (zlen indices) ≡ₚ indices.
Proof using COk.
  change (shuffled_member indices seed) with ((λ j, indices !!! Z.to_nat j) ∘
    (λ i, shuffle (zlen indices) seed i (zrange 0 shuffle_round_count))).
  by rewrite list_fmap_compose, shuffle_perm, fmap_lookup_total_zrange.
Qed.
End Committees.

(** The committees of an epoch partition the given validators. *)
Theorem compute_committee_partition `{Config} `{ArithMode} `{!ConfigOk _} indices seed count :
  zlen indices ≤ 2 ^ 40 → 0 < count ≤ 2 ^ 23 →
  ∃ committees,
    res_map (λ index, compute_committee indices seed index count) (zrange 0 count) = Ok committees ∧
    concat committees ≡ₚ indices ∧
    Forall (λ c, zlen indices / count ≤ zlen c ≤ zlen indices / count + 1) committees.
Proof.
  intros Hn Hc. assert (0 ≤ zlen indices) by (unfold zlen; lia).
  exists (fmap (shuffled_member indices seed) ∘
    (λ i, zrange (zlen indices * i / count) (zlen indices * (i + 1) / count)) <$> zrange 0 count).
  split; [|split].
  - apply res_map_total. intros i Hi%elem_of_zrange. by apply compute_committee_total; lia.
  - rewrite list_fmap_compose, <- fmap_concat, committee_ranges_concat by lia.
    rewrite Z.div_mul by lia. apply shuffled_members_perm.
  - apply Forall_fmap, Forall_forall. intros i Hi%elem_of_zrange. unfold compose.
    rewrite zlen_fmap. set (n := zlen indices) in *.
    assert (n * i / count + n / count ≤ n * (i + 1) / count).
    { apply Z.div_le_lower_bound; [lia|]. pose proof (Z.mul_div_le (n * i) count).
      pose proof (Z.mul_div_le n count). lia. }
    assert (n * (i + 1) / count < n * i / count + n / count + 2).
    { apply Z.div_lt_upper_bound; [lia|]. pose proof (Z.mul_succ_div_gt (n * i) count).
      pose proof (Z.mul_succ_div_gt n count). lia. }
    pose proof (Z.div_pos n count H1 ltac:(lia)). rewrite zlen_zrange; lia.
Qed.

Lemma compute_committee_partition_witness :
  ∃ committees,
    res_map (λ index, compute_committee (Cfg:=toy_config) (AM:=toy_mode) [3; 1; 4; 5; 9; 2; 6] H256_default index 3)
      (zrange 0 3) = Ok committees ∧
    concat committees ≡ₚ [3; 1; 4; 5; 9; 2; 6] ∧ Forall (λ c, 2 ≤ zlen c ≤ 3) committees.
Proof.
  apply (compute_committee_partition (H:=toy_config) (H0:=toy_mode) (ConfigOk0:=toy_config_ok)
    [3; 1; 4; 5; 9; 2; 6] H256_default 3); done.
Defined.

(** ** Hash comparison and domains *)

Lemma from_le_bytes_app a b :
  from_le_bytes (a ++ b) = from_le_bytes a + 256 ^ zlen a * from_le_bytes b.
Proof.
  unfold zlen. induction a as [|x a IH]; cbn [app from_le_bytes length]; [lia|].
  rewrite IH, Nat2Z.inj_succ, Z.pow_succ_r by lia. lia.
Qed.

Lemma reverse_u8 a : Forall is_u8 a → Forall is_u8 (reverse a).
Proof. by rewrite Forall_reverse. Qed.

(** [compare_hash] is the comparison of the big-endian integers. *)
Theorem compare_hash_big_endian a b :
  length a = length b → Forall is_u8 a → Forall is_u8 b →
  compare_hash a b = Z.compare (from_le_bytes (reverse a)) (from_le_bytes (reverse b)).
Proof.
  revert b. induction a as [|x a IH]; intros [|y b] Hl Ha Hb; try done.
  apply Forall_cons in Ha as [Hx Ha], Hb as [Hy Hb]. injection Hl as Hl.
  cbn [compare_hash]. rewrite !reverse_cons, !from_le_bytes_app. cbn [from_le_bytes].
  assert (zlen (reverse a) = zlen (reverse b)) as Hz.
  { unfold zlen. by rewrite !length_reverse, Hl. }
  pose proof (from_le_bytes_bound _ (reverse_u8 a Ha)) as Ba.
  pose proof (from_le_bytes_bound _ (reverse_u8 b Hb)) as Bb.
  rewrite Hz in *. unfold is_u8 in *.
  set (p := 256 ^ _) in *. clearbody p. symmetry.
  destruct (Z.gtb_spec x y); [apply Z.compare_gt_iff; nia|].
  destruct (Z.ltb_spec x y); [apply Z.compare_lt_iff; nia|].
  assert (x = y) as -> by lia. rewrite IH by done.
  destruct (Z.compare_spec (from_le_bytes (reverse a)) (from_le_bytes (reverse b))).
  - apply Z.compare_eq_iff. lia.
  - apply Z.compare_lt_iff. lia.
  - apply Z.compare_gt_iff. lia.
Qed.

Lemma compare_hash_big_endian_witness :
  compare_hash [1; 2; 200] [1; 3; 0] = Z.compare (from_le_bytes [200; 2; 1]) (from_le_bytes [0; 3; 1]).
Proof.
  apply (compare_hash_big_endian [1; 2; 200] [1; 3; 0]); [done|repeat constructor..]; done.
Defined.

(** Distinct domain types or fork versions have distinct domains. *)
Theorem bls_domain_injective d1 d2 v1 v2 :
  0 ≤ d1 < 2 ^ 32 → 0 ≤ d2 < 2 ^ 32 → bytes_of_len 4 v1 → bytes_of_len 4 v2 →
  bls_domain d1 v1 = bls_domain d2 v2 → d1 = d2 ∧ v1 = v2.
Proof.
  intros Hd1 Hd2 [L1 U1] [L2 U2] Heq. unfold bls_domain in Heq.
  assert (∀ d v, length v = 4%nat → Forall is_u8 v →
    to_le_bytes 8 (from_le_bytes (to_le_bytes 4 d ++ v)) = to_le_bytes 4 d ++ v) as H8.
  { intros d v Hl Hu.
    replace 8%nat with (length (to_le_bytes 4 d ++ v))
      by (rewrite length_app, to_le_bytes_length, Hl; done).
    apply to_from_le_bytes, Forall_app. split; [apply to_le_bytes_u8|done]. }
  apply (f_equal (to_le_bytes 8)) in Heq. rewrite !H8 in Heq by done.
  apply app_inj_1 in Heq as [Hd ->]; [|by rewrite !to_le_bytes_length].
  split; [|done]. apply (f_equal from_le_bytes) in Hd. rewrite !from_to_le_bytes in Hd.
  change (256 ^ Z.of_nat 4) with (2 ^ 32) in Hd. by rewrite !Z.mod_small in Hd by lia.
Qed.

Lemma bls_domain_injective_witness :
  bls_domain 3 [1; 0; 0; 0] = bls_domain (2 + 1) [1; 0; 0; 0] ∧ 3 = 2 + 1 ∧ [1; 0; 0; 0] = [1; 0; 0; 0].
Proof.
  split; [done|].
  apply (bls_domain_injective 3 (2 + 1) [1; 0; 0; 0] [1; 0; 0; 0]); try done;
    (split; [done|repeat constructor; done]).
Defined.
