(* ===== verification/State.v ===== *)
(** * The beacon state: [BeaconState] of [beacon/src/executive/mod.rs]

    The record, its field updates, the tree-hash functions it is hashed with,
    and its well-formedness: every integer field is a [u64], the fixed-size
    vectors have the configured sizes and there is one balance per validator.
    [BeaconExecutive] is a mutable reference to this record (its two cache
    fields are never written), so its methods are functions of the record or
    commands of the state monad. *)
From stdpp Require Import base numbers list.
From Stdlib Require Import ZArith Lia.
From S2P Require Import Prelude Config Types Utils.

#[local] Open Scope Z_scope.

(** Beacon state. *)
Record BeaconState := mkBeaconState {
  genesis_time : Uint;
  slot : Uint;
  fork : Fork;
  latest_block_header : BeaconBlockHeader;
  block_roots : list H256;
  state_roots : list H256;
  historical_roots : list H256;
  eth1_data : Eth1Data;
  eth1_data_votes : list Eth1Data;
  eth1_deposit_index : Uint;
  validators : list Validator;
  balances : list Uint;
  randao_mixes : list H256;
  slashings : list Uint;
  previous_epoch_attestations : list PendingAttestation;
  current_epoch_attestations : list PendingAttestation;
  justification_bits : list bool;
  previous_justified_checkpoint : Checkpoint;
  current_justified_checkpoint : Checkpoint;
  finalized_checkpoint : Checkpoint;
}.

#[global] Instance BeaconState_eq_dec : EqDecision BeaconState.
Proof. solve_decision. Defined.

(** ** Field updates *)

Definition with_slot (x : Uint) (s : BeaconState) : BeaconState := {|
  genesis_time := genesis_time s;
  slot := x;
  fork := fork s;
  latest_block_header := latest_block_header s;
  block_roots := block_roots s;
  state_roots := state_roots s;
  historical_roots := historical_roots s;
  eth1_data := eth1_data s;
  eth1_data_votes := eth1_data_votes s;
  eth1_deposit_index := eth1_deposit_index s;
  validators := validators s;
  balances := balances s;
  randao_mixes := randao_mixes s;
  slashings := slashings s;
  previous_epoch_attestations := previous_epoch_attestations s;
  current_epoch_attestations := current_epoch_attestations s;
  justification_bits := justification_bits s;
  previous_justified_checkpoint := previous_justified_checkpoint s;
  current_justified_checkpoint := current_justified_checkpoint s;
  finalized_checkpoint := finalized_checkpoint s;
|}.

Definition with_latest_block_header (x : BeaconBlockHeader) (s : BeaconState) : BeaconState := {|
  genesis_time := genesis_time s;
  slot := slot s;
  fork := fork s;
  latest_block_header := x;
  block_roots := block_roots s;
  state_roots := state_roots s;
  historical_roots := historical_roots s;
  eth1_data := eth1_data s;
  eth1_data_votes := eth1_data_votes s;
  eth1_deposit_index := eth1_deposit_index s;
  validators := validators s;
  balances := balances s;
  randao_mixes := randao_mixes s;
  slashings := slashings s;
  previous_epoch_attestations := previous_epoch_attestations s;
  current_epoch_attestations := current_epoch_attestations s;
  justification_bits := justification_bits s;
  previous_justified_checkpoint := previous_justified_checkpoint s;
  current_justified_checkpoint := current_justified_checkpoint s;
  finalized_checkpoint := finalized_checkpoint s;
|}.

Definition with_block_roots (x : list H256) (s : BeaconState) : BeaconState := {|
  genesis_time := genesis_time s;
  slot := slot s;
  fork := fork s;
  latest_block_header := latest_block_header s;
  block_roots := x;
  state_roots := state_roots s;
  historical_roots := historical_roots s;
  eth1_data := eth1_data s;
  eth1_data_votes := eth1_data_votes s;
  eth1_deposit_index := eth1_deposit_index s;
  validators := validators s;
  balances := balances s;
  randao_mixes := randao_mixes s;
  slashings := slashings s;
  previous_epoch_attestations := previous_epoch_attestations s;
  current_epoch_attestations := current_epoch_attestations s;
  justification_bits := justification_bits s;
  previous_justified_checkpoint := previous_justified_checkpoint s;
  current_justified_checkpoint := current_justified_checkpoint s;
  finalized_checkpoint := finalized_checkpoint s;
|}.

Definition with_state_roots (x : list H256) (s : BeaconState) : BeaconState := {|
  genesis_time := genesis_time s;
  slot := slot s;
  fork := fork s;
  latest_block_header := latest_block_header s;
  block_roots := block_roots s;
  state_roots := x;
  historical_roots := historical_roots s;
  eth1_data := eth1_data s;
  eth1_data_votes := eth1_data_votes s;
  eth1_deposit_index := eth1_deposit_index s;
  validators := validators s;
  balances := balances s;
  randao_mixes := randao_mixes s;
  slashings := slashings s;
  previous_epoch_attestations := previous_epoch_attestations s;
  current_epoch_attestations := current_epoch_attestations s;
  justification_bits := justification_bits s;
  previous_justified_checkpoint := previous_justified_checkpoint s;
  current_justified_checkpoint := current_justified_checkpoint s;
  finalized_checkpoint := finalized_checkpoint s;
|}.

Definition with_historical_roots (x : list H256) (s : BeaconState) : BeaconState := {|
  genesis_time := genesis_time s;
  slot := slot s;
  fork := fork s;
  latest_block_header := latest_block_header s;
  block_roots := block_roots s;
  state_roots := state_roots s;
  historical_roots := x;
  eth1_data := eth1_data s;
  eth1_data_votes := eth1_data_votes s;
  eth1_deposit_index := eth1_deposit_index s;
  validators := validators s;
  balances := balances s;
  randao_mixes := randao_mixes s;
  slashings := slashings s;
  previous_epoch_attestations := previous_epoch_attestations s;
  current_epoch_attestations := current_epoch_attestations s;
  justification_bits := justification_bits s;
  previous_justified_checkpoint := previous_justified_checkpoint s;
  current_justified_checkpoint := current_justified_checkpoint s;
  finalized_checkpoint := finalized_checkpoint s;
|}.

Definition with_eth1_data (x : Eth1Data) (s : BeaconState) : BeaconState := {|
  genesis_time := genesis_time s;
  slot := slot s;
  fork := fork s;
  latest_block_header := latest_block_header s;
  block_roots := block_roots s;
  state_roots := state_roots s;
  historical_roots := historical_roots s;
  eth1_data := x;
  eth1_data_votes := eth1_data_votes s;
  eth1_deposit_index := eth1_deposit_index s;
  validators := validators s;
  balances := balances s;
  randao_mixes := randao_mixes s;
  slashings := slashings s;
  previous_epoch_attestations := previous_epoch_attestations s;
  current_epoch_attestations := current_epoch_attestations s;
  justification_bits := justification_bits s;
  previous_justified_checkpoint := previous_justified_checkpoint s;
  current_justified_checkpoint := current_justified_checkpoint s;
  finalized_checkpoint := finalized_checkpoint s;
|}.

Definition with_eth1_data_votes (x : list Eth1Data) (s : BeaconState) : BeaconState := {|
  genesis_time := genesis_time s;
  slot := slot s;
  fork := fork s;
  latest_block_header := latest_block_header s;
  block_roots := block_roots s;
  state_roots := state_roots s;
  historical_roots := historical_roots s;
  eth1_data := eth1_data s;
  eth1_data_votes := x;
  eth1_deposit_index := eth1_deposit_index s;
  validators := validators s;
  balances := balances s;
  randao_mixes := randao_mixes s;
  slashings := slashings s;
  previous_epoch_attestations := previous_epoch_attestations s;
  current_epoch_attestations := current_epoch_attestations s;
  justification_bits := justification_bits s;
  previous_justified_checkpoint := previous_justified_checkpoint s;
  current_justified_checkpoint := current_justified_checkpoint s;
  finalized_checkpoint := finalized_checkpoint s;
|}.

Definition with_eth1_deposit_index (x : Uint) (s : BeaconState) : BeaconState := {|
  genesis_time := genesis_time s;
  slot := slot s;
  fork := fork s;
  latest_block_header := latest_block_header s;
  block_roots := block_roots s;
  state_roots := state_roots s;
  historical_roots := historical_roots s;
  eth1_data := eth1_data s;
  eth1_data_votes := eth1_data_votes s;
  eth1_deposit_index := x;
  validators := validators s;
  balances := balances s;
  randao_mixes := randao_mixes s;
  slashings := slashings s;
  previous_epoch_attestations := previous_epoch_attestations s;
  current_epoch_attestations := current_epoch_attestations s;
  justification_bits := justification_bits s;
  previous_justified_checkpoint := previous_justified_checkpoint s;
  current_justified_checkpoint := current_justified_checkpoint s;
  finalized_checkpoint := finalized_checkpoint s;
|}.

Definition with_validators (x : list Validator) (s : BeaconState) : BeaconState := {|
  genesis_time := genesis_time s;
  slot := slot s;
  fork := fork s;
  latest_block_header := latest_block_header s;
  block_roots := block_roots s;
  state_roots := state_roots s;
  historical_roots := historical_roots s;
  eth1_data := eth1_data s;
  eth1_data_votes := eth1_data_votes s;
  eth1_deposit_index := eth1_deposit_index s;
  validators := x;
  balances := balances s;
  randao_mixes := randao_mixes s;
  slashings := slashings s;
  previous_epoch_attestations := previous_epoch_attestations s;
  current_epoch_attestations := current_epoch_attestations s;
  justification_bits := justification_bits s;
  previous_justified_checkpoint := previous_justified_checkpoint s;
  current_justified_checkpoint := current_justified_checkpoint s;
  finalized_checkpoint := finalized_checkpoint s;
|}.

Definition with_balances (x : list Uint) (s : BeaconState) : BeaconState := {|
  genesis_time := genesis_time s;
  slot := slot s;
  fork := fork s;
  latest_block_header := latest_block_header s;
  block_roots := block_roots s;
  state_roots := state_roots s;
  historical_roots := historical_roots s;
  eth1_data := eth1_data s;
  eth1_data_votes := eth1_data_votes s;
  eth1_deposit_index := eth1_deposit_index s;
  validators := validators s;
  balances := x;
  randao_mixes := randao_mixes s;
  slashings := slashings s;
  previous_epoch_attestations := previous_epoch_attestations s;
  current_epoch_attestations := current_epoch_attestations s;
  justification_bits := justification_bits s;
  previous_justified_checkpoint := previous_justified_checkpoint s;
  current_justified_checkpoint := current_justified_checkpoint s;
  finalized_checkpoint := finalized_checkpoint s;
|}.

Definition with_randao_mixes (x : list H256) (s : BeaconState) : BeaconState := {|
  genesis_time := genesis_time s;
  slot := slot s;
  fork := fork s;
  latest_block_header := latest_block_header s;
  block_roots := block_roots s;
  state_roots := state_roots s;
  historical_roots := historical_roots s;
  eth1_data := eth1_data s;
  eth1_data_votes := eth1_data_votes s;
  eth1_deposit_index := eth1_deposit_index s;
  validators := validators s;
  balances := balances s;
  randao_mixes := x;
  slashings := slashings s;
  previous_epoch_attestations := previous_epoch_attestations s;
  current_epoch_attestations := current_epoch_attestations s;
  justification_bits := justification_bits s;
  previous_justified_checkpoint := previous_justified_checkpoint s;
  current_justified_checkpoint := current_justified_checkpoint s;
  finalized_checkpoint := finalized_checkpoint s;
|}.

Definition with_slashings (x : list Uint) (s : BeaconState) : BeaconState := {|
  genesis_time := genesis_time s;
  slot := slot s;
  fork := fork s;
  latest_block_header := latest_block_header s;
  block_roots := block_roots s;
  state_roots := state_roots s;
  historical_roots := historical_roots s;
  eth1_data := eth1_data s;
  eth1_data_votes := eth1_data_votes s;
  eth1_deposit_index := eth1_deposit_index s;
  validators := validators s;
  balances := balances s;
  randao_mixes := randao_mixes s;
  slashings := x;
  previous_epoch_attestations := previous_epoch_attestations s;
  current_epoch_attestations := current_epoch_attestations s;
  justification_bits := justification_bits s;
  previous_justified_checkpoint := previous_justified_checkpoint s;
  current_justified_checkpoint := current_justified_checkpoint s;
  finalized_checkpoint := finalized_checkpoint s;
|}.

Definition with_previous_epoch_attestations (x : list PendingAttestation) (s : BeaconState) : BeaconState := {|
  genesis_time := genesis_time s;
  slot := slot s;
  fork := fork s;
  latest_block_header := latest_block_header s;
  block_roots := block_roots s;
  state_roots := state_roots s;
  historical_roots := historical_roots s;
  eth1_data := eth1_data s;
  eth1_data_votes := eth1_data_votes s;
  eth1_deposit_index := eth1_deposit_index s;
  validators := validators s;
  balances := balances s;
  randao_mixes := randao_mixes s;
  slashings := slashings s;
  previous_epoch_attestations := x;
  current_epoch_attestations := current_epoch_attestations s;
  justification_bits := justification_bits s;
  previous_justified_checkpoint := previous_justified_checkpoint s;
  current_justified_checkpoint := current_justified_checkpoint s;
  finalized_checkpoint := finalized_checkpoint s;
|}.

Definition with_current_epoch_attestations (x : list PendingAttestation) (s : BeaconState) : BeaconState := {|
  genesis_time := genesis_time s;
  slot := slot s;
  fork := fork s;
  latest_block_header := latest_block_header s;
  block_roots := block_roots s;
  state_roots := state_roots s;
  historical_roots := historical_roots s;
  eth1_data := eth1_data s;
  eth1_data_votes := eth1_data_votes s;
  eth1_deposit_index := eth1_deposit_index s;
  validators := validators s;
  balances := balances s;
  randao_mixes := randao_mixes s;
  slashings := slashings s;
  previous_epoch_attestations := previous_epoch_attestations s;
  current_epoch_attestations := x;
  justification_bits := justification_bits s;
  previous_justified_checkpoint := previous_justified_checkpoint s;
  current_justified_checkpoint := current_justified_checkpoint s;
  finalized_checkpoint := finalized_checkpoint s;
|}.

Definition with_justification_bits (x : list bool) (s : BeaconState) : BeaconState := {|
  genesis_time := genesis_time s;
  slot := slot s;
  fork := fork s;
  latest_block_header := latest_block_header s;
  block_roots := block_roots s;
  state_roots := state_roots s;
  historical_roots := historical_roots s;
  eth1_data := eth1_data s;
  eth1_data_votes := eth1_data_votes s;
  eth1_deposit_index := eth1_deposit_index s;
  validators := validators s;
  balances := balances s;
  randao_mixes := randao_mixes s;
  slashings := slashings s;
  previous_epoch_attestations := previous_epoch_attestations s;
  current_epoch_attestations := current_epoch_attestations s;
  justification_bits := x;
  previous_justified_checkpoint := previous_justified_checkpoint s;
  current_justified_checkpoint := current_justified_checkpoint s;
  finalized_checkpoint := finalized_checkpoint s;
|}.

Definition with_previous_justified_checkpoint (x : Checkpoint) (s : BeaconState) : BeaconState := {|
  genesis_time := genesis_time s;
  slot := slot s;
  fork := fork s;
  latest_block_header := latest_block_header s;
  block_roots := block_roots s;
  state_roots := state_roots s;
  historical_roots := historical_roots s;
  eth1_data := eth1_data s;
  eth1_data_votes := eth1_data_votes s;
  eth1_deposit_index := eth1_deposit_index s;
  validators := validators s;
  balances := balances s;
  randao_mixes := randao_mixes s;
  slashings := slashings s;
  previous_epoch_attestations := previous_epoch_attestations s;
  current_epoch_attestations := current_epoch_attestations s;
  justification_bits := justification_bits s;
  previous_justified_checkpoint := x;
  current_justified_checkpoint := current_justified_checkpoint s;
  finalized_checkpoint := finalized_checkpoint s;
|}.

Definition with_current_justified_checkpoint (x : Checkpoint) (s : BeaconState) : BeaconState := {|
  genesis_time := genesis_time s;
  slot := slot s;
  fork := fork s;
  latest_block_header := latest_block_header s;
  block_roots := block_roots s;
  state_roots := state_roots s;
  historical_roots := historical_roots s;
  eth1_data := eth1_data s;
  eth1_data_votes := eth1_data_votes s;
  eth1_deposit_index := eth1_deposit_index s;
  validators := validators s;
  balances := balances s;
  randao_mixes := randao_mixes s;
  slashings := slashings s;
  previous_epoch_attestations := previous_epoch_attestations s;
  current_epoch_attestations := current_epoch_attestations s;
  justification_bits := justification_bits s;
  previous_justified_checkpoint := previous_justified_checkpoint s;
  current_justified_checkpoint := x;
  finalized_checkpoint := finalized_checkpoint s;
|}.

Definition with_finalized_checkpoint (x : Checkpoint) (s : BeaconState) : BeaconState := {|
  genesis_time := genesis_time s;
  slot := slot s;
  fork := fork s;
  latest_block_header := latest_block_header s;
  block_roots := block_roots s;
  state_roots := state_roots s;
  historical_roots := historical_roots s;
  eth1_data := eth1_data s;
  eth1_data_votes := eth1_data_votes s;
  eth1_deposit_index := eth1_deposit_index s;
  validators := validators s;
  balances := balances s;
  randao_mixes := randao_mixes s;
  slashings := slashings s;
  previous_epoch_attestations := previous_epoch_attestations s;
  current_epoch_attestations := current_epoch_attestations s;
  justification_bits := justification_bits s;
  previous_justified_checkpoint := previous_justified_checkpoint s;
  current_justified_checkpoint := current_justified_checkpoint s;
  finalized_checkpoint := x;
|}.

(** [BeaconState::default()] *)
Definition BeaconState_default `{Config} : BeaconState := {|
  genesis_time := 0;
  slot := 0;
  fork := Fork_default;
  latest_block_header := BeaconBlockHeader_default;
  block_roots := replicate (Z.to_nat SlotsPerHistoricalRoot) H256_default;
  state_roots := replicate (Z.to_nat SlotsPerHistoricalRoot) H256_default;
  historical_roots := [];
  eth1_data := Eth1Data_default;
  eth1_data_votes := [];
  eth1_deposit_index := 0;
  validators := [];
  balances := [];
  randao_mixes := replicate (Z.to_nat EpochsPerHistoricalVector) H256_default;
  slashings := replicate (Z.to_nat EpochsPerSlashingsVector) 0;
  previous_epoch_attestations := [];
  current_epoch_attestations := [];
  justification_bits := replicate JustificationBitsLength false;
  previous_justified_checkpoint := Checkpoint_default;
  current_justified_checkpoint := Checkpoint_default;
  finalized_checkpoint := Checkpoint_default;
|}.

(** ** Tree hashing

    [bm_le::tree_root], one function per type it is used at.  The Merkle tree
    library is not in the repository: these are parameters. *)
Class TreeRoot := {
  tree_root_state : BeaconState → H256;
  tree_root_signing_header : SigningBeaconBlockHeader → H256;
  tree_root_body : BeaconBlockBody → H256;
  tree_root_unsealed_block : UnsealedBeaconBlock → H256;
  tree_root_uint : Uint → H256;
  tree_root_historical_batch : HistoricalBatch → H256;
  tree_root_attestation_data : AttestationDataAndCustodyBit → H256;
  tree_root_deposit_data : DepositData → H256;
  tree_root_signing_deposit_data : SigningDepositData → H256;
  tree_root_signing_voluntary_exit : SigningVoluntaryExit → H256;
}.

(** ** Well-formedness *)
Record wf_validator (v : Validator) : Prop := {
  wf_effective_balance : is_u64 (v_effective_balance v);
  wf_eligibility_epoch : is_u64 (v_activation_eligibility_epoch v);
  wf_activation_epoch : is_u64 (v_activation_epoch v);
  wf_exit_epoch : is_u64 (v_exit_epoch v);
  wf_withdrawable_epoch : is_u64 (v_withdrawable_epoch v);
}.

(** What the computations of the transition rely on: the widths of the integers
    it computes with and the lengths of the vectors it indexes.  [Typing] has the
    types of all fields. *)
Record wf_state `{Config} (s : BeaconState) : Prop := {
  wf_slot : is_u64 (slot s);
  wf_block_roots : zlen (block_roots s) = SlotsPerHistoricalRoot;
  wf_state_roots : zlen (state_roots s) = SlotsPerHistoricalRoot;
  wf_deposit_index : is_u64 (eth1_deposit_index s);
  wf_validators : Forall wf_validator (validators s);
  wf_balances : Forall is_u64 (balances s);
  wf_registry : length (balances s) = length (validators s);
  wf_randao : zlen (randao_mixes s) = EpochsPerHistoricalVector;
  wf_slashings : Forall is_u64 (slashings s);
  wf_slashings_len : zlen (slashings s) = EpochsPerSlashingsVector;
  wf_bits : length (justification_bits s) = JustificationBitsLength;
}.

(** Every integer field of the result of an update is a [u64] again. *)
Section Wf.
Context `{Cfg : Config}.

Lemma wf_with_slot s x : is_u64 x → wf_state s → wf_state (with_slot x s).
Proof. by intros ? []. Qed.

Lemma wf_with_latest_block_header s x : wf_state s → wf_state (with_latest_block_header x s).
Proof. by intros []. Qed.

Lemma wf_with_block_roots s l :
  length l = length (block_roots s) → wf_state s → wf_state (with_block_roots l s).
Proof. intros Hl []. split; cbn; try done. unfold zlen in *. by rewrite Hl. Qed.

Lemma wf_with_state_roots s l :
  length l = length (state_roots s) → wf_state s → wf_state (with_state_roots l s).
Proof. intros Hl []. split; cbn; try done. unfold zlen in *. by rewrite Hl. Qed.

Lemma wf_with_historical_roots s l : wf_state s → wf_state (with_historical_roots l s).
Proof. by intros []. Qed.

Lemma wf_with_eth1_data s x : wf_state s → wf_state (with_eth1_data x s).
Proof. by intros []. Qed.

Lemma wf_with_eth1_data_votes s x : wf_state s → wf_state (with_eth1_data_votes x s).
Proof. by intros []. Qed.

Lemma wf_with_eth1_deposit_index s x :
  is_u64 x → wf_state s → wf_state (with_eth1_deposit_index x s).
Proof. by intros ? []. Qed.

Lemma wf_with_validators s l :
  length l = length (validators s) → Forall wf_validator l →
  wf_state s → wf_state (with_validators l s).
Proof. intros Hl Hv []. split; cbn; try done. by rewrite Hl. Qed.

Lemma wf_with_balances s l :
  length l = length (balances s) → Forall is_u64 l →
  wf_state s → wf_state (with_balances l s).
Proof. intros Hl Hv []. split; cbn; try done. by rewrite Hl. Qed.

Lemma wf_with_randao_mixes s l :
  length l = length (randao_mixes s) → wf_state s → wf_state (with_randao_mixes l s).
Proof. intros Hl []. split; cbn; try done. unfold zlen in *. by rewrite Hl. Qed.

Lemma wf_with_slashings s l :
  length l = length (slashings s) → Forall is_u64 l →
  wf_state s → wf_state (with_slashings l s).
Proof. intros Hl Hv []. split; cbn; try done. unfold zlen in *. by rewrite Hl. Qed.

Lemma wf_with_attestations s p c :
  wf_state s →
  wf_state (with_previous_epoch_attestations p s) ∧
  wf_state (with_current_epoch_attestations c s).
Proof. by intros []. Qed.

Lemma wf_with_checkpoints s p c f :
  wf_state s →
  wf_state (with_previous_justified_checkpoint p s) ∧
  wf_state (with_current_justified_checkpoint c s) ∧
  wf_state (with_finalized_checkpoint f s).
Proof. by intros []. Qed.

Lemma wf_with_justification_bits s l :
  length l = JustificationBitsLength → wf_state s → wf_state (with_justification_bits l s).
Proof. by intros ? []. Qed.

(** A new registry entry comes with its balance. *)
Lemma wf_push_validator s v b :
  wf_validator v → is_u64 b → wf_state s →
  wf_state (with_balances (balances s ++ [b]) (with_validators (validators s ++ [v]) s)).
Proof.
  intros Hv Hb []. split; cbn; try done.
  - apply Forall_app. split; [done|by apply Forall_singleton].
  - apply Forall_app. split; [done|by apply Forall_singleton].
  - rewrite !length_app. cbn. lia.
Qed.
End Wf.

#[export] Hint Resolve wf_with_slot wf_with_latest_block_header wf_with_block_roots
  wf_with_state_roots wf_with_historical_roots wf_with_eth1_data wf_with_eth1_data_votes
  wf_with_eth1_deposit_index wf_with_validators wf_with_balances wf_with_randao_mixes
  wf_with_slashings wf_with_justification_bits wf_push_validator : shasper.

Lemma wf_with_v_exit_epoch x v : is_u64 x → wf_validator v → wf_validator (with_v_exit_epoch x v).
Proof. by intros ? []. Qed.
Lemma wf_with_v_withdrawable_epoch x v :
  is_u64 x → wf_validator v → wf_validator (with_v_withdrawable_epoch x v).
Proof. by intros ? []. Qed.
Lemma wf_with_v_slashed x v : wf_validator v → wf_validator (with_v_slashed x v).
Proof. by intros []. Qed.
Lemma wf_with_v_effective_balance x v :
  is_u64 x → wf_validator v → wf_validator (with_v_effective_balance x v).
Proof. by intros ? []. Qed.
Lemma wf_with_v_activation_epoch x v :
  is_u64 x → wf_validator v → wf_validator (with_v_activation_epoch x v).
Proof. by intros ? []. Qed.
Lemma wf_with_v_eligibility_epoch x v :
  is_u64 x → wf_validator v → wf_validator (with_v_activation_eligibility_epoch x v).
Proof. by intros ? []. Qed.

#[export] Hint Resolve wf_with_v_exit_epoch wf_with_v_withdrawable_epoch wf_with_v_slashed
  wf_with_v_effective_balance wf_with_v_activation_epoch wf_with_v_eligibility_epoch : shasper.

(** ** Concrete instances

    Small closed values for the concrete runs: every tree hash and Merkle root
    is the same constant, and a registry of [n] active validators with the
    maximal effective balance. *)
Definition toy_root : H256 := replicate 32 1.

Definition toy_tree : TreeRoot := {|
  tree_root_state := λ _, toy_root;
  tree_root_signing_header := λ _, toy_root;
  tree_root_body := λ _, toy_root;
  tree_root_unsealed_block := λ _, toy_root;
  tree_root_uint := λ _, toy_root;
  tree_root_historical_batch := λ _, toy_root;
  tree_root_attestation_data := λ _, toy_root;
  tree_root_deposit_data := λ _, toy_root;
  tree_root_signing_deposit_data := λ _, toy_root;
  tree_root_signing_voluntary_exit := λ _, toy_root;
|}.

Definition toy_merkle : MerkleTree := {| compact_root := λ _ _ _ _, Some toy_root |}.

Definition toy_validator (i : Z) : Validator :=
  mkValidator (replicate 48 i) H256_default 32000000000 false 0 0 FAR_FUTURE_EPOCH FAR_FUTURE_EPOCH.

(** A state at slot [sl] with [n] validators. *)
Definition toy_state (n sl : Z) : BeaconState :=
  with_slot sl (with_balances ((λ _, 32000000000) <$> zrange 0 n)
    (with_validators (toy_validator <$> zrange 0 n) (BeaconState_default (H:=toy_config)))).

Definition toy_bls : BLSConfig := BLSNoVerification.

(** Well-formedness as a test, for the concrete states. *)
Definition wf_validatorb (v : Validator) : bool :=
  forallb is_u64b [v_effective_balance v; v_activation_eligibility_epoch v; v_activation_epoch v;
    v_exit_epoch v; v_withdrawable_epoch v].

Definition wf_stateb `{Config} (s : BeaconState) : bool :=
  is_u64b (slot s) && (zlen (block_roots s) =? SlotsPerHistoricalRoot) &&
  (zlen (state_roots s) =? SlotsPerHistoricalRoot) && is_u64b (eth1_deposit_index s) &&
  forallb wf_validatorb (validators s) && forallb is_u64b (balances s) &&
  (zlen (balances s) =? zlen (validators s)) && (zlen (randao_mixes s) =? EpochsPerHistoricalVector) &&
  forallb is_u64b (slashings s) && (zlen (slashings s) =? EpochsPerSlashingsVector) &&
  (zlen (justification_bits s) =? Z.of_nat JustificationBitsLength).

Lemma wf_validatorb_spec v : wf_validatorb v = true → wf_validator v.
Proof.
  unfold wf_validatorb. cbn. rewrite !andb_true_iff, !is_u64b_spec. intros (?&?&?&?&?&_). by split.
Qed.

Lemma wf_stateb_spec `{Config} s : wf_stateb s = true → wf_state s.
Proof.
  unfold wf_stateb. rewrite !andb_true_iff, !is_u64b_spec, !Z.eqb_eq, !forallb_forall.
  intros ((((((((((?&?)&?)&?)&Hv)&Hb)&Hl)&?)&Hs)&?)&Hj). unfold zlen in Hl, Hj.
  split; try done; try lia; apply Forall_forall; intros x Hx%list_elem_of_In.
  - by apply wf_validatorb_spec, Hv.
  - by apply is_u64b_spec, Hb.
  - by apply is_u64b_spec, Hs.
Qed.
