(* ===== verification/Accessors.v ===== *)
(** * Reading the beacon state

    The accessors and predicates of [BeaconExecutive]
    ([executive/helpers/accessors.rs], [predicates.rs]), its committee
    assignments ([executive/assignment.rs]) and the fork-choice inputs
    ([executive/choice.rs]).

    [beacon_proposer_index] samples candidates until one is accepted; its loop
    is bounded by the parameter [proposer_fuel].  The theorems show that the
    bound only matters while no candidate is accepted, that sampling ends at
    the first acceptable candidate, and that the committees of an epoch
    partition its active validators. *)
From stdpp Require Import base numbers list sorting.
From Stdlib Require Import ZArith Lia.
From S2P Require Import Prelude Config Types Utils State.

#[local] Open Scope Z_scope.

(** Bound on the iterations of the proposer sampling loop. *)
Class Fuel := proposer_fuel : nat.
Definition toy_fuel : Fuel := 16%nat.

Section Accessors.
Context `{Cfg : Config} `{AM : ArithMode}.

(** Get current epoch. *)
Definition current_epoch (s : BeaconState) : res Error Epoch := epoch_of_slot (slot s).

(** Get previous epoch. *)
Definition previous_epoch (s : BeaconState) : res Error Epoch :=
  current_epoch ← current_epoch s;
  Ok (if current_epoch =? genesis_epoch then genesis_epoch
      else saturating_sub current_epoch 1).

(** Get block root at slot. *)
Definition block_root_at_slot (s : BeaconState) (slot_ : Slot) : res Error H256 :=
  ok ← (if slot_ <? slot s then
          t ← u64_add slot_ slots_per_historical_root; Ok (slot s <=? t)
        else Ok false);
  if negb ok then Err SlotOutOfRange
  else i ← u64_rem slot_ slots_per_historical_root; vec_index (block_roots s) i.

(** Get block root of the start slot of an epoch. *)
Definition block_root (s : BeaconState) (epoch : Epoch) : res Error H256 :=
  sl ← start_slot_of_epoch epoch; block_root_at_slot s sl.

(** Get the randao mix at epoch. *)
Definition randao_mix (s : BeaconState) (epoch : Epoch) : res Error H256 :=
  i ← u64_rem epoch epochs_per_historical_vector; vec_index (randao_mixes s) i.

(** Get active validator indices at epoch. *)
Definition active_validator_indices (s : BeaconState) (epoch : Uint) : list ValidatorIndex :=
  (filter (λ iv, is_active iv.2 epoch = true) (enumerate (validators s))).*1.

(** Get active validator length. *)
Definition active_validator_len (s : BeaconState) (epoch : Uint) : Z :=
  zlen (active_validator_indices s epoch).

(** Get churn limit for validator exits. *)
Definition validator_churn_limit (s : BeaconState) : res Error Uint :=
  c ← current_epoch s;
  q ← u64_div (active_validator_len s c) churn_limit_quotient;
  Ok (Z.max min_per_epoch_churn_limit q).

(** Get the random seed for epoch. *)
Definition seed (s : BeaconState) (epoch : Epoch) (domain_type : Z) : res Error H256 :=
  t ← u64_add epoch epochs_per_historical_vector;
  t ← u64_sub t min_seed_lookahead;
  t ← u64_sub t 1;
  mix ← randao_mix s t;
  Ok (hash [to_le_bytes 4 domain_type; take 8 (to_le_bytes 8 epoch); mix]).

(** Get committee count for epoch. *)
Definition committee_count_at_slot (s : BeaconState) (slot_ : Uint) : res Error Uint :=
  epoch ← epoch_of_slot slot_;
  let active_validator_len := active_validator_len s epoch in
  a ← u64_div active_validator_len slots_per_epoch;
  b ← u64_div a target_committee_size;
  Ok (Z.max 1 (Z.min max_committees_per_slot b)).

(** Get the crosslink committee. *)
Definition beacon_committee (s : BeaconState) (slot_ index : Uint)
  : res Error (list ValidatorIndex) :=
  epoch ← epoch_of_slot slot_;
  committees_per_slot ← committee_count_at_slot s slot_;
  let indices := active_validator_indices s epoch in
  seed ← seed s epoch domain_beacon_attester;
  t ← u64_rem slot_ slots_per_epoch;
  t ← u64_mul t committees_per_slot;
  index ← u64_add t index;
  count ← u64_mul committees_per_slot slots_per_epoch;
  compute_committee indices seed index count.

(** The body of the sampling loop for the [i]-th candidate: the candidate, and
    whether it is accepted. *)
Definition proposer_candidate (s : BeaconState) (seed : H256) (indices : list ValidatorIndex)
  (i : Uint) : res Error (ValidatorIndex * bool) :=
  j ← u64_rem i (zlen indices);
  k ← shuffled_index j (zlen indices) seed;
  candidate_index ← vec_index indices k;
  random_byte ← vec_index (hash [seed; take 8 (to_bytes (i / 32))]) (i mod 32);
  v ← vec_index (validators s) candidate_index;
  a ← u64_mul (v_effective_balance v) 255;
  b ← u64_mul max_effective_balance random_byte;
  Ok (candidate_index, b <=? a).

Fixpoint proposer_loop (fuel : nat) (s : BeaconState) (seed : H256)
  (indices : list ValidatorIndex) (i : Uint) : res Error ValidatorIndex :=
  match fuel with
  | O => OutOfFuel
  | S fuel' =>
      c ← proposer_candidate s seed indices i;
      if (c.2 : bool) then Ok c.1
      else i ← u64_add i 1; proposer_loop fuel' s seed indices i
  end.

(** Get the current beacon proposer index. *)
Definition beacon_proposer_index `{Fuel} (s : BeaconState) : res Error ValidatorIndex :=
  epoch ← current_epoch s;
  sd ← seed s epoch domain_beacon_proposer;
  let seed := hash [sd; take 8 (to_le_bytes 8 (slot s))] in
  let indices := active_validator_indices s epoch in
  proposer_loop proposer_fuel s seed indices 0.

(** Get total balance of validator indices. *)
Definition total_balance (s : BeaconState) (indices : list ValidatorIndex) : res Error Gwei :=
  sum ← res_fold (λ sum index,
    v ← vec_index (validators s) index;
    u64_add sum (v_effective_balance v)) 0 indices;
  Ok (Z.max sum 1).

(** Get total balance of active validators. *)
Definition total_active_balance (s : BeaconState) : res Error Gwei :=
  c ← current_epoch s;
  total_balance s (active_validator_indices s c).

(** Get signing domain, given domain type and message epoch. *)
Definition domain (s : BeaconState) (domain_type : Z) (message_epoch : option Uint)
  : res Error Uint :=
  c ← current_epoch s;
  let epoch := default c message_epoch in
  let fork_version := if epoch <? fork_epoch (fork s) then fork_previous_version (fork s)
                      else fork_current_version (fork s) in
  Ok (bls_domain domain_type fork_version).

(** Get attesting indices of given attestation. *)
Definition attesting_indices (s : BeaconState) (attestation_data : AttestationData)
  (bitfield : list bool) : res Error (list ValidatorIndex) :=
  committee ← beacon_committee s (ad_slot attestation_data) (ad_index attestation_data);
  if negb (zlen committee =? zlen bitfield) then Err AttestationBitFieldInvalid
  else
    let ret := (filter (λ iv, bitfield !! Z.to_nat iv.1 = Some true) (enumerate committee)).*2 in
    Ok (sort ret).

(** Convert an attestation to indexed attestation. *)
Definition indexed_attestation (s : BeaconState) (attestation : Attestation)
  : res Error IndexedAttestation :=
  attesting ← attesting_indices s (at_data attestation) (at_aggregation_bits attestation);
  custody_bit_1_indices ← attesting_indices s (at_data attestation) (at_custody_bits attestation);
  let custody_bit_0_indices := filter (λ index, index ∉ custody_bit_1_indices) attesting in
  Ok {| ia_data := at_data attestation;
        ia_signature := at_signature attestation;
        ia_custody_bit_0_indices := custody_bit_0_indices;
        ia_custody_bit_1_indices := custody_bit_1_indices |}.

(** ** Predicates *)

(** The public keys of a list of validators. *)
Definition pubkeys_of (s : BeaconState) (l : list ValidatorIndex) : res Error (list ValidatorId) :=
  res_map (λ i, v ← vec_index (validators s) i; Ok (v_pubkey v)) l.

(** Check if [indexed_attestation] has valid indices and signature. *)
Definition is_valid_indexed_attestation `{BLSConfig} `{TreeRoot} (s : BeaconState)
  (ia : IndexedAttestation) : res Error bool :=
  let bit_0_indices := ia_custody_bit_0_indices ia in
  let bit_1_indices := ia_custody_bit_1_indices ia in
  if 0 <? zlen bit_1_indices then Ok false
  else if negb (zlen bit_0_indices + zlen bit_1_indices <=? max_validators_per_committee)
  then Ok false
  else if existsb (contains bit_1_indices) bit_0_indices then Ok false
  else if negb (windows2_sorted bit_0_indices) then Ok false
  else if negb (windows2_sorted bit_1_indices) then Ok false
  else
    k0 ← pubkeys_of s bit_0_indices;
    k1 ← pubkeys_of s bit_1_indices;
    d ← domain s domain_beacon_attester (Some (cp_epoch (ad_target (ia_data ia))));
    Ok (verify_multiple
          [aggregate_pubkeys k0; aggregate_pubkeys k1]
          [tree_root_attestation_data (mkAttestationDataAndCustodyBit (ia_data ia) false);
           tree_root_attestation_data (mkAttestationDataAndCustodyBit (ia_data ia) true)]
          (ia_signature ia) d).

(** ** Committee assignment *)

Record CommitteeAssignment := mkCommitteeAssignment {
  ca_validators : list Uint;
  ca_index : Uint;
  ca_slot : Uint;
}.

(** The two nested loops, over the slots of the epoch and the committees of
    each slot; [Some] is the early return. *)
Fixpoint assignment_in_slot (s : BeaconState) (slot_ validator_index : Uint) (indices : list Uint)
  : res Error (option CommitteeAssignment) :=
  match indices with
  | [] => Ok None
  | index :: rest =>
      committee ← beacon_committee s slot_ index;
      if contains committee validator_index
      then Ok (Some (mkCommitteeAssignment committee index slot_))
      else assignment_in_slot s slot_ validator_index rest
  end.

Fixpoint assignment_in_slots (s : BeaconState) (slots : list Uint) (validator_index : Uint)
  : res Error (option CommitteeAssignment) :=
  match slots with
  | [] => Ok None
  | slot_ :: rest =>
      committee_count ← committee_count_at_slot s slot_;
      r ← assignment_in_slot s slot_ validator_index (zrange 0 committee_count);
      match r with
      | Some a => Ok (Some a)
      | None => assignment_in_slots s rest validator_index
      end
  end.

(** Find committee assignment at slot. *)
Definition committee_assignment (s : BeaconState) (epoch validator_index : Uint)
  : res Error (option CommitteeAssignment) :=
  c ← current_epoch s;
  next_epoch ← u64_add c 1;
  if next_epoch <? epoch then Err EpochOutOfRange
  else
    epoch_start_slot ← start_slot_of_epoch epoch;
    end_ ← u64_add epoch_start_slot slots_per_epoch;
    assignment_in_slots s (zrange epoch_start_slot end_) validator_index.

(** Get validator public key. *)
Definition validator_pubkey (s : BeaconState) (index : Uint) : option ValidatorId :=
  if zlen (validators s) <=? index then None
  else v_pubkey <$> validators s !! Z.to_nat index.

(** Get validator index from public key. *)
Definition validator_index (s : BeaconState) (pubkey : ValidatorId) : option Uint :=
  position (λ v, bytes_eqb v pubkey) (v_pubkey <$> validators s).

(** ** Fork choice inputs *)

(** Get justified active validators from current state. *)
Definition justified_active_validators (s : BeaconState) : list Uint :=
  active_validator_indices s (cp_epoch (current_justified_checkpoint s)).

(** Get block attestation vote targets. *)
Definition block_vote_targets (s : BeaconState) (block : BeaconBlock)
  : res Error (list (Uint * H256)) :=
  res_fold (λ ret attestation,
    indexed ← indexed_attestation s attestation;
    Ok (ret ++ ((λ v, (v, cp_root (ad_target (ia_data indexed)))) <$>
      (ia_custody_bit_0_indices indexed ++ ia_custody_bit_1_indices indexed))))
    [] (body_attestations (blk_body block)).
End Accessors.

(** ** The accessors in range *)

Section AccessorLemmas.
Context `{Cfg : Config} `{AM : ArithMode} `{COk : !ConfigOk Cfg}.

Lemma spe_pos : 0 < slots_per_epoch ≤ 2 ^ 13.
Proof using COk. apply slots_per_epoch_pos. Qed.

Lemma epoch_of_slot_ok {E} sl : epoch_of_slot (E:=E) sl = Ok (sl / slots_per_epoch).
Proof using COk. apply u64_div_ok. pose proof slots_per_epoch_pos. unfold slots_per_epoch. lia. Qed.

Lemma current_epoch_ok s : current_epoch s = Ok (slot s / slots_per_epoch).
Proof using COk. apply epoch_of_slot_ok. Qed.

Lemma epoch_range sl : is_u64 sl → 0 ≤ sl / slots_per_epoch ≤ sl.
Proof using COk.
  pose proof slots_per_epoch_pos. unfold is_u64, slots_per_epoch. intros ?. split.
  - apply Z.div_pos; lia.
  - apply Z.div_le_upper_bound; nia.
Qed.

Lemma previous_epoch_ok s :
  previous_epoch s =
  Ok (let c := slot s / slots_per_epoch in
      if c =? genesis_epoch then genesis_epoch else saturating_sub c 1).
Proof using COk. unfold previous_epoch. by rewrite current_epoch_ok. Qed.

Lemma previous_epoch_pos s :
  0 < slot s / slots_per_epoch → previous_epoch s = Ok (slot s / slots_per_epoch - 1).
Proof using COk.
  intros H. rewrite previous_epoch_ok. cbv zeta. rewrite genesis_epoch_zero.
  rewrite (proj2 (Z.eqb_neq _ 0)) by lia. unfold saturating_sub. f_equal. lia.
Qed.

Lemma elem_of_active s e i :
  i ∈ active_validator_indices s e ↔
  0 ≤ i ∧ ∃ v, validators s !! Z.to_nat i = Some v ∧ is_active v e = true.
Proof using Type.
  unfold active_validator_indices. rewrite list_elem_of_fmap. split.
  - intros ([j v] & -> & [Ha Hv]%list_elem_of_filter). apply elem_of_enumerate in Hv as [??]. eauto.
  - intros (Hi & v & Hv & Ha). exists (i, v). split; [done|].
    apply list_elem_of_filter. split; [done|]. by apply elem_of_enumerate.
Qed.

Lemma active_NoDup s e : NoDup (active_validator_indices s e).
Proof using Type.
  unfold active_validator_indices.
  apply (sublist_NoDup _ (enumerate (validators s)).*1).
  - rewrite enumerate_fst. apply NoDup_zrange.
  - apply fmap_sublist, sublist_filter.
Qed.

Lemma active_len_bound s e : 0 ≤ active_validator_len s e ≤ zlen (validators s).
Proof using Type.
  unfold active_validator_len, active_validator_indices. rewrite zlen_fmap.
  split; [apply zlen_nonneg|]. unfold zlen.
  pose proof (length_filter (λ iv, is_active iv.2 e = true) (enumerate (validators s))) as H.
  rewrite <- (length_fmap fst (enumerate _)), enumerate_fst, zrange_length in H.
  unfold zlen in H. lia.
Qed.

Lemma validator_churn_limit_ok s :
  validator_churn_limit s =
  Ok (Z.max min_per_epoch_churn_limit
        (active_validator_len s (slot s / slots_per_epoch) / churn_limit_quotient)).
Proof using COk.
  unfold validator_churn_limit. rewrite current_epoch_ok, res_bind_Ok.
  rewrite u64_div_ok by (pose proof churn_quotient_pos; lia). done.
Qed.

Lemma activation_exit_epoch_ok {E} e :
  0 ≤ e → e < 2 ^ 63 → activation_exit_epoch (E:=E) e = Ok (e + 1 + max_seed_lookahead).
Proof using COk.
  intros H0 He. unfold activation_exit_epoch. pose proof max_lookahead_small.
  rewrite u64_add_ok, res_bind_Ok by u64_lia. apply u64_add_ok. u64_lia.
Qed.
End AccessorLemmas.

(** The proposer only depends on the slot, the registry and the randao mixes. *)
Section Proposer.
Context `{Cfg : Config} `{AM : ArithMode}.

Lemma active_validator_indices_ext s t e :
  validators s = validators t → active_validator_indices s e = active_validator_indices t e.
Proof. unfold active_validator_indices. by intros ->. Qed.

Lemma proposer_candidate_ext s t sd l i :
  validators s = validators t → proposer_candidate s sd l i = proposer_candidate t sd l i.
Proof. unfold proposer_candidate. by intros ->. Qed.

Lemma proposer_loop_ext n s t sd l i :
  validators s = validators t → proposer_loop n s sd l i = proposer_loop n t sd l i.
Proof.
  intros Hv. revert i. induction n as [|n IH]; intros i; cbn; [done|].
  rewrite (proposer_candidate_ext s t) by done.
  destruct (proposer_candidate t sd l i) as [[? []]| | |]; cbn; try done.
  by destruct (u64_add i 1); cbn.
Qed.

Lemma seed_ext s t e d : randao_mixes s = randao_mixes t → seed s e d = seed t e d.
Proof. unfold seed, randao_mix. by intros ->. Qed.

Lemma beacon_proposer_index_ext `{Fuel} s t :
  slot s = slot t → validators s = validators t → randao_mixes s = randao_mixes t →
  beacon_proposer_index s = beacon_proposer_index t.
Proof.
  intros Hs Hv Hr. unfold beacon_proposer_index, current_epoch. rewrite Hs.
  destruct (epoch_of_slot (slot t)) as [e| | |]; cbn; try done.
  rewrite (seed_ext s t) by done. destruct (seed t e _); cbn; try done.
  by rewrite (active_validator_indices_ext s t), (proposer_loop_ext _ s t).
Qed.
End Proposer.

(** ** The proposer *)

Section ProposerLoop.
Context `{Cfg : Config} `{AM : ArithMode}.

(** Sampling returns the first accepted candidate, if it is within the bound. *)
Lemma proposer_loop_iff n s sd l i p :
  0 ≤ i → i + Z.of_nat n < 2 ^ 64 →
  proposer_loop n s sd l i = Ok p ↔
  ∃ k : nat, (k < n)%nat ∧ proposer_candidate s sd l (i + Z.of_nat k) = Ok (p, true) ∧
    ∀ j : nat, (j < k)%nat → ∃ q, proposer_candidate s sd l (i + Z.of_nat j) = Ok (q, false).
Proof.
  revert i. induction n as [|n IH]; intros i Hi Hn; cbn [proposer_loop].
  { split; [done|]. intros (k & ? & _). lia. }
  destruct (proposer_candidate s sd l i) as [[q []]|e| |] eqn:Hc; cbn.
  1:{ split.
      - intros [= ->]. exists 0%nat. rewrite Z.add_0_r. split; [lia|]. split; [done|]. lia.
      - intros ([|k] & Hk & Hp & Hall).
        + rewrite Z.add_0_r in Hp. congruence.
        + destruct (Hall 0%nat) as [q' Hq]; [lia|]. rewrite Z.add_0_r in Hq. congruence. }
  2-4: split; [done|]; intros ([|k] & Hk & Hp & Hall); [rewrite Z.add_0_r in Hp; congruence|];
       destruct (Hall 0%nat) as [q' Hq]; [lia|]; rewrite Z.add_0_r in Hq; congruence.
  rewrite u64_add_ok by (unfold is_u64; lia). cbn. rewrite IH by lia. split.
  - intros (k & Hk & Hp & Hall). exists (S k). split; [lia|].
    replace (i + Z.of_nat (S k)) with (i + 1 + Z.of_nat k) by lia. split; [done|].
    intros [|j] Hj; [rewrite Z.add_0_r; eauto|].
    replace (i + Z.of_nat (S j)) with (i + 1 + Z.of_nat j) by lia. apply Hall. lia.
  - intros ([|k] & Hk & Hp & Hall); [rewrite Z.add_0_r in Hp; congruence|].
    exists k. replace (i + 1 + Z.of_nat k) with (i + Z.of_nat (S k)) by lia.
    split; [lia|]. split; [done|]. intros j Hj.
    replace (i + 1 + Z.of_nat j) with (i + Z.of_nat (S j)) by lia. apply Hall. lia.
Qed.

Context `{COk : !ConfigOk Cfg}.

Lemma seed_total s e d :
  wf_state s → 0 ≤ e → e + 2 ^ 20 < 2 ^ 64 → ∃ sd, seed s e d = Ok sd.
Proof using COk.
  intros Hwf He1 He2. unfold seed. unfold epochs_per_historical_vector.
  pose proof historical_vector_pos. pose proof seed_lookahead_lt.
  rewrite u64_add_ok, res_bind_Ok by u64_lia. rewrite u64_sub_ok, res_bind_Ok by u64_lia.
  rewrite u64_sub_ok, res_bind_Ok by u64_lia.
  unfold randao_mix, epochs_per_historical_vector. rewrite u64_rem_ok, res_bind_Ok by lia.
  set (t := e + _ - _ - _).
  destruct (vec_index_lt (E:=Error) (randao_mixes s) (t mod EpochsPerHistoricalVector))
    as (m & _ & ->); [|cbn; eauto].
  rewrite wf_randao by done. apply Z.mod_pos_bound. lia.
Qed.

(** Every candidate is an active validator, and is always evaluated. *)
Lemma proposer_candidate_total s sd e i :
  wf_state s → 0 < zlen (active_validator_indices s e) ≤ 2 ^ 40 → 0 ≤ i →
  Forall (λ v, v_effective_balance v ≤ 2 ^ 40) (validators s) →
  ∃ p v b, proposer_candidate s sd (active_validator_indices s e) i =
      Ok (p, max_effective_balance * b <=? v_effective_balance v * 255) ∧
    p ∈ active_validator_indices s e ∧ validators s !! Z.to_nat p = Some v ∧ is_u8 b.
Proof using COk.
  intros Hwf Hn Hi Heff. unfold proposer_candidate.
  set (l := active_validator_indices s e) in *.
  rewrite u64_rem_ok, res_bind_Ok by lia.
  pose proof (Z.mod_pos_bound i (zlen l) ltac:(lia)) as Hm.
  rewrite shuffled_index_total, res_bind_Ok by lia.
  destruct (vec_index_lt (E:=Error) l _ (shuffle_range _ sd (zrange 0 shuffle_round_count) _ Hm))
    as (p & Hp & ->). rewrite res_bind_Ok.
  destruct (digest_len (concat [sd; take 8 (to_bytes (i / 32))])) as [Hlen Hu8].
  destruct (vec_index_lt (E:=Error) (hash [sd; take 8 (to_bytes (i / 32))]) (i mod 32))
    as (b & Hb & ->).
  { unfold hash, zlen. rewrite Hlen. apply Z.mod_pos_bound. lia. }
  rewrite res_bind_Ok. pose proof (Forall_lookup_1 _ _ _ _ Hu8 Hb) as Hb8.
  apply list_elem_of_lookup_2 in Hp as Hpl. apply elem_of_active in Hpl as (_ & v & Hv & _).
  rewrite (proj2 (vec_index_Ok _ _ _) Hv), res_bind_Ok.
  pose proof (Forall_lookup_1 _ _ _ _ Heff Hv) as Hve. cbn in Hve.
  pose proof (Forall_lookup_1 _ _ _ _ (wf_validators _ Hwf) Hv) as [Hb0 _ _ _ _].
  pose proof max_effective_small. pose proof increment_pos. unfold is_u8 in Hb8.
  rewrite (u64_mul_ok (v_effective_balance v)), res_bind_Ok by u64_lia.
  rewrite (u64_mul_ok max_effective_balance), res_bind_Ok by (unfold is_u64; nia).
  exists p, v, b. split; [done|]. split; [by eapply list_elem_of_lookup_2|]. done.
Qed.
End ProposerLoop.

(** The proposer is the first accepted candidate of the seeded sequence. *)
Theorem beacon_proposer_index_first `{Config} `{ArithMode} `{!ConfigOk _} `{Fuel} s sd p :
  Z.of_nat proposer_fuel < 2 ^ 64 →
  let epoch := slot s / slots_per_epoch in
  let active := active_validator_indices s epoch in
  let seed' := hash [sd; take 8 (to_le_bytes 8 (slot s))] in
  seed s epoch domain_beacon_proposer = Ok sd →
  beacon_proposer_index s = Ok p ↔
  ∃ k : nat, (k < proposer_fuel)%nat ∧
    proposer_candidate s seed' active (Z.of_nat k) = Ok (p, true) ∧
    ∀ j : nat, (j < k)%nat → ∃ q, proposer_candidate s seed' active (Z.of_nat j) = Ok (q, false).
Proof.
  intros Hf epoch active seed' Hs. unfold beacon_proposer_index.
  rewrite current_epoch_ok, res_bind_Ok. fold epoch. rewrite Hs, res_bind_Ok. cbv zeta.
  by apply proposer_loop_iff.
Qed.

(** With every active validator at the maximal effective balance, one
    sample finds a proposer, and it is an active validator. *)
Theorem beacon_proposer_index_total `{Config} `{ArithMode} `{!ConfigOk _} `{Fuel} s :
  let epoch := slot s / slots_per_epoch in
  wf_state s → slot s < 2 ^ 62 → (0 < proposer_fuel)%nat → zlen (validators s) ≤ 2 ^ 40 →
  active_validator_indices s epoch ≠ [] →
  Forall (λ v, v_effective_balance v = max_effective_balance) (validators s) →
  ∃ p, beacon_proposer_index s = Ok p ∧ p ∈ active_validator_indices s epoch.
Proof.
  intros epoch Hwf Hslot Hf Hlen Hne Heff. unfold beacon_proposer_index.
  rewrite current_epoch_ok, res_bind_Ok. fold epoch.
  pose proof (epoch_range _ (wf_slot _ Hwf)). fold epoch in H2.
  destruct (seed_total s epoch domain_beacon_proposer Hwf) as [sd ->]; [lia..|].
  rewrite res_bind_Ok. cbv zeta. unfold proposer_fuel in *.
  set (sd' := hash _). destruct H1 as [|n]; [lia|]. cbn [proposer_loop].
  pose proof (active_len_bound s epoch). unfold active_validator_len in H1.
  pose proof max_effective_small.
  destruct (proposer_candidate_total s sd' epoch 0) as (p & v & b & -> & Hp & Hv & Hb); [done| |done| |].
  - destruct (active_validator_indices s epoch); [done|]. unfold zlen in *. cbn [length] in *. lia.
  - eapply Forall_impl; [exact Heff|]. cbn. lia.
  - cbn. pose proof (Forall_lookup_1 _ _ _ _ Heff Hv) as Hve. cbn in Hve.
    pose proof increment_pos. unfold is_u8 in Hb.
    replace (_ <=? _) with true by (symmetry; apply Z.leb_le; nia). eauto.
Qed.

(** ** The committees of an epoch *)

Section EpochCommittees.
Context `{Cfg : Config} `{AM : ArithMode} `{COk : !ConfigOk Cfg}.

(** The committees per slot of an epoch. *)
Definition committees_of (s : BeaconState) (e : Epoch) : Z :=
  Z.max 1 (Z.min max_committees_per_slot
    (active_validator_len s e / slots_per_epoch / target_committee_size)).

Lemma committees_of_range s e : 0 < committees_of s e ≤ 2 ^ 10.
Proof using COk. unfold committees_of. pose proof committees_pos. lia. Qed.

Lemma committee_count_at_slot_ok s sl :
  committee_count_at_slot s sl = Ok (committees_of s (sl / slots_per_epoch)).
Proof using COk.
  unfold committee_count_at_slot. rewrite epoch_of_slot_ok, res_bind_Ok.
  pose proof slots_per_epoch_pos. pose proof committee_size_pos.
  rewrite u64_div_ok, res_bind_Ok by (unfold slots_per_epoch; lia).
  by rewrite u64_div_ok by lia.
Qed.

(** The committee at a position of the epoch. *)
Definition committee_at (s : BeaconState) (e : Epoch) (sd : H256) (k : Z) : list ValidatorIndex :=
  let indices := active_validator_indices s e in
  let count := committees_of s e * slots_per_epoch in
  shuffled_member indices sd <$>
    zrange (zlen indices * k / count) (zlen indices * (k + 1) / count).

Lemma beacon_committee_total s e sd sl index :
  zlen (validators s) ≤ 2 ^ 40 → seed s e domain_beacon_attester = Ok sd →
  0 ≤ sl → sl / slots_per_epoch = e → 0 ≤ index < committees_of s e →
  beacon_committee s sl index =
  Ok (committee_at s e sd (sl mod slots_per_epoch * committees_of s e + index)).
Proof using COk.
  intros Hlen Hs Hsl <- Hi. unfold beacon_committee.
  rewrite epoch_of_slot_ok, res_bind_Ok, committee_count_at_slot_ok, res_bind_Ok.
  cbv zeta. rewrite Hs, res_bind_Ok. set (e := sl / slots_per_epoch) in *.
  pose proof (committees_of_range s e). pose proof spe_pos as Hspe.
  rewrite u64_rem_ok, res_bind_Ok by nia.
  assert (0 ≤ sl mod slots_per_epoch < slots_per_epoch) by (apply Z.mod_pos_bound; lia).
  rewrite (u64_mul_ok (sl mod _)), res_bind_Ok by (unfold is_u64; nia).
  rewrite u64_add_ok, res_bind_Ok by (unfold is_u64; nia).
  rewrite u64_mul_ok, res_bind_Ok by (unfold is_u64; nia).
  pose proof (active_len_bound s e). unfold active_validator_len in *.
  apply compute_committee_total; [lia|nia|nia].
Qed.

(** Slots and committees in the order of the assignment loops. *)
Lemma zrange_blocks n c :
  0 ≤ n → 0 ≤ c →
  concat ((λ t, (λ i, t * c + i) <$> zrange 0 c) <$> zrange 0 n) = zrange 0 (n * c).
Proof.
  intros Hn Hc. revert n Hn. apply natlike_ind; [done|]. intros n Hn IH.
  rewrite <- Z.add_1_r, zrange_snoc, fmap_app, concat_app, IH by lia. cbn. rewrite app_nil_r.
  rewrite (zrange_app 0 (n * c) ((n + 1) * c)) by nia. f_equal. apply list_eq. intros k.
  rewrite list_lookup_fmap. apply option_eq. intros x. rewrite fmap_Some. split.
  - intros (y & [-> Hy]%zrange_lookup & ->). apply zrange_lookup. lia.
  - intros [-> Hk]%zrange_lookup. exists (Z.of_nat k). rewrite zrange_lookup. lia.
Qed.

Lemma zrange_shift a n :
  0 ≤ n → zrange a (a + n) = Z.add a <$> zrange 0 n.
Proof.
  intros Hn. apply list_eq. intros k. rewrite list_lookup_fmap. apply option_eq. intros x.
  rewrite fmap_Some. split.
  - intros [-> Hk]%zrange_lookup. exists (Z.of_nat k). rewrite zrange_lookup. lia.
  - intros (y & [-> Hy]%zrange_lookup & ->). apply zrange_lookup. lia.
Qed.

Lemma slot_in_epoch e t :
  0 ≤ t < slots_per_epoch →
  (e * slots_per_epoch + t) / slots_per_epoch = e ∧
  (e * slots_per_epoch + t) mod slots_per_epoch = t.
Proof.
  intros Ht. rewrite Z.add_comm, Z.div_add, Z.mod_add by lia.
  by rewrite Z.div_small, Z.mod_small.
Qed.

(** All the committees of epoch [e], slot by slot. *)
Definition slot_committees (s : BeaconState) (sl : Slot) : res Error (list (list ValidatorIndex)) :=
  count ← committee_count_at_slot s sl; res_map (beacon_committee s sl) (zrange 0 count).

Lemma slot_committees_total s e sd t :
  zlen (validators s) ≤ 2 ^ 40 → seed s e domain_beacon_attester = Ok sd →
  0 ≤ e → 0 ≤ t < slots_per_epoch →
  slot_committees s (e * slots_per_epoch + t) =
  Ok (committee_at s e sd <$> ((λ i, t * committees_of s e + i) <$> zrange 0 (committees_of s e))).
Proof using COk.
  intros Hlen Hs He Ht. unfold slot_committees.
  destruct (slot_in_epoch e t Ht) as [Hd Hm].
  rewrite committee_count_at_slot_ok, Hd, res_bind_Ok, <- list_fmap_compose.
  apply res_map_total. intros i Hi%elem_of_zrange.
  rewrite (beacon_committee_total s e sd), Hm by (done || nia). done.
Qed.

Lemma epoch_committees_total s e sd :
  zlen (validators s) ≤ 2 ^ 40 → seed s e domain_beacon_attester = Ok sd → 0 ≤ e →
  ∃ ls, res_map (slot_committees s)
    (zrange (e * slots_per_epoch) (e * slots_per_epoch + slots_per_epoch)) = Ok ls ∧
  concat ls = committee_at s e sd <$> zrange 0 (committees_of s e * slots_per_epoch).
Proof using COk.
  intros Hlen Hs He. pose proof spe_pos as Hp.
  pose proof (committees_of_range s e).
  rewrite zrange_shift by lia.
  exists ((λ t, committee_at s e sd <$> ((λ i, t * committees_of s e + i) <$> zrange 0 (committees_of s e)))
     <$> zrange 0 slots_per_epoch). split.
  - rewrite res_map_Ok, Forall2_fmap_l. apply Forall2_fmap_r, Forall_Forall2_diag, Forall_forall.
    intros t Ht%elem_of_zrange. by apply slot_committees_total.
  - rewrite (Z.mul_comm (committees_of s e)), <- (zrange_blocks slots_per_epoch), fmap_concat by lia.
    by rewrite <- list_fmap_compose.
Qed.
Lemma committees_perm s e sd (ls : list (list (list ValidatorIndex))) :
  concat ls = committee_at s e sd <$> zrange 0 (committees_of s e * slots_per_epoch) →
  concat (concat ls) ≡ₚ active_validator_indices s e.
Proof using COk.
  intros ->. pose proof spe_pos. pose proof (committees_of_range s e).
  set (n := zlen (active_validator_indices s e)).
  change (committee_at s e sd) with (fmap (M:=list) (shuffled_member (active_validator_indices s e) sd) ∘
    (λ k, zrange (n * k / (committees_of s e * slots_per_epoch))
                 (n * (k + 1) / (committees_of s e * slots_per_epoch)))).
  rewrite list_fmap_compose, <- fmap_concat, committee_ranges_concat by (try apply zlen_nonneg; nia).
  rewrite Z.div_mul by nia. apply shuffled_members_perm.
Qed.
End EpochCommittees.

(** C23: the committees of the slots of an epoch partition the validators
    active in that epoch. *)
Theorem epoch_committees_partition `{Config} `{ArithMode} `{!ConfigOk _} s e :
  wf_state s → zlen (validators s) ≤ 2 ^ 40 → 0 ≤ e < 2 ^ 63 →
  ∃ ls, res_map (slot_committees s)
    (zrange (e * slots_per_epoch) (e * slots_per_epoch + slots_per_epoch)) = Ok ls ∧
  Forall (λ l, zlen l = committees_of s e) ls ∧
  concat (concat ls) ≡ₚ active_validator_indices s e.
Proof.
  intros Hwf Hlen He.
  destruct (seed_total s e domain_beacon_attester Hwf) as [sd Hsd]; [lia..|].
  destruct (epoch_committees_total s e sd Hlen Hsd ltac:(lia)) as (ls & Hls & Hc).
  pose proof spe_pos as Hp.
  pose proof (committees_of_range s e). exists ls. split; [done|]. split.
  - rewrite zrange_shift in Hls by lia. apply res_map_Ok, Forall2_fmap_l in Hls.
    apply Forall_forall. intros l Hl. apply list_elem_of_lookup in Hl as [k Hk].
    destruct (Forall2_lookup_r _ _ _ _ _ Hls Hk) as (t & Ht%list_elem_of_lookup_2%elem_of_zrange & Hlt).
    cbn in Hlt. rewrite (slot_committees_total s e sd) in Hlt by (done || lia).
    injection Hlt as <-. rewrite !zlen_fmap, zlen_zrange; lia.
  - by eapply committees_perm.
Qed.

Section Assignment.
Context `{Cfg : Config} `{AM : ArithMode}.

Definition good_assignment (s : BeaconState) (i : Uint) (a : CommitteeAssignment) : Prop :=
  i ∈ ca_validators a ∧ beacon_committee s (ca_slot a) (ca_index a) = Ok (ca_validators a).

Lemma assignment_in_slot_spec s sl i indices cs :
  res_map (beacon_committee s sl) indices = Ok cs →
  ∃ o, assignment_in_slot s sl i indices = Ok o ∧
    match o with
    | Some a => good_assignment s i a ∧ ca_slot a = sl ∧ i ∈ concat cs
    | None => i ∉ concat cs
    end.
Proof.
  revert cs. induction indices as [|k indices IH]; intros cs; cbn.
  { intros [= <-]. exists None. split; [done|]. apply not_elem_of_nil. }
  intros H. res_inv. rewrite Ha, res_bind_Ok. destruct (contains a i) eqn:Hc.
  - exists (Some (mkCommitteeAssignment a k sl)). split; [done|].
    apply contains_spec in Hc. cbn. rewrite elem_of_app. by repeat split; auto.
  - destruct (IH _ Ha0) as (o & -> & Ho). exists o. split; [done|].
    destruct o; cbn; rewrite elem_of_app; [naive_solver|]. intros [Hi|Hi]; [|done].
    apply contains_spec in Hi. congruence.
Qed.

Lemma assignment_in_slots_spec s slots i ls :
  res_map (slot_committees s) slots = Ok ls →
  ∃ o, assignment_in_slots s slots i = Ok o ∧
    match o with
    | Some a => good_assignment s i a ∧ ca_slot a ∈ slots ∧ i ∈ concat (concat ls)
    | None => i ∉ concat (concat ls)
    end.
Proof.
  revert ls. induction slots as [|sl slots IH]; intros ls; cbn.
  { intros [= <-]. exists None. split; [done|]. apply not_elem_of_nil. }
  intros H. res_inv. unfold slot_committees in Ha. res_inv.
  rewrite Ha1, res_bind_Ok. destruct (assignment_in_slot_spec s sl i _ _ Ha) as (o & -> & Ho).
  rewrite res_bind_Ok. destruct o as [x|].
  - exists (Some x). split; [done|]. destruct Ho as (? & -> & ?). split; [done|].
    split; [left|]. cbn. rewrite concat_app, elem_of_app. by left.
  - destruct (IH _ Ha0) as (o & -> & Ho'). exists o. split; [done|].
    destruct o as [x|]; cbn; rewrite concat_app, elem_of_app; [|tauto].
    destruct Ho' as (? & ? & ?). split; [done|]. split; by right.
Qed.
End Assignment.

(** A committee assignment exists exactly for the validators active in
    the epoch, and names the committee that holds the validator; epochs after
    the next one are refused. *)
Theorem committee_assignment_correct `{Config} `{ArithMode} `{!ConfigOk _} s e i :
  wf_state s → zlen (validators s) ≤ 2 ^ 40 → slot s < 2 ^ 62 → 0 ≤ e →
  let current := slot s / slots_per_epoch in
  (current + 1 < e → committee_assignment s e i = Err EpochOutOfRange) ∧
  (e ≤ current + 1 → ∃ o, committee_assignment s e i = Ok o ∧
    match o with
    | Some a => i ∈ active_validator_indices s e ∧ i ∈ ca_validators a ∧
        beacon_committee s (ca_slot a) (ca_index a) = Ok (ca_validators a) ∧
        e * slots_per_epoch ≤ ca_slot a < (e + 1) * slots_per_epoch
    | None => i ∉ active_validator_indices s e
    end).
Proof.
  intros Hwf Hlen Hsl He current. unfold committee_assignment.
  pose proof (epoch_range _ (wf_slot _ Hwf)). fold current in H1.
  rewrite current_epoch_ok, res_bind_Ok. fold current.
  rewrite u64_add_ok, res_bind_Ok by u64_lia. split; intros Hce.
  { by rewrite (proj2 (Z.ltb_lt _ _) Hce). }
  rewrite (proj2 (Z.ltb_ge _ _) Hce). pose proof spe_pos.
  assert (current * slots_per_epoch ≤ slot s) by (rewrite Z.mul_comm; apply Z.mul_div_le; lia).
  unfold start_slot_of_epoch. rewrite u64_mul_ok, res_bind_Ok by (unfold is_u64; nia).
  rewrite u64_add_ok, res_bind_Ok by (unfold is_u64; nia).
  destruct (seed_total s e domain_beacon_attester Hwf) as [sd Hsd]; [lia..|].
  destruct (epoch_committees_total s e sd Hlen Hsd ltac:(lia)) as (ls & Hls & Hc).
  assert (concat (concat ls) ≡ₚ active_validator_indices s e) as Hperm by by eapply committees_perm.
  destruct (assignment_in_slots_spec s _ i _ Hls) as (o & -> & Ho). exists o. split; [done|].
  destruct o as [a|]; [|by rewrite <- Hperm].
  destruct Ho as ([Hi Hb] & Hsa%elem_of_zrange & Hin). split; [by rewrite <- Hperm|].
  split; [done|]. split; [done|lia].
Qed.

(** ** Witnesses: the theorems on a state of sixteen validators *)

Section Witnesses.
#[local] Existing Instances toy_config toy_config_ok toy_mode toy_fuel.

Lemma beacon_proposer_index_first_witness :
  beacon_proposer_index (toy_state 16 9) = Ok 4 ∧
  ∃ sd, seed (toy_state 16 9) 1 domain_beacon_proposer = Ok sd ∧
  ∃ k : nat, (k < proposer_fuel)%nat ∧
    proposer_candidate (toy_state 16 9) (hash [sd; take 8 (to_le_bytes 8 9)])
      (active_validator_indices (toy_state 16 9) 1) (Z.of_nat k) = Ok (4, true) ∧
    ∀ j : nat, (j < k)%nat → ∃ q,
      proposer_candidate (toy_state 16 9) (hash [sd; take 8 (to_le_bytes 8 9)])
        (active_validator_indices (toy_state 16 9) 1) (Z.of_nat j) = Ok (q, false).
Proof.
  assert (beacon_proposer_index (toy_state 16 9) = Ok 4) as Hp by (vm_compute; reflexivity).
  split; [exact Hp|].
  destruct (seed (toy_state 16 9) 1 domain_beacon_proposer) as [sd| | |] eqn:Hs;
    [|vm_compute in Hs; discriminate Hs..].
  exists sd. split; [done|].
  exact (proj1 (beacon_proposer_index_first (toy_state 16 9) sd 4 ltac:(done) Hs) Hp).
Defined.

Lemma beacon_proposer_index_total_witness :
  ∃ p, beacon_proposer_index (toy_state 16 9) = Ok p ∧ p ∈ active_validator_indices (toy_state 16 9) 1.
Proof.
  refine (beacon_proposer_index_total (toy_state 16 9) _ _ _ _ _ _); try (vm_compute; done).
  - apply wf_stateb_spec. vm_compute. reflexivity.
  - unfold proposer_fuel, toy_fuel. lia.
  - repeat constructor.
Defined.

Lemma epoch_committees_partition_witness :
  ∃ ls, res_map (slot_committees (toy_state 16 9)) (zrange 8 16) = Ok ls ∧
    Forall (λ l, zlen l = committees_of (toy_state 16 9) 1) ls ∧
    concat (concat ls) ≡ₚ active_validator_indices (toy_state 16 9) 1.
Proof.
  refine (epoch_committees_partition (toy_state 16 9) 1 _ _ _); try (vm_compute; done).
  apply wf_stateb_spec. vm_compute. reflexivity.
Defined.

Lemma committee_assignment_correct_witness :
  committee_assignment (toy_state 16 9) 3 4 = Err EpochOutOfRange ∧
  ∃ o, committee_assignment (toy_state 16 9) 2 4 = Ok o ∧
    match o with
    | Some a => 4 ∈ active_validator_indices (toy_state 16 9) 2 ∧ 4 ∈ ca_validators a ∧
        beacon_committee (toy_state 16 9) (ca_slot a) (ca_index a) = Ok (ca_validators a) ∧
        16 ≤ ca_slot a < 24
    | None => 4 ∉ active_validator_indices (toy_state 16 9) 2
    end.
Proof.
  assert (wf_state (toy_state 16 9)) as Hwf by (apply wf_stateb_spec; vm_compute; reflexivity).
  split.
  - refine (proj1 (committee_assignment_correct (toy_state 16 9) 3 4 _ _ _ _) _); (exact Hwf || (vm_compute; done)).
  - refine (proj2 (committee_assignment_correct (toy_state 16 9) 2 4 _ _ _ _) _); (exact Hwf || (vm_compute; done)).
Defined.
End Witnesses.
