(* ===== verification/Mutators.v ===== *)
(** * Balance changes, exits and slashing: [executive/helpers/mutators.rs]

    The commands [increase_balance], [decrease_balance],
    [initiate_validator_exit] and [slash_validator], with their effect on the
    registry: the exit queue never lets more validators share an exit epoch
    than the churn limit allows, and exits are final. *)
From stdpp Require Import base numbers list.
From Stdlib Require Import ZArith Lia.
From S2P Require Import Prelude Config Types Utils State Accessors.

#[local] Open Scope Z_scope.

(** A method of [BeaconExecutive] taking [&mut self]. *)
Notation Exec := (M BeaconState Error).

Section Mutators.
Context `{Cfg : Config} `{AM : ArithMode}.

(** [self.state.validators[index]] written through [f]. *)
Definition modify_validator (index : ValidatorIndex) (f : Validator → Validator) : Exec unit :=
  s ← get;
  v ← lift (vec_index (validators s) index);
  vs ← lift (vec_set (validators s) index (f v));
  put (with_validators vs s).

(** Increase validator balance. *)
Definition increase_balance (index : ValidatorIndex) (delta : Gwei) : Exec unit :=
  s ← get;
  b ← lift (vec_index (balances s) index);
  b' ← lift (u64_add b delta);
  bs ← lift (vec_set (balances s) index b');
  put (with_balances bs s).

(** Decrease validator balance. *)
Definition decrease_balance (index : ValidatorIndex) (delta : Gwei) : Exec unit :=
  s ← get;
  b ← lift (vec_index (balances s) index);
  bs ← lift (vec_set (balances s) index (saturating_sub b delta));
  put (with_balances bs s).

(** The epoch at the tail of the exit queue. *)
Definition exit_queue_tail (s : BeaconState) (activation_exit : Epoch) : Epoch :=
  let exit_epochs := filter (λ e, e ≠ FAR_FUTURE_EPOCH) (v_exit_epoch <$> validators s) in
  Z.max (foldl Z.max 0 exit_epochs) activation_exit.

(** How many validators exit at an epoch. *)
Definition exit_queue_churn (s : BeaconState) (epoch : Epoch) : Z :=
  zlen (filter (λ v, v_exit_epoch v = epoch) (validators s)).

(** Initiate validator exit. *)
Definition initiate_validator_exit (index : ValidatorIndex) : Exec unit :=
  s ← get;
  v ← lift (vec_index (validators s) index);
  if negb (v_exit_epoch v =? FAR_FUTURE_EPOCH) then mret tt
  else
    c ← lift (current_epoch s);
    aee ← lift (activation_exit_epoch c);
    let exit_queue_epoch := exit_queue_tail s aee in
    limit ← lift (validator_churn_limit s);
    exit_queue_epoch ← lift (if limit <=? exit_queue_churn s exit_queue_epoch
                             then u64_add exit_queue_epoch 1 else Ok exit_queue_epoch);
    modify_validator index (with_v_exit_epoch exit_queue_epoch) ;;
    w ← lift (u64_add exit_queue_epoch min_validator_withdrawability_delay);
    modify_validator index (with_v_withdrawable_epoch w).

(** Slash validator. *)
Definition slash_validator `{Fuel} (slashed_index : ValidatorIndex)
  (whistleblower_index : option ValidatorIndex) : Exec unit :=
  s ← get;
  current_epoch ← lift (current_epoch s);
  initiate_validator_exit slashed_index ;;
  modify_validator slashed_index (with_v_slashed true) ;;
  s ← get;
  v ← lift (vec_index (validators s) slashed_index);
  t ← lift (u64_add current_epoch epochs_per_slashings_vector);
  modify_validator slashed_index
    (with_v_withdrawable_epoch (Z.max (v_withdrawable_epoch v) t)) ;;
  let slashed_balance := v_effective_balance v in
  s ← get;
  i ← lift (u64_rem current_epoch epochs_per_slashings_vector);
  x ← lift (vec_index (slashings s) i);
  x' ← lift (u64_add x slashed_balance);
  sl ← lift (vec_set (slashings s) i x');
  put (with_slashings sl s) ;;
  p ← lift (u64_div slashed_balance min_slashing_penalty_quotient);
  decrease_balance slashed_index p ;;
  s ← get;
  proposer_index ← lift (beacon_proposer_index s);
  let whistleblower_index := default proposer_index whistleblower_index in
  whistleblowing_reward ← lift (u64_div slashed_balance whistleblower_reward_quotient);
  proposer_reward ← lift (u64_div whistleblowing_reward proposer_reward_quotient);
  increase_balance proposer_index proposer_reward ;;
  r ← lift (u64_sub whistleblowing_reward proposer_reward);
  increase_balance whistleblower_index r.
End Mutators.

(** ** Well-formedness and frames *)

(** What a command that only touches the registry leaves alone: every field
    but validators, balances and slashings. *)
Definition registry_frame (s : BeaconState) : BeaconState :=
  with_slashings [] (with_balances [] (with_validators [] s)).

(** Time and finality: what only the slot and epoch stages write. *)
Definition finality_frame (s : BeaconState) :=
  (genesis_time s, slot s, fork s, justification_bits s, previous_justified_checkpoint s,
   current_justified_checkpoint s, finalized_checkpoint s).

(** What a command on the registry leaves alone includes time and finality. *)
Lemma registry_to_finality {A} (m : Exec A) :
  steps (same registry_frame) m → steps (same finality_frame) m.
Proof.
  intros Hm s. specialize (Hm s). unfold same in *.
  change (finality_frame (registry_frame (m s).2) = finality_frame (registry_frame s)).
  by rewrite Hm.
Qed.

Section MutatorLemmas.
Context `{Cfg : Config} `{AM : ArithMode}.

Lemma modify_validator_wf i f s :
  (∀ v, v ∈ validators s → wf_validator v → wf_validator (f v)) →
  keeps wf_state s (modify_validator i f s).2.
Proof.
  intros Hf. unfold modify_validator. step_tac. cbn. intros Hwf.
  pose proof (vec_index_Forall wf_validator _ _ _ H (wf_validators _ Hwf)) as Hv.
  apply vec_index_Ok in H. pose proof (list_elem_of_lookup_2 _ _ _ H).
  apply wf_with_validators; [by eapply vec_set_length| |done].
  eapply vec_set_Forall; [done|apply Hwf|auto].
Qed.

Lemma modify_validator_Ok i f s s' :
  modify_validator i f s = (Ok tt, s') ↔
  ∃ v, validators s !! Z.to_nat i = Some v ∧
       s' = with_validators (<[Z.to_nat i := f v]> (validators s)) s.
Proof.
  unfold modify_validator. split.
  - intros H. run_inv. apply vec_index_Ok in Ha. apply vec_set_Ok in Ha0 as [_ ->]. eauto.
  - intros (v & Hv & ->). rewrite Mbind_get.
    rewrite (proj2 (vec_index_Ok _ _ _) Hv), Mbind_lift_Ok.
    unfold vec_set. by rewrite decide_True by by eapply lookup_lt_Some.
Qed.

Lemma modify_validator_total i f s v :
  validators s !! Z.to_nat i = Some v →
  modify_validator i f s = (Ok tt, with_validators (<[Z.to_nat i := f v]> (validators s)) s).
Proof. intros Hv. apply modify_validator_Ok. eauto. Qed.

Lemma modify_validator_frame i f : steps (same registry_frame) (modify_validator i f).
Proof. unfold modify_validator. step_tac. done. Qed.

Lemma increase_balance_Ok i d s s' :
  increase_balance i d s = (Ok tt, s') ↔
  ∃ b b', balances s !! Z.to_nat i = Some b ∧ u64_add b d = Ok (E:=Error) b' ∧
       s' = with_balances (<[Z.to_nat i := b']> (balances s)) s.
Proof.
  unfold increase_balance. split.
  - intros H. run_inv. apply vec_index_Ok in Ha. apply vec_set_Ok in Ha1 as [_ ->]. eauto.
  - intros (b & b' & Hb & Hb' & ->). rewrite Mbind_get.
    rewrite (proj2 (vec_index_Ok _ _ _) Hb), Mbind_lift_Ok, Hb', Mbind_lift_Ok.
    unfold vec_set. by rewrite decide_True by by eapply lookup_lt_Some.
Qed.

Lemma decrease_balance_Ok i d s s' :
  decrease_balance i d s = (Ok tt, s') ↔
  ∃ b, balances s !! Z.to_nat i = Some b ∧
       s' = with_balances (<[Z.to_nat i := saturating_sub b d]> (balances s)) s.
Proof.
  unfold decrease_balance. split.
  - intros H. run_inv. apply vec_index_Ok in Ha. apply vec_set_Ok in Ha0 as [_ ->]. eauto.
  - intros (b & Hb & ->). rewrite Mbind_get.
    rewrite (proj2 (vec_index_Ok _ _ _) Hb), Mbind_lift_Ok.
    unfold vec_set. by rewrite decide_True by by eapply lookup_lt_Some.
Qed.

Lemma increase_balance_wf i d : steps (keeps wf_state) (increase_balance i d).
Proof.
  unfold increase_balance. step_tac. cbn. intros Hwf.
  eapply wf_with_balances; [by eapply vec_set_length|eapply vec_set_Forall|done]; eauto with shasper.
  apply Hwf.
Qed.

Lemma decrease_balance_wf i d : 0 ≤ d → steps (keeps wf_state) (decrease_balance i d).
Proof.
  intros Hd. unfold decrease_balance. step_tac. cbn. intros Hwf.
  pose proof (vec_index_Forall is_u64 _ _ _ H (wf_balances _ Hwf)).
  eapply wf_with_balances; [by eapply vec_set_length|eapply vec_set_Forall|done]; eauto with shasper.
  apply Hwf.
Qed.

Lemma increase_balance_frame i d : steps (same registry_frame) (increase_balance i d).
Proof. unfold increase_balance. step_tac. done. Qed.

Lemma decrease_balance_frame i d : steps (same registry_frame) (decrease_balance i d).
Proof. unfold decrease_balance. step_tac. done. Qed.

Lemma increase_balance_validators i d : steps (same validators) (increase_balance i d).
Proof. unfold increase_balance. step_tac. done. Qed.

Lemma decrease_balance_validators i d : steps (same validators) (decrease_balance i d).
Proof. unfold decrease_balance. step_tac. done. Qed.

(** ** The exit queue *)

Lemma exit_queue_tail_u64 s a : wf_state s → is_u64 a → is_u64 (exit_queue_tail s a).
Proof.
  intros Hwf Ha. unfold exit_queue_tail.
  pose proof (foldl_max_ge 0 (filter (λ e, e ≠ FAR_FUTURE_EPOCH) (v_exit_epoch <$> validators s))).
  enough (foldl Z.max 0 (filter (λ e, e ≠ FAR_FUTURE_EPOCH) (v_exit_epoch <$> validators s)) ≤ u64_max)
    by u64_lia.
  apply foldl_max_lub; [u64_lia|]. intros x [_ (v & -> & Hv)%list_elem_of_fmap]%list_elem_of_filter.
  pose proof (proj1 (Forall_forall _ _) (wf_validators _ Hwf) v Hv) as []. u64_lia.
Qed.

Lemma initiate_validator_exit_wf i : steps (keeps wf_state) (initiate_validator_exit i).
Proof.
  unfold initiate_validator_exit. step_tac.
  - intros Hwf. apply modify_validator_wf; [|done]. intros v _. apply wf_with_v_exit_epoch.
    destruct (_ <=? _); [by eapply u64_add_range|]. injection H3 as <-.
    apply exit_queue_tail_u64; [done|]. unfold activation_exit_epoch in H1. res_inv.
    by eapply u64_add_range.
  - apply modify_validator_wf. intros v _. apply wf_with_v_withdrawable_epoch.
    by eapply u64_add_range.
Qed.

Lemma initiate_validator_exit_frame i : steps (same registry_frame) (initiate_validator_exit i).
Proof. unfold initiate_validator_exit. step_tac; apply modify_validator_frame. Qed.

Lemma initiate_validator_exit_balances i :
  steps (same (λ s, (balances s, slashings s))) (initiate_validator_exit i).
Proof. unfold initiate_validator_exit, modify_validator. step_tac; done. Qed.

(** An exit that has been initiated is never moved. *)
Lemma initiate_validator_exit_idle i s v :
  validators s !! Z.to_nat i = Some v → v_exit_epoch v ≠ FAR_FUTURE_EPOCH →
  initiate_validator_exit i s = (Ok tt, s).
Proof.
  intros Hv Hne. unfold initiate_validator_exit.
  rewrite Mbind_get, (proj2 (vec_index_Ok _ _ _) Hv), Mbind_lift_Ok.
  by rewrite (proj2 (Z.eqb_neq _ _) Hne).
Qed.
End MutatorLemmas.

Section ExitQueue.
Context `{Cfg : Config} `{AM : ArithMode} `{COk : !ConfigOk Cfg}.

(** The registry is within the epochs the queue arithmetic can handle. *)
Definition epochs_in_range (s : BeaconState) : Prop :=
  slot s < 2 ^ 62 ∧
  Forall (λ v, v_exit_epoch v = FAR_FUTURE_EPOCH ∨ v_exit_epoch v < 2 ^ 62) (validators s).

(** The churn limit and the first epoch an exit can take effect in. *)
Definition churn_limit_of (s : BeaconState) : Z :=
  Z.max min_per_epoch_churn_limit
    (active_validator_len s (slot s / slots_per_epoch) / churn_limit_quotient).
Definition earliest_exit (s : BeaconState) : Z :=
  slot s / slots_per_epoch + 1 + max_seed_lookahead.

(** The exit epoch the queue assigns. *)
Definition assigned_exit (s : BeaconState) : Z :=
  let e := exit_queue_tail s (earliest_exit s) in
  if churn_limit_of s <=? exit_queue_churn s e then e + 1 else e.

Lemma exit_queue_tail_range s :
  wf_state s → epochs_in_range s →
  earliest_exit s ≤ exit_queue_tail s (earliest_exit s) < 2 ^ 63.
Proof using COk.
  intros Hwf [Hs Hv]. unfold exit_queue_tail, earliest_exit.
  pose proof (epoch_range (slot s) (wf_slot _ Hwf)). pose proof max_lookahead_small.
  split; [lia|]. apply Z.max_lub_lt; [|lia].
  apply Z.le_lt_trans with (2 ^ 62); [|lia].
  apply foldl_max_lub; [lia|]. intros x [Hx (v & -> & Hin)%list_elem_of_fmap]%list_elem_of_filter.
  pose proof (proj1 (Forall_forall _ _) Hv v Hin) as [?|?]; [done|lia].
Qed.

Lemma assigned_exit_range s :
  wf_state s → epochs_in_range s → earliest_exit s ≤ assigned_exit s ≤ 2 ^ 63.
Proof using COk.
  intros Hwf Hr. pose proof (exit_queue_tail_range s Hwf Hr). unfold assigned_exit.
  cbv zeta. destruct (_ <=? _); lia.
Qed.

(** Nobody leaves the queue later than its tail. *)
Lemma exit_queue_tail_max s a v :
  v ∈ validators s → v_exit_epoch v ≠ FAR_FUTURE_EPOCH → v_exit_epoch v ≤ exit_queue_tail s a.
Proof using Type.
  intros Hv Hne. unfold exit_queue_tail. cbv zeta. etrans; [|apply Z.le_max_l].
  apply foldl_max_elem, list_elem_of_filter. split; [done|]. by apply list_elem_of_fmap_2.
Qed.

Lemma exit_queue_churn_after_tail s a :
  exit_queue_tail s a + 1 ≠ FAR_FUTURE_EPOCH → exit_queue_churn s (exit_queue_tail s a + 1) = 0.
Proof using Type.
  intros Hfar. unfold exit_queue_churn, zlen.
  destruct (filter _ (validators s)) as [|v l] eqn:Hf; [done|]. exfalso.
  assert (v ∈ filter (λ v, v_exit_epoch v = exit_queue_tail s a + 1) (validators s)) as Hv
    by (rewrite Hf; left).
  apply list_elem_of_filter in Hv as [He Hv].
  pose proof (exit_queue_tail_max s a v Hv ltac:(congruence)). lia.
Qed.

Lemma exit_queue_churn_insert s k v v' e :
  validators s !! k = Some v → v_exit_epoch v ≠ e → v_exit_epoch v' = e →
  exit_queue_churn (with_validators (<[k := v']> (validators s)) s) e = exit_queue_churn s e + 1.
Proof using Type.
  intros Hv Hne He. unfold exit_queue_churn, zlen. cbn [validators with_validators].
  pose proof (filter_insert_length (λ w, v_exit_epoch w = e) _ k v v' Hv) as Hf.
  rewrite decide_False, decide_True in Hf by done. lia.
Qed.

Lemma initiate_validator_exit_total i s v :
  wf_state s → epochs_in_range s →
  validators s !! Z.to_nat i = Some v → v_exit_epoch v = FAR_FUTURE_EPOCH →
  initiate_validator_exit i s =
  (Ok tt, with_validators
     (<[Z.to_nat i := with_v_withdrawable_epoch (assigned_exit s + min_validator_withdrawability_delay)
                       (with_v_exit_epoch (assigned_exit s) v)]> (validators s)) s).
Proof using COk.
  intros Hwf Hr Hv Hfar. unfold initiate_validator_exit.
  rewrite Mbind_get, (proj2 (vec_index_Ok _ _ _) Hv), Mbind_lift_Ok.
  rewrite Hfar, Z.eqb_refl. cbn [negb].
  rewrite current_epoch_ok, Mbind_lift_Ok.
  pose proof (epoch_range (slot s) (wf_slot _ Hwf)). destruct Hr as [Hs Hvs] eqn:HR.
  rewrite activation_exit_epoch_ok, Mbind_lift_Ok by lia. cbv zeta.
  fold (earliest_exit s). rewrite validator_churn_limit_ok, Mbind_lift_Ok.
  fold (churn_limit_of s).
  pose proof (exit_queue_tail_range s Hwf Hr). pose proof (assigned_exit_range s Hwf Hr).
  pose proof withdrawability_small.
  assert (0 ≤ earliest_exit s) by (unfold earliest_exit; pose proof max_lookahead_small; lia).
  replace (if churn_limit_of s <=? _ then _ else _) with (Ok (E:=Error) (assigned_exit s)).
  2:{ unfold assigned_exit. cbv zeta. destruct (_ <=? _); [|done]. rewrite u64_add_ok; [done|].
      unfold is_u64. lia. }
  rewrite Mbind_lift_Ok.
  rewrite (Mbind_step _ _ _ _ _ (modify_validator_total i _ s v Hv)).
  rewrite u64_add_ok, Mbind_lift_Ok by u64_lia.
  erewrite modify_validator_total.
  2:{ cbn. apply list_lookup_insert_eq. by eapply lookup_lt_Some. }
  cbn. by rewrite list_insert_insert_eq.
Qed.

Lemma assigned_exit_not_far s :
  wf_state s → epochs_in_range s → assigned_exit s ≠ FAR_FUTURE_EPOCH.
Proof using COk.
  intros Hwf Hr. pose proof (assigned_exit_range s Hwf Hr). unfold FAR_FUTURE_EPOCH, u64_max. lia.
Qed.

Lemma assigned_exit_churn s :
  wf_state s → epochs_in_range s → exit_queue_churn s (assigned_exit s) < churn_limit_of s.
Proof using COk.
  intros Hwf Hr. pose proof (exit_queue_tail_range s Hwf Hr) as Ht.
  unfold assigned_exit. cbv zeta. destruct (Z.leb_spec (churn_limit_of s)
    (exit_queue_churn s (exit_queue_tail s (earliest_exit s)))); [|done].
  rewrite exit_queue_churn_after_tail.
  - unfold churn_limit_of. pose proof churn_pos. lia.
  - unfold FAR_FUTURE_EPOCH, u64_max. lia.
Qed.
End ExitQueue.

(** C25: a validator that is not exiting is given an exit epoch that is at least
    the earliest one the protocol allows and not before anyone already in the
    queue, so that no more validators leave at that epoch than the churn limit
    allows; only this validator changes. *)
Theorem initiate_validator_exit_correct `{Config} `{ArithMode} `{!ConfigOk _} i s v :
  wf_state s → epochs_in_range s →
  validators s !! Z.to_nat i = Some v → v_exit_epoch v = FAR_FUTURE_EPOCH →
  ∃ s' v', initiate_validator_exit i s = (Ok tt, s') ∧
    s' = with_validators (<[Z.to_nat i := v']> (validators s)) s ∧
    v' = with_v_withdrawable_epoch (v_exit_epoch v' + min_validator_withdrawability_delay)
           (with_v_exit_epoch (v_exit_epoch v') v) ∧
    slot s / slots_per_epoch + 1 + max_seed_lookahead ≤ v_exit_epoch v' < FAR_FUTURE_EPOCH ∧
    (∀ w, w ∈ validators s → v_exit_epoch w ≠ FAR_FUTURE_EPOCH → v_exit_epoch w ≤ v_exit_epoch v') ∧
    exit_queue_churn s' (v_exit_epoch v') ≤ churn_limit_of s.
Proof.
  intros Hwf Hr Hv Hfar. do 2 eexists. split; [by eapply initiate_validator_exit_total|].
  split; [done|]. cbn. split; [by destruct v|].
  pose proof (assigned_exit_range s Hwf Hr) as Hrange. unfold earliest_exit in Hrange.
  split; [unfold FAR_FUTURE_EPOCH, u64_max; lia|]. split.
  - intros w Hw Hne. pose proof (exit_queue_tail_max s (earliest_exit s) w Hw Hne).
    unfold assigned_exit. cbv zeta. destruct (_ <=? _); lia.
  - pose proof (assigned_exit_churn s Hwf Hr) as Hc.
    rewrite (exit_queue_churn_insert s _ v) by (try done; by rewrite Hfar; apply not_eq_sym, assigned_exit_not_far).
    lia.
Qed.

(** ** Slashing *)

Lemma insert_as_alter {A} (f : A → A) (l : list A) k x :
  l !! k = Some x → <[k := f x]> l = alter f k l.
Proof.
  intros Hx. apply list_eq. intros j. destruct (decide (k = j)) as [->|Hne].
  - rewrite list_lookup_alter_eq, Hx. cbn. apply list_lookup_insert_eq. by eapply lookup_lt_Some.
  - by rewrite list_lookup_insert_ne, list_lookup_alter_ne.
Qed.

Section Slashing.
Context `{Cfg : Config} `{AM : ArithMode} `{COk : !ConfigOk Cfg} `{F : Fuel}.

Lemma increase_balance_alter i d s s' :
  increase_balance i d s = (Ok tt, s') →
  0 ≤ d → Forall (λ b, 0 ≤ b ∧ b + d < 2 ^ 64) (balances s) →
  s' = with_balances (alter (Z.add d) (Z.to_nat i) (balances s)) s.
Proof using Type.
  intros (b & b' & Hb & Hb' & ->)%increase_balance_Ok Hd Hall.
  pose proof (Forall_lookup_1 _ _ _ _ Hall Hb) as [??].
  apply u64_add_inv in Hb'; [|u64_lia]. subst b'. f_equal.
  rewrite Z.add_comm. by apply insert_as_alter.
Qed.

Lemma decrease_balance_alter i d s s' :
  decrease_balance i d s = (Ok tt, s') →
  s' = with_balances (alter (λ b, saturating_sub b d) (Z.to_nat i) (balances s)) s.
Proof using Type.
  intros (b & Hb & ->)%decrease_balance_Ok. f_equal.
  by apply (insert_as_alter (λ b, saturating_sub b d)).
Qed.

Lemma slash_validator_wf i w : steps (keeps wf_state) (slash_validator i w).
Proof using COk.
  unfold slash_validator. step_tac.
  - apply initiate_validator_exit_wf.
  - apply modify_validator_wf. intros v _. apply wf_with_v_slashed.
  - intros Hwf. apply modify_validator_wf; [|done]. intros v _.
    apply wf_with_v_withdrawable_epoch.
    pose proof (vec_index_Forall _ _ _ _ H2 (wf_validators _ Hwf)) as [].
    apply u64_add_range in H3. u64_lia.
  - intros Hwf. apply wf_with_slashings; [by eapply vec_set_length| |done].
    eapply vec_set_Forall; [done|apply Hwf|by eapply u64_add_range].
  - intros Hwf. apply decrease_balance_wf; [|done]. apply u64_div_inv in H9 as [_ ->].
    destruct a4. apply modify_validator_Ok in H4 as (u & Hu & ->).
    apply vec_index_Ok in H2. rewrite H2 in Hu. injection Hu as <-.
    pose proof (Forall_lookup_1 _ _ (Z.to_nat i) _ (wf_validators _ Hwf)
      (list_lookup_insert_eq _ _ _ (lookup_lt_Some _ _ _ H2))) as [Hb _ _ _ _].
    pose proof slashing_quotient_pos. apply Z.div_pos; [apply Hb|done].
  - apply increase_balance_wf.
  - apply increase_balance_wf.
Qed.

Lemma slash_validator_frame i w : steps (same registry_frame) (slash_validator i w).
Proof using Type.
  unfold slash_validator. step_tac; auto using initiate_validator_exit_frame,
    modify_validator_frame, decrease_balance_frame, increase_balance_frame.
  all: try done. all: apply increase_balance_frame || apply modify_validator_frame
    || apply initiate_validator_exit_frame || apply decrease_balance_frame.
Qed.

(** The validator after an initiated exit: queued, or left as it was when it
    is already exiting. *)
Definition exiting (s : BeaconState) (v : Validator) : Validator :=
  if v_exit_epoch v =? FAR_FUTURE_EPOCH
  then with_v_withdrawable_epoch (assigned_exit s + min_validator_withdrawability_delay)
         (with_v_exit_epoch (assigned_exit s) v)
  else v.

Lemma initiate_validator_exit_effect i s s' :
  wf_state s → epochs_in_range s → initiate_validator_exit i s = (Ok tt, s') →
  ∃ v, validators s !! Z.to_nat i = Some v ∧
    s' = with_validators (<[Z.to_nat i := exiting s v]> (validators s)) s.
Proof using COk.
  intros Hwf Hr Hrun.
  assert (∃ v, validators s !! Z.to_nat i = Some v) as [v Hv].
  { unfold initiate_validator_exit in Hrun. run_inv; apply vec_index_Ok in Ha; eauto. }
  exists v. split; [done|]. unfold exiting.
  destruct (Z.eqb_spec (v_exit_epoch v) FAR_FUTURE_EPOCH) as [Hfar|Hne].
  - rewrite (initiate_validator_exit_total i s v) in Hrun by done. by injection Hrun as <-.
  - rewrite (initiate_validator_exit_idle i s v) in Hrun by done. injection Hrun as <-.
    rewrite list_insert_id by done. by destruct s.
Qed.

(** The validator after it has been slashed. *)
Definition slashed_validator (s : BeaconState) (v : Validator) : Validator :=
  with_v_withdrawable_epoch
    (Z.max (v_withdrawable_epoch (exiting s v)) (slot s / slots_per_epoch + epochs_per_slashings_vector))
    (with_v_slashed true (exiting s v)).

Lemma exiting_effective s v : v_effective_balance (exiting s v) = v_effective_balance v.
Proof using Type. unfold exiting. by destruct (_ =? _). Qed.

(** The rewards of a slashing never exceed the slashed balance. *)
Lemma slashing_rewards_le eb :
  0 ≤ eb →
  0 ≤ eb / whistleblower_reward_quotient ≤ eb ∧
  0 ≤ eb / whistleblower_reward_quotient / proposer_reward_quotient ≤ eb / whistleblower_reward_quotient.
Proof using COk.
  intros Heb. pose proof whistleblower_quotient_pos. pose proof proposer_quotient_pos.
  assert (0 ≤ eb / whistleblower_reward_quotient ≤ eb)
    by (split; [apply Z.div_pos; lia|apply Z.div_le_upper_bound; nia]).
  split; [done|]. split; [apply Z.div_pos; lia|apply Z.div_le_upper_bound; nia].
Qed.

(** Balances far from overflow, effective balances capped. *)
Definition balances_in_range (s : BeaconState) : Prop :=
  Forall (λ b, b < 2 ^ 62) (balances s) ∧
  Forall (λ v, v_effective_balance v ≤ max_effective_balance) (validators s).
End Slashing.

Lemma Forall_alter_Z (P Q : Z → Prop) f k l :
  Forall P l → (∀ x, P x → Q x) → (∀ x, P x → Q (f x)) → Forall Q (alter f k l).
Proof.
  intros Hl H1 H2. apply Forall_lookup. intros j x. rewrite list_lookup_alter. case_decide.
  - intros (y & Hy & ->)%fmap_Some. apply H2. by eapply Forall_lookup_1.
  - intros Hy. apply H1. by eapply Forall_lookup_1.
Qed.

(** The balances after the penalty of a slashing stay in range. *)
Lemma penalized_range d k (l : list Z) :
  0 ≤ d → Forall is_u64 l → Forall (λ b, b < 2 ^ 62) l →
  Forall (λ b, 0 ≤ b < 2 ^ 62) (alter (λ b, saturating_sub b d) k l).
Proof.
  intros Hd Hu Hb. apply (Forall_alter_Z (λ b, 0 ≤ b < 2 ^ 62)); [|done|unfold saturating_sub; lia].
  apply Forall_forall. intros b Hin. split.
  - apply (proj1 (Forall_forall _ _) Hu b Hin).
  - apply (proj1 (Forall_forall _ _) Hb b Hin).
Qed.

(** C24: a slashing that succeeds marks the validator, puts it in the exit queue
    unless it is already exiting, and keeps it from withdrawing for the length
    of the slashings vector; its effective balance is added to the slashed
    balance of the epoch, the penalty is taken from its balance, the proposer
    and the whistleblower share the reward, and nothing else changes. *)
Theorem slash_validator_correct `{Config} `{ArithMode} `{!ConfigOk _} `{Fuel} i w s s' :
  wf_state s → epochs_in_range s → balances_in_range s →
  slash_validator i w s = (Ok tt, s') →
  ∃ v p x,
    let eb := v_effective_balance v in
    let reward := eb / whistleblower_reward_quotient in
    let proposer_reward := reward / proposer_reward_quotient in
    let k := Z.to_nat (slot s / slots_per_epoch mod epochs_per_slashings_vector) in
    validators s !! Z.to_nat i = Some v ∧
    validators s' = <[Z.to_nat i := slashed_validator s v]> (validators s) ∧
    slashings s !! k = Some x ∧
    (x + eb < 2 ^ 64 → slashings s' = <[k := x + eb]> (slashings s)) ∧
    balances s' =
      alter (Z.add (reward - proposer_reward)) (Z.to_nat (default p w))
        (alter (Z.add proposer_reward) (Z.to_nat p)
          (alter (λ b, saturating_sub b (eb / min_slashing_penalty_quotient)) (Z.to_nat i)
             (balances s))) ∧
    beacon_proposer_index s' = Ok p ∧
    registry_frame s' = registry_frame s.
Proof.
  intros Hwf Hr [Hbal Heff] Hrun.
  pose proof (slash_validator_frame i w s) as Hframe. rewrite Hrun in Hframe. cbn in Hframe.
  unfold slash_validator in Hrun. run_inv.
  rewrite current_epoch_ok in Ha. injection Ha as <-. destruct a0.
  apply initiate_validator_exit_effect in Ha0 as (v & Hv & ->); [|done..].
  pose proof (lookup_lt_Some _ _ _ Hv) as Hlt.
  destruct a1. apply modify_validator_Ok in Ha1 as (v1 & Hv1 & ->). cbn in Hv1.
  rewrite list_lookup_insert_eq in Hv1 by done. injection Hv1 as <-.
  cbn in Ha2. apply vec_index_Ok in Ha2.
  rewrite list_insert_insert_eq, list_lookup_insert_eq in Ha2 by done. injection Ha2 as <-. cbn in *.
  pose proof (epoch_range _ (wf_slot _ Hwf)). destruct Hr as [Hslot _]. pose proof slashings_vector_pos.
  apply u64_add_inv in Ha3; [|unfold epochs_per_slashings_vector; u64_lia]. subst a3.
  destruct a4. apply modify_validator_Ok in Ha4 as (v2 & Hv2 & ->). cbn in Hv2.
  rewrite list_insert_insert_eq, list_lookup_insert_eq in Hv2 by done. injection Hv2 as <-. cbn in *.
  apply u64_rem_inv in Ha5 as [_ ->]. apply vec_index_Ok in Ha6.
  apply vec_set_Ok in Ha8 as [_ ->]. apply u64_div_inv in Ha9 as [_ ->].
  destruct a10. apply decrease_balance_alter in Ha10. cbn in Ha10. subst t2.
  apply u64_div_inv in Ha12 as [_ ->]. apply u64_div_inv in Ha13 as [_ ->].
  rewrite exiting_effective in *.
  pose proof (Forall_lookup_1 _ _ _ _ (wf_validators _ Hwf) Hv) as [[Heb _] _ _ _ _].
  pose proof (Forall_lookup_1 _ _ _ _ Heff Hv) as Hebm. cbn in Hebm. pose proof max_effective_small.
  set (eb := v_effective_balance v) in *. destruct (slashing_rewards_le eb Heb).
  set (rw := eb / whistleblower_reward_quotient) in *. set (pr := rw / proposer_reward_quotient) in *.
  pose proof slashing_quotient_pos.
  assert (0 ≤ eb / min_slashing_penalty_quotient) as Hpen by (apply Z.div_pos; lia).
  pose proof (penalized_range _ (Z.to_nat i) _ Hpen (wf_balances _ Hwf) Hbal) as Hb1.
  destruct a14. apply increase_balance_alter in Ha14; [|lia|eapply Forall_impl; [exact Hb1|cbn; lia]].
  cbn in Ha14. subst t3. apply u64_sub_inv in Ha15; [|u64_lia]. subst a15.
  apply increase_balance_alter in Hrun; [|lia|cbn; eapply Forall_alter_Z; [exact Hb1|cbn; lia..]].
  cbn in Hrun. subst s'. cbn. exists v, a11, a6. cbv zeta.
  do 2 (split; [by rewrite ?list_insert_insert_eq|]). split; [done|].
  split; [|split; [done|]; split; [rewrite <- Ha11; by apply beacon_proposer_index_ext|done]].
  intros Hx. apply u64_add_inv in Ha7; [by subst|].
  pose proof (Forall_lookup_1 _ _ _ _ (wf_slashings _ Hwf) Ha6). u64_lia.
Qed.

(** ** Witnesses *)

Section Witnesses.
#[local] Existing Instances toy_config toy_config_ok toy_mode toy_fuel.

Lemma toy_epochs_in_range : epochs_in_range (toy_state 16 9).
Proof. split; [vm_compute; done|]. repeat constructor. Qed.

Lemma initiate_validator_exit_correct_witness :
  ∃ s' v', initiate_validator_exit 3 (toy_state 16 9) = (Ok tt, s') ∧
    s' = with_validators (<[3%nat := v']> (validators (toy_state 16 9))) (toy_state 16 9) ∧
    v' = with_v_withdrawable_epoch (v_exit_epoch v' + min_validator_withdrawability_delay)
           (with_v_exit_epoch (v_exit_epoch v') (toy_validator 3)) ∧
    slot (toy_state 16 9) / slots_per_epoch + 1 + max_seed_lookahead ≤ v_exit_epoch v' < FAR_FUTURE_EPOCH ∧
    (∀ w, w ∈ validators (toy_state 16 9) → v_exit_epoch w ≠ FAR_FUTURE_EPOCH → v_exit_epoch w ≤ v_exit_epoch v') ∧
    exit_queue_churn s' (v_exit_epoch v') ≤ churn_limit_of (toy_state 16 9).
Proof.
  apply (initiate_validator_exit_correct 3 (toy_state 16 9) (toy_validator 3)); try done.
  - apply wf_stateb_spec. vm_compute. reflexivity.
  - apply toy_epochs_in_range.
Defined.

Lemma slash_validator_correct_witness :
  let s := toy_state 16 9 in let s' := (slash_validator 3 None s).2 in
  slash_validator 3 None s = (Ok tt, s') ∧
  ∃ v p x,
    let eb := v_effective_balance v in
    let reward := eb / whistleblower_reward_quotient in
    let proposer_reward := reward / proposer_reward_quotient in
    let k := Z.to_nat (slot s / slots_per_epoch mod epochs_per_slashings_vector) in
    validators s !! Z.to_nat 3 = Some v ∧
    validators s' = <[Z.to_nat 3 := slashed_validator s v]> (validators s) ∧
    slashings s !! k = Some x ∧
    (x + eb < 2 ^ 64 → slashings s' = <[k := x + eb]> (slashings s)) ∧
    balances s' =
      alter (Z.add (reward - proposer_reward)) (Z.to_nat p)
        (alter (Z.add proposer_reward) (Z.to_nat p)
          (alter (λ b, saturating_sub b (eb / min_slashing_penalty_quotient)) (Z.to_nat 3)
             (balances s))) ∧
    beacon_proposer_index s' = Ok p ∧
    registry_frame s' = registry_frame s.
Proof.
  intros s s'. assert (slash_validator 3 None s = (Ok tt, s')) as Hrun by (vm_compute; reflexivity).
  split; [exact Hrun|]. refine (slash_validator_correct 3 None s s' _ _ _ Hrun).
  - apply wf_stateb_spec. vm_compute. reflexivity.
  - apply toy_epochs_in_range.
  - split; repeat constructor; done.
Defined.
End Witnesses.
