(* ===== verification/Justification.v ===== *)
(** * Casper FFG justification and finalization: [components/justification.rs]

    The generic [Justifier] of the components crate, written against the traits
    [Checkpoint] and [JustifierRegistry] of [components/mod.rs]; the beacon
    state instantiates them in [Epoch].  The theorems are about every registry:
    justified and finalized epochs only grow, and a finalized epoch is followed
    by one or two further epochs that all had a two-thirds majority. *)
From stdpp Require Import base numbers list.
From Stdlib Require Import ZArith Lia.
From S2P Require Import Prelude Config.

#[local] Open Scope Z_scope.

(** The trait [Checkpoint]. *)
Class CheckpointT (C : Type) := checkpoint_epoch : C → Epoch.

(** The trait [JustifierRegistry], its associated types as parameters. *)
Class JustifierRegistry (R C E : Type) := {
  registry_total_active_balance : R → res E Gwei;
  attesting_target_balance : R → C → res E Gwei;
}.

Record Justifier (C : Type) := mkJustifier {
  j_justification_bits : list bool;
  j_current_justified_checkpoint : C;
  j_previous_justified_checkpoint : C;
  j_finalized_checkpoint : C;
}.
Arguments mkJustifier {C} _ _ _ _.
Arguments j_justification_bits {C} _.
Arguments j_current_justified_checkpoint {C} _.
Arguments j_previous_justified_checkpoint {C} _.
Arguments j_finalized_checkpoint {C} _.

Section Process.
Context {R C E : Type} `{CheckpointT C} `{JustifierRegistry R C E} `{AM : ArithMode}.

Definition with_j_bits (b : list bool) (j : Justifier C) : Justifier C :=
  mkJustifier b (j_current_justified_checkpoint j) (j_previous_justified_checkpoint j)
    (j_finalized_checkpoint j).
Definition with_j_current (c : C) (j : Justifier C) : Justifier C :=
  mkJustifier (j_justification_bits j) c (j_previous_justified_checkpoint j)
    (j_finalized_checkpoint j).
Definition with_j_previous (c : C) (j : Justifier C) : Justifier C :=
  mkJustifier (j_justification_bits j) (j_current_justified_checkpoint j) c
    (j_finalized_checkpoint j).
Definition with_j_finalized (c : C) (j : Justifier C) : Justifier C :=
  mkJustifier (j_justification_bits j) (j_current_justified_checkpoint j)
    (j_previous_justified_checkpoint j) c.

(** [attesting_target_balance(checkpoint)? * 3 >= total_active_balance() * 2] *)
Definition has_supermajority (registry : R) (checkpoint : C) : res E bool :=
  a ← attesting_target_balance registry checkpoint;
  a3 ← u64_mul a 3;
  t ← registry_total_active_balance registry;
  t2 ← u64_mul t 2;
  Ok (t2 <=? a3).

(** Justify [checkpoint] under bit [i] when it has the majority. *)
Definition justify (registry : R) (checkpoint : C) (i : Z) : M (Justifier C) E unit :=
  b ← lift (has_supermajority registry checkpoint);
  if (b : bool) then
    j ← get;
    put (with_j_current checkpoint j) ;;
    j ← get;
    bits ← lift (vec_set (j_justification_bits j) i true);
    put (with_j_bits bits j)
  else mret tt.

(** One of the four finalization rules: the bits [a..b] are all set and
    [source] is [n] epochs back. *)
Definition finalize_rule (bits : list bool) (a b : Z) (source : C) (n current_epoch : Z)
  : M (Justifier C) E unit :=
  range ← lift (slice bits a b);
  if forallb id range then
    e ← lift (u64_add (checkpoint_epoch source) n);
    if e =? current_epoch then j ← get; put (with_j_finalized source j) else mret tt
  else mret tt.

(** [Justifier::process] *)
Definition process (previous_checkpoint current_checkpoint : C) (registry : R)
  : M (Justifier C) E unit :=
  j ← get;
  let current_epoch := checkpoint_epoch current_checkpoint in
  let old_previous_justified_checkpoint := j_previous_justified_checkpoint j in
  let old_current_justified_checkpoint := j_current_justified_checkpoint j in
  put (with_j_previous old_current_justified_checkpoint j) ;;
  j ← get;
  let old_justification_bits := j_justification_bits j in
  let justification_bits_len := zlen old_justification_bits in
  src ← lift (slice old_justification_bits 0 (justification_bits_len - 1));
  bits ← lift (vec_set (take 1 old_justification_bits ++ src) 0 false);
  put (with_j_bits bits j) ;;
  justify registry previous_checkpoint 1 ;;
  justify registry current_checkpoint 0 ;;
  j ← get;
  let bits := j_justification_bits j in
  finalize_rule bits 1 4 old_previous_justified_checkpoint 3 current_epoch ;;
  finalize_rule bits 1 3 old_previous_justified_checkpoint 2 current_epoch ;;
  finalize_rule bits 0 3 old_current_justified_checkpoint 2 current_epoch ;;
  finalize_rule bits 0 2 old_current_justified_checkpoint 1 current_epoch.
End Process.

(** ** What one call does *)

Section ProcessLemmas.
Context {R C E : Type} `{CC : CheckpointT C} `{JR : JustifierRegistry R C E} `{AM : ArithMode}.
Implicit Types (j : Justifier C) (r : R) (p c : C).

(** The two majorities as booleans. *)
Definition majority (r : R) (c : C) : bool :=
  match has_supermajority r c with Ok b => b | _ => false end.

(** The bits after the shift and the two majority tests. *)
Definition next_bits (mp mc b0 b1 b2 : bool) : list bool := [mc; mp || b0; b1; b2].

Lemma justify_Ok r c i j j' :
  justify r c i j = (Ok tt, j') →
  (i < zlen (j_justification_bits j)) →
  j' = if majority r c
       then with_j_bits (<[Z.to_nat i := true]> (j_justification_bits j)) (with_j_current c j)
       else j.
Proof.
  intros Hrun Hi. unfold justify in Hrun. apply Mbind_lift in Hrun as (b & Hb & Hrun).
  unfold majority. rewrite Hb. destruct b; run_inv; [|done].
  apply vec_set_Ok in Ha as [_ ->]. done.
Qed.

(** The condition under which a rule fires. *)
Definition rule_fires (bits : list bool) (a b : Z) (source : C) (n e : Z) : bool :=
  forallb id (take (Z.to_nat (b - a)) (drop (Z.to_nat a) bits)) &&
  (checkpoint_epoch source + n =? e).

Lemma finalize_rule_Ok bits a b src n e j j' :
  finalize_rule (E:=E) bits a b src n e j = (Ok tt, j') →
  0 ≤ checkpoint_epoch src → 0 ≤ n → checkpoint_epoch src + n < 2 ^ 64 →
  j' = if rule_fires bits a b src n e then with_j_finalized src j else j.
Proof.
  intros Hrun H0 Hn H1. unfold finalize_rule in Hrun.
  apply Mbind_lift in Hrun as (l & [_ ->]%slice_Ok & Hrun). unfold rule_fires.
  destruct (forallb id _); run_inv; cbn; try done;
    apply u64_add_inv in Ha; try u64_lia; subst; by rewrite Heqb0.
Qed.

(** The finalized checkpoint after the four rules, the last one that fires
    winning. *)
Definition next_finalized (bits : list bool) (p c f : C) (e : Z) : C :=
  if rule_fires bits 0 2 c 1 e then c
  else if rule_fires bits 0 3 c 2 e then c
  else if rule_fires bits 1 3 p 2 e then p
  else if rule_fires bits 1 4 p 3 e then p
  else f.

(** Epochs of checkpoints are [u64] values that leave room for the rules. *)
Definition epoch_ok (c : C) : Prop := 0 ≤ checkpoint_epoch c < 2 ^ 62.

Lemma process_Ok p c r j j' b0 b1 b2 b3 :
  process p c r j = (Ok tt, j') →
  j_justification_bits j = [b0; b1; b2; b3] →
  epoch_ok (j_previous_justified_checkpoint j) → epoch_ok (j_current_justified_checkpoint j) →
  let bits := next_bits (majority r p) (majority r c) b0 b1 b2 in
  j' = mkJustifier bits
    (if majority r c then c else if majority r p then p else j_current_justified_checkpoint j)
    (j_current_justified_checkpoint j)
    (next_finalized bits (j_previous_justified_checkpoint j) (j_current_justified_checkpoint j)
       (j_finalized_checkpoint j) (checkpoint_epoch c)).
Proof.
  intros Hrun Hbits Hp Hc bits. unfold process in Hrun. cbv zeta in Hrun.
  unfold epoch_ok in *. run_inv. cbn in Ha, Ha0. rewrite Hbits in Ha, Ha0.
  apply slice_Ok in Ha as [_ ->]. apply vec_set_Ok in Ha0 as [_ ->]. cbn in Ha1.
  destruct a1, a2, a3, a4, a5.
  apply justify_Ok in Ha1 as ->; [|done]. apply justify_Ok in Ha2 as ->; [|by destruct (majority r p)].
  set (j2 := if majority r c then _ else _) in *.
  assert (j2 = mkJustifier bits
    (if majority r c then c else if majority r p then p else j_current_justified_checkpoint j)
    (j_current_justified_checkpoint j) (j_finalized_checkpoint j)) as Hj2.
  { unfold j2, bits, next_bits. by destruct (majority r c), (majority r p). }
  clearbody j2. subst j2. cbn [j_justification_bits] in *.
  apply finalize_rule_Ok in Ha3 as ->; [|lia..]. apply finalize_rule_Ok in Ha4 as ->; [|lia..].
  apply finalize_rule_Ok in Ha5 as ->; [|lia..]. apply finalize_rule_Ok in Hrun as ->; [|lia..].
  unfold next_finalized. by repeat case_match.
Qed.

(** With both majorities decided and epochs in range the call succeeds. *)
Lemma finalize_rule_total bits a b src n e j :
  a ≤ b ≤ zlen bits → epoch_ok src → 0 ≤ n ≤ 3 →
  ∃ j', finalize_rule (E:=E) bits a b src n e j = (Ok tt, j').
Proof.
  intros Hab [] Hn. unfold finalize_rule. rewrite slice_ok, Mbind_lift_Ok by lia.
  destruct (forallb id _); [|by eexists].
  rewrite u64_add_ok, Mbind_lift_Ok by u64_lia. destruct (_ =? e); by eexists.
Qed.

Lemma justify_total r c i j mc :
  has_supermajority r c = Ok mc → 0 ≤ i < zlen (j_justification_bits j) →
  justify r c i j = (Ok tt, if majority r c
       then with_j_bits (<[Z.to_nat i := true]> (j_justification_bits j)) (with_j_current c j)
       else j).
Proof.
  intros Hm Hi. unfold justify, majority. rewrite Hm, Mbind_lift_Ok. destruct mc; [|done].
  rewrite Mbind_get, Mbind_put, Mbind_get. by rewrite vec_set_in, Mbind_lift_Ok.
Qed.

Lemma process_total p c r j mp mc :
  length (j_justification_bits j) = 4%nat →
  epoch_ok (j_previous_justified_checkpoint j) → epoch_ok (j_current_justified_checkpoint j) →
  has_supermajority r p = Ok mp → has_supermajority r c = Ok mc →
  ∃ j', process p c r j = (Ok tt, j').
Proof.
  intros Hl Hp Hc Hmp Hmc. unfold process. cbv zeta. rewrite Mbind_get, Mbind_put, Mbind_get.
  destruct (j_justification_bits j) as [|b0 [|b1 [|b2 [|b3 [|]]]]] eqn:Hb; try done.
  cbn [j_justification_bits with_j_previous]. rewrite Hb.
  rewrite slice_ok, Mbind_lift_Ok by (unfold zlen; cbn; lia).
  rewrite vec_set_in, Mbind_lift_Ok by (unfold zlen; cbn; lia). rewrite Mbind_put.
  change (with_j_bits _ _) with (mkJustifier [false; b0; b1; b2] (j_current_justified_checkpoint j)
    (j_current_justified_checkpoint j) (j_finalized_checkpoint j)).
  set (j0 := mkJustifier _ _ _ _).
  rewrite (Mbind_step _ _ _ _ _ (justify_total r p 1 j0 mp Hmp ltac:(done))).
  set (j1 := if majority r p then _ else _).
  assert (zlen (j_justification_bits j1) = 4) as H1 by (unfold j1, zlen; by destruct (majority r p)).
  rewrite (Mbind_step _ _ _ _ _ (justify_total r c 0 j1 mc Hmc ltac:(lia))), Mbind_get.
  set (j2 := if majority r c then _ else _).
  assert (zlen (j_justification_bits j2) = 4) as H4.
  { unfold j2, zlen in *. destruct (majority r c); [|done]. cbn. by rewrite length_insert. }
  destruct (finalize_rule_total (j_justification_bits j2) 1 4 (j_previous_justified_checkpoint j) 3
    (checkpoint_epoch c) j2) as [j3 H3]; [lia|done|lia|]. rewrite (Mbind_step _ _ _ _ _ H3).
  destruct (finalize_rule_total (j_justification_bits j2) 1 3 (j_previous_justified_checkpoint j) 2
    (checkpoint_epoch c) j3) as [j5 H5]; [lia|done|lia|]. rewrite (Mbind_step _ _ _ _ _ H5).
  destruct (finalize_rule_total (j_justification_bits j2) 0 3 (j_current_justified_checkpoint j) 2
    (checkpoint_epoch c) j5) as [j6 H6]; [lia|done|lia|]. rewrite (Mbind_step _ _ _ _ _ H6).
  apply finalize_rule_total; [lia|done|lia].
Qed.

(** The number of bits never changes, whatever the outcome of a call. *)
Definition four_bits j : Prop := length (j_justification_bits j) = 4%nat.

Lemma justify_four_bits r c i : steps (keeps four_bits) (justify r c i).
Proof.
  unfold justify. step_tac; [by intros ?|]. intros H4. red. cbn. rewrite <- H4. by eapply vec_set_length.
Qed.

Lemma finalize_rule_four_bits bits a b src n e :
  steps (keeps four_bits) (finalize_rule (E:=E) bits a b src n e).
Proof. unfold finalize_rule. step_tac. by intros ?. Qed.

Lemma process_four_bits p c r : steps (keeps four_bits) (process p c r).
Proof.
  unfold process. step_tac; try apply justify_four_bits; try apply finalize_rule_four_bits; [by intros ?|].
  intros H4. red in H4. cbn in *. apply slice_Ok in H as [_ ->]. apply vec_set_length in H0.
  red. cbn. rewrite H0, length_app, !length_take, length_drop. unfold zlen. rewrite H4. done.
Qed.

(** The order of the three checkpoints up to an epoch. *)
Record justifier_ok (e : Z) (j : Justifier C) : Prop := {
  jok_bits : length (j_justification_bits j) = 4%nat;
  jok_finalized : 0 ≤ checkpoint_epoch (j_finalized_checkpoint j) ≤
                  checkpoint_epoch (j_previous_justified_checkpoint j);
  jok_previous : checkpoint_epoch (j_previous_justified_checkpoint j) ≤
                 checkpoint_epoch (j_current_justified_checkpoint j);
  jok_current : checkpoint_epoch (j_current_justified_checkpoint j) ≤ e;
}.

Lemma justifier_ok_epochs e j :
  justifier_ok e j → e < 2 ^ 62 →
  epoch_ok (j_previous_justified_checkpoint j) ∧ epoch_ok (j_current_justified_checkpoint j).
Proof. intros [] He. unfold epoch_ok. lia. Qed.

Lemma next_finalized_cases bits p c f e :
  next_finalized bits p c f e = f ∨ next_finalized bits p c f e = p ∨ next_finalized bits p c f e = c.
Proof. unfold next_finalized. repeat case_match; auto. Qed.

Lemma justifier_bits e j :
  justifier_ok e j → ∃ b0 b1 b2 b3, j_justification_bits j = [b0; b1; b2; b3].
Proof.
  intros [Hl _ _ _]. destruct (j_justification_bits j) as [|b0 [|b1 [|b2 [|b3 [|]]]]]; try done. eauto.
Qed.

(** Processing epoch [e + 1] keeps the order, and no checkpoint moves back. *)
Lemma process_ok_step e p c r j j' :
  justifier_ok e j → 0 ≤ e < 2 ^ 62 → checkpoint_epoch p = e → checkpoint_epoch c = e + 1 →
  process p c r j = (Ok tt, j') →
  justifier_ok (e + 1) j' ∧
  checkpoint_epoch (j_finalized_checkpoint j) ≤ checkpoint_epoch (j_finalized_checkpoint j') ∧
  checkpoint_epoch (j_current_justified_checkpoint j)
    ≤ checkpoint_epoch (j_current_justified_checkpoint j') ∧
  j_previous_justified_checkpoint j' = j_current_justified_checkpoint j.
Proof.
  intros Hj He Hp Hc Hrun. destruct (justifier_bits e j Hj) as (b0 & b1 & b2 & b3 & Hb).
  destruct (justifier_ok_epochs e j Hj) as [Hpe Hce]; [lia|].
  apply (process_Ok _ _ _ _ _ b0 b1 b2 b3) in Hrun as ->; [|done..]. destruct Hj.
  set (nf := next_finalized _ _ _ _ _).
  assert (checkpoint_epoch (j_finalized_checkpoint j) ≤ checkpoint_epoch nf
    ≤ checkpoint_epoch (j_current_justified_checkpoint j)) as Hnf.
  { unfold nf. destruct (next_finalized_cases (next_bits (majority r p) (majority r c) b0 b1 b2)
      (j_previous_justified_checkpoint j) (j_current_justified_checkpoint j)
      (j_finalized_checkpoint j) (checkpoint_epoch c)) as [->|[->| ->]]; lia. }
  clearbody nf. split; [split; cbn; try done; [lia|..]|cbn; split; [lia|split; [|done]]];
    destruct (majority r c), (majority r p); lia.
Qed.
End ProcessLemmas.

(** ** Runs over consecutive epochs *)

Section Runs.
Context {R C E : Type} `{CC : CheckpointT C} `{JR : JustifierRegistry R C E} `{AM : ArithMode}.

(** The justifier after processing the epochs [e0 + 1 .. e], and the inputs of
    the calls that led there. *)
Inductive reaches (e0 : Z) (j0 : Justifier C) : Z → list (C * C * R) → Justifier C → Prop :=
  | reaches_init : reaches e0 j0 e0 [] j0
  | reaches_step e tr j p c r j' :
      reaches e0 j0 e tr j →
      checkpoint_epoch p = e → checkpoint_epoch c = e + 1 → e + 1 < 2 ^ 62 →
      process p c r j = (Ok tt, j') →
      reaches e0 j0 (e + 1) (tr ++ [(p, c, r)]) j'.

(** A checkpoint that attesters with two thirds of the active balance voted
    for as a target, in some call of the run. *)
Definition justified_in (tr : list (C * C * R)) (cp : C) : Prop :=
  ∃ p c r a t, (p, c, r) ∈ tr ∧ (cp = p ∨ cp = c) ∧
    attesting_target_balance r cp = Ok a ∧ registry_total_active_balance r = Ok t ∧ 2 * t ≤ 3 * a.

Definition epoch_justified_in (tr : list (C * C * R)) (n : Z) : Prop :=
  ∃ cp, justified_in tr cp ∧ checkpoint_epoch cp = n.

(** Balances that leave room for the multiplications. *)
Definition registry_bounded (r : R) : Prop :=
  (∀ c a, attesting_target_balance r c = Ok a → 0 ≤ a < 2 ^ 62) ∧
  (∀ t, registry_total_active_balance r = Ok t → 0 ≤ t < 2 ^ 62).

Lemma majority_sound r c :
  registry_bounded r → majority r c = true →
  ∃ a t, attesting_target_balance r c = Ok a ∧ registry_total_active_balance r = Ok t ∧ 2 * t ≤ 3 * a.
Proof.
  intros [Ba Bt]. unfold majority, has_supermajority.
  destruct (attesting_target_balance r c) as [a| | |] eqn:Ha; cbn; try done.
  specialize (Ba _ _ Ha). rewrite u64_mul_ok by u64_lia. cbn.
  destruct (registry_total_active_balance r) as [t| | |] eqn:Ht; cbn; try done.
  specialize (Bt _ eq_refl). rewrite u64_mul_ok by u64_lia. cbn. intros ?%Z.leb_le.
  exists a, t. split; [done|]. split; [done|]. lia.
Qed.

Lemma justified_in_mono tr x cp : justified_in tr cp → justified_in (tr ++ [x]) cp.
Proof.
  intros (p & c & r & a & t & Hin & H). exists p, c, r, a, t.
  split; [|done]. apply elem_of_app. by left.
Qed.

Lemma epoch_justified_in_mono tr x n : epoch_justified_in tr n → epoch_justified_in (tr ++ [x]) n.
Proof. intros (cp & Hj & He). exists cp. split; [by apply justified_in_mono|done]. Qed.

Lemma justified_in_last tr p c r cp :
  registry_bounded r → cp = p ∨ cp = c → majority r cp = true → justified_in (tr ++ [(p, c, r)]) cp.
Proof.
  intros Hb Hcp (a & t & Ha & Ht & Hle)%majority_sound; [|done].
  exists p, c, r, a, t. split; [|done]. apply elem_of_app. right. by left.
Qed.

(** The finalized checkpoint, as the run justifies it: [k] further epochs are
    justified without a gap. *)
Definition finality_evidence (tr : list (C * C * R)) (f : Z) (e : Z) : Prop :=
  ∃ k, (k = 1 ∨ k = 2) ∧ f + k ≤ e ∧ ∀ i, 0 ≤ i ≤ k → epoch_justified_in tr (f + i).

(** What is known of a justifier after epoch [e] of a run. *)
Record run_inv_at (j0 : Justifier C) (e : Z) (tr : list (C * C * R)) (j : Justifier C) : Prop := {
  ri_ok : justifier_ok e j;
  ri_bits : ∀ k : nat, j_justification_bits j !! k = Some true → epoch_justified_in tr (e - Z.of_nat k);
  ri_current : j_current_justified_checkpoint j = j_current_justified_checkpoint j0 ∨
               justified_in tr (j_current_justified_checkpoint j);
  ri_previous : j_previous_justified_checkpoint j = j_previous_justified_checkpoint j0 ∨
                j_previous_justified_checkpoint j = j_current_justified_checkpoint j0 ∨
                justified_in tr (j_previous_justified_checkpoint j);
  ri_finalized : j_finalized_checkpoint j = j_finalized_checkpoint j0 ∨
                 finality_evidence tr (checkpoint_epoch (j_finalized_checkpoint j)) e ∧
                 (j_finalized_checkpoint j = j_previous_justified_checkpoint j0 ∨
                  j_finalized_checkpoint j = j_current_justified_checkpoint j0 ∨
                  justified_in tr (j_finalized_checkpoint j));
}.

(** The bits of the next epoch, read as justified epochs. *)
Lemma next_bits_sound tr p c r e b0 b1 b2 b3 :
  registry_bounded r → checkpoint_epoch p = e → checkpoint_epoch c = e + 1 →
  (∀ k : nat, [b0; b1; b2; b3] !! k = Some true → epoch_justified_in tr (e - Z.of_nat k)) →
  ∀ k : nat, next_bits (majority r p) (majority r c) b0 b1 b2 !! k = Some true →
    epoch_justified_in (tr ++ [(p, c, r)]) (e + 1 - Z.of_nat k).
Proof.
  intros Hb Hp Hc Hbits k Hk.
  destruct k as [|[|[|[|k]]]]; cbn in Hk; injection Hk as Hk || done.
  - exists c. split; [apply justified_in_last; auto|]. lia.
  - apply orb_true_iff in Hk as [Hk| ->].
    + exists p. split; [apply justified_in_last; auto|]. lia.
    + replace (e + 1 - Z.of_nat 1) with (e - Z.of_nat 0) by lia.
      apply epoch_justified_in_mono, Hbits. done.
  - subst b1. replace (e + 1 - Z.of_nat 2) with (e - Z.of_nat 1) by lia.
    apply epoch_justified_in_mono, Hbits. done.
  - subst b2. replace (e + 1 - Z.of_nat 3) with (e - Z.of_nat 2) by lia.
    apply epoch_justified_in_mono, Hbits. done.
Qed.

(** A rule that fires has the evidence in the bits. *)
Lemma rule_fires_evidence tr bits a b src n e k :
  rule_fires bits a b src n e = true →
  (∀ i : nat, bits !! i = Some true → epoch_justified_in tr (e - Z.of_nat i)) →
  length bits = 4%nat → 0 ≤ a → n = b - 1 → b ≤ 4 → k = n - a → k = 1 ∨ k = 2 →
  finality_evidence tr (checkpoint_epoch src) e.
Proof.
  intros [Hall He%Z.eqb_eq]%andb_true_iff Hbits Hlen Ha -> Hb -> Hk.
  exists (b - 1 - a). split; [done|]. split; [lia|]. intros i Hi.
  replace (checkpoint_epoch src + i) with (e - Z.of_nat (Z.to_nat (b - 1 - i))) by lia.
  apply Hbits. destruct (lookup_lt_is_Some_2 bits (Z.to_nat (b - 1 - i))) as [x Hx]; [lia|].
  rewrite Hx. f_equal. apply (proj1 (forallb_forall _ _) Hall x). apply list_elem_of_In.
  apply list_elem_of_lookup. exists (Z.to_nat (b - 1 - i - a)).
  rewrite lookup_take_lt by lia. rewrite lookup_drop. rewrite <- Hx. f_equal. lia.
Qed.

Lemma next_finalized_evidence tr bits p c f e :
  (∀ i : nat, bits !! i = Some true → epoch_justified_in tr (e - Z.of_nat i)) →
  length bits = 4%nat →
  next_finalized bits p c f e = f ∨
  (next_finalized bits p c f e = p ∨ next_finalized bits p c f e = c) ∧
  finality_evidence tr (checkpoint_epoch (next_finalized bits p c f e)) e.
Proof.
  intros Hbits Hlen. unfold next_finalized.
  destruct (rule_fires bits 0 2 c 1 e) eqn:H1;
    [right; split; [auto|]; eapply (rule_fires_evidence _ _ 0 2 _ 1 _ 1); eauto; lia|].
  destruct (rule_fires bits 0 3 c 2 e) eqn:H2;
    [right; split; [auto|]; eapply (rule_fires_evidence _ _ 0 3 _ 2 _ 2); eauto; lia|].
  destruct (rule_fires bits 1 3 p 2 e) eqn:H3;
    [right; split; [auto|]; eapply (rule_fires_evidence _ _ 1 3 _ 2 _ 1); eauto; lia|].
  destruct (rule_fires bits 1 4 p 3 e) eqn:H4;
    [right; split; [auto|]; eapply (rule_fires_evidence _ _ 1 4 _ 3 _ 2); eauto; lia|].
  by left.
Qed.

Lemma finality_evidence_mono tr x f e : finality_evidence tr f e → finality_evidence (tr ++ [x]) f (e + 1).
Proof.
  intros (k & Hk & Hle & Hall). exists k. split; [done|]. split; [lia|].
  intros i Hi. by apply epoch_justified_in_mono, Hall.
Qed.

Lemma run_inv_step j0 e tr j p c r j' :
  run_inv_at j0 e tr j → registry_bounded r → 0 ≤ e < 2 ^ 62 →
  checkpoint_epoch p = e → checkpoint_epoch c = e + 1 → process p c r j = (Ok tt, j') →
  run_inv_at j0 (e + 1) (tr ++ [(p, c, r)]) j'.
Proof.
  intros [Hok Hbits Hcur Hprev Hfin] Hreg He Hp Hc Hrun.
  destruct (process_ok_step e p c r j j' Hok He Hp Hc Hrun) as (Hok' & _).
  destruct (justifier_bits e j Hok) as (b0 & b1 & b2 & b3 & Hb). rewrite Hb in Hbits.
  destruct (justifier_ok_epochs e j Hok) as [Hpe Hce]; [lia|].
  apply (process_Ok _ _ _ _ _ b0 b1 b2 b3) in Hrun as ->; [|done..].
  pose proof (next_bits_sound tr p c r e b0 b1 b2 b3 Hreg Hp Hc Hbits) as Hnb.
  set (bits := next_bits _ _ _ _ _) in *. split; cbn [j_justification_bits
    j_current_justified_checkpoint j_previous_justified_checkpoint j_finalized_checkpoint]; [done|done|..].
  - destruct (majority r c) eqn:Hmc; [right; apply justified_in_last; auto|].
    destruct (majority r p) eqn:Hmp; [right; apply justified_in_last; auto|].
    destruct Hcur; [by left|right; by apply justified_in_mono].
  - destruct Hcur; [by auto|right; right; by apply justified_in_mono].
  - rewrite Hc. destruct (next_finalized_evidence (tr ++ [(p, c, r)]) bits
      (j_previous_justified_checkpoint j) (j_current_justified_checkpoint j)
      (j_finalized_checkpoint j) (e + 1) Hnb eq_refl) as [->|[Hsrc Hev]].
    + destruct Hfin as [?|[Hev Hfj]]; [by left|right].
      split; [by apply finality_evidence_mono|].
      destruct Hfj as [?|[?|?]]; auto using justified_in_mono.
    + right. split; [done|]. destruct Hsrc as [-> | ->].
      * destruct Hprev as [?|[?|?]]; auto using justified_in_mono.
      * destruct Hcur as [?|?]; auto using justified_in_mono.
Qed.

Lemma reaches_inv e0 j0 e tr j :
  justifier_ok e0 j0 → 0 ≤ e0 → j_justification_bits j0 = replicate 4 false →
  reaches e0 j0 e tr j → Forall (λ x, registry_bounded x.2) tr → e0 ≤ e ∧ run_inv_at j0 e tr j.
Proof.
  intros Hok He0 Hbits Hr. induction Hr as [|e tr j p c r j' Hr IH Hp Hc He Hrun]; intros Hreg.
  - split; [done|]. split; [done| |by left..]. rewrite Hbits. intros k.
    by intros [? _]%lookup_replicate_1.
  - apply Forall_app in Hreg as [Hreg Hlast]. rewrite Forall_singleton in Hlast. cbn in Hlast.
    destruct (IH Hreg) as [Hle HI]. split; [lia|].
    eapply (run_inv_step j0 e tr j p c r); eauto. lia.
Qed.
End Runs.

(** Whatever the registry reports, a successful call keeps the finalized,
    previously justified and justified epochs in order and moves none back. *)
Theorem process_monotone {R C E} `{CheckpointT C} `{JustifierRegistry R C E} `{ArithMode}
  (e : Z) (p c : C) (r : R) (j : Justifier C) :
  justifier_ok e j → 0 ≤ e < 2 ^ 62 → checkpoint_epoch p = e → checkpoint_epoch c = e + 1 →
  is_ok (has_supermajority r p) = true → is_ok (has_supermajority r c) = true →
  ∃ j', process p c r j = (Ok tt, j') ∧ justifier_ok (e + 1) j' ∧
    checkpoint_epoch (j_finalized_checkpoint j) ≤ checkpoint_epoch (j_finalized_checkpoint j') ∧
    checkpoint_epoch (j_current_justified_checkpoint j)
      ≤ checkpoint_epoch (j_current_justified_checkpoint j') ∧
    j_previous_justified_checkpoint j' = j_current_justified_checkpoint j.
Proof.
  intros Hok He Hp Hc Hmp Hmc.
  destruct (has_supermajority r p) as [mp| | |] eqn:Emp; try done.
  destruct (has_supermajority r c) as [mc| | |] eqn:Emc; try done.
  destruct (justifier_ok_epochs e j Hok) as [Hpe Hce]; [lia|].
  destruct (process_total p c r j mp mc (jok_bits _ _ Hok) Hpe Hce Emp Emc) as [j' Hrun].
  exists j'. split; [done|]. by eapply process_ok_step.
Qed.

(** C1: in every run over consecutive epochs, the finalized checkpoint is the
    initial one, or it and the next one or two epochs all had a two-thirds
    majority during the run. *)
Theorem finality_sound {R C E} `{CheckpointT C} `{JustifierRegistry R C E} `{ArithMode}
  (e0 : Z) (j0 : Justifier C) (e : Z) (tr : list (C * C * R)) (j : Justifier C) :
  justifier_ok e0 j0 → 0 ≤ e0 → j_justification_bits j0 = replicate 4 false →
  reaches e0 j0 e tr j → Forall (λ x, registry_bounded x.2) tr →
  justifier_ok e j ∧
  (j_finalized_checkpoint j = j_finalized_checkpoint j0 ∨
   finality_evidence tr (checkpoint_epoch (j_finalized_checkpoint j)) e ∧
   (j_finalized_checkpoint j = j_previous_justified_checkpoint j0 ∨
    j_finalized_checkpoint j = j_current_justified_checkpoint j0 ∨
    justified_in tr (j_finalized_checkpoint j))).
Proof.
  intros Hok He0 Hbits Hr Hreg.
  destruct (reaches_inv e0 j0 e tr j Hok He0 Hbits Hr Hreg) as [_ [? _ _ _ ?]]. done.
Qed.

(** ** Witnesses: two epochs in which two thirds of the balance attest *)

Section Witnesses.
(** Checkpoints are epochs; a registry is its total and attesting balances. *)
#[local] Instance toy_checkpoint : CheckpointT Z := id.
#[local] Instance toy_registry : JustifierRegistry (Z * Z) Z unit := {|
  registry_total_active_balance := λ r, Ok r.1;
  attesting_target_balance := λ r _, Ok r.2;
|}.
#[local] Existing Instance toy_mode.

Definition toy_justifier : Justifier Z := mkJustifier (replicate 4 false) 0 0 0.

Lemma toy_justifier_ok : justifier_ok 0 toy_justifier.
Proof. split; vm_compute; done. Qed.

Lemma process_monotone_witness :
  ∃ j', process 0 1 (3, 2) toy_justifier = (Ok tt, j') ∧ justifier_ok 1 j' ∧
    0 ≤ j_finalized_checkpoint j' ∧ 0 ≤ j_current_justified_checkpoint j' ∧
    j_previous_justified_checkpoint j' = 0.
Proof.
  refine (process_monotone 0 0 1 (3, 2) toy_justifier toy_justifier_ok _ _ _ _ _); done.
Defined.

Lemma finality_sound_witness :
  let tr := [(0, 1, (3, 2)); (1, 2, (3, 2))] in
  let j := mkJustifier [true; true; true; false] 2 1 1 in
  justifier_ok 2 j ∧
  (j_finalized_checkpoint j = j_finalized_checkpoint toy_justifier ∨
   finality_evidence tr (j_finalized_checkpoint j) 2 ∧
   (j_finalized_checkpoint j = j_previous_justified_checkpoint toy_justifier ∨
    j_finalized_checkpoint j = j_current_justified_checkpoint toy_justifier ∨
    justified_in tr (j_finalized_checkpoint j))).
Proof.
  intros tr j. refine (finality_sound 0 toy_justifier 2 tr j toy_justifier_ok _ _ _ _); [done..| |].
  - apply (reaches_step 0 toy_justifier 1 [(0, 1, (3, 2))]
      (mkJustifier [true; true; false; false] 1 0 0) 1 2 (3, 2)); try done.
    apply (reaches_step 0 toy_justifier 0 [] toy_justifier 0 1 (3, 2)); try done.
    apply reaches_init.
  - repeat constructor; cbn in *; simplify_eq; lia.
Defined.
End Witnesses.
