(* ===== verification/Reward.v ===== *)
(** * Rewards over an abstract registry: [components/reward.rs]

    The traits [Validator], [Attestation] and [Registry] of
    [components/mod.rs] as classes, and the reward component written against
    them.  The two [BTreeMap]s of deltas are association lists in key order. *)
From stdpp Require Import base numbers list.
From Stdlib Require Import ZArith Lia.
From S2P Require Import Prelude Config Utils Justification.

#[local] Open Scope Z_scope.

(** The trait [Validator]. *)
Class ValidatorT (V C E : Type) := validator_is_eligible : V → C → res E bool.

(** The trait [Attestation]. *)
Class AttestationT (A : Type) := {
  proposer_index : A → ValidatorIndex;
  inclusion_delay : A → Uint;
}.

(** The trait [Registry]; iterators are lists, [&mut self] methods commands. *)
Class Registry (R C V A E : Type) := {
  registry_justifier :: JustifierRegistry R C E;
  registry_validator :: ValidatorT V C E;
  registry_attestation :: AttestationT A;
  min_inclusion_delay_attestation : R → C → ValidatorIndex → res E (option A);
  unslashed_attesting_balance : R → C → res E Gwei;
  unslashed_attesting_validators : R → C → res E (list (ValidatorIndex * V));
  unslashed_attesting_target_balance : R → C → res E Gwei;
  unslashed_attesting_target_validators : R → C → res E (list (ValidatorIndex * V));
  unslashed_attesting_matching_head_balance : R → C → res E Gwei;
  unslashed_attesting_matching_head_validators : R → C → res E (list (ValidatorIndex * V));
  registry_balance : R → ValidatorIndex → res E Gwei;
  registry_effective_balance : R → ValidatorIndex → res E Gwei;
  registry_increase_balance : ValidatorIndex → Gwei → M R E unit;
  registry_decrease_balance : ValidatorIndex → Gwei → M R E unit;
  registry_validators : R → res E (list (ValidatorIndex * V));
}.

(** [*map.entry(k).or_default() += d] on a [BTreeMap] in key order. *)
Fixpoint entry_add {E} `{ArithMode} (m : list (Z * Z)) (k d : Z) : res E (list (Z * Z)) :=
  match m with
  | [] => v ← u64_add 0 d; Ok [(k, v)]
  | (k', v') :: m' =>
      if k =? k' then v ← u64_add v' d; Ok ((k, v) :: m')
      else if k <? k' then v ← u64_add 0 d; Ok ((k, v) :: m)
      else r ← entry_add m' k d; Ok ((k', v') :: r)
  end.

(** The value under a key, 0 when absent. *)
Fixpoint entry_get (m : list (Z * Z)) (k : Z) : Z :=
  match m with
  | [] => 0
  | (k', v) :: m' => if k =? k' then v else entry_get m' k
  end.

Section Reward.
Context {R C V A E : Type} `{CheckpointT C} `{Registry R C V A E} `{Config} `{ArithMode}.

(** [reward::base] *)
Definition base (registry : R) (index : ValidatorIndex) : res E Uint :=
  total_balance ← registry_total_active_balance registry;
  effective_balance ← registry_effective_balance registry index;
  a ← u64_mul effective_balance base_reward_factor;
  q ← integer_squareroot total_balance;
  b ← u64_div a q;
  u64_div b BASE_REWARDS_PER_EPOCH.

(** Whether [find(|(i, _)| *i == index)] succeeds. *)
Definition among (index : ValidatorIndex) (l : list (ValidatorIndex * V)) : bool :=
  existsb (λ iv, iv.1 =? index) l.

(** The macro [micro_incentives!], with its two method arguments; the
    accumulator holds the rewards and the penalties. *)
Definition micro_incentives (balance : R → C → res E Gwei)
  (members : R → C → res E (list (ValidatorIndex * V))) (registry : R) (previous_checkpoint : C)
  (total_balance : Gwei) (acc : list (Z * Z) * list (Z * Z))
  : res E (list (Z * Z) * list (Z * Z)) :=
  attesting_balance ← balance registry previous_checkpoint;
  vs ← registry_validators registry;
  res_fold (λ acc iv,
    eligible ← validator_is_eligible iv.2 previous_checkpoint;
    if (eligible : bool) then
      l ← members registry previous_checkpoint;
      if among iv.1 l then
        b ← base registry iv.1;
        t ← u64_mul b attesting_balance;
        d ← u64_div t total_balance;
        rewards ← entry_add acc.1 iv.1 d;
        Ok (rewards, acc.2)
      else
        b ← base registry iv.1;
        penalties ← entry_add acc.2 iv.1 b;
        Ok (acc.1, penalties)
    else Ok acc) acc vs.

(** Proposer and inclusion delay micro-rewards. *)
Definition inclusion_rewards (registry : R) (previous_checkpoint : C) (rewards : list (Z * Z))
  : res E (list (Z * Z)) :=
  l ← unslashed_attesting_validators registry previous_checkpoint;
  res_fold (λ rewards iv,
    attestation ← min_inclusion_delay_attestation registry previous_checkpoint iv.1;
    match attestation with
    | Some attestation =>
        b ← base registry iv.1;
        proposer_reward ← u64_div b proposer_reward_quotient;
        rewards ← entry_add rewards (proposer_index attestation) proposer_reward;
        b ← base registry iv.1;
        max_attester_reward ← u64_sub b proposer_reward;
        d ← u64_div max_attester_reward (inclusion_delay attestation);
        entry_add rewards iv.1 d
    | None => Ok rewards
    end) rewards l.

(** The penalties while finality is late. *)
Definition inactivity_penalties (registry : R) (previous_checkpoint : C) (finality_delay : Z)
  (penalties : list (Z * Z)) : res E (list (Z * Z)) :=
  vs ← registry_validators registry;
  res_fold (λ penalties iv,
    eligible ← validator_is_eligible iv.2 previous_checkpoint;
    if (eligible : bool) then
      b ← base registry iv.1;
      d ← u64_mul b BASE_REWARDS_PER_EPOCH;
      penalties ← entry_add penalties iv.1 d;
      l ← unslashed_attesting_target_validators registry previous_checkpoint;
      if negb (among iv.1 l) then
        eb ← registry_effective_balance registry iv.1;
        t ← u64_mul eb finality_delay;
        d ← u64_div t inactivity_penalty_quotient;
        entry_add penalties iv.1 d
      else Ok penalties
    else Ok penalties) penalties vs.

(** [reward::process] *)
Definition process_rewards (previous_checkpoint finalized_checkpoint : C) : M R E unit :=
  registry ← get;
  total_balance ← lift (registry_total_active_balance registry);
  acc ← lift (micro_incentives unslashed_attesting_balance unslashed_attesting_validators
                registry previous_checkpoint total_balance ([], []));
  acc ← lift (micro_incentives unslashed_attesting_target_balance
                unslashed_attesting_target_validators
                registry previous_checkpoint total_balance acc);
  acc ← lift (micro_incentives unslashed_attesting_matching_head_balance
                unslashed_attesting_matching_head_validators
                registry previous_checkpoint total_balance acc);
  rewards ← lift (inclusion_rewards registry previous_checkpoint acc.1);
  finality_delay ← lift (u64_sub (checkpoint_epoch previous_checkpoint)
                           (checkpoint_epoch finalized_checkpoint));
  penalties ← lift (if min_epochs_to_inactivity_penalty <? finality_delay
                    then inactivity_penalties registry previous_checkpoint finality_delay acc.2
                    else Ok acc.2);
  for_each rewards (λ id, registry_increase_balance id.1 id.2) ;;
  for_each penalties (λ id, registry_decrease_balance id.1 id.2).
End Reward.
