(* ===== verification/Epoch.v ===== *)
(** * Epoch processing: [executive/transition/per_epoch/]

    The epoch helpers, the beacon state as an instance of the registry
    interfaces of the components ([executive/mod.rs]), and the five stages of
    [process_epoch]: justification and finalization, rewards and penalties,
    registry updates, slashings and final updates. *)
From stdpp Require Import base numbers list sorting.
From Stdlib Require Import ZArith Lia.
From S2P Require Import Prelude Config Types Utils State Accessors Mutators Justification Reward.

#[local] Open Scope Z_scope.

(** ** Helpers *)

Section Helpers.
Context `{Cfg : Config} `{AM : ArithMode}.

(** Get attestations with matching source at given epoch. *)
Definition matching_source_attestations (s : BeaconState) (epoch : Epoch)
  : res Error (list PendingAttestation) :=
  c ← current_epoch s;
  if epoch =? c then Ok (current_epoch_attestations s)
  else
    p ← previous_epoch s;
    if epoch =? p then Ok (previous_epoch_attestations s) else Err EpochOutOfRange.

(** Get attestations with matching target at given epoch. *)
Definition matching_target_attestations (s : BeaconState) (epoch : Epoch)
  : res Error (list PendingAttestation) :=
  block_root ← block_root s epoch;
  l ← matching_source_attestations s epoch;
  Ok (filter (λ a, cp_root (ad_target (pa_data a)) = block_root) l).

(** Get attestations with matching head at given epoch. *)
Definition matching_head_attestations (s : BeaconState) (epoch : Epoch)
  : res Error (list PendingAttestation) :=
  l ← matching_source_attestations s epoch;
  r ← res_map (λ a,
    root ← block_root_at_slot s (ad_slot (pa_data a));
    Ok (bytes_eqb (ad_beacon_block_root (pa_data a)) root, a)) l;
  Ok (filter (λ ca, ca.1 = true) r).*2.

(** [retain(|index| !self.validators[*index as usize].slashed)] *)
Fixpoint retain_unslashed (s : BeaconState) (l : list ValidatorIndex)
  : res Error (list ValidatorIndex) :=
  match l with
  | [] => Ok []
  | i :: l' =>
      v ← vec_index (validators s) i;
      r ← retain_unslashed s l';
      Ok (if v_slashed v then r else i :: r)
  end.

(** Get indices of all unslashed validators within attestations. *)
Definition unslashed_attesting_indices (s : BeaconState) (attestations : list PendingAttestation)
  : res Error (list ValidatorIndex) :=
  ret ← res_fold (λ ret a,
    indices ← attesting_indices s (pa_data a) (pa_aggregation_bits a);
    Ok (push_all_new ret indices)) [] attestations;
  ret ← retain_unslashed s ret;
  Ok (sort ret).

(** Get the total attesting balance given a list of attestations. *)
Definition attesting_balance (s : BeaconState) (attestations : list PendingAttestation)
  : res Error Gwei :=
  l ← unslashed_attesting_indices s attestations;
  total_balance s l.

(** The attestation of [index] with the least inclusion delay, folded from the
    first attestation of the list. *)
Definition min_inclusion_attestation (s : BeaconState) (attestations : list PendingAttestation)
  (index : ValidatorIndex) : res Error PendingAttestation :=
  l ← res_map (λ a,
    indices ← attesting_indices s (pa_data a) (pa_aggregation_bits a);
    Ok (a, contains indices index)) attestations;
  first ← vec_index attestations 0;
  Ok (foldl (λ a b, if pa_inclusion_delay a <? pa_inclusion_delay b then a else b)
        first (filter (λ ac, ac.2 = true) l).*1).
End Helpers.

(** ** The beacon state as a registry *)

#[global] Instance Checkpoint_CheckpointT : CheckpointT Checkpoint := cp_epoch.

Section Instances.
Context `{Cfg : Config} `{AM : ArithMode}.

#[global] Instance BeaconState_JustifierRegistry : JustifierRegistry BeaconState Checkpoint Error := {|
  registry_total_active_balance := total_active_balance;
  attesting_target_balance := λ s checkpoint,
    l ← matching_target_attestations s (cp_epoch checkpoint);
    attesting_balance s l;
|}.

(** The macro [unslashed_balance!]. *)
Definition unslashed_balance (attestations : BeaconState → Epoch → res Error (list PendingAttestation))
  (epoch : Epoch) (s : BeaconState) : res Error Gwei :=
  l ← attestations s epoch;
  i ← unslashed_attesting_indices s l;
  total_balance s i.

(** The macro [unslashed_validators!]; its iterator is consumed to the element
    that is looked for, and every index it holds is in range. *)
Definition unslashed_validators
  (attestations : BeaconState → Epoch → res Error (list PendingAttestation))
  (epoch : Epoch) (s : BeaconState) : res Error (list (ValidatorIndex * Validator)) :=
  l ← attestations s epoch;
  i ← unslashed_attesting_indices s l;
  res_map (λ index, v ← vec_index (validators s) index; Ok (index, v)) i.

#[global] Instance PendingAttestation_AttestationT : AttestationT PendingAttestation := {|
  proposer_index := pa_proposer_index;
  inclusion_delay := pa_inclusion_delay;
|}.

#[global] Instance Validator_ValidatorT : ValidatorT Validator Checkpoint Error := is_eligible.

#[global] Instance BeaconState_Registry :
  Registry BeaconState Checkpoint Validator PendingAttestation Error := {|
  min_inclusion_delay_attestation := λ s source_checkpoint index,
    l ← matching_source_attestations s (cp_epoch source_checkpoint);
    a ← min_inclusion_attestation s l index;
    Ok (Some a);
  unslashed_attesting_balance := λ s c,
    unslashed_balance matching_source_attestations (cp_epoch c) s;
  unslashed_attesting_validators := λ s c,
    unslashed_validators matching_source_attestations (cp_epoch c) s;
  unslashed_attesting_target_balance := λ s c,
    unslashed_balance matching_target_attestations (cp_epoch c) s;
  unslashed_attesting_target_validators := λ s c,
    unslashed_validators matching_target_attestations (cp_epoch c) s;
  unslashed_attesting_matching_head_balance := λ s c,
    unslashed_balance matching_head_attestations (cp_epoch c) s;
  unslashed_attesting_matching_head_validators := λ s c,
    unslashed_validators matching_head_attestations (cp_epoch c) s;
  registry_balance := λ s index, ok_or (balances s !! Z.to_nat index) IndexOutOfRange;
  registry_effective_balance := λ s index,
    ok_or (v_effective_balance <$> validators s !! Z.to_nat index) IndexOutOfRange;
  registry_increase_balance := increase_balance;
  registry_decrease_balance := decrease_balance;
  registry_validators := λ s, Ok (enumerate (validators s));
|}.
End Instances.

(** ** Justification and finalization *)

Section Stages.
Context `{Cfg : Config} `{AM : ArithMode}.

(** Update casper justification and finalization. *)
Definition process_justification_and_finalization : Exec unit :=
  s ← get;
  c ← lift (current_epoch s);
  g ← lift (u64_add genesis_epoch 1);
  if c <=? g then mret tt
  else
    previous_epoch ← lift (previous_epoch s);
    root ← lift (block_root s previous_epoch);
    let previous_checkpoint := mkCheckpoint previous_epoch root in
    current_epoch ← lift (current_epoch s);
    root ← lift (block_root s current_epoch);
    let current_checkpoint := mkCheckpoint current_epoch root in
    let processor := {|
      j_justification_bits := justification_bits s;
      j_current_justified_checkpoint := current_justified_checkpoint s;
      j_previous_justified_checkpoint := previous_justified_checkpoint s;
      j_finalized_checkpoint := finalized_checkpoint s;
    |} in
    let out := process previous_checkpoint current_checkpoint s processor in
    lift out.1 ;;
    let processor := out.2 in
    put (with_justification_bits (j_justification_bits processor) s) ;;
    s ← get;
    put (with_current_justified_checkpoint (j_current_justified_checkpoint processor) s) ;;
    s ← get;
    put (with_previous_justified_checkpoint (j_previous_justified_checkpoint processor) s) ;;
    s ← get;
    put (with_finalized_checkpoint (j_finalized_checkpoint processor) s).

(** ** Rewards and penalties *)

Definition base_reward (s : BeaconState) (index : ValidatorIndex) : res Error Gwei :=
  total_balance ← total_active_balance s;
  v ← vec_index (validators s) index;
  a ← u64_mul (v_effective_balance v) base_reward_factor;
  q ← integer_squareroot total_balance;
  b ← u64_div a q;
  u64_div b BASE_REWARDS_PER_EPOCH.

(** [v[index as usize] += d] *)
Definition vec_add (l : list Gwei) (index : ValidatorIndex) (d : Gwei) : res Error (list Gwei) :=
  x ← vec_index l index;
  y ← u64_add x d;
  vec_set l index y.

(** The validators rewarded or penalized for the previous epoch. *)
Fixpoint eligible_indices (previous_epoch : Epoch) (l : list (Z * Validator))
  : res Error (list ValidatorIndex) :=
  match l with
  | [] => Ok []
  | (i, v) :: l' =>
      e ← (if is_active v previous_epoch then Ok true
           else if v_slashed v then
             t ← u64_add previous_epoch 1; Ok (t <? v_withdrawable_epoch v)
           else Ok false);
      r ← eligible_indices previous_epoch l';
      Ok (if (e : bool) then i :: r else r)
  end.

(** One of the three passes of micro-incentives. *)
Definition micro_deltas (s : BeaconState) (total_bal : Gwei) (eligible : list ValidatorIndex)
  (acc : list Gwei * list Gwei) (attestations : list PendingAttestation)
  : res Error (list Gwei * list Gwei) :=
  unslashed ← unslashed_attesting_indices s attestations;
  attesting_balance ← total_balance s unslashed;
  res_fold (λ acc index,
    if contains unslashed index then
      b ← base_reward s index;
      t ← u64_mul b attesting_balance;
      d ← u64_div t total_bal;
      rewards ← vec_add acc.1 index d;
      Ok (rewards, acc.2)
    else
      b ← base_reward s index;
      penalties ← vec_add acc.2 index b;
      Ok (acc.1, penalties)) acc eligible.

(** Proposer and inclusion delay micro-rewards. *)
Definition inclusion_deltas (s : BeaconState) (attestations : list PendingAttestation)
  (rewards : list Gwei) : res Error (list Gwei) :=
  unslashed ← unslashed_attesting_indices s attestations;
  res_fold (λ rewards index,
    attestation ← min_inclusion_attestation s attestations index;
    b ← base_reward s index;
    proposer_reward ← u64_div b proposer_reward_quotient;
    rewards ← vec_add rewards (pa_proposer_index attestation) proposer_reward;
    b ← base_reward s index;
    max_attester_reward ← u64_sub b proposer_reward;
    d ← u64_div max_attester_reward (pa_inclusion_delay attestation);
    vec_add rewards index d) rewards unslashed.

(** The penalties while finality is late. *)
Definition inactivity_deltas (s : BeaconState) (finality_delay : Z) (eligible : list ValidatorIndex)
  (target_attestations : list PendingAttestation) (penalties : list Gwei)
  : res Error (list Gwei) :=
  target_indices ← unslashed_attesting_indices s target_attestations;
  res_fold (λ penalties index,
    b ← base_reward s index;
    d ← u64_mul BASE_REWARDS_PER_EPOCH b;
    penalties ← vec_add penalties index d;
    if negb (contains target_indices index) then
      v ← vec_index (validators s) index;
      t ← u64_mul (v_effective_balance v) finality_delay;
      d ← u64_div t inactivity_penalty_quotient;
      vec_add penalties index d
    else Ok penalties) penalties eligible.

Definition attestation_deltas (s : BeaconState) : res Error (list Gwei * list Gwei) :=
  previous_epoch ← previous_epoch s;
  total_balance ← total_active_balance s;
  let rewards := replicate (length (validators s)) 0 in
  let penalties := replicate (length (validators s)) 0 in
  eligible ← eligible_indices previous_epoch (enumerate (validators s));
  source ← matching_source_attestations s previous_epoch;
  target ← matching_target_attestations s previous_epoch;
  head ← matching_head_attestations s previous_epoch;
  acc ← res_fold (micro_deltas s total_balance eligible) (rewards, penalties) [source; target; head];
  rewards ← inclusion_deltas s source acc.1;
  finality_delay ← u64_sub previous_epoch (cp_epoch (finalized_checkpoint s));
  penalties ← (if min_epochs_to_inactivity_penalty <? finality_delay
               then inactivity_deltas s finality_delay eligible target acc.2
               else Ok acc.2);
  Ok (rewards, penalties).

(** Process rewards and penalties *)
Definition process_rewards_and_penalties : Exec unit :=
  s ← get;
  c ← lift (current_epoch s);
  if c =? genesis_epoch then mret tt
  else
    deltas ← lift (attestation_deltas s);
    for_each (zrange 0 (zlen (validators s))) (λ i,
      r ← lift (vec_index deltas.1 i);
      increase_balance i r ;;
      p ← lift (vec_index deltas.2 i);
      decrease_balance i p).

(** ** Registry updates *)

(** Validators waiting for activation, in registry order. *)
Fixpoint activation_candidates (s : BeaconState) (l : list (Z * Validator))
  : res Error (list ValidatorIndex) :=
  match l with
  | [] => Ok []
  | (i, v) :: l' =>
      waiting ← (if v_activation_eligibility_epoch v =? FAR_FUTURE_EPOCH then Ok false
                 else
                   t ← activation_exit_epoch (cp_epoch (finalized_checkpoint s));
                   Ok (t <=? v_activation_epoch v));
      r ← activation_candidates s l';
      Ok (if (waiting : bool) then i :: r else r)
  end.

(** The sort key of the activation queue. *)
Definition eligibility_key (s : BeaconState) (index : ValidatorIndex) : Z :=
  default 0 (v_activation_eligibility_epoch <$> validators s !! Z.to_nat index).

(** The body of the first loop: eligibility and ejection of one validator. *)
Definition registry_update (index : ValidatorIndex) : Exec unit :=
  s ← get;
  v ← lift (vec_index (validators s) index);
  (if (v_activation_eligibility_epoch v =? FAR_FUTURE_EPOCH) &&
      (v_effective_balance v =? max_effective_balance)
   then
     c ← lift (current_epoch s);
     modify_validator index (with_v_activation_eligibility_epoch c)
   else mret tt) ;;
  s ← get;
  v ← lift (vec_index (validators s) index);
  c ← lift (current_epoch s);
  if is_active v c && (v_effective_balance v <=? ejection_balance)
  then initiate_validator_exit index else mret tt.

(** The body of the second loop: activation of one validator. *)
Definition activate (index : ValidatorIndex) : Exec unit :=
  s ← get;
  current_epoch ← lift (current_epoch s);
  v ← lift (vec_index (validators s) index);
  if v_activation_epoch v =? FAR_FUTURE_EPOCH then
    e ← lift (activation_exit_epoch current_epoch);
    modify_validator index (with_v_activation_epoch e)
  else mret tt.

(** Process registry updates *)
Definition process_registry_updates : Exec unit :=
  s ← get;
  for_each (zrange 0 (zlen (validators s))) registry_update ;;
  s ← get;
  candidates ← lift (activation_candidates s (enumerate (validators s)));
  let activation_queue := sort_by_key (eligibility_key s) candidates in
  limit ← lift (validator_churn_limit s);
  front ← lift (slice activation_queue 0 (Z.min (zlen activation_queue) limit));
  for_each front activate.

(** ** Slashings *)

(** The penalty of one validator, if it is due this epoch. *)
Definition slashing_penalty (s : BeaconState) (current_epoch : Epoch) (total_balance : Gwei)
  (v : Validator) : res Error (option Gwei) :=
  due ← (if v_slashed v then
           t ← u64_add current_epoch (epochs_per_slashings_vector / 2);
           Ok (t =? v_withdrawable_epoch v)
         else Ok false);
  if (due : bool) then
    let increment := effective_balance_increment in
    q ← u64_div (v_effective_balance v) increment;
    sum ← res_fold u64_add 0 (slashings s);
    sum3 ← u64_mul sum 3;
    penalty_numerator ← u64_mul q (Z.min sum3 total_balance);
    p ← u64_div penalty_numerator total_balance;
    penalty ← u64_mul p increment;
    Ok (Some penalty)
  else Ok None.

(** Process slashings *)
Definition process_slashings : Exec unit :=
  s ← get;
  current_epoch ← lift (current_epoch s);
  total_balance ← lift (total_active_balance s);
  for_each (zrange 0 (zlen (validators s))) (λ index,
    s ← get;
    v ← lift (vec_index (validators s) index);
    penalty ← lift (slashing_penalty s current_epoch total_balance v);
    match penalty with
    | Some penalty => decrease_balance index penalty
    | None => mret tt
    end).

(** ** Final updates *)

(** Hysteresis: the effective balance follows the balance down at once and up
    in steps. *)
Definition update_effective_balance (index : ValidatorIndex) : Exec unit :=
  s ← get;
  v ← lift (vec_index (validators s) index);
  balance ← lift (vec_index (balances s) index);
  let half_increment := effective_balance_increment / 2 in
  update ← lift (if balance <? v_effective_balance v then Ok true
                 else
                   t ← u64_mul 3 half_increment;
                   t ← u64_add (v_effective_balance v) t;
                   Ok (t <? balance));
  if (update : bool) then
    r ← lift (u64_rem balance effective_balance_increment);
    d ← lift (u64_sub balance r);
    modify_validator index (with_v_effective_balance (Z.min d max_effective_balance))
  else mret tt.

(** Process final updates *)
Definition process_final_updates `{TreeRoot} : Exec unit :=
  s ← get;
  current_epoch ← lift (current_epoch s);
  next_epoch ← lift (u64_add current_epoch 1);
  t ← lift (u64_add (slot s) 1);
  t ← lift (u64_rem t slots_per_eth1_voting_period);
  (if t =? 0 then put (with_eth1_data_votes [] s) else mret tt) ;;
  for_each (zrange 0 (zlen (validators s))) update_effective_balance ;;
  s ← get;
  i ← lift (u64_rem next_epoch epochs_per_slashings_vector);
  l ← lift (vec_set (slashings s) i 0);
  put (with_slashings l s) ;;
  s ← get;
  mix ← lift (randao_mix s current_epoch);
  i ← lift (u64_rem next_epoch epochs_per_historical_vector);
  l ← lift (vec_set (randao_mixes s) i mix);
  put (with_randao_mixes l s) ;;
  d ← lift (u64_div slots_per_historical_root slots_per_epoch);
  t ← lift (u64_rem next_epoch d);
  (if t =? 0 then
     s ← get;
     put (with_historical_roots (historical_roots s ++
       [tree_root_historical_batch (mkHistoricalBatch (block_roots s) (state_roots s))]) s)
   else mret tt) ;;
  s ← get;
  put (with_previous_epoch_attestations (current_epoch_attestations s) s) ;;
  s ← get;
  put (with_current_epoch_attestations [] s).

(** Process an epoch. *)
Definition process_epoch `{TreeRoot} : Exec unit :=
  process_justification_and_finalization ;;
  process_rewards_and_penalties ;;
  process_registry_updates ;;
  process_slashings ;;
  process_final_updates.
End Stages.

(** ** Well-formedness *)

Section EpochWf.
Context `{Cfg : Config} `{AM : ArithMode} `{COk : !ConfigOk Cfg} `{TR : TreeRoot}.

Lemma process_justification_wf : steps (keeps wf_state) process_justification_and_finalization.
Proof using COk.
  unfold process_justification_and_finalization. step_tac.
  - intros Hwf. apply wf_with_justification_bits; [|done].
    apply (process_four_bits _ _ s). apply Hwf.
  - intros ?. by apply wf_with_checkpoints.
  - intros ?. by apply wf_with_checkpoints.
  - intros ?. by apply wf_with_checkpoints.
Qed.

Lemma vec_add_Forall l i d l' :
  vec_add l i d = Ok l' → Forall is_u64 l → Forall is_u64 l' ∧ length l' = length l.
Proof using Type.
  unfold vec_add. intros H Hl. res_inv. split.
  - eapply vec_set_Forall; eauto with shasper.
  - by eapply vec_set_length.
Qed.

(** A vector of deltas for [n] validators. *)
Definition deltas_ok (n : nat) (l : list Gwei) : Prop := Forall is_u64 l ∧ length l = n.

Lemma vec_add_ok n l i d l' : vec_add l i d = Ok l' → deltas_ok n l → deltas_ok n l'.
Proof using Type.
  intros H [Hl Hn]. apply vec_add_Forall in H as [??]; [|done]. split; [done|congruence].
Qed.

Lemma micro_deltas_ok n s tb el acc att acc' :
  micro_deltas s tb el acc att = Ok acc' →
  deltas_ok n acc.1 ∧ deltas_ok n acc.2 → deltas_ok n acc'.1 ∧ deltas_ok n acc'.2.
Proof using Type.
  unfold micro_deltas. intros H Hacc. res_inv.
  eapply (res_fold_inv (λ acc, deltas_ok n acc.1 ∧ deltas_ok n acc.2)); [|exact Hacc|exact H].
  cbn. intros b x b' _ [??] Hb. res_inv; cbn; eauto using vec_add_ok.
Qed.

Lemma inclusion_deltas_ok n s att r r' :
  inclusion_deltas s att r = Ok r' → deltas_ok n r → deltas_ok n r'.
Proof using Type.
  unfold inclusion_deltas. intros H Hr. res_inv. eapply (res_fold_inv (deltas_ok n)); [|exact Hr|exact H].
  cbn. intros b x b' _ Hb Hrun. res_inv. eauto using vec_add_ok.
Qed.

Lemma inactivity_deltas_ok n s fd el att r r' :
  inactivity_deltas s fd el att r = Ok r' → deltas_ok n r → deltas_ok n r'.
Proof using Type.
  unfold inactivity_deltas. intros H Hr. res_inv. eapply (res_fold_inv (deltas_ok n)); [|exact Hr|exact H].
  cbn. intros b x b' _ Hb Hrun. res_inv; eauto using vec_add_ok.
Qed.

Lemma attestation_deltas_ok s d :
  attestation_deltas s = Ok d →
  deltas_ok (length (validators s)) d.1 ∧ deltas_ok (length (validators s)) d.2.
Proof using Type.
  unfold attestation_deltas. intros H. apply bind_Ok in H as (pe & _ & H).
  apply bind_Ok in H as (tb & _ & H). cbv zeta in H.
  apply bind_Ok in H as (el & _ & H). apply bind_Ok in H as (src & _ & H).
  apply bind_Ok in H as (tgt & _ & H). apply bind_Ok in H as (hd & _ & H).
  apply bind_Ok in H as (acc & Hacc & H). apply bind_Ok in H as (rw & Hrw & H).
  apply bind_Ok in H as (fd & _ & H). apply bind_Ok in H as (pn & Hpn & H).
  injection H as <-. cbn.
  assert (deltas_ok (length (validators s)) (replicate (length (validators s)) 0)) as H0.
  { split; [by apply Forall_replicate|apply length_replicate]. }
  apply (res_fold_inv (λ acc, deltas_ok (length (validators s)) acc.1 ∧
    deltas_ok (length (validators s)) acc.2)) in Hacc as [??]; [|eauto using micro_deltas_ok|done].
  split; [by eapply inclusion_deltas_ok|].
  destruct (_ <? _); [by eapply inactivity_deltas_ok|]. by injection Hpn as <-.
Qed.

Lemma process_rewards_wf : steps (keeps wf_state) process_rewards_and_penalties.
Proof using COk.
  unfold process_rewards_and_penalties. step_tac.
  - apply increase_balance_wf.
  - apply decrease_balance_wf. apply attestation_deltas_ok in H0 as [_ [H0 _]].
    eapply vec_index_Forall in H0; [|done]. apply H0.
Qed.

Lemma registry_update_wf i : steps (keeps wf_state) (registry_update i).
Proof using COk.
  unfold registry_update. step_tac.
  - intros Hwf. apply modify_validator_wf; [|done]. intros v _. apply wf_with_v_eligibility_epoch.
    rewrite current_epoch_ok in H0. injection H0 as <-.
    pose proof (epoch_range _ (wf_slot _ Hwf)). pose proof (wf_slot _ Hwf). u64_lia.
  - apply initiate_validator_exit_wf.
Qed.

Lemma activate_wf i : steps (keeps wf_state) (activate i).
Proof using Type.
  unfold activate. step_tac. apply modify_validator_wf. intros v _. apply wf_with_v_activation_epoch.
  unfold activation_exit_epoch in *. res_inv. eauto with shasper.
Qed.

Lemma process_registry_updates_wf : steps (keeps wf_state) process_registry_updates.
Proof using COk.
  unfold process_registry_updates. step_tac; [apply registry_update_wf|apply activate_wf].
Qed.

Lemma slashing_penalty_nonneg s e tb v p :
  slashing_penalty s e tb v = Ok (Some p) → 0 ≤ p.
Proof using Type.
  unfold slashing_penalty. intros H. res_inv; try done; by eapply u64_mul_range.
Qed.

Lemma process_slashings_wf : steps (keeps wf_state) process_slashings.
Proof using Type.
  unfold process_slashings. step_tac. destruct a2 as [p|] eqn:?; [|apply steps_ret; apply _].
  apply decrease_balance_wf. by eapply slashing_penalty_nonneg.
Qed.

Lemma update_effective_balance_wf i : steps (keeps wf_state) (update_effective_balance i).
Proof using COk.
  unfold update_effective_balance. step_tac. apply modify_validator_wf. intros v _.
  apply wf_with_v_effective_balance.
  match goal with H : u64_sub _ _ = Ok _ |- _ => apply u64_sub_range in H end.
  pose proof increment_pos. pose proof max_effective_small. u64_lia.
Qed.

Lemma process_final_updates_wf : steps (keeps wf_state) process_final_updates.
Proof using COk.
  unfold process_final_updates. step_tac; try by (intros ?; eauto with shasper).
  - apply update_effective_balance_wf.
  - intros Hwf. apply wf_with_slashings; [by eapply vec_set_length| |done].
    eapply vec_set_Forall; [done|apply Hwf|done].
  - intros Hwf. apply wf_with_randao_mixes; [by eapply vec_set_length|done].
  - by intros [].
  - by intros [].
Qed.

Lemma process_epoch_wf : steps (keeps wf_state) process_epoch.
Proof using COk.
  unfold process_epoch. step_tac.
  - apply process_justification_wf.
  - apply process_rewards_wf.
  - apply process_registry_updates_wf.
  - apply process_slashings_wf.
  - apply process_final_updates_wf.
Qed.
End EpochWf.

(** ** Frames and finality *)

Section EpochFrame.
Context `{Cfg : Config} `{AM : ArithMode} `{TR : TreeRoot}.

Lemma rewards_frame : steps (same finality_frame) process_rewards_and_penalties.
Proof.
  unfold process_rewards_and_penalties.
  step_tac; apply registry_to_finality; [apply increase_balance_frame|apply decrease_balance_frame].
Qed.

Lemma registry_updates_frame : steps (same finality_frame) process_registry_updates.
Proof.
  unfold process_registry_updates, registry_update, activate.
  step_tac; apply registry_to_finality;
    apply modify_validator_frame || apply initiate_validator_exit_frame.
Qed.

Lemma slashings_frame : steps (same finality_frame) process_slashings.
Proof.
  unfold process_slashings. step_tac. destruct a2; [|apply steps_ret; apply _].
  apply registry_to_finality, decrease_balance_frame.
Qed.

Lemma final_updates_frame : steps (same finality_frame) process_final_updates.
Proof.
  unfold process_final_updates, update_effective_balance. step_tac; try done.
  apply registry_to_finality, modify_validator_frame.
Qed.

Lemma justification_slot : steps (same slot) process_justification_and_finalization.
Proof. unfold process_justification_and_finalization. step_tac; done. Qed.

Lemma finality_frame_slot {A} (m : Exec A) : steps (same finality_frame) m → steps (same slot) m.
Proof. intros Hm s. specialize (Hm s). unfold same, finality_frame in *. congruence. Qed.

Lemma process_epoch_slot : steps (same slot) process_epoch.
Proof.
  unfold process_epoch. step_tac; [apply justification_slot|apply finality_frame_slot..].
  - apply rewards_frame.
  - apply registry_updates_frame.
  - apply slashings_frame.
  - apply final_updates_frame.
Qed.

(** The rest of an epoch after justification. *)
Lemma process_epoch_finality s s' :
  process_epoch s = (Ok tt, s') →
  ∃ s1, process_justification_and_finalization s = (Ok tt, s1) ∧ same finality_frame s1 s'.
Proof.
  unfold process_epoch. intros H. apply Mbind_Ok in H as ([] & s1 & Hj & H).
  exists s1. split; [done|].
  assert (steps (same finality_frame) (process_rewards_and_penalties ;; process_registry_updates ;;
    process_slashings ;; process_final_updates)) as Hs.
  { step_tac; [apply rewards_frame|apply registry_updates_frame|apply slashings_frame|apply final_updates_frame]. }
  specialize (Hs s1). by rewrite H in Hs.
Qed.
End EpochFrame.

(** The justifier part of the state. *)
Definition justifier_of (s : BeaconState) : Justifier Checkpoint := {|
  j_justification_bits := justification_bits s;
  j_current_justified_checkpoint := current_justified_checkpoint s;
  j_previous_justified_checkpoint := previous_justified_checkpoint s;
  j_finalized_checkpoint := finalized_checkpoint s;
|}.

(** Finality is in order, up to the epoch before the current one. *)
Definition finality_ok `{Config} (s : BeaconState) : Prop :=
  justifier_ok (Z.max 0 (slot s / slots_per_epoch - 1)) (justifier_of s).

Section Finality.
Context `{Cfg : Config} `{AM : ArithMode} `{COk : !ConfigOk Cfg}.

(** Justification either has nothing to do or is one call of the justifier. *)
Lemma justification_run s s' :
  wf_state s → process_justification_and_finalization s = (Ok tt, s') →
  let e := slot s / slots_per_epoch in
  (e ≤ 1 ∧ s' = s) ∨
  (1 < e ∧ ∃ r1 r2, block_root s (e - 1) = Ok r1 ∧ block_root s e = Ok r2 ∧
    process (mkCheckpoint (e - 1) r1) (mkCheckpoint e r2) s (justifier_of s) = (Ok tt, justifier_of s')).
Proof using COk.
  intros Hwf Hrun e. unfold process_justification_and_finalization in Hrun.
  rewrite Mbind_get, current_epoch_ok, Mbind_lift_Ok, genesis_epoch_zero in Hrun.
  rewrite u64_add_ok, Mbind_lift_Ok in Hrun by done. fold e in Hrun.
  destruct (Z.leb_spec e (0 + 1)) as [|He]; [run_inv; left; done|right]. split; [lia|].
  rewrite previous_epoch_pos, Mbind_lift_Ok in Hrun by (fold e; lia). fold e in Hrun.
  apply Mbind_lift in Hrun as (r1 & Hr1 & Hrun). rewrite Mbind_lift_Ok in Hrun.
  apply Mbind_lift in Hrun as (r2 & Hr2 & Hrun). exists r1, r2. split; [done|]. split; [done|].
  cbv zeta in Hrun. fold (justifier_of s) in Hrun.
  destruct (process _ _ _ _) as [r j]. cbn in Hrun. run_inv. destruct a. by destruct j.
Qed.

(** Under the invariant, justification moves no epoch back. *)
Lemma justification_finality s s' :
  wf_state s → slot s < 2 ^ 62 → finality_ok s →
  process_justification_and_finalization s = (Ok tt, s') →
  justifier_ok (slot s / slots_per_epoch) (justifier_of s') ∧
  cp_epoch (finalized_checkpoint s) ≤ cp_epoch (finalized_checkpoint s') ∧
  cp_epoch (current_justified_checkpoint s) ≤ cp_epoch (current_justified_checkpoint s').
Proof using COk.
  intros Hwf Hslot Hf Hrun. pose proof (epoch_range _ (wf_slot _ Hwf)). unfold finality_ok in Hf.
  destruct (justification_run s s' Hwf Hrun) as [[He ->]|(He & r1 & r2 & _ & _ & Hp)].
  - split; [|done]. destruct Hf. split; try done. lia.
  - rewrite Z.max_r in Hf by lia.
    eapply process_ok_step in Hp as (Hok & Hf1 & Hf2 & _); [|done|lia|done|unfold checkpoint_epoch; cbn; lia].
    split; [|done]. by replace (slot s / slots_per_epoch) with (slot s / slots_per_epoch - 1 + 1) by lia.
Qed.
End Finality.
