(* ===== verification/EpochProps.v ===== *)
(** * What the epoch stages do

    Functional theorems about the stages of [per_epoch/]: the effect of rewards
    on balances, the activation queue, the slashing penalties and the hysteresis
    of effective balances. *)
From stdpp Require Import base numbers list sorting.
From Stdlib Require Import ZArith Lia Sorted.
From S2P Require Import Prelude Config Types Utils State Accessors Mutators Justification Reward Epoch.

#[local] Open Scope Z_scope.

(** What a loop over balances, or over validators, leaves alone. *)
Definition but_balances (s : BeaconState) : BeaconState := with_balances [] s.
Definition but_validators (s : BeaconState) : BeaconState := with_validators [] s.

Lemma but_balances_eq s s' :
  but_balances s' = but_balances s → s' = with_balances (balances s') s.
Proof. destruct s, s'. intros [=]. by subst. Qed.

Lemma but_validators_eq s s' :
  but_validators s' = but_validators s → s' = with_validators (validators s') s.
Proof. destruct s, s'. intros [=]. by subst. Qed.

(** ** Rewards and penalties *)

(** After the genesis epoch, every balance is increased by its reward and
    then decreased by its penalty, and nothing else changes. *)
Theorem process_rewards_correct `{Config} `{ArithMode} `{!ConfigOk _} s s' :
  wf_state s → 0 < slot s / slots_per_epoch → Forall (λ b, b < 2 ^ 62) (balances s) →
  process_rewards_and_penalties s = (Ok tt, s') →
  ∃ rewards penalties, attestation_deltas s = Ok (rewards, penalties) ∧
    (Forall (λ r, r < 2 ^ 62) rewards →
     but_balances s' = but_balances s ∧ length (balances s') = length (balances s) ∧
     ∀ k b, balances s !! k = Some b → ∃ r p, rewards !! k = Some r ∧ penalties !! k = Some p ∧
       balances s' !! k = Some (saturating_sub (b + r) p)).
Proof.
  intros Hwf Hep Hbal Hrun. unfold process_rewards_and_penalties in Hrun.
  rewrite Mbind_get, current_epoch_ok, Mbind_lift_Ok, genesis_epoch_zero in Hrun.
  rewrite (proj2 (Z.eqb_neq _ 0)) in Hrun by lia.
  apply Mbind_lift in Hrun as ([rw pn] & Hd & Hrun). exists rw, pn. split; [done|].
  apply attestation_deltas_ok in Hd as [[Hru Hrl] [Hpu Hpl]]. cbn in *. intros Hrw.
  apply (for_each_pointwise balances but_balances
    (λ k b, saturating_sub (b + rw !!! k) (pn !!! k))) in Hrun as (Hrest & Hlen & Hk).
  - split; [done|]. split; [done|]. intros k b Hb.
    pose proof (lookup_lt_Some _ _ _ Hb) as Hlt. rewrite (wf_registry _ Hwf) in Hlt.
    destruct (lookup_lt_is_Some_2 rw k) as [r Hr]; [lia|].
    destruct (lookup_lt_is_Some_2 pn k) as [p Hp]; [lia|].
    exists r, p. split; [done|]. split; [done|]. rewrite (Hk k b Hb).
    rewrite decide_True by (apply elem_of_to_nat_zrange; unfold zlen; lia).
    by rewrite (list_lookup_total_correct _ _ _ Hr), (list_lookup_total_correct _ _ _ Hp).
  - apply NoDup_to_nat_zrange.
  - intros i t t1 _ Hrest Heq Hbody. run_inv. apply vec_index_Ok in Ha, Ha1. destruct a0.
    apply increase_balance_Ok in Ha0 as (b & b' & Hb & Hadd & ->). rewrite Heq in Hb.
    pose proof (Forall_lookup_1 _ _ _ _ (wf_balances _ Hwf) Hb).
    pose proof (Forall_lookup_1 _ _ _ _ Hbal Hb). pose proof (Forall_lookup_1 _ _ _ _ Hru Ha).
    pose proof (Forall_lookup_1 _ _ _ _ Hrw Ha). cbn in *.
    apply u64_add_inv in Hadd; [|u64_lia]. subst b'.
    apply decrease_balance_Ok in Hbody as (c & Hc & ->). cbn in Hc.
    rewrite <- Heq in Hb. rewrite list_lookup_insert_eq in Hc by by eapply lookup_lt_Some.
    injection Hc as <-. split; [done|]. exists b. split; [done|]. cbn.
    rewrite list_insert_insert_eq.
    by rewrite (list_lookup_total_correct _ _ _ Ha), (list_lookup_total_correct _ _ _ Ha1).
Qed.

(** ** Slashing penalties *)

(** The penalty of a slashed validator halfway to its withdrawal. *)
Definition correlation_penalty `{Config} (s : BeaconState) (total : Gwei) (v : Validator) : Gwei :=
  v_effective_balance v / effective_balance_increment *
    Z.min (sum_list_z (slashings s) * 3) total / total * effective_balance_increment.

Definition penalty_due `{Config} (c : Epoch) (v : Validator) : bool :=
  v_slashed v && (c + epochs_per_slashings_vector / 2 =? v_withdrawable_epoch v).

Section Slashings.
Context `{Cfg : Config} `{AM : ArithMode} `{COk : !ConfigOk Cfg}.

Lemma total_balance_range s l t : total_balance s l = Ok t → 1 ≤ t < 2 ^ 64.
Proof using Type.
  unfold total_balance. intros Ht. res_inv.
  assert (0 ≤ a < 2 ^ 64); [|lia].
  eapply (res_fold_inv (λ x, 0 ≤ x < 2 ^ 64)); [| |exact Ha]; [|lia].
  cbn. intros b x b' _ _ Hb. res_inv. by apply u64_add_range in Hb.
Qed.

(** The penalty never exceeds the effective balance. *)
Lemma correlation_penalty_le s total v :
  0 < total → 0 ≤ v_effective_balance v → Forall (λ x, 0 ≤ x) (slashings s) →
  0 ≤ correlation_penalty s total v ≤ v_effective_balance v.
Proof using COk.
  intros Ht Hv Hs. unfold correlation_penalty. pose proof increment_pos.
  set (inc := effective_balance_increment) in *. set (q := v_effective_balance v / inc).
  assert (0 ≤ q) by (apply Z.div_pos; lia).
  pose proof (sum_list_z_nonneg _ Hs). set (m := Z.min _ total). assert (0 ≤ m ≤ total) by lia.
  assert (0 ≤ q * m / total) by (apply Z.div_pos; nia).
  assert (q * m / total ≤ q) by (apply Z.div_le_upper_bound; nia).
  pose proof (Z.mul_div_le (v_effective_balance v) inc ltac:(lia)). fold q in H4. nia.
Qed.

Lemma slashing_penalty_ok s c total v :
  is_u64 (c + epochs_per_slashings_vector / 2) → 0 < total < 2 ^ 64 →
  0 ≤ v_effective_balance v → Forall (λ x, 0 ≤ x) (slashings s) →
  sum_list_z (slashings s) * 3 < 2 ^ 64 →
  v_effective_balance v / effective_balance_increment * total < 2 ^ 64 →
  v_effective_balance v < 2 ^ 64 →
  slashing_penalty s c total v =
  Ok (if penalty_due c v then Some (correlation_penalty s total v) else None).
Proof using COk.
  intros Hc Ht Hv Hs Hs3 Hq Hv64. unfold slashing_penalty, penalty_due.
  pose proof (correlation_penalty_le s total v ltac:(lia) Hv Hs) as Hpen. unfold correlation_penalty in *.
  destruct (v_slashed v); [|done]. rewrite u64_add_ok, !res_bind_Ok by done.
  cbn [andb]. destruct (_ =? v_withdrawable_epoch v); [|done].
  pose proof increment_pos. pose proof (sum_list_z_nonneg _ Hs).
  rewrite u64_div_ok, res_bind_Ok by lia. rewrite res_fold_add_ok, res_bind_Ok by (done || lia).
  rewrite Z.add_0_l, u64_mul_ok, res_bind_Ok by u64_lia.
  assert (0 ≤ v_effective_balance v / effective_balance_increment) by (apply Z.div_pos; lia).
  rewrite u64_mul_ok, res_bind_Ok by (unfold is_u64; nia).
  rewrite u64_div_ok, res_bind_Ok by lia. rewrite u64_mul_ok, res_bind_Ok by u64_lia. done.
Qed.
End Slashings.

(** The slashing stage takes from every validator that is due exactly its
    correlation penalty, which never exceeds its effective balance, and leaves
    the others alone. *)
Theorem process_slashings_correct `{Config} `{ArithMode} `{!ConfigOk _} s s' total :
  wf_state s → slot s < 2 ^ 62 → total_active_balance s = Ok total →
  sum_list_z (slashings s) * 3 < 2 ^ 64 →
  Forall (λ v, v_effective_balance v / effective_balance_increment * total < 2 ^ 64) (validators s) →
  process_slashings s = (Ok tt, s') →
  but_balances s' = but_balances s ∧
  ∀ k v b, validators s !! k = Some v → balances s !! k = Some b →
    0 ≤ correlation_penalty s total v ≤ v_effective_balance v ∧
    balances s' !! k = Some (if penalty_due (slot s / slots_per_epoch) v
                             then saturating_sub b (correlation_penalty s total v) else b).
Proof.
  intros Hwf Hslot Htot Hs3 Hq Hrun. unfold process_slashings in Hrun.
  rewrite Mbind_get, current_epoch_ok, Mbind_lift_Ok, Htot, Mbind_lift_Ok in Hrun.
  pose proof Htot as Htr. unfold total_active_balance in Htr. rewrite current_epoch_ok in Htr.
  apply total_balance_range in Htr. pose proof (epoch_range _ (wf_slot _ Hwf)) as He.
  pose proof slashings_vector_pos as Hsv.
  assert (0 ≤ epochs_per_slashings_vector / 2 ≤ 2 ^ 20).
  { unfold epochs_per_slashings_vector. split; [apply Z.div_pos; lia|apply Z.div_le_upper_bound; lia]. }
  assert (Forall (λ x, 0 ≤ x) (slashings s)) as Hpos
    by (eapply Forall_impl; [apply (wf_slashings _ Hwf)|]; cbn; unfold is_u64; lia).
  apply (for_each_pointwise balances but_balances (λ k b,
    match validators s !! k with
    | Some v => if penalty_due (slot s / slots_per_epoch) v
                then saturating_sub b (correlation_penalty s total v) else b
    | None => b end)) in Hrun as (Hrest & _ & Hk).
  - split; [done|]. intros k v b Hv Hb.
    pose proof (Forall_lookup_1 _ _ _ _ (wf_validators _ Hwf) Hv) as [[Hv0 _] _ _ _ _].
    split; [apply correlation_penalty_le; [lia|done..]|].
    rewrite (Hk k b Hb), Hv. rewrite decide_True; [done|]. apply elem_of_to_nat_zrange.
    apply lookup_lt_Some in Hv. unfold zlen. lia.
  - apply NoDup_to_nat_zrange.
  - intros i t t1 _ Hrest Heq Hbody. rewrite Mbind_get in Hbody.
    apply Mbind_lift in Hbody as (v & Hv%vec_index_Ok & Hbody).
    assert (validators t = validators s ∧ slashings t = slashings s) as [Hvs Hss].
    { apply but_balances_eq in Hrest. rewrite Hrest. done. }
    rewrite Hvs in Hv. pose proof (Forall_lookup_1 _ _ _ _ (wf_validators _ Hwf) Hv) as [[Hv0 Hv1] _ _ _ _].
    assert (Hpt : slashing_penalty t (slot s / slots_per_epoch) total v =
      slashing_penalty s (slot s / slots_per_epoch) total v) by (unfold slashing_penalty; by rewrite Hss).
    rewrite Hpt, slashing_penalty_ok, Mbind_lift_Ok in Hbody; try done; try (unfold is_u64; lia).
    2:{ by eapply (Forall_lookup_1 _ _ _ _ Hq). }
    rewrite Hv. destruct (penalty_due _ v).
    + apply decrease_balance_Ok in Hbody as (b & Hb & ->). split; [done|]. eauto.
    + run_inv. split; [done|].
      destruct (lookup_lt_is_Some_2 (balances s) (Z.to_nat i)) as [b Hb].
      { rewrite (wf_registry _ Hwf). by eapply lookup_lt_Some. }
      rewrite <- Heq in Hb. exists b. split; [done|]. by rewrite list_insert_id.
Qed.

(** ** Hysteresis *)

(** The effective balance after the final updates. *)
Definition next_effective `{Config} (eb b : Gwei) : Gwei :=
  if (b <? eb) || (eb + 3 * (effective_balance_increment / 2) <? b)
  then Z.min (b - b mod effective_balance_increment) max_effective_balance
  else eb.

Section Hysteresis.
Context `{Cfg : Config} `{AM : ArithMode} `{COk : !ConfigOk Cfg} `{TR : TreeRoot}.

Lemma increment_half : 0 ≤ effective_balance_increment / 2 ≤ 2 ^ 39.
Proof using COk.
  pose proof increment_pos. pose proof max_effective_small.
  split; [apply Z.div_pos; lia|apply Z.div_le_upper_bound; lia].
Qed.

Lemma next_effective_close eb b :
  0 ≤ b → let eb' := next_effective eb b in
  eb' ≤ b ∧ (b < eb' + 2 * effective_balance_increment ∨ eb' = max_effective_balance).
Proof using COk.
  intros Hb. unfold next_effective. pose proof increment_pos. pose proof increment_half.
  pose proof (Z.mul_div_le effective_balance_increment 2 ltac:(lia)).
  assert (0 ≤ b mod effective_balance_increment < effective_balance_increment)
    by (apply Z.mod_pos_bound; lia).
  destruct (Z.ltb_spec b eb), (Z.ltb_spec (eb + 3 * (effective_balance_increment / 2)) b); cbn; lia.
Qed.

Lemma update_effective_balance_Ok i s s' v b :
  validators s !! Z.to_nat i = Some v → balances s !! Z.to_nat i = Some b →
  is_u64 b → 0 ≤ v_effective_balance v < 2 ^ 63 →
  update_effective_balance i s = (Ok tt, s') →
  s' = with_validators (<[Z.to_nat i :=
         with_v_effective_balance (next_effective (v_effective_balance v) b) v]> (validators s)) s.
Proof using COk.
  intros Hv Hb Hb64 Hv63 Hrun. unfold update_effective_balance in Hrun. rewrite Mbind_get in Hrun.
  rewrite (proj2 (vec_index_Ok _ _ _) Hv), Mbind_lift_Ok in Hrun.
  rewrite (proj2 (vec_index_Ok _ _ _) Hb), Mbind_lift_Ok in Hrun.
  pose proof increment_pos. pose proof increment_half.
  assert (0 ≤ b mod effective_balance_increment) by (apply Z.mod_pos_bound; lia).
  assert (b mod effective_balance_increment ≤ b) by (apply Z.mod_le; u64_lia).
  unfold next_effective.
  assert (∀ u : bool, (if (u : bool) then
      r ← lift (u64_rem b effective_balance_increment); d ← lift (u64_sub b r);
      modify_validator i (with_v_effective_balance (Z.min d max_effective_balance))
    else mret tt) s = (Ok tt, s') →
    s' = with_validators (<[Z.to_nat i := with_v_effective_balance (if u
      then Z.min (b - b mod effective_balance_increment) max_effective_balance
      else v_effective_balance v) v]> (validators s)) s) as Hu.
  { intros [] Hu.
    - rewrite u64_rem_ok, Mbind_lift_Ok, u64_sub_ok, Mbind_lift_Ok in Hu by (unfold is_u64 in *; lia).
      apply modify_validator_Ok in Hu as (w & Hw & ->). rewrite Hv in Hw. by injection Hw as <-.
    - injection Hu as <-. replace (with_v_effective_balance _ v) with v by by destruct v.
      rewrite list_insert_id by done. by destruct s. }
  destruct (b <? v_effective_balance v); cbn [orb].
  - rewrite Mbind_lift_Ok in Hrun. by apply (Hu true).
  - rewrite u64_mul_ok, res_bind_Ok, u64_add_ok, res_bind_Ok, Mbind_lift_Ok in Hrun by (unfold is_u64 in *; lia).
    exact (Hu _ Hrun).
Qed.

Lemma effective_loop_Ok s s' :
  wf_state s → Forall (λ v, v_effective_balance v < 2 ^ 63) (validators s) →
  for_each (zrange 0 (zlen (validators s))) update_effective_balance s = (Ok tt, s') →
  but_validators s' = but_validators s ∧ length (validators s') = length (validators s) ∧
  ∀ k v b, validators s !! k = Some v → balances s !! k = Some b →
    validators s' !! k = Some (with_v_effective_balance (next_effective (v_effective_balance v) b) v).
Proof using COk.
  intros Hwf Heff Hrun.
  apply (for_each_pointwise validators but_validators (λ k v,
    with_v_effective_balance (next_effective (v_effective_balance v) (balances s !!! k)) v))
    in Hrun as (Hrest & Hlen & Hk).
  - split; [done|]. split; [done|]. intros k v b Hv Hb. rewrite (Hk k v Hv).
    rewrite decide_True by (apply elem_of_to_nat_zrange; apply lookup_lt_Some in Hv; unfold zlen; lia).
    by rewrite (list_lookup_total_correct _ _ _ Hb).
  - apply NoDup_to_nat_zrange.
  - intros i t t1 Hi%elem_of_zrange Hrest Heq Hbody.
    assert (balances t = balances s) as Hbs by (apply but_validators_eq in Hrest; by rewrite Hrest).
    destruct (lookup_lt_is_Some_2 (validators s) (Z.to_nat i)) as [v Hv]; [unfold zlen in Hi; lia|].
    destruct (lookup_lt_is_Some_2 (balances s) (Z.to_nat i)) as [b Hb].
    { rewrite (wf_registry _ Hwf). by eapply lookup_lt_Some. }
    pose proof (Forall_lookup_1 _ _ _ _ (wf_validators _ Hwf) Hv) as [[Hv0 _] _ _ _ _].
    pose proof (Forall_lookup_1 _ _ _ _ Heff Hv). cbn in H.
    rewrite <- Heq in Hv. rewrite <- Hbs in Hb.
    apply (update_effective_balance_Ok i t t1 v b) in Hbody as ->; [|done..| |done].
    + split; [done|]. exists v. split; [done|]. cbn. rewrite <- Hbs.
      by rewrite (list_lookup_total_correct _ _ _ Hb).
    + rewrite Hbs in Hb. by eapply (Forall_lookup_1 _ _ _ _ (wf_balances _ Hwf)).
Qed.
End Hysteresis.

(** The final updates reset the votes and attestations that are due, and
    set every effective balance by the hysteresis rule: afterwards it does not
    exceed the balance, and lags it by less than two increments unless it is
    capped. *)
Theorem process_final_updates_correct `{Config} `{ArithMode} `{TreeRoot} `{!ConfigOk _} s s' :
  wf_state s → slot s < 2 ^ 62 → Forall (λ v, v_effective_balance v < 2 ^ 63) (validators s) →
  process_final_updates s = (Ok tt, s') →
  previous_epoch_attestations s' = current_epoch_attestations s ∧
  current_epoch_attestations s' = [] ∧
  balances s' = balances s ∧
  slashings s' = <[Z.to_nat ((slot s / slots_per_epoch + 1) mod epochs_per_slashings_vector) := 0]>
                   (slashings s) ∧
  eth1_data_votes s' = (if (slot s + 1) mod slots_per_eth1_voting_period =? 0 then [] else eth1_data_votes s) ∧
  ∀ k v b, validators s !! k = Some v → balances s !! k = Some b → ∃ v',
    validators s' !! k = Some v' ∧
    v' = with_v_effective_balance (next_effective (v_effective_balance v) b) v ∧
    v_effective_balance v' ≤ b ∧
    (b < v_effective_balance v' + 2 * effective_balance_increment ∨
     v_effective_balance v' = max_effective_balance).
Proof.
  intros Hwf Hslot Heff Hrun. unfold process_final_updates in Hrun.
  rewrite Mbind_get, current_epoch_ok, Mbind_lift_Ok in Hrun.
  pose proof (epoch_range _ (wf_slot _ Hwf)). pose proof (wf_slot _ Hwf).
  rewrite (u64_add_ok (slot s / _)), Mbind_lift_Ok in Hrun by u64_lia.
  rewrite (u64_add_ok (slot s)), Mbind_lift_Ok in Hrun by u64_lia.
  pose proof eth1_period_pos as Hep. fold slots_per_eth1_voting_period in Hep.
  apply Mbind_lift in Hrun as (m & [_ ->]%u64_rem_inv & Hrun).
  apply Mbind_Ok in Hrun as ([] & s1 & Hs1 & Hrun).
  assert (s1 = with_eth1_data_votes (if (slot s + 1) mod slots_per_eth1_voting_period =? 0 then []
    else eth1_data_votes s) s) as ->.
  { destruct (_ =? 0); injection Hs1 as <-; [done|]. by destruct s. }
  clear Hs1. set (s1 := with_eth1_data_votes _ s) in *.
  apply Mbind_Ok in Hrun as ([] & s2 & Hloop & Hrun).
  change (zlen (validators s)) with (zlen (validators s1)) in Hloop.
  apply effective_loop_Ok in Hloop as (Hrest & _ & Hk); [|by destruct Hwf|done].
  apply but_validators_eq in Hrest. set (vs := validators s2) in *. clearbody vs. subst s2.
  run_inv; apply u64_rem_inv in Ha as [_ ->]; apply vec_set_Ok in Ha0 as [_ ->]; cbn in *.
  all: do 5 (split; [done|]); intros k v b Hv Hb; eexists; split; [by apply Hk|]; split; [done|];
    apply next_effective_close; eapply (Forall_lookup_1 _ _ _ _ (wf_balances _ Hwf) Hb).
Qed.

(** ** The activation queue *)

(** An entry that the queue activates in epoch [c]. *)
Definition activated `{Config} (c : Epoch) (v : Validator) : Validator :=
  if v_activation_epoch v =? FAR_FUTURE_EPOCH
  then with_v_activation_epoch (c + 1 + max_seed_lookahead) v else v.

(** An entry waiting for activation once epoch [f] is finalized. *)
Definition waiting `{Config} (f : Epoch) (v : Validator) : bool :=
  negb (v_activation_eligibility_epoch v =? FAR_FUTURE_EPOCH) &&
  (f + 1 + max_seed_lookahead <=? v_activation_epoch v).

Section Activation.
Context `{Cfg : Config} `{AM : ArithMode} `{COk : !ConfigOk Cfg}.

Lemma activation_candidates_ok s l :
  0 ≤ cp_epoch (finalized_checkpoint s) < 2 ^ 62 →
  activation_candidates s l =
  Ok (filter (λ iv, waiting (cp_epoch (finalized_checkpoint s)) iv.2 = true) l).*1.
Proof using COk.
  intros Hf. induction l as [|[i v] l IH]; [done|]. cbn [activation_candidates].
  replace (if v_activation_eligibility_epoch v =? FAR_FUTURE_EPOCH then _ else _)
    with (Ok (E:=Error) (waiting (cp_epoch (finalized_checkpoint s)) v)).
  2:{ unfold waiting. destruct (_ =? _); [done|].
      by rewrite activation_exit_epoch_ok by lia. }
  rewrite res_bind_Ok, IH, res_bind_Ok, filter_cons. cbn [snd].
  destruct (waiting _ v); [by rewrite decide_True|by rewrite decide_False].
Qed.

Lemma activate_Ok i s s' :
  is_u64 (slot s) → slot s < 2 ^ 62 → activate i s = (Ok tt, s') →
  ∃ v, validators s !! Z.to_nat i = Some v ∧
    s' = with_validators (<[Z.to_nat i := activated (slot s / slots_per_epoch) v]> (validators s)) s.
Proof using COk.
  intros Hu Hs Hrun. unfold activate in Hrun. rewrite Mbind_get, current_epoch_ok, Mbind_lift_Ok in Hrun.
  apply Mbind_lift in Hrun as (v & Hv%vec_index_Ok & Hrun). exists v. split; [done|].
  pose proof (epoch_range _ Hu). unfold activated. destruct (_ =? FAR_FUTURE_EPOCH).
  - rewrite activation_exit_epoch_ok, Mbind_lift_Ok in Hrun by lia.
    apply modify_validator_Ok in Hrun as (w & Hw & ->). rewrite Hv in Hw. by injection Hw as <-.
  - injection Hrun as <-. rewrite list_insert_id by done. by destruct s.
Qed.

Lemma candidates_NoDup f (l : list Validator) :
  NoDup (Z.to_nat <$> (filter (λ iv, waiting f iv.2 = true) (enumerate l)).*1).
Proof using Type.
  apply (sublist_NoDup _ (Z.to_nat <$> (enumerate l).*1)).
  - rewrite enumerate_fst. apply NoDup_to_nat_zrange.
  - apply fmap_sublist, fmap_sublist, sublist_filter.
Qed.

Lemma take_NoDup {A} n (l : list A) : NoDup l → NoDup (take n l).
Proof using Type. intros H. eapply sublist_NoDup; [done|]. apply sublist_take. Qed.

Lemma elem_of_candidates f (l : list Validator) i :
  i ∈ (filter (λ iv, waiting f iv.2 = true) (enumerate l)).*1 ↔
  0 ≤ i ∧ ∃ v, l !! Z.to_nat i = Some v ∧ waiting f v = true.
Proof using Type.
  rewrite list_elem_of_fmap. split.
  - intros ([j v] & -> & [Hw [Hj Hv]%elem_of_enumerate]%list_elem_of_filter). eauto.
  - intros (Hi & v & Hv & Hw). exists (i, v). split; [done|].
    apply list_elem_of_filter. split; [done|]. by apply elem_of_enumerate.
Qed.
End Activation.

(** After the eligibility and ejection pass, exactly the first [limit]
    validators of the queue are activated: the queue holds the waiting
    validators by eligibility epoch, and [limit] is the churn limit. *)
Theorem process_registry_updates_queue `{Config} `{ArithMode} `{!ConfigOk _} s s' :
  wf_state s → slot s < 2 ^ 62 → 0 ≤ cp_epoch (finalized_checkpoint s) < 2 ^ 62 →
  process_registry_updates s = (Ok tt, s') →
  ∃ s1 limit queue,
    for_each (zrange 0 (zlen (validators s))) registry_update s = (Ok tt, s1) ∧
    validator_churn_limit s1 = Ok limit ∧
    (∀ i, i ∈ queue ↔ 0 ≤ i ∧ ∃ v, validators s1 !! Z.to_nat i = Some v ∧
       waiting (cp_epoch (finalized_checkpoint s)) v = true) ∧
    StronglySorted (λ i j, eligibility_key s1 i ≤ eligibility_key s1 j) queue ∧
    but_validators s' = but_validators s1 ∧
    ∀ k v, validators s1 !! k = Some v →
      validators s' !! k = Some (if decide (k ∈ Z.to_nat <$> take (Z.to_nat limit) queue)
                                 then activated (slot s / slots_per_epoch) v else v).
Proof.
  intros Hwf Hslot Hfin Hrun. unfold process_registry_updates in Hrun. rewrite Mbind_get in Hrun.
  apply Mbind_Ok in Hrun as ([] & s1 & Hloop & Hrun). rewrite Mbind_get in Hrun. exists s1.
  assert (wf_state s1 ∧ finality_frame s1 = finality_frame s) as [Hwf1 Hfr].
  { assert (steps (keeps wf_state) (for_each (zrange 0 (zlen (validators s))) registry_update)) as H1
      by (step_tac; apply registry_update_wf).
    assert (steps (same finality_frame) (for_each (zrange 0 (zlen (validators s))) registry_update)) as H2
      by (unfold registry_update; step_tac; apply registry_to_finality;
          apply modify_validator_frame || apply initiate_validator_exit_frame).
    specialize (H1 s Hwf). specialize (H2 s). rewrite Hloop in H1, H2. done. }
  unfold finality_frame in Hfr. injection Hfr as _ Hs1 _ _ _ _ Hf1.
  rewrite activation_candidates_ok, Mbind_lift_Ok in Hrun by (by rewrite Hf1). cbv zeta in Hrun.
  set (cand := (filter _ (enumerate (validators s1))).*1) in *.
  set (queue := sort_by_key (eligibility_key s1) cand) in *.
  rewrite validator_churn_limit_ok, Mbind_lift_Ok in Hrun.
  set (limit := Z.max _ _) in *. exists limit, queue.
  assert (0 < limit) by (unfold limit; pose proof churn_pos; lia).
  split; [done|]. split; [apply validator_churn_limit_ok|]. split; [|split; [apply sort_by_key_sorted|]].
  { intros i. unfold queue. rewrite sort_by_key_perm, <- Hf1. apply elem_of_candidates. }
  apply Mbind_lift in Hrun as (front & [_ ->]%slice_Ok & Hrun). rewrite Z.sub_0_r, drop_0 in Hrun.
  replace (take (Z.to_nat (Z.min (zlen queue) limit)) queue) with (take (Z.to_nat limit) queue) in Hrun.
  2:{ unfold zlen. destruct (Z.min_spec (Z.of_nat (length queue)) limit) as [[? ->]|[? ->]]; [|done].
      rewrite Nat2Z.id, !take_ge; [done|lia|lia]. }
  apply (for_each_pointwise validators but_validators (λ _, activated (slot s / slots_per_epoch)))
    in Hrun as (Hrest & _ & Hk); [done| |].
  - rewrite fmap_take. apply take_NoDup. unfold queue. rewrite sort_by_key_perm. apply candidates_NoDup.
  - intros i t t1 _ Hrest Heq Hbody.
    assert (slot t = slot s) as Hst by (apply but_validators_eq in Hrest; rewrite Hrest; done).
    apply activate_Ok in Hbody as (v & Hv & ->); rewrite Hst; [|apply Hwf|done].
    split; [done|]. eauto.
Qed.

(** ** The attestation a validator is rewarded for *)

(** [index] is among the attesters of [b]. *)
Definition attests `{Config} `{ArithMode} (s : BeaconState) (b : PendingAttestation)
  (index : ValidatorIndex) : Prop :=
  ∃ l, attesting_indices s (pa_data b) (pa_aggregation_bits b) = Ok l ∧ index ∈ l.

Section MinInclusion.
Context `{Cfg : Config} `{AM : ArithMode}.

(** The fold that keeps the smaller delay. *)
Definition smaller (a b : PendingAttestation) : PendingAttestation :=
  if pa_inclusion_delay a <? pa_inclusion_delay b then a else b.

Lemma foldl_smaller first l :
  let a := foldl smaller first l in
  (a = first ∨ a ∈ l) ∧ pa_inclusion_delay a ≤ pa_inclusion_delay first ∧
  ∀ b, b ∈ l → pa_inclusion_delay a ≤ pa_inclusion_delay b.
Proof.
  revert first. induction l as [|x l IH]; intros first; cbn.
  - split; [by left|]. split; [done|]. intros b Hb. by apply elem_of_nil in Hb.
  - destruct (IH (smaller first x)) as (Hin & Hle & Hall). unfold smaller at 3 in Hle.
    assert (smaller first x = first ∨ smaller first x = x) as Hs by (unfold smaller; destruct (_ <? _); auto).
    assert (pa_inclusion_delay (smaller first x) ≤ pa_inclusion_delay first ∧
            pa_inclusion_delay (smaller first x) ≤ pa_inclusion_delay x) as [H1 H2].
    { unfold smaller. destruct (Z.ltb_spec (pa_inclusion_delay first) (pa_inclusion_delay x)); lia. }
    split; [|split].
    + destruct Hin as [->|Hin]; [destruct Hs as [->| ->]; [by left|right; left]|right; by right].
    + unfold smaller at 1 in H1. etrans; [|exact H1]. exact Hle.
    + intros b [->|Hb]%elem_of_cons; [|by apply Hall]. etrans; [exact Hle|]. exact H2.
Qed.

Lemma foldl_smaller_first first l :
  (∀ b, b ∈ l → pa_inclusion_delay first < pa_inclusion_delay b) → foldl smaller first l = first.
Proof.
  induction l as [|x l IH]; intros Hl; cbn; [done|]. unfold smaller at 2.
  rewrite (proj2 (Z.ltb_lt _ _)) by (apply Hl; left). apply IH. intros b Hb. apply Hl. by right.
Qed.

(** The candidates of the fold are the attestations of [index]. *)
Lemma attested_filter s index l r :
  res_map (λ a, indices ← attesting_indices s (pa_data a) (pa_aggregation_bits a);
                Ok (a, contains indices index)) l = Ok r →
  ∀ b, b ∈ (filter (λ ac, ac.2 = true) r).*1 ↔ b ∈ l ∧ attests s b index.
Proof.
  revert r. induction l as [|x l IH]; intros r Hr b.
  { injection Hr as <-. rewrite !elem_of_nil. tauto. }
  cbn in Hr. apply bind_Ok in Hr as (y & Hy & Hr). apply bind_Ok in Hr as (r' & Hr' & Hr).
  injection Hr as <-. apply bind_Ok in Hy as (a1 & Ha & Hy). injection Hy as <-.
  specialize (IH _ Hr' b). rewrite filter_cons. cbn [snd].
  rewrite elem_of_cons. destruct (contains a1 index) eqn:Hc.
  - rewrite decide_True by done. cbn [fmap list_fmap fst]. rewrite elem_of_cons, IH.
    apply contains_spec in Hc. split; [|naive_solver].
    intros [->|?]; [split; [by left|exists a1; done]|naive_solver].
  - rewrite decide_False by done. rewrite IH. split; [naive_solver|].
    intros [[->|?] Hat]; [|done]. destruct Hat as (l' & Hl' & Hin). rewrite Ha in Hl'.
    injection Hl' as <-. apply contains_spec in Hin. congruence.
Qed.
End MinInclusion.

(** The attestation chosen for a validator's inclusion reward has the least
    delay among the attestations of that validator and the first attestation of
    the epoch; when the first one is earlier than all of the validator's, it is
    the one chosen, whether or not the validator is part of it. *)
Theorem min_inclusion_attestation_choice `{Config} `{ArithMode} s first rest index a :
  min_inclusion_attestation s (first :: rest) index = Ok a →
  (a = first ∨ a ∈ first :: rest ∧ attests s a index) ∧
  pa_inclusion_delay a ≤ pa_inclusion_delay first ∧
  (∀ b, b ∈ first :: rest → attests s b index → pa_inclusion_delay a ≤ pa_inclusion_delay b) ∧
  ((∀ b, b ∈ first :: rest → attests s b index → pa_inclusion_delay first < pa_inclusion_delay b) →
   a = first).
Proof.
  unfold min_inclusion_attestation. intros Hrun. apply bind_Ok in Hrun as (r & Hr & Hrun).
  cbn in Hrun. injection Hrun as <-.
  pose proof (attested_filter s index _ _ Hr) as Hf. set (l := (filter _ r).*1) in *.
  destruct (foldl_smaller first l) as (Hin & Hle & Hall). fold smaller in *.
  split; [destruct Hin as [?|Hin]; [by left|right; by apply Hf]|]. split; [done|]. split.
  - intros b Hb Hat. apply Hall. by apply Hf.
  - intros Hfirst. apply foldl_smaller_first. intros b [Hb Hat]%Hf. by apply Hfirst.
Qed.

(** ** Witnesses *)

Section Witnesses.
#[local] Existing Instances toy_config toy_config_ok toy_mode toy_fuel toy_tree.

Lemma process_rewards_correct_witness :
  let s := toy_state 8 17 in let s' := (process_rewards_and_penalties s).2 in
  ∃ rewards penalties, attestation_deltas s = Ok (rewards, penalties) ∧
    (Forall (λ r, r < 2 ^ 62) rewards →
     but_balances s' = but_balances s ∧ length (balances s') = length (balances s) ∧
     ∀ k b, balances s !! k = Some b → ∃ r p, rewards !! k = Some r ∧ penalties !! k = Some p ∧
       balances s' !! k = Some (saturating_sub (b + r) p)).
Proof.
  intros s s'. refine (process_rewards_correct s s' _ _ _ _).
  - apply wf_stateb_spec. vm_compute. reflexivity.
  - vm_compute. done.
  - repeat constructor; done.
  - vm_compute. reflexivity.
Defined.

(** Validator 2 was slashed and is half way to its withdrawal. *)
Definition toy_slashed : BeaconState :=
  with_slashings (<[5%nat := 32000000000]> (slashings (toy_state 8 17)))
    (with_validators (<[2%nat := with_v_slashed true (with_v_withdrawable_epoch 34 (toy_validator 2))]>
       (validators (toy_state 8 17))) (toy_state 8 17)).

Lemma process_slashings_correct_witness :
  let s := toy_slashed in let s' := (process_slashings s).2 in
  but_balances s' = but_balances s ∧
  ∀ k v b, validators s !! k = Some v → balances s !! k = Some b →
    0 ≤ correlation_penalty s 256000000000 v ≤ v_effective_balance v ∧
    balances s' !! k = Some (if penalty_due (slot s / slots_per_epoch) v
                             then saturating_sub b (correlation_penalty s 256000000000 v) else b).
Proof.
  intros s s'.
  assert (wf_state s) as Hwf by (apply wf_stateb_spec; vm_compute; reflexivity).
  assert (process_slashings s = (Ok tt, s')) as Hrun by (vm_compute; reflexivity).
  assert (total_active_balance s = Ok 256000000000) as Htot by (vm_compute; reflexivity).
  apply (process_slashings_correct s s' 256000000000 Hwf); [vm_compute; done|exact Htot| | |exact Hrun].
  - vm_compute. done.
  - repeat constructor.
Defined.

Lemma process_final_updates_correct_witness :
  let s := toy_state 8 15 in let s' := (process_final_updates s).2 in
  previous_epoch_attestations s' = current_epoch_attestations s ∧
  current_epoch_attestations s' = [] ∧ balances s' = balances s ∧
  slashings s' = <[Z.to_nat ((slot s / slots_per_epoch + 1) mod epochs_per_slashings_vector) := 0]>
                   (slashings s) ∧
  eth1_data_votes s' = (if (slot s + 1) mod slots_per_eth1_voting_period =? 0 then [] else eth1_data_votes s) ∧
  ∀ k v b, validators s !! k = Some v → balances s !! k = Some b → ∃ v',
    validators s' !! k = Some v' ∧
    v' = with_v_effective_balance (next_effective (v_effective_balance v) b) v ∧
    v_effective_balance v' ≤ b ∧
    (b < v_effective_balance v' + 2 * effective_balance_increment ∨
     v_effective_balance v' = max_effective_balance).
Proof.
  intros s s'.
  assert (wf_state s) as Hwf by (apply wf_stateb_spec; vm_compute; reflexivity).
  assert (process_final_updates s = (Ok tt, s')) as Hrun by (vm_compute; reflexivity).
  apply (process_final_updates_correct s s' Hwf); [vm_compute; done| |exact Hrun].
  repeat constructor.
Defined.

(** Validator 1 is waiting for its activation. *)
Definition toy_waiting : BeaconState :=
  with_validators (<[1%nat := with_v_activation_epoch FAR_FUTURE_EPOCH (toy_validator 1)]>
    (validators (toy_state 8 15))) (toy_state 8 15).

Lemma process_registry_updates_queue_witness :
  let s := toy_waiting in let s' := (process_registry_updates s).2 in
  ∃ s1 limit queue,
    for_each (zrange 0 (zlen (validators s))) registry_update s = (Ok tt, s1) ∧
    validator_churn_limit s1 = Ok limit ∧
    (∀ i, i ∈ queue ↔ 0 ≤ i ∧ ∃ v, validators s1 !! Z.to_nat i = Some v ∧
       waiting (cp_epoch (finalized_checkpoint s)) v = true) ∧
    StronglySorted (λ i j, eligibility_key s1 i ≤ eligibility_key s1 j) queue ∧
    but_validators s' = but_validators s1 ∧
    ∀ k v, validators s1 !! k = Some v →
      validators s' !! k = Some (if decide (k ∈ Z.to_nat <$> take (Z.to_nat limit) queue)
                                 then activated (slot s / slots_per_epoch) v else v).
Proof.
  intros s s'.
  assert (wf_state s) as Hwf by (apply wf_stateb_spec; vm_compute; reflexivity).
  assert (process_registry_updates s = (Ok tt, s')) as Hrun by (vm_compute; reflexivity).
  apply (process_registry_updates_queue s s' Hwf); [vm_compute; done| |exact Hrun].
  vm_compute. done.
Defined.

Definition toy_pending (sl delay : Z) : PendingAttestation :=
  mkPendingAttestation [true; true]
    (mkAttestationData sl 0 H256_default Checkpoint_default (mkCheckpoint 1 H256_default)) delay 0.

(** The committee of slot 8 is [4; 8] and that of slot 9 is [7; 5]: validator 7
    is rewarded for the delay of the attestation of 4 and 8. *)
Lemma min_inclusion_attestation_choice_witness :
  let l := [toy_pending 8 1; toy_pending 9 2] in
  attesting_indices (toy_state 16 17) (pa_data (toy_pending 8 1)) [true; true] = Ok [4; 8] ∧
  min_inclusion_attestation (toy_state 16 17) l 7 = Ok (toy_pending 8 1) ∧
  ∀ b, b ∈ l → attests (toy_state 16 17) b 7 → 1 ≤ pa_inclusion_delay b.
Proof.
  intros l. split; [vm_compute; reflexivity|].
  assert (min_inclusion_attestation (toy_state 16 17) l 7 = Ok (toy_pending 8 1)) as Hrun
    by (vm_compute; reflexivity).
  split; [exact Hrun|].
  refine (proj1 (proj2 (proj2 (min_inclusion_attestation_choice (toy_state 16 17)
    (toy_pending 8 1) [toy_pending 9 2] 7 (toy_pending 8 1) Hrun)))).
Defined.
End Witnesses.
