(* ===== verification/RewardEquiv.v ===== *)
(** * The two reward computations agree: [components/reward.rs] and
    [executive/transition/per_epoch/reward.rs]

    The rewards of an epoch are written twice: generically over the trait
    [Registry], with the deltas in two [BTreeMap]s, and in the epoch transition
    of the beacon state, with the deltas in two vectors.  [Reward] and [Epoch]
    model them; here they are proved equivalent on the beacon state as a
    [Registry]: the vectors of [attestation_deltas] are represented by the maps
    of [process], loop by loop, and applying all rewards before all penalties
    gives the balances of applying them validator by validator. *)
From stdpp Require Import base numbers list sorting sets.
From Stdlib Require Import ZArith Lia Sorted.
From S2P Require Import Prelude Config Types Utils State Accessors Mutators Justification Reward Epoch EpochProps.

#[local] Open Scope Z_scope.

(** ** Maps of deltas *)

(** [map.insert(k, v)] *)
Fixpoint entry_put (m : list (Z * Z)) (k v : Z) : list (Z * Z) :=
  match m with
  | [] => [(k, v)]
  | (k', v') :: m' =>
      if k =? k' then (k, v) :: m'
      else if k <? k' then (k, v) :: m
      else (k', v') :: entry_put m' k v
  end.

(** The keys of a [BTreeMap] are in order. *)
Notation ordered m := (StronglySorted Z.lt (m : list (Z * Z)).*1).

Lemma entry_get_absent m k : k ∉ m.*1 → entry_get m k = 0.
Proof.
  induction m as [|[k' v] m IH]; cbn; [done|]. intros [Hk Hm]%not_elem_of_cons.
  rewrite (proj2 (Z.eqb_neq _ _)) by done. auto.
Qed.

Lemma ordered_above k m : ordered m → Forall (Z.lt k) m.*1 → k ∉ m.*1.
Proof. intros _ Hf Hk. rewrite Forall_forall in Hf. specialize (Hf k Hk). lia. Qed.

Lemma entry_add_put `{ArithMode} {E} m k d :
  ordered m → entry_add (E:=E) m k d = (v ← u64_add (entry_get m k) d; Ok (entry_put m k v)).
Proof.
  induction m as [|[k' v'] m IH]; cbn; [done|]. intros Hs. inversion Hs as [|?? Hs' Hf]; subst.
  destruct (Z.eqb_spec k k') as [->|Hk]; [done|]. destruct (Z.ltb_spec k k').
  - rewrite entry_get_absent; [done|]. apply ordered_above; [done|].
    eapply Forall_impl; [exact Hf|]. cbn. lia.
  - rewrite IH by done. by destruct (u64_add _ _).
Qed.

Lemma entry_put_keys m k v x : x ∈ (entry_put m k v).*1 ↔ x = k ∨ x ∈ m.*1.
Proof.
  induction m as [|[k' v'] m IH]; cbn; [set_solver|].
  destruct (Z.eqb_spec k k') as [->|]; cbn; [set_solver|].
  destruct (k <? k'); cbn; rewrite !elem_of_cons, ?IH; naive_solver.
Qed.

Lemma entry_put_ordered m k v : ordered m → ordered (entry_put m k v).
Proof.
  induction m as [|[k' v'] m IH]; cbn; [intros _; by repeat constructor|].
  intros Hs. inversion Hs as [|?? Hs' Hf]; subst.
  destruct (Z.eqb_spec k k') as [->|Hk]; [done|]. destruct (Z.ltb_spec k k'); cbn.
  - constructor; [done|]. constructor; [done|]. eapply Forall_impl; [exact Hf|]. cbn. lia.
  - constructor; [auto|]. apply Forall_forall. intros x [->|Hx]%entry_put_keys; [lia|].
    rewrite Forall_forall in Hf. auto.
Qed.

Lemma entry_get_put m k v j :
  ordered m → entry_get (entry_put m k v) j = if j =? k then v else entry_get m j.
Proof.
  induction m as [|[k' v'] m IH]; cbn; [done|].
  intros Hs. inversion Hs as [|?? Hs' Hf]; subst.
  destruct (Z.eqb_spec k k') as [->|Hk]; cbn; [by destruct (j =? k')|].
  destruct (Z.ltb_spec k k'); cbn; [done|]. rewrite IH by done.
  destruct (Z.eqb_spec j k'); [|done]. subst. by rewrite (proj2 (Z.eqb_neq _ _)) by lia.
Qed.

Lemma entry_get_elem m k v : ordered m → (k, v) ∈ m → entry_get m k = v.
Proof.
  induction m as [|[k' v'] m IH]; cbn; [by intros _ ?%elem_of_nil|].
  intros Hs. inversion Hs as [|?? Hs' Hf]; subst. intros [[= -> ->]|Hm]%elem_of_cons.
  - by rewrite Z.eqb_refl.
  - rewrite (proj2 (Z.eqb_neq _ _)); [auto|]. rewrite Forall_forall in Hf.
    specialize (Hf k (list_elem_of_fmap_2 fst _ _ Hm)). lia.
Qed.

(** A map of deltas stands for the vector of deltas of [n] validators. *)
Record represents (n : nat) (m : list (Z * Z)) (l : list Gwei) : Prop := {
  rep_ordered : ordered m;
  rep_keys : ∀ k, k ∈ m.*1 → 0 ≤ k < Z.of_nat n;
  rep_deltas : deltas_ok n l;
  rep_get : ∀ k, (k < n)%nat → l !! k = Some (entry_get m (Z.of_nat k));
}.

Lemma represents_empty n : represents n [] (replicate n 0).
Proof.
  split.
  - constructor.
  - intros k Hk. by apply not_elem_of_nil in Hk.
  - split; [by apply Forall_replicate|apply length_replicate].
  - intros k Hk. by rewrite lookup_replicate_2.
Qed.

Section Equivalence.
Context `{Cfg : Config} `{AM : ArithMode}.

Lemma entry_add_represents n m l k d l' :
  represents n m l → 0 ≤ k → vec_add l k d = Ok l' →
  ∃ m', entry_add m k d = Ok (E:=Error) m' ∧ represents n m' l'.
Proof using Type.
  intros [Ho Hk Hd Hg] Hk0 Hadd. pose proof (vec_add_ok _ _ _ _ _ Hadd Hd) as Hd'.
  unfold vec_add in Hadd. res_inv. apply vec_index_Ok in Ha. apply vec_set_Ok in Hadd as [Hlt ->].
  destruct Hd as [Hdu Hdl]. rewrite Hdl in Hlt. rewrite Hg, Z2Nat.id in Ha by lia. injection Ha as <-.
  exists (entry_put m k a0). split; [rewrite entry_add_put by done; by rewrite Ha0|]. split.
  - by apply entry_put_ordered.
  - intros j [->|Hj]%entry_put_keys; [lia|auto].
  - done.
  - intros j Hj. rewrite entry_get_put by done. destruct (Z.eqb_spec (Z.of_nat j) k) as [<-|Hne].
    + rewrite Nat2Z.id. apply list_lookup_insert_eq. lia.
    + rewrite list_lookup_insert_ne by lia. auto.
Qed.

Lemma u64_mul_comm {E} a b : u64_mul (E:=E) a b = u64_mul b a.
Proof using Type. unfold u64_mul. by rewrite Z.mul_comm. Qed.

(** Two loops that keep a relation between their accumulators. *)
Lemma res_fold_sim {E A B B'} (R : B → B' → Prop) (f : B → A → res E B) (g : B' → A → res E B') l b b' r' :
  (∀ b b' x r', x ∈ l → R b b' → g b' x = Ok r' → ∃ r, f b x = Ok r ∧ R r r') →
  R b b' → res_fold g b' l = Ok r' → ∃ r, res_fold f b l = Ok r ∧ R r r'.
Proof using Type.
  revert b b'. induction l as [|x l IH]; intros b b' Hf HR; cbn; [intros [= <-]; eauto|].
  rewrite bind_Ok. intros (b1' & Hg & Hrun).
  destruct (Hf b b' x b1') as (b1 & Hb1 & HR1); [by left|done|done|]. rewrite Hb1. cbn.
  apply (IH b1 b1'); [|done|done]. intros c c' y r1 Hy. apply Hf. by right.
Qed.

(** ** The parts of the registry *)

Lemma base_reward_base s i b : base_reward s i = Ok b → base s i = Ok b.
Proof using Type.
  unfold base_reward, base. intros H. res_inv. apply vec_index_Ok in Ha0. cbn. rewrite Ha. cbn.
  rewrite Ha0. cbn. rewrite Ha1. cbn. rewrite Ha2. cbn. by rewrite Ha3.
Qed.

(** The loop over the registry with its test is the loop over the eligible
    validators. *)
Lemma eligible_fold {B} (c : Checkpoint) (h : B → ValidatorIndex → res Error B) l el acc :
  eligible_indices (cp_epoch c) l = Ok el →
  res_fold (λ acc iv, e ← is_eligible iv.2 c; if (e : bool) then h acc iv.1 else Ok acc) acc l = res_fold h acc el.
Proof using Type.
  revert el acc. induction l as [|[i v] l IH]; intros el acc; cbn [eligible_indices]; [by intros [= <-]|].
  intros H. apply bind_Ok in H as (e & He & H). apply bind_Ok in H as (r & Hr & H). injection H as <-.
  assert (is_eligible v c = Ok (E:=Error) e) as He' by exact He.
  cbn [res_fold fst snd]. rewrite He'. cbn [mbind res_bind]. destruct e; cbn [res_fold].
  - destruct (h acc i); cbn; auto.
  - cbn. auto.
Qed.

Lemma eligible_indices_range pe l el i : eligible_indices pe l = Ok el → i ∈ el → i ∈ l.*1.
Proof using Type.
  revert el. induction l as [|[j v] l IH]; intros el; cbn [eligible_indices]; [by intros [= <-]|].
  intros H. apply bind_Ok in H as (e & _ & H). apply bind_Ok in H as (r & Hr & H). injection H as <-.
  destruct e; cbn; rewrite ?elem_of_cons; naive_solver.
Qed.

Lemma retain_unslashed_Ok s l r :
  retain_unslashed s l = Ok r → ∀ i, i ∈ r → i ∈ l ∧ ∃ v, validators s !! Z.to_nat i = Some v.
Proof using Type.
  revert r. induction l as [|j l IH]; intros r; cbn; [intros [= <-] i Hi; by apply not_elem_of_nil in Hi|].
  intros H i. res_inv. apply vec_index_Ok in Ha. specialize (IH a0 Ha0 i).
  destruct (v_slashed a); rewrite !elem_of_cons; naive_solver.
Qed.

Lemma committee_members s sl ix l i : beacon_committee s sl ix = Ok l → i ∈ l → 0 ≤ i.
Proof using Type.
  unfold beacon_committee, compute_committee. intros H Hi. res_inv. apply res_map_Ok in H.
  apply list_elem_of_lookup in Hi as [k Hk]. destruct (Forall2_lookup_r _ _ _ _ _ H Hk) as (x & _ & Hx).
  res_inv. apply vec_index_Ok in Hx. apply list_elem_of_lookup_2 in Hx.
  unfold active_validator_indices in Hx. apply list_elem_of_fmap in Hx as ([j v] & -> & [_ Hj]%list_elem_of_filter).
  by apply elem_of_enumerate in Hj as [? _].
Qed.

Lemma unslashed_attesting_indices_range s atts u i :
  unslashed_attesting_indices s atts = Ok u → i ∈ u → 0 ≤ i ∧ ∃ v, validators s !! Z.to_nat i = Some v.
Proof using Type.
  unfold unslashed_attesting_indices. intros H Hi. res_inv. rewrite elem_of_sort in Hi.
  destruct (retain_unslashed_Ok _ _ _ Ha0 i Hi) as [Hia Hv]. split; [|done].
  clear Hi Hv Ha0. revert i Hia. eapply (res_fold_inv (λ ret, ∀ i, i ∈ ret → 0 ≤ i)); [| |exact Ha].
  - cbn. intros b x b' _ Hb Hx. res_inv. rename select (attesting_indices _ _ _ = _) into Hatt.
    unfold attesting_indices in Hatt. res_inv.
    intros i [Hi|Hi]%elem_of_push_all_new; [auto|]. rewrite elem_of_sort in Hi.
    apply list_elem_of_fmap in Hi as ([j i'] & -> & [_ Hj]%list_elem_of_filter).
    apply elem_of_enumerate in Hj as [_ Hj]. apply list_elem_of_lookup_2 in Hj.
    by eapply committee_members.
  - intros i Hi. by apply not_elem_of_nil in Hi.
Qed.

(** The validators of the registry's iterator are the unslashed indices. *)
Lemma unslashed_validators_Ok s (att : BeaconState → Epoch → res Error (list PendingAttestation)) e atts u :
  att s e = Ok atts → unslashed_attesting_indices s atts = Ok u →
  ∃ vs, unslashed_validators att e s = Ok vs ∧ vs.*1 = u.
Proof using Type.
  intros Hatts Hu. unfold unslashed_validators. rewrite Hatts. cbn. rewrite Hu. cbn.
  assert (∀ l, l ⊆ u → ∃ vs, res_map (λ index, v ← vec_index (validators s) index; Ok (index, v)) l =
    Ok (E:=Error) vs ∧ vs.*1 = l) as H; [|by apply H].
  induction l as [|i l IH]; intros Hl; [by exists []|].
  destruct IH as (vs & Hvs & Hf); [set_solver|].
  destruct (unslashed_attesting_indices_range s atts u i Hu) as [_ [v Hv]]; [set_solver|].
  exists ((i, v) :: vs). cbn. rewrite (proj2 (vec_index_Ok _ _ _) Hv). cbn. rewrite Hvs. cbn. by rewrite Hf.
Qed.

Lemma among_contains {V} i (vs : list (ValidatorIndex * V)) : among i vs = contains vs.*1 i.
Proof using Type.
  unfold among, contains. apply eq_bool_prop_intro. rewrite bool_decide_spec, Is_true_true, existsb_exists. split.
  - intros ([j v] & Hj%list_elem_of_In & He%Z.eqb_eq). cbn in He. subst i. by apply (list_elem_of_fmap_2 fst _ (j, v)).
  - intros ([j v] & -> & Hj)%list_elem_of_fmap. exists (j, v). split; [by apply list_elem_of_In|apply Z.eqb_refl].
Qed.

(** ** The loops *)

Notation reps n := (λ a b, represents n a.1 b.1 ∧ represents n a.2 b.2).

(** The validators of the registry, indexed. *)
Lemma eligible_in_registry s pe el i :
  eligible_indices pe (enumerate (validators s)) = Ok el → i ∈ el → 0 ≤ i.
Proof using Type.
  intros Hel Hi. eapply eligible_indices_range in Hi; [|done]. rewrite enumerate_fst in Hi.
  apply elem_of_zrange in Hi. lia.
Qed.

Lemma micro_incentives_agree n s (c : Checkpoint) att atts tb el acc m acc' :
  eligible_indices (cp_epoch c) (enumerate (validators s)) = Ok el →
  att s (cp_epoch c) = Ok atts →
  micro_deltas s tb el acc atts = Ok acc' → reps n m acc →
  ∃ m', micro_incentives (λ s (c : Checkpoint), unslashed_balance att (cp_epoch c) s)
          (λ s c, unslashed_validators att (cp_epoch c) s) s c tb m = Ok m' ∧ reps n m' acc'.
Proof using Type.
  intros Hel Hatts Hd Hm. unfold micro_deltas in Hd. apply bind_Ok in Hd as (u & Hu & Hd).
  apply bind_Ok in Hd as (ab & Hab & Hd). destruct (unslashed_validators_Ok s att _ _ _ Hatts Hu) as (vs & Hvs & Hf).
  unfold micro_incentives, unslashed_balance. rewrite Hatts. cbn [mbind res_bind]. rewrite Hu.
  cbn [mbind res_bind]. rewrite Hab. cbn [mbind res_bind registry_validators BeaconState_Registry].
  cbn [registry_validator BeaconState_Registry]. unfold validator_is_eligible, Validator_ValidatorT.
  rewrite (eligible_fold c (λ acc i,
    l ← unslashed_validators att (cp_epoch c) s;
    if among i l then
      b ← base s i; t ← u64_mul b ab; d ← u64_div t tb; rewards ← entry_add acc.1 i d; Ok (rewards, acc.2)
    else b ← base s i; penalties ← entry_add acc.2 i b; Ok (acc.1, penalties)) _ _ _ Hel).
  eapply (res_fold_sim (reps n)); [|exact Hm|exact Hd]. cbn beta. intros m1 acc1 i r' Hi [Hr1 Hr2] Hrun.
  rewrite Hvs. cbn [mbind res_bind]. rewrite among_contains, Hf.
  pose proof (eligible_in_registry _ _ _ _ Hel Hi) as Hi0.
  destruct (contains u i); res_inv; rename select (base_reward _ _ = _) into Hb;
    rewrite (base_reward_base _ _ _ Hb); cbn [mbind res_bind].
  - rewrite Ha0. cbn [mbind res_bind]. rewrite Ha1. cbn [mbind res_bind].
    destruct (entry_add_represents n _ _ _ _ _ Hr1 Hi0 Ha2) as (m' & -> & Hm'). by exists (m', m1.2).
  - destruct (entry_add_represents n _ _ _ _ _ Hr2 Hi0 Ha0) as (m' & -> & Hm'). by exists (m1.1, m').
Qed.

Lemma min_inclusion_attestation_elem s atts i a : min_inclusion_attestation s atts i = Ok a → a ∈ atts.
Proof using Type.
  unfold min_inclusion_attestation. intros H. apply bind_Ok in H as (l & Hl & H).
  apply bind_Ok in H as (x & Hx & H). injection H as <-. apply vec_index_Ok, list_elem_of_lookup_2 in Hx.
  apply res_map_Ok in Hl. assert (∀ y, y ∈ (filter (λ ac, ac.2 = true) l).*1 → y ∈ atts) as Hsub.
  { intros y ([z c] & -> & [_ Hz]%list_elem_of_filter)%list_elem_of_fmap.
    apply list_elem_of_lookup in Hz as [k Hk]. destruct (Forall2_lookup_r _ _ _ _ _ Hl Hk) as (w & Hw & Heq).
    res_inv. by eapply list_elem_of_lookup_2. }
  revert x Hx Hsub. generalize (filter (λ ac, ac.2 = true) l).*1 as ys. clear Hl l.
  induction ys as [|y ys IH]; intros x Hx Hsub; cbn; [done|]. apply IH.
  - destruct (_ <? _); [done|]. apply Hsub. by left.
  - intros z Hz. apply Hsub. by right.
Qed.

Lemma res_fold_fmap {E A A' B} (f : A → A') (g : B → A' → res E B) b l :
  res_fold g b (f <$> l) = res_fold (λ b x, g b (f x)) b l.
Proof using Type. revert b. induction l as [|x l IH]; intros b; cbn; [done|]. destruct (g b (f x)); cbn; auto. Qed.

Lemma inclusion_rewards_agree n s (c : Checkpoint) atts r m r' :
  matching_source_attestations s (cp_epoch c) = Ok atts →
  Forall (λ a, 0 ≤ pa_proposer_index a) atts →
  inclusion_deltas s atts r = Ok r' → represents n m r →
  ∃ m', inclusion_rewards s c m = Ok m' ∧ represents n m' r'.
Proof using Type.
  intros Hatts Hpos Hd Hm. unfold inclusion_deltas in Hd. apply bind_Ok in Hd as (u & Hu & Hd).
  destruct (unslashed_validators_Ok s matching_source_attestations _ _ _ Hatts Hu) as (vs & Hvs & Hf).
  unfold inclusion_rewards. cbn [unslashed_attesting_validators BeaconState_Registry min_inclusion_delay_attestation].
  rewrite Hvs. cbn [mbind res_bind]. rewrite <- Hf, res_fold_fmap in Hd.
  eapply (res_fold_sim (represents n)); [|exact Hm|exact Hd]. cbn beta.
  intros m1 r1 [i v] r2 Hi Hr1 Hrun. cbn [fst] in *. rewrite Hatts. cbn [mbind res_bind].
  assert (0 ≤ i) as Hi0.
  { apply (unslashed_attesting_indices_range s atts u i Hu). rewrite <- Hf. by apply (list_elem_of_fmap_2 fst _ (i, v)). }
  apply bind_Ok in Hrun as (a & Ha & Hrun). apply bind_Ok in Hrun as (b & Hb & Hrun).
  apply bind_Ok in Hrun as (pr & Hpr & Hrun). apply bind_Ok in Hrun as (r3 & Hr3 & Hrun).
  rewrite Hb in Hrun. cbn [mbind res_bind] in Hrun.
  apply bind_Ok in Hrun as (mx & Hmx & Hrun). apply bind_Ok in Hrun as (d & Hdv & Hrun).
  rewrite Ha. cbn [mbind res_bind]. change (proposer_index a) with (pa_proposer_index a).
  change (inclusion_delay a) with (pa_inclusion_delay a).
  rewrite (base_reward_base _ _ _ Hb). cbn [mbind res_bind]. rewrite Hpr. cbn [mbind res_bind].
  assert (0 ≤ pa_proposer_index a) as Hp.
  { rewrite Forall_forall in Hpos. apply Hpos. by eapply min_inclusion_attestation_elem. }
  destruct (entry_add_represents n _ _ _ _ _ Hr1 Hp Hr3) as (m2 & -> & Hm2). cbn [mbind res_bind].
  rewrite Hmx. cbn [mbind res_bind]. rewrite Hdv. cbn [mbind res_bind].
  by apply (entry_add_represents n _ _ _ _ _ Hm2).
Qed.

Lemma inactivity_penalties_agree n s (c : Checkpoint) fd tgt el p m p' :
  eligible_indices (cp_epoch c) (enumerate (validators s)) = Ok el →
  matching_target_attestations s (cp_epoch c) = Ok tgt →
  inactivity_deltas s fd el tgt p = Ok p' → represents n m p →
  ∃ m', inactivity_penalties s c fd m = Ok m' ∧ represents n m' p'.
Proof using Type.
  intros Hel Hatts Hd Hm. unfold inactivity_deltas in Hd. apply bind_Ok in Hd as (u & Hu & Hd).
  destruct (unslashed_validators_Ok s matching_target_attestations _ _ _ Hatts Hu) as (vs & Hvs & Hf).
  unfold inactivity_penalties. cbn [mbind res_bind registry_validators BeaconState_Registry].
  cbn [registry_validator BeaconState_Registry unslashed_attesting_target_validators registry_effective_balance]. unfold validator_is_eligible, Validator_ValidatorT.
  rewrite (eligible_fold c (λ penalties i,
    b ← base s i; d ← u64_mul b BASE_REWARDS_PER_EPOCH; penalties ← entry_add penalties i d;
    l ← unslashed_validators matching_target_attestations (cp_epoch c) s;
    if negb (among i l) then
      eb ← ok_or (v_effective_balance <$> validators s !! Z.to_nat i) IndexOutOfRange;
      t ← u64_mul eb fd; d ← u64_div t inactivity_penalty_quotient; entry_add penalties i d
    else Ok penalties) _ _ _ Hel).
  eapply (res_fold_sim (represents n)); [|exact Hm|exact Hd]. cbn beta. intros m1 p1 i r' Hi Hr Hrun.
  pose proof (eligible_in_registry _ _ _ _ Hel Hi) as Hi0.
  apply bind_Ok in Hrun as (b & Hb & Hrun). apply bind_Ok in Hrun as (d & Hdb & Hrun).
  apply bind_Ok in Hrun as (p2 & Hp2 & Hrun).
  rewrite (base_reward_base _ _ _ Hb). cbn [mbind res_bind]. 
  rewrite (u64_mul_comm b), Hdb. cbn [mbind res_bind].
  destruct (entry_add_represents n _ _ _ _ _ Hr Hi0 Hp2) as (m2 & -> & Hm2). cbn [mbind res_bind].
  rewrite Hvs. cbn [mbind res_bind]. rewrite among_contains, Hf.
  destruct (negb (contains u i)); [|injection Hrun as <-; by exists m2].
  apply bind_Ok in Hrun as (v & Hv & Hrun). apply vec_index_Ok in Hv. rewrite Hv. cbn [fmap option_fmap option_map ok_or mbind res_bind].
  apply bind_Ok in Hrun as (t & Ht & Hrun). rewrite Ht. cbn [mbind res_bind].
  apply bind_Ok in Hrun as (d2 & Hd2 & Hrun). rewrite Hd2. cbn [mbind res_bind].
  by apply (entry_add_represents n _ _ _ _ _ Hm2).
Qed.

(** ** Applying the deltas *)

(** A loop over a map that updates one balance per entry by [F]. *)
Lemma balance_loop (op : ValidatorIndex → Gwei → Exec unit) (F : Z → Z → option Z) l s :
  (∀ i d s b c, balances s !! Z.to_nat i = Some b → F b d = Some c →
     op i d s = (Ok tt, with_balances (<[Z.to_nat i := c]> (balances s)) s)) →
  NoDup (Z.to_nat <$> l.*1) →
  (∀ i d, (i, d) ∈ l → ∃ b c, balances s !! Z.to_nat i = Some b ∧ F b d = Some c) →
  ∃ s', for_each l (λ id, op id.1 id.2) s = (Ok tt, s') ∧ but_balances s' = but_balances s ∧
    (∀ i d b, (i, d) ∈ l → balances s !! Z.to_nat i = Some b → balances s' !! Z.to_nat i = F b d) ∧
    (∀ k, k ∉ Z.to_nat <$> l.*1 → balances s' !! k = balances s !! k).
Proof using Type.
  intros Hop. revert s. induction l as [|[i d] l IH]; intros s Hnd HF.
  { exists s. split_and!; try done. intros i d b Hi. by apply not_elem_of_nil in Hi. }
  cbn in Hnd. apply NoDup_cons in Hnd as [Hi Hnd].
  destruct (HF i d) as (b & c & Hb & Hc); [by left|].
  set (s1 := with_balances (<[Z.to_nat i := c]> (balances s)) s).
  assert (∀ k, k ≠ Z.to_nat i → balances s1 !! k = balances s !! k) as Hne
    by (intros k Hk; cbn; by rewrite list_lookup_insert_ne).
  assert (∀ j e, (j, e) ∈ l → Z.to_nat j ≠ Z.to_nat i) as Hneq.
  { intros j e Hj Heq. apply Hi. rewrite <- Heq. apply list_elem_of_fmap_2.
    by apply (list_elem_of_fmap_2 fst _ (j, e)). }
  destruct (IH s1) as (s' & Hrun & Hbut & Hin & Hout); [done| |].
  { intros j e Hj. rewrite Hne by (by eapply Hneq). apply HF. by right. }
  exists s'. split; [cbn [for_each fst snd]; by rewrite (Mbind_step _ _ _ _ _ (Hop i d s b c Hb Hc))|].
  split; [by rewrite Hbut|]. split.
  - intros j e b0 [[= -> ->]|Hj]%elem_of_cons Hb0.
    + rewrite Hout by done. rewrite Hb in Hb0. injection Hb0 as <-. rewrite Hc. cbn.
      apply list_lookup_insert_eq. by eapply lookup_lt_Some.
    + apply Hin; [done|]. by rewrite Hne by (by eapply Hneq).
  - cbn. intros k [Hk Hl]%not_elem_of_cons. rewrite Hout by done. by apply Hne.
Qed.

(** The loop of the epoch transition, validator by validator. *)
Lemma paired_loop rewards penalties l s s' :
  NoDup (Z.to_nat <$> l) →
  for_each l (λ i, r ← lift (vec_index rewards i); increase_balance i r ;;
                   p ← lift (vec_index penalties i); decrease_balance i p) s = (Ok tt, s') →
  but_balances s' = but_balances s ∧
  (∀ k, k ∉ Z.to_nat <$> l → balances s' !! k = balances s !! k) ∧
  ∀ i, i ∈ l → ∃ b r c p, balances s !! Z.to_nat i = Some b ∧ rewards !! Z.to_nat i = Some r ∧
    penalties !! Z.to_nat i = Some p ∧ u64_add b r = Ok (E:=Error) c ∧
    balances s' !! Z.to_nat i = Some (saturating_sub c p).
Proof using Type.
  revert s. induction l as [|i l IH]; intros s Hnd Hrun.
  { injection Hrun as <-. split_and!; try done. intros i Hi. by apply not_elem_of_nil in Hi. }
  cbn in Hnd. apply NoDup_cons in Hnd as [Hi Hnd]. cbn [for_each] in Hrun.
  apply Mbind_Ok in Hrun as ([] & s1 & Hbody & Hrun).
  apply Mbind_lift in Hbody as (r & Hr%vec_index_Ok & Hbody).
  apply Mbind_Ok in Hbody as ([] & s2 & Hinc & Hbody).
  apply Mbind_lift in Hbody as (p & Hp%vec_index_Ok & Hdec).
  apply increase_balance_Ok in Hinc as (b & c & Hb & Hc & ->).
  apply decrease_balance_Ok in Hdec as (c' & Hc' & ->). cbn in Hc'.
  rewrite list_lookup_insert_eq in Hc' by (by eapply lookup_lt_Some). injection Hc' as <-.
  apply IH in Hrun as (Hbut & Hout & Hin); [|done]. cbn [balances with_balances] in Hout, Hin.
  split; [by rewrite Hbut|]. split.
  - cbn. intros k [Hk Hl]%not_elem_of_cons. rewrite Hout by done.
    by rewrite !list_lookup_insert_ne by done.
  - intros j [->|Hj]%elem_of_cons.
    + exists b, r, c, p. split_and!; try done. rewrite Hout by done.
      apply list_lookup_insert_eq. rewrite length_insert. by eapply lookup_lt_Some.
    + destruct (Hin j Hj) as (b' & r' & c' & p' & Hb' & Hrest). exists b', r', c', p'. split; [|done].
      rewrite !list_lookup_insert_ne in Hb'; [done|..];
        intros Heq; apply Hi; rewrite Heq; by apply list_elem_of_fmap_2.
Qed.

(** ** The statement *)

Lemma but_balances_inj (s s' : BeaconState) : but_balances s = but_balances s' → balances s = balances s' → s = s'.
Proof using Type. destruct s, s'. cbn. intros [=] ?. by subst. Qed.

Lemma ordered_NoDup n m l : represents n m l → NoDup (Z.to_nat <$> m.*1).
Proof using Type.
  intros [Ho Hk _ _]. apply NoDup_fmap_2_strong.
  - intros x y Hx Hy Heq. apply Hk in Hx, Hy. lia.
  - clear Hk. induction Ho as [|k ks Ho IH Hf]; constructor; [|done].
    intros Hin. rewrite Forall_forall in Hf. specialize (Hf k Hin). lia.
Qed.

Lemma represents_lookup n m l k :
  represents n m l → (k < n)%nat →
  (∃ d, (Z.of_nat k, d) ∈ m ∧ l !! k = Some d) ∨ (k ∉ Z.to_nat <$> m.*1 ∧ l !! k = Some 0).
Proof using Type.
  intros Hr Hlt. rewrite (rep_get _ _ _ Hr k Hlt).
  destruct (decide (Z.of_nat k ∈ m.*1)) as [([j d] & Hj & Hm)%list_elem_of_fmap|Hk].
  - left. cbn in Hj. subst j. exists d. split; [done|]. f_equal. apply entry_get_elem; [apply Hr|done].
  - right. split; [|by rewrite entry_get_absent]. intros (j & -> & Hj)%list_elem_of_fmap.
    apply Hk. rewrite Z2Nat.id; [done|]. by apply (rep_keys _ _ _ Hr).
Qed.

(** The loop over a map does to every balance what its delta says; a delta of
    zero, which has no entry, changes nothing. *)
Lemma map_loop (op : ValidatorIndex → Gwei → Exec unit) (F : Z → Z → option Z) n m l s :
  (∀ i d s b c, balances s !! Z.to_nat i = Some b → F b d = Some c →
     op i d s = (Ok tt, with_balances (<[Z.to_nat i := c]> (balances s)) s)) →
  represents n m l →
  (∀ k, (k < n)%nat → ∃ b d c, balances s !! k = Some b ∧ l !! k = Some d ∧ F b d = Some c ∧ F b 0 = Some b) →
  ∃ s', for_each m (λ id, op id.1 id.2) s = (Ok tt, s') ∧ but_balances s' = but_balances s ∧
    (∀ k b d, (k < n)%nat → balances s !! k = Some b → l !! k = Some d → balances s' !! k = F b d) ∧
    (∀ k, (n ≤ k)%nat → balances s' !! k = balances s !! k).
Proof using Type.
  intros Hop Hm Hk. destruct (balance_loop op F m s Hop) as (s' & Hrun & Hbut & Hin & Hout).
  - by eapply ordered_NoDup.
  - intros i d Hi. pose proof (rep_keys _ _ _ Hm i (list_elem_of_fmap_2 fst _ (i, d) Hi)) as Hr.
    destruct (Hk (Z.to_nat i)) as (b & d' & c & Hb & Hd & Hc & _); [lia|].
    rewrite (rep_get _ _ _ Hm), Z2Nat.id in Hd by lia.
    rewrite (entry_get_elem _ _ _ (rep_ordered _ _ _ Hm) Hi) in Hd. injection Hd as <-. eauto.
  - exists s'. split_and!; [done|done| |].
    + intros k b d Hlt Hb Hd. destruct (represents_lookup _ _ _ k Hm Hlt) as [(d' & Hd' & Heq)|[Hn Heq]];
        rewrite Hd in Heq; injection Heq as ->.
      * specialize (Hin _ _ b Hd'). rewrite Nat2Z.id in Hin. auto.
      * rewrite Hout by done. destruct (Hk k Hlt) as (b' & _ & _ & Hb' & _ & _ & H0). congruence.
    + intros k Hge. apply Hout. intros (j & -> & Hj)%list_elem_of_fmap. apply (rep_keys _ _ _ Hm) in Hj. lia.
Qed.

(** Rewards and then penalties, from the maps. *)
Lemma apply_maps n mr mp rewards penalties s s' :
  represents n mr rewards → represents n mp penalties → n = length (validators s) → wf_state s →
  for_each (zrange 0 (zlen (validators s))) (λ i,
    r ← lift (vec_index rewards i); increase_balance i r ;;
    p ← lift (vec_index penalties i); decrease_balance i p) s = (Ok tt, s') →
  (for_each mr (λ id, increase_balance id.1 id.2) ;; for_each mp (λ id, decrease_balance id.1 id.2)) s = (Ok tt, s').
Proof using Type.
  intros Hmr Hmp -> Hwf Hrun. apply paired_loop in Hrun as (Hbut & Hout & Hin); [|apply NoDup_to_nat_zrange].
  set (add64 b d := match u64_add (E:=Error) b d with Ok c => Some c | _ => None end).
  assert (∀ k, (k < length (validators s))%nat → ∃ b r c p, balances s !! k = Some b ∧ rewards !! k = Some r ∧
    penalties !! k = Some p ∧ add64 b r = Some c ∧ balances s' !! k = Some (saturating_sub c p) ∧ 0 ≤ c ∧
    add64 b 0 = Some b) as Hk.
  { intros k Hk. destruct (Hin (Z.of_nat k)) as (b & r & c & p & Hb & Hr & Hp & Hc & Hb').
    { apply elem_of_zrange. unfold zlen. lia. }
    rewrite Nat2Z.id in *. pose proof (Forall_lookup_1 _ _ _ _ (wf_balances _ Hwf) Hb) as Hu. cbn in Hu.
    exists b, r, c, p. unfold add64. rewrite (u64_add_ok b 0), Z.add_0_r, Hc by (by rewrite Z.add_0_r).
    apply u64_add_range in Hc. by destruct Hc. }
  clear Hin. destruct (map_loop increase_balance add64 (length (validators s)) mr rewards s) as (s1 & Hrun1 & Hbut1 & Hin1 & Hout1).
  { intros i d t b c Hb Hc. apply increase_balance_Ok. exists b, c. unfold add64 in Hc. destruct (u64_add b d); naive_solver. }
  { done. }
  { intros k Hlt. destruct (Hk k Hlt) as (b & r & c & p & ?); naive_solver. }
  destruct (map_loop decrease_balance (λ b d, Some (saturating_sub b d)) (length (validators s)) mp penalties s1)
    as (s2 & Hrun2 & Hbut2 & Hin2 & Hout2).
  { intros i d t b c Hb [= <-]. apply decrease_balance_Ok. eauto. }
  { done. }
  { intros k Hlt. destruct (Hk k Hlt) as (b & r & c & p & Hb & Hr & Hp & Hc & _ & H0 & _).
    exists c, p, (saturating_sub c p). rewrite (Hin1 k b r) by done. split_and!; try done.
    f_equal. unfold saturating_sub. lia. }
  rewrite (Mbind_step _ _ _ _ _ Hrun1), Hrun2. do 2 f_equal. symmetry. apply but_balances_inj; [congruence|].
  apply list_eq. intros k. destruct (decide (k < length (validators s))%nat) as [Hlt|Hge].
  - destruct (Hk k Hlt) as (b & r & c & p & Hb & Hr & Hp & Hc & -> & _).
    symmetry. apply Hin2; [done| |done]. by rewrite (Hin1 k b r).
  - rewrite Hout by (rewrite elem_of_to_nat_zrange; unfold zlen; lia). rewrite Hout2, Hout1 by lia. done.
Qed.

(** The deltas of the epoch transition are those the component applies. *)
Lemma component_deltas s pe root rw pn :
  previous_epoch s = Ok pe →
  Forall (λ a, 0 ≤ pa_proposer_index a) (previous_epoch_attestations s ++ current_epoch_attestations s) →
  attestation_deltas s = Ok (rw, pn) →
  let n := length (validators s) in
  ∃ mr mp, represents n mr rw ∧ represents n mp pn ∧
    process_rewards (mkCheckpoint pe root) (finalized_checkpoint s) s =
    (for_each mr (λ id, increase_balance id.1 id.2) ;; for_each mp (λ id, decrease_balance id.1 id.2)) s.
Proof using Type.
  set (c := mkCheckpoint pe root). intros Hpe Hproposers Hd n.
  unfold attestation_deltas in Hd. rewrite Hpe in Hd. cbn [mbind res_bind] in Hd.
  apply bind_Ok in Hd as (tb & Htb & Hd). cbv zeta in Hd. apply bind_Ok in Hd as (el & Hel & Hd).
  apply bind_Ok in Hd as (src & Hsrc & Hd). apply bind_Ok in Hd as (tgt & Htgt & Hd).
  apply bind_Ok in Hd as (hd & Hhd & Hd). apply bind_Ok in Hd as (acc & Hacc & Hd).
  apply bind_Ok in Hd as (rw' & Hrw & Hd). apply bind_Ok in Hd as (fd & Hfd & Hd).
  apply bind_Ok in Hd as (pn' & Hpn & Hd). injection Hd as -> ->.
  assert (Forall (λ a, 0 ≤ pa_proposer_index a) src) as Hpos.
  { apply Forall_app in Hproposers as [Hprev Hcur]. unfold matching_source_attestations in Hsrc. by res_inv. }
  cbn [res_fold] in Hacc. apply bind_Ok in Hacc as (a1 & Ha1 & Hacc). apply bind_Ok in Hacc as (a2 & Ha2 & Hacc).
  apply bind_Ok in Hacc as (a3 & Ha3 & Hacc). injection Hacc as <-.
  pose proof (represents_empty n) as H0.
  destruct (micro_incentives_agree n s c matching_source_attestations src tb el _ ([], []) a1 Hel Hsrc Ha1 (conj H0 H0)) as (m1 & Hm1 & Hr1).
  destruct (micro_incentives_agree n s c matching_target_attestations tgt tb el _ m1 a2 Hel Htgt Ha2 Hr1) as (m2 & Hm2 & Hr2).
  destruct (micro_incentives_agree n s c matching_head_attestations hd tb el _ m2 a3 Hel Hhd Ha3 Hr2) as (m3 & Hm3 & Hr3).
  destruct (inclusion_rewards_agree n s c src _ m3.1 rw Hsrc Hpos Hrw (proj1 Hr3)) as (mr & Hmr & Hrr).
  assert (∃ mp, (if min_epochs_to_inactivity_penalty <? fd then inactivity_penalties s c fd m3.2 else Ok m3.2) = Ok mp ∧
    represents n mp pn) as (mp & Hmp & Hrp).
  { destruct (_ <? _).
    - by apply (inactivity_penalties_agree n s c fd tgt el _ m3.2 pn Hel Htgt Hpn), Hr3.
    - injection Hpn as <-. exists m3.2. split; [done|apply Hr3]. }
  exists mr, mp. split; [done|]. split; [done|].
  unfold process_rewards. rewrite Mbind_get. change (registry_total_active_balance s) with (total_active_balance s).
  rewrite Htb, Mbind_lift_Ok. rewrite (Mbind_step _ _ s m1 s) by (unfold lift; f_equal; exact Hm1).
  rewrite (Mbind_step _ _ s m2 s) by (unfold lift; f_equal; exact Hm2).
  rewrite (Mbind_step _ _ s m3 s) by (unfold lift; f_equal; exact Hm3).
  rewrite Hmr, Mbind_lift_Ok. change (checkpoint_epoch c) with pe.
  change (checkpoint_epoch (finalized_checkpoint s)) with (cp_epoch (finalized_checkpoint s)).
  by rewrite Hfd, Mbind_lift_Ok, Hmp, Mbind_lift_Ok.
Qed.

(** C14: the generic reward component and the epoch transition agree.  On a
    well-formed state after the genesis epoch, whenever the rewards and penalties
    of the epoch transition are applied without an error, the component run on
    the same state as its registry, with the previous epoch and the finalized
    checkpoint, ends without an error in the same state. *)
Theorem reward_component_agrees s s' pe root
  (Hwf : wf_state s) (Hepoch : current_epoch s ≠ Ok genesis_epoch) (Hpe : previous_epoch s = Ok pe)
  (Hproposers : Forall (λ a, 0 ≤ pa_proposer_index a) (previous_epoch_attestations s ++ current_epoch_attestations s))
  (Hrun : process_rewards_and_penalties s = (Ok tt, s')) :
  process_rewards (mkCheckpoint pe root) (finalized_checkpoint s) s = (Ok tt, s').
Proof using Type.
  unfold process_rewards_and_penalties in Hrun. rewrite Mbind_get in Hrun.
  apply Mbind_lift in Hrun as (ce & Hce & Hrun). destruct (Z.eqb_spec ce genesis_epoch) as [->|_]; [done|].
  apply Mbind_lift in Hrun as ([rw pn] & Hd & Hrun). cbn [fst snd] in Hrun.
  destruct (component_deltas s pe root rw pn Hpe Hproposers Hd) as (mr & mp & Hmr & Hmp & ->).
  by apply (apply_maps (length (validators s)) mr mp rw pn).
Qed.
End Equivalence.

(** ** Witness *)

Section Witness.
#[local] Existing Instances toy_config toy_mode.

(** Sixteen validators in the third epoch; some attested in the second. *)
Definition toy_attested : BeaconState :=
  with_previous_epoch_attestations [toy_pending 8 3; toy_pending 9 1] (toy_state 16 17).

Lemma reward_component_agrees_witness :
  let s := toy_attested in let s' := (process_rewards_and_penalties s).2 in
  process_rewards (mkCheckpoint 1 []) (finalized_checkpoint s) s = (Ok tt, s') ∧
  ∃ i j b c, balances s' !! i = Some b ∧ balances s' !! j = Some c ∧ b < 32000000000 < c.
Proof.
  intros s s'. split.
  - apply (reward_component_agrees s s' 1 []).
    + apply wf_stateb_spec. vm_compute. reflexivity.
    + vm_compute. discriminate.
    + vm_compute. reflexivity.
    + repeat constructor; done.
    + vm_compute. reflexivity.
  - exists 1%nat, 4%nat, 31997853374, 32000745355.
    split; [vm_compute; reflexivity|]. split; [vm_compute; reflexivity|lia].
Defined.
End Witness.
