(* ===== verification/Block.v ===== *)
(** * Block processing: [executive/transition/per_block/]

    The header, the randao reveal, the eth1 vote and the five kinds of
    operations, and [process_block] that runs them in order.  Signatures are
    checked through [BLSConfig], hashes through [TreeRoot] and deposit proofs
    through [MerkleTree]. *)
From stdpp Require Import base numbers list sorting.
From Stdlib Require Import ZArith Lia.
From S2P Require Import Prelude Config Types Utils State Accessors Mutators.

#[local] Open Scope Z_scope.

Section Block.
Context `{Cfg : Config} `{AM : ArithMode} `{BLS : BLSConfig} `{TR : TreeRoot} `{MT : MerkleTree} `{F : Fuel}.

(** Process a block header. *)
Definition process_block_header {B} `{Block B} (block : B) : Exec unit :=
  s ← get;
  require (block_slot block =? slot s) BlockSlotInvalid ;;
  require (bytes_eqb (block_parent_root block)
             (tree_root_signing_header (signing_header (latest_block_header s))))
    BlockPreviousRootInvalid ;;
  put (with_latest_block_header
         (mkBeaconBlockHeader (block_slot block) (block_parent_root block) H256_default
            (tree_root_body (block_body block)) H768_default) s) ;;
  s ← get;
  p ← lift (beacon_proposer_index s);
  proposer ← lift (vec_index (validators s) p);
  require (negb (v_slashed proposer)) BlockProposerSlashed ;;
  match block_signature block with
  | Some signature =>
      d ← lift (domain s domain_beacon_proposer None);
      require (verify (v_pubkey proposer) (tree_root_unsealed_block (unsealed_from block)) signature d)
        BlockSignatureInvalid
  | None => mret tt
  end.

(** Process randao information given in a block. *)
Definition process_randao (body : BeaconBlockBody) : Exec unit :=
  s ← get;
  p ← lift (beacon_proposer_index s);
  proposer ← lift (vec_index (validators s) p);
  c ← lift (current_epoch s);
  d ← lift (domain s domain_randao None);
  require (verify (v_pubkey proposer) (tree_root_uint c) (body_randao_reveal body) d)
    RandaoSignatureInvalid ;;
  current_epoch ← lift (current_epoch s);
  mix ← lift (randao_mix s current_epoch);
  i ← lift (u64_rem current_epoch epochs_per_historical_vector);
  l ← lift (vec_set (randao_mixes s) i (H256_xor mix (hash [body_randao_reveal body])));
  put (with_randao_mixes l s).

(** Process eth1 data vote given in a block. *)
Definition process_eth1_data (body : BeaconBlockBody) : Exec unit :=
  s ← get;
  put (with_eth1_data_votes (eth1_data_votes s ++ [body_eth1_data body]) s) ;;
  s ← get;
  if slots_per_eth1_voting_period <?
     zlen (filter (λ d, d = body_eth1_data body) (eth1_data_votes s)) * 2
  then put (with_eth1_data (body_eth1_data body) s)
  else mret tt.

(** The signature check on one header of a proposer slashing. *)
Definition check_slashed_header (s : BeaconState) (proposer : Validator) (header : BeaconBlockHeader)
  : Exec unit :=
  e ← lift (epoch_of_slot (bh_slot header));
  d ← lift (domain s domain_beacon_proposer (Some e));
  require (verify (v_pubkey proposer) (tree_root_signing_header (signing_header header))
             (bh_signature header) d) ProposerSlashingInvalidSignature.

(** Push a new [ProposerSlashing] to the state. *)
Definition process_proposer_slashing (ps : ProposerSlashing) : Exec unit :=
  require (bh_slot (ps_header_1 ps) =? bh_slot (ps_header_2 ps)) ProposerSlashingInvalidSlot ;;
  require (bool_decide (ps_header_1 ps ≠ ps_header_2 ps)) ProposerSlashingSameHeader ;;
  s ← get;
  require (ps_proposer_index ps <? zlen (validators s)) ProposerSlashingInvalidProposerIndex ;;
  proposer ← lift (vec_index (validators s) (ps_proposer_index ps));
  c ← lift (current_epoch s);
  require (is_slashable proposer c) ProposerSlashingAlreadySlashed ;;
  for_each [ps_header_1 ps; ps_header_2 ps] (check_slashed_header s proposer) ;;
  slash_validator (ps_proposer_index ps) None.

(** The slashing loop over the sorted indices; returns [slashed_any]. *)
Fixpoint slash_all (l : list ValidatorIndex) (slashed_any : bool) : Exec bool :=
  match l with
  | [] => mret slashed_any
  | index :: rest =>
      s ← get;
      v ← lift (vec_index (validators s) index);
      c ← lift (current_epoch s);
      if is_slashable v c
      then slash_validator index None ;; slash_all rest true
      else slash_all rest slashed_any
  end.

(** The validators of either attestation of an attester slashing. *)
Definition attester_slashing_indices (a : AttesterSlashing) : list ValidatorIndex :=
  let attesting_indices_1 := ia_custody_bit_0_indices (as_attestation_1 a) ++
                             ia_custody_bit_1_indices (as_attestation_1 a) in
  let attesting_indices_2 := ia_custody_bit_0_indices (as_attestation_2 a) ++
                             ia_custody_bit_1_indices (as_attestation_2 a) in
  sort (push_all_new [] (attesting_indices_1 ++ attesting_indices_2)).

(** Push a new [AttesterSlashing] to the state. *)
Definition process_attester_slashing (a : AttesterSlashing) : Exec unit :=
  let attestation_1 := as_attestation_1 a in
  let attestation_2 := as_attestation_2 a in
  require (is_slashable_data (ia_data attestation_1) (ia_data attestation_2))
    AttesterSlashingNotSlashable ;;
  s ← get;
  v1 ← lift (is_valid_indexed_attestation s attestation_1);
  require v1 AttestationInvalidSignature ;;
  v2 ← lift (is_valid_indexed_attestation s attestation_2);
  require v2 AttestationInvalidSignature ;;
  slashed_any ← slash_all (attester_slashing_indices a) false;
  require slashed_any AttesterSlashingEmptyIndices.

(** Push a new [Attestation] to the state. *)
Definition process_attestation (attestation : Attestation) : Exec unit :=
  let data := at_data attestation in
  s ← get;
  count ← lift (committee_count_at_slot s (ad_slot data));
  require (ad_index data <? count) AttestationIncorrectCrosslinkData ;;
  c ← lift (current_epoch s);
  p ← lift (previous_epoch s);
  require ((cp_epoch (ad_target data) =? c) || (cp_epoch (ad_target data) =? p))
    AttestationIncorrectJustifiedEpochOrBlockRoot ;;
  t ← lift (u64_add (ad_slot data) min_attestation_inclusion_delay);
  in_time ← lift (if t <=? slot s then
                    t ← u64_add (ad_slot data) slots_per_epoch; Ok (slot s <=? t)
                  else Ok false);
  require in_time AttestationSubmittedTooQuickly ;;
  inclusion_delay ← lift (u64_sub (slot s) (ad_slot data));
  proposer_index ← lift (beacon_proposer_index s);
  let pending_attestation :=
    mkPendingAttestation (at_aggregation_bits attestation) data inclusion_delay proposer_index in
  let push_current := cp_epoch (ad_target data) =? c in
  require (if push_current then bool_decide (ad_source data = current_justified_checkpoint s)
           else true) AttestationInvalidData ;;
  indexed ← lift (indexed_attestation s attestation);
  valid ← lift (is_valid_indexed_attestation s indexed);
  require valid AttestationInvalidSignature ;;
  if push_current
  then put (with_current_epoch_attestations (current_epoch_attestations s ++ [pending_attestation]) s)
  else put (with_previous_epoch_attestations (previous_epoch_attestations s ++ [pending_attestation]) s).

(** The effective balance a new validator gets for its first deposit. *)
Definition deposit_effective_balance (amount : Gwei) : res Error Gwei :=
  r ← u64_rem amount effective_balance_increment;
  d ← u64_sub amount r;
  Ok (Z.min d max_effective_balance).

(** A new registry entry: [validators.push(..)] and [balances.push(..)]. *)
Definition push_validator (validator : Validator) (amount : Gwei) : Exec unit :=
  s ← get;
  put (with_validators (validators s ++ [validator]) s) ;;
  s ← get;
  put (with_balances (balances s ++ [amount]) s).

(** Push a new [Deposit] to the state. *)
Definition process_deposit (deposit : Deposit) : Exec unit :=
  s ← get;
  require (is_valid_merkle_branch (tree_root_deposit_data (dep_data deposit)) (dep_proof deposit)
             (DEPOSIT_CONTRACT_TREE_DEPTH + 1) (eth1_deposit_index s) (e1_deposit_root (eth1_data s)))
    DepositMerkleInvalid ;;
  i ← lift (u64_add (eth1_deposit_index s) 1);
  put (with_eth1_deposit_index i s) ;;
  s ← get;
  let pubkey := dd_pubkey (dep_data deposit) in
  let amount := dd_amount (dep_data deposit) in
  let validator_pubkeys := v_pubkey <$> validators s in
  if negb (contains validator_pubkeys pubkey) then
    d ← lift (domain s domain_deposit None);
    if negb (verify pubkey (tree_root_signing_deposit_data (signing_deposit_data (dep_data deposit)))
               (dd_signature (dep_data deposit)) d)
    then mret tt
    else
      eb ← lift (deposit_effective_balance amount);
      push_validator
        (mkValidator pubkey (dd_withdrawal_credentials (dep_data deposit)) eb false
           FAR_FUTURE_EPOCH FAR_FUTURE_EPOCH FAR_FUTURE_EPOCH FAR_FUTURE_EPOCH) amount
  else
    index ← lift (unwrap (position (λ v, bytes_eqb v pubkey) validator_pubkeys));
    increase_balance index amount.

(** Push a new [VoluntaryExit] to the state. *)
Definition process_voluntary_exit (exit : VoluntaryExit) : Exec unit :=
  s ← get;
  require (ve_validator_index exit <? zlen (validators s)) VoluntaryExitInvalidSignature ;;
  validator ← lift (vec_index (validators s) (ve_validator_index exit));
  c ← lift (current_epoch s);
  require (is_active validator c) VoluntaryExitAlreadyInitiated ;;
  require (v_exit_epoch validator =? FAR_FUTURE_EPOCH) VoluntaryExitAlreadyExited ;;
  require (ve_epoch exit <=? c) VoluntaryExitNotYetValid ;;
  t ← lift (u64_add (v_activation_epoch validator) persistent_committee_period);
  require (t <=? c) VoluntaryExitNotLongEnough ;;
  d ← lift (domain s domain_voluntary_exit (Some (ve_epoch exit)));
  require (verify (v_pubkey validator)
             (tree_root_signing_voluntary_exit (signing_voluntary_exit exit)) (ve_signature exit) d)
    VoluntaryExitInvalidSignature ;;
  initiate_validator_exit (ve_validator_index exit).

(** Process block operations. *)
Definition process_operations (body : BeaconBlockBody) : Exec unit :=
  s ← get;
  outstanding ← lift (u64_sub (e1_deposit_count (eth1_data s)) (eth1_deposit_index s));
  require (zlen (body_deposits body) =? Z.min max_deposits outstanding) TooManyDeposits ;;
  require (zlen (body_proposer_slashings body) <=? max_proposer_slashings) TooManyProposerSlashings ;;
  for_each (body_proposer_slashings body) process_proposer_slashing ;;
  require (zlen (body_attester_slashings body) <=? max_attester_slashings) TooManyAttesterSlashings ;;
  for_each (body_attester_slashings body) process_attester_slashing ;;
  require (zlen (body_attestations body) <=? max_attestations) TooManyAttestations ;;
  for_each (body_attestations body) process_attestation ;;
  require (zlen (body_deposits body) <=? max_deposits) TooManyDeposits ;;
  for_each (body_deposits body) process_deposit ;;
  require (zlen (body_voluntary_exits body) <=? max_voluntary_exits) TooManyVoluntaryExits ;;
  for_each (body_voluntary_exits body) process_voluntary_exit.

(** Process a block, assuming we are at given slot. *)
Definition process_block {B} `{Block B} (block : B) : Exec unit :=
  process_block_header block ;;
  process_randao (block_body block) ;;
  process_eth1_data (block_body block) ;;
  process_operations (block_body block).
End Block.

(** ** Well-formedness *)

Section BlockWf.
Context `{Cfg : Config} `{AM : ArithMode} `{BLS : BLSConfig} `{TR : TreeRoot} `{MT : MerkleTree} `{F : Fuel}.
Context `{COk : !ConfigOk Cfg}.

Lemma process_block_header_wf {B} `{Block B} (b : B) : steps (keeps wf_state) (process_block_header b).
Proof.
  unfold process_block_header. step_tac.
  - by intros [].
  - destruct (block_signature b); step_tac.
Qed.

Lemma process_randao_wf b : steps (keeps wf_state) (process_randao b).
Proof.
  unfold process_randao. step_tac. intros ?. apply wf_with_randao_mixes; [|done].
  by eapply vec_set_length.
Qed.

Lemma process_eth1_data_wf b : steps (keeps wf_state) (process_eth1_data b).
Proof. unfold process_eth1_data. step_tac; by intros []. Qed.

(** The header checks of a proposer slashing write nothing. *)
Lemma check_slashed_header_steps (R : relation BeaconState) `{!PreOrder R} st v h :
  steps R (check_slashed_header st v h).
Proof. unfold check_slashed_header. step_tac. Qed.

Lemma process_proposer_slashing_wf p : steps (keeps wf_state) (process_proposer_slashing p).
Proof using COk.
  unfold process_proposer_slashing. step_tac; [|apply slash_validator_wf].
  apply check_slashed_header_steps. apply _.
Qed.

Lemma slash_all_wf l b : steps (keeps wf_state) (slash_all l b).
Proof using COk.
  revert b. induction l as [|i l IH]; intros b; cbn; [apply steps_ret; apply _|].
  step_tac; [apply slash_validator_wf|apply IH..].
Qed.

Lemma process_attester_slashing_wf a : steps (keeps wf_state) (process_attester_slashing a).
Proof using COk. unfold process_attester_slashing. step_tac. apply slash_all_wf. Qed.

Lemma process_attestation_wf a : steps (keeps wf_state) (process_attestation a).
Proof using Type. unfold process_attestation. step_tac; by intros []. Qed.

(** What the decoder guarantees of a deposit: its amount is a [u64]. *)
Definition wf_deposit (d : Deposit) : Prop := is_u64 (dd_amount (dep_data d)).
Definition wf_body (b : BeaconBlockBody) : Prop := Forall wf_deposit (body_deposits b).

Lemma deposit_effective_balance_u64 a e : deposit_effective_balance a = Ok e → is_u64 e.
Proof using COk.
  unfold deposit_effective_balance. intros H. res_inv. apply u64_sub_range in Ha0.
  pose proof increment_pos. pose proof max_effective_small. u64_lia.
Qed.

Lemma push_validator_wf v a :
  wf_validator v → is_u64 a → steps (keeps wf_state) (push_validator v a).
Proof using Type. intros Hv Ha s. unfold keeps. cbn. intros Hwf. by apply (wf_push_validator s v a). Qed.

Lemma process_deposit_wf d : wf_deposit d → steps (keeps wf_state) (process_deposit d).
Proof using COk.
  intros Hd. unfold process_deposit. step_tac.
  - intros ?. apply wf_with_eth1_deposit_index; [by eapply u64_add_range|done].
  - apply push_validator_wf; [|done]. apply deposit_effective_balance_u64 in H2.
    split; cbn; done.
  - apply increase_balance_wf.
Qed.

Lemma process_voluntary_exit_wf v : steps (keeps wf_state) (process_voluntary_exit v).
Proof using Type. unfold process_voluntary_exit. step_tac. apply initiate_validator_exit_wf. Qed.

Lemma process_operations_wf b : wf_body b → steps (keeps wf_state) (process_operations b).
Proof using COk.
  intros Hb. unfold process_operations. step_tac.
  - apply process_proposer_slashing_wf.
  - apply process_attester_slashing_wf.
  - apply process_attestation_wf.
  - apply process_deposit_wf. by eapply Forall_forall in Hb.
  - apply process_voluntary_exit_wf.
Qed.

Lemma process_block_wf {B} `{Block B} (b : B) :
  wf_body (block_body b) → steps (keeps wf_state) (process_block b).
Proof using COk.
  intros Hb. unfold process_block. step_tac.
  - apply process_block_header_wf.
  - apply process_randao_wf.
  - apply process_eth1_data_wf.
  - by apply process_operations_wf.
Qed.
End BlockWf.

(** ** Frames *)

Section BlockFrame.
Context `{Cfg : Config} `{AM : ArithMode} `{BLS : BLSConfig} `{TR : TreeRoot} `{MT : MerkleTree} `{F : Fuel}.

Lemma slash_all_frame l b : steps (same finality_frame) (slash_all l b).
Proof.
  revert b. induction l as [|i l IH]; intros b; cbn; [apply steps_ret; apply _|].
  step_tac; [apply registry_to_finality, slash_validator_frame|apply IH..].
Qed.

Lemma process_proposer_slashing_frame p : steps (same finality_frame) (process_proposer_slashing p).
Proof.
  unfold process_proposer_slashing. step_tac; [|apply registry_to_finality, slash_validator_frame].
  apply check_slashed_header_steps. apply _.
Qed.

Lemma process_attestation_frame a : steps (same finality_frame) (process_attestation a).
Proof. unfold process_attestation. step_tac; done. Qed.

Lemma process_deposit_frame d : steps (same finality_frame) (process_deposit d).
Proof.
  unfold process_deposit, push_validator.
  step_tac; try done. apply registry_to_finality, increase_balance_frame.
Qed.

Lemma process_operations_frame b : steps (same finality_frame) (process_operations b).
Proof.
  unfold process_operations, process_attester_slashing, process_voluntary_exit. step_tac.
  - apply process_proposer_slashing_frame.
  - apply slash_all_frame.
  - apply process_attestation_frame.
  - apply process_deposit_frame.
  - apply registry_to_finality, initiate_validator_exit_frame.
Qed.

(** A block changes neither time nor finality, whatever its outcome. *)
Lemma process_block_frame {B} `{Block B} (b : B) : steps (same finality_frame) (process_block b).
Proof.
  unfold process_block, process_block_header, process_randao, process_eth1_data.
  step_tac; try done; [|apply process_operations_frame].
  destruct (block_signature b); step_tac.
Qed.
End BlockFrame.
