(* ===== verification/Transition.v ===== *)
(** * The state transition, genesis and block authoring

    [executive/transition/mod.rs] (slots and blocks), [genesis.rs] and the
    authoring interface of [beacon/src/lib.rs].  The slot loop of
    [process_slots] runs with exactly the number of slots that are missing as
    its bound, which is proved to be enough. *)
From stdpp Require Import base numbers list.
From Stdlib Require Import ZArith Lia.
From S2P Require Import Prelude Config Types Utils State Accessors Mutators Justification Reward Epoch Block.

#[local] Open Scope Z_scope.

Section Transition.
Context `{Cfg : Config} `{AM : ArithMode} `{BLS : BLSConfig} `{TR : TreeRoot} `{MT : MerkleTree} `{F : Fuel}.

(** Advance slot *)
Definition process_slot : Exec unit :=
  s ← get;
  let previous_state_root := tree_root_state s in
  i ← lift (u64_rem (slot s) slots_per_historical_root);
  l ← lift (vec_set (state_roots s) i previous_state_root);
  put (with_state_roots l s) ;;
  s ← get;
  (if bytes_eqb (bh_state_root (latest_block_header s)) H256_default
   then put (with_latest_block_header
               (with_bh_state_root previous_state_root (latest_block_header s)) s)
   else mret tt) ;;
  s ← get;
  let previous_block_root := tree_root_signing_header (signing_header (latest_block_header s)) in
  i ← lift (u64_rem (slot s) slots_per_historical_root);
  l ← lift (vec_set (block_roots s) i previous_block_root);
  put (with_block_roots l s).

(** The body of the slot loop. *)
Definition advance_slot : Exec unit :=
  process_slot ;;
  s ← get;
  t ← lift (u64_add (slot s) 1);
  t ← lift (u64_rem t slots_per_epoch);
  (if t =? 0 then process_epoch else mret tt) ;;
  s ← get;
  t ← lift (u64_add (slot s) 1);
  put (with_slot t s).

(** Process slots, process epoch if at epoch boundary. *)
Definition process_slots (target : Uint) : Exec unit :=
  s ← get;
  if target <? slot s then throw SlotOutOfRange
  else while_loop (Z.to_nat (target - slot s)) (λ s, slot s <? target) advance_slot.

(** Execute state transition. *)
Definition state_transition {B} `{Block B} (block : B) : Exec unit :=
  process_slots (block_slot block) ;;
  process_block block ;;
  s ← get;
  require (bytes_eqb (block_state_root block) (tree_root_state s)) BlockStateRootInvalid.

(** Given a block, execute based on a parent state. *)
Definition execute_block (block : BeaconBlock) : Exec unit := state_transition block.

(** ** Genesis *)

(** The activation of the genesis validators. *)
Definition genesis_activate (v : Validator) : Validator :=
  if max_effective_balance <=? v_effective_balance v
  then with_v_activation_epoch genesis_epoch (with_v_activation_eligibility_epoch genesis_epoch v)
  else v.

(** The state the genesis deposits are applied to. *)
Definition genesis_initial (genesis_time_ : Uint) (genesis_eth1_data : Eth1Data) : BeaconState :=
  let d := BeaconState_default in {|
    genesis_time := genesis_time_;
    slot := slot d;
    fork := fork d;
    latest_block_header := mkBeaconBlockHeader 0 H256_default H256_default
                             (tree_root_body BeaconBlockBody_default) H768_default;
    block_roots := block_roots d;
    state_roots := state_roots d;
    historical_roots := historical_roots d;
    eth1_data := genesis_eth1_data;
    eth1_data_votes := eth1_data_votes d;
    eth1_deposit_index := eth1_deposit_index d;
    validators := validators d;
    balances := balances d;
    randao_mixes := (λ _, e1_block_hash genesis_eth1_data) <$> randao_mixes d;
    slashings := slashings d;
    previous_epoch_attestations := previous_epoch_attestations d;
    current_epoch_attestations := current_epoch_attestations d;
    justification_bits := justification_bits d;
    previous_justified_checkpoint := previous_justified_checkpoint d;
    current_justified_checkpoint := current_justified_checkpoint d;
    finalized_checkpoint := finalized_checkpoint d;
  |}.

(** Generate genesis state from given deposits, timestamp, and eth1 data. *)
Definition genesis_beacon_state (deposits : list Deposit) (genesis_time_ : Uint)
  (genesis_eth1_data : Eth1Data) : res Error BeaconState :=
  let (r, s) := for_each deposits process_deposit (genesis_initial genesis_time_ genesis_eth1_data) in
  r ;; Ok (with_validators (genesis_activate <$> validators s) s).

(** Generate genesis state and genesis block. *)
Definition genesis (genesis_validator_deposits : list Deposit) (genesis_time_ : Uint)
  (genesis_eth1_data : Eth1Data) : res Error (BeaconBlock * BeaconState) :=
  state ← genesis_beacon_state genesis_validator_deposits genesis_time_ genesis_eth1_data;
  Ok (mkBeaconBlock 0 H256_default (tree_root_state state) BeaconBlockBody_default H768_default, state).

(** ** Authoring a block *)

(** Beacon block inherent. *)
Record Inherent := mkInherent {
  inh_randao_reveal : H768;
  inh_eth1_data : Eth1Data;
}.

(** Beacon block transaction. *)
Inductive Transaction : Type :=
  | TxProposerSlashing (slashing : ProposerSlashing)
  | TxAttesterSlashing (slashing : AttesterSlashing)
  | TxAttestation (attestation : Attestation)
  | TxDeposit (deposit : Deposit)
  | TxVoluntaryExit (voluntary_exit : VoluntaryExit).

(** Initialize a block, and apply inherents. *)
Definition initialize_block (target_slot : Uint) : Exec unit := process_slots target_slot.

(** Apply inherent to a block. *)
Definition apply_inherent (parent_block : BeaconBlock) (inherent : Inherent)
  : Exec UnsealedBeaconBlock :=
  let body := mkBeaconBlockBody (inh_randao_reveal inherent) (inh_eth1_data inherent)
                H256_default [] [] [] [] [] in
  s ← get;
  let block := mkUnsealedBeaconBlock (slot s)
    (tree_root_signing_header (signing_header (latest_block_header s)))
    (blk_state_root parent_block) body in
  process_randao body ;;
  process_eth1_data body ;;
  mret block.

(** The block under construction and the state, both borrowed mutably. *)
Notation Author := (M (UnsealedBeaconBlock * BeaconState) Error).

Definition on_state {A} (m : Exec A) : Author A :=
  λ bs, let (r, s') := m bs.2 in (r, (bs.1, s')).

Definition modify_body (f : BeaconBlockBody → BeaconBlockBody) : Author unit :=
  bs ← get;
  let b := bs.1 in
  put (mkUnsealedBeaconBlock (ub_slot b) (ub_parent_root b) (ub_state_root b) (f (ub_body b)), bs.2).

(** [if len >= max { return Err(e) }] *)
Definition author_room (len max : Z) (e : Error) : Author unit :=
  if max <=? len then throw e else mret tt.

(** Apply a transaction to the block. *)
Definition apply_transaction (extrinsic : Transaction) : Author unit :=
  bs ← get;
  let body := ub_body bs.1 in
  match extrinsic with
  | TxProposerSlashing slashing =>
      author_room (zlen (body_proposer_slashings body)) max_proposer_slashings
        TooManyProposerSlashings ;;
      on_state (process_proposer_slashing slashing) ;;
      modify_body (λ b, with_body_proposer_slashings (body_proposer_slashings b ++ [slashing]) b)
  | TxAttesterSlashing slashing =>
      author_room (zlen (body_attester_slashings body)) max_attester_slashings
        TooManyAttesterSlashings ;;
      on_state (process_attester_slashing slashing) ;;
      modify_body (λ b, with_body_attester_slashings (body_attester_slashings b ++ [slashing]) b)
  | TxAttestation attestation =>
      author_room (zlen (body_attestations body)) max_attestations TooManyAttestations ;;
      on_state (process_attestation attestation) ;;
      modify_body (λ b, with_body_attestations (body_attestations b ++ [attestation]) b)
  | TxDeposit deposit =>
      author_room (zlen (body_deposits body)) max_deposits TooManyDeposits ;;
      on_state (process_deposit deposit) ;;
      modify_body (λ b, with_body_deposits (body_deposits b ++ [deposit]) b)
  | TxVoluntaryExit voluntary_exit =>
      author_room (zlen (body_voluntary_exits body)) max_voluntary_exits TooManyVoluntaryExits ;;
      on_state (process_voluntary_exit voluntary_exit) ;;
      modify_body (λ b, with_body_voluntary_exits (body_voluntary_exits b ++ [voluntary_exit]) b)
  end.

(** Finalize an unsealed block. *)
Definition finalize_block : Author unit :=
  bs ← get;
  let s := bs.2 in
  let block := bs.1 in
  if e1_deposit_count (eth1_data s) <? eth1_deposit_index s then throw InvalidEth1Data
  else
    outstanding ← lift (u64_sub (e1_deposit_count (eth1_data s)) (eth1_deposit_index s));
    if negb (zlen (body_deposits (ub_body block)) =? Z.min max_deposits outstanding)
    then throw TooManyDeposits
    else
      on_state (process_block_header block) ;;
      bs ← get;
      put (mkUnsealedBeaconBlock (ub_slot bs.1) (ub_parent_root bs.1) (tree_root_state bs.2)
             (ub_body bs.1), bs.2).
End Transition.

(** ** Invariants of the transition *)

Section TransitionLemmas.
Context `{Cfg : Config} `{AM : ArithMode} `{BLS : BLSConfig} `{TR : TreeRoot} `{MT : MerkleTree} `{F : Fuel}.
Context `{COk : !ConfigOk Cfg}.

Lemma process_slot_wf : steps (keeps wf_state) process_slot.
Proof using Type.
  unfold process_slot. step_tac; try by (intros ?; eauto with shasper).
  - intros ?. apply wf_with_state_roots; [by eapply vec_set_length|done].
  - intros ?. apply wf_with_block_roots; [by eapply vec_set_length|done].
Qed.

Lemma process_slot_frame : steps (same finality_frame) process_slot.
Proof using Type. unfold process_slot. step_tac; done. Qed.

Lemma advance_slot_wf : steps (keeps wf_state) advance_slot.
Proof using COk.
  unfold advance_slot. step_tac.
  - apply process_slot_wf.
  - apply process_epoch_wf.
  - intros ?. apply wf_with_slot; [by eapply u64_add_range|done].
Qed.

Lemma process_slots_wf t : steps (keeps wf_state) (process_slots t).
Proof using COk.
  unfold process_slots. step_tac. apply steps_while; [apply _|apply advance_slot_wf].
Qed.

Lemma state_transition_wf {B} `{Block B} (b : B) :
  wf_body (block_body b) → steps (keeps wf_state) (state_transition b).
Proof using COk.
  intros Hb. unfold state_transition. step_tac; [apply process_slots_wf|by apply process_block_wf].
Qed.

(** The order on states the chain moves along: time and finality only grow. *)
Definition finality_le (s s' : BeaconState) : Prop :=
  slot s ≤ slot s' ∧
  cp_epoch (finalized_checkpoint s) ≤ cp_epoch (finalized_checkpoint s') ∧
  cp_epoch (current_justified_checkpoint s) ≤ cp_epoch (current_justified_checkpoint s').

#[local] Instance finality_le_preorder : PreOrder finality_le.
Proof. split; [intros s; red; lia|intros s t u; unfold finality_le; lia]. Qed.

Lemma same_finality s s' :
  same finality_frame s s' → slot s' = slot s ∧ justifier_of s' = justifier_of s ∧ finality_le s s'.
Proof using Type.
  unfold same, finality_frame, justifier_of, finality_le. destruct s, s'. cbn. intros [= -> -> -> -> -> -> ->].
  repeat split; lia.
Qed.

Lemma finality_ok_ext s s' :
  slot s' = slot s → justifier_of s' = justifier_of s → finality_ok s → finality_ok s'.
Proof using Type. unfold finality_ok. by intros -> ->. Qed.

(** An epoch boundary keeps finality in order for the epoch that starts. *)
Lemma epoch_boundary_finality s s' :
  wf_state s → slot s < 2 ^ 62 → finality_ok s → (slot s + 1) mod slots_per_epoch = 0 →
  process_epoch s = (Ok tt, s') →
  slot s' = slot s ∧
  justifier_ok (Z.max 0 ((slot s + 1) / slots_per_epoch - 1)) (justifier_of s') ∧ finality_le s s'.
Proof using COk.
  intros Hwf Hslot Hf Hm Hrun. pose proof spe_pos.
  pose proof (process_epoch_slot s) as Hps. rewrite Hrun in Hps. red in Hps. cbn in Hps.
  apply process_epoch_finality in Hrun as (s3 & H3 & Hfr3).
  apply same_finality in Hfr3 as (Hs3 & Hj3 & Hle3).
  pose proof (justification_slot s) as Hsl. rewrite H3 in Hsl. red in Hsl. cbn in Hsl.
  apply justification_finality in H3 as (Hok & Hm1 & Hm2); [|done..].
  split; [done|]. rewrite Hj3. split.
  - rewrite div_succ_boundary by lia. pose proof (epoch_range _ (wf_slot _ Hwf)).
    by rewrite Z.add_simpl_r, Z.max_r by lia.
  - etrans; [|exact Hle3]. red. lia.
Qed.

(** The effect of one turn of the slot loop on time and finality. *)
Lemma advance_slot_finality s s' :
  wf_state s → slot s < 2 ^ 62 → finality_ok s → advance_slot s = (Ok tt, s') →
  slot s' = slot s + 1 ∧ finality_ok s' ∧ finality_le s s'.
Proof using COk.
  intros Hwf Hslot Hf Hrun. unfold advance_slot in Hrun.
  apply Mbind_Ok in Hrun as ([] & s1 & H1 & Hrun).
  pose proof (process_slot_frame s) as Hfr. pose proof (process_slot_wf s Hwf) as Hwf1.
  rewrite H1 in Hfr, Hwf1. cbn in Hfr, Hwf1.
  apply same_finality in Hfr as (Hs1 & Hj1 & Hle1). pose proof (finality_ok_ext s s1 Hs1 Hj1 Hf) as Hf1.
  rewrite Mbind_get in Hrun. rewrite u64_add_ok, Mbind_lift_Ok in Hrun
    by (pose proof (wf_slot _ Hwf1); u64_lia).
  pose proof spe_pos as Hspe. rewrite u64_rem_ok, Mbind_lift_Ok in Hrun by lia.
  apply Mbind_Ok in Hrun as ([] & s2 & H2 & Hrun). rewrite Mbind_get in Hrun.
  assert (slot s2 = slot s1 ∧
    justifier_ok (Z.max 0 ((slot s1 + 1) / slots_per_epoch - 1)) (justifier_of s2) ∧
    finality_le s1 s2) as (Hs2 & Hj2 & Hle2).
  { destruct (Z.eqb_spec ((slot s1 + 1) mod slots_per_epoch) 0) as [Hm|Hm].
    - apply epoch_boundary_finality; [done|lia|done..].
    - injection H2 as <-. rewrite div_succ_inside by lia. split; [done|]. split; [exact Hf1|reflexivity]. }
  rewrite u64_add_ok, Mbind_lift_Ok in Hrun by (pose proof (wf_slot _ Hwf1); rewrite Hs2; u64_lia).
  injection Hrun as <-. split; [cbn; lia|]. split.
  - red. cbn. by rewrite Hs2.
  - etrans; [exact Hle1|]. etrans; [exact Hle2|]. red. cbn. lia.
Qed.

Lemma process_slots_finality t s s' :
  wf_state s → t < 2 ^ 62 → finality_ok s → process_slots t s = (Ok tt, s') →
  slot s' = t ∧ wf_state s' ∧ finality_ok s' ∧ finality_le s s'.
Proof using COk.
  intros Hwf Ht Hf Hrun. unfold process_slots in Hrun. rewrite Mbind_get in Hrun.
  destruct (Z.ltb_spec t (slot s)); [done|].
  apply (while_loop_Ok finality_le (λ s, wf_state s ∧ finality_ok s ∧ slot s ≤ t))
    in Hrun as ((Hwf' & Hf' & Hle) & Hc & Hfl); [| |done].
  - apply Z.ltb_ge in Hc. split; [lia|done].
  - intros u u' (Hwu & Hfu & Hlu) Hlt%Z.ltb_lt Hu.
    pose proof (advance_slot_wf u Hwu) as Hwu'. rewrite Hu in Hwu'.
    apply advance_slot_finality in Hu as (? & ? & ?); [|done|lia|done].
    split; [split; [done|split; [done|lia]]|done].
Qed.
End TransitionLemmas.

(** The slot and the finality of a state after an accepted block. *)
Lemma state_transition_epochs `{Config} `{ArithMode} `{BLSConfig} `{TreeRoot} `{MerkleTree}
  `{Fuel} `{!ConfigOk _} {B} `{Block B} (b : B) s s' :
  wf_state s → finality_ok s → block_slot b < 2 ^ 62 →
  state_transition b s = (Ok tt, s') →
  slot s ≤ slot s' ∧ slot s' = block_slot b ∧ tree_root_state s' = block_state_root b ∧
  finality_ok s' ∧
  cp_epoch (finalized_checkpoint s) ≤ cp_epoch (finalized_checkpoint s') ∧
  cp_epoch (current_justified_checkpoint s) ≤ cp_epoch (current_justified_checkpoint s').
Proof.
  intros Hwf Hf Hb Hrun. unfold state_transition in Hrun.
  apply Mbind_Ok in Hrun as ([] & s1 & Hsl & Hrun). apply Mbind_Ok in Hrun as ([] & s2 & Hbl & Hrun).
  run_inv. apply bool_decide_eq_true in Ha.
  apply process_slots_finality in Hsl as (Hs1 & Hwf1 & Hf1 & Hle1); [|done..].
  pose proof (process_block_frame b s1) as Hfr. rewrite Hbl in Hfr. cbn in Hfr.
  apply same_finality in Hfr as (Hs2 & Hj2 & Hle2). unfold finality_le in *.
  split; [lia|]. split; [lia|]. split; [done|]. split; [by eapply finality_ok_ext|]. lia.
Qed.

(** C2: an accepted block brings the state to its slot, commits to the state
    root it announces, and never moves justification or finality back. *)
Theorem state_transition_finality `{Config} `{ArithMode} `{BLSConfig} `{TreeRoot} `{MerkleTree}
  `{Fuel} `{!ConfigOk _} {B} `{Block B} (b : B) s s' :
  wf_state s → finality_ok s → block_slot b < 2 ^ 62 →
  state_transition b s = (Ok tt, s') →
  slot s ≤ slot s' ∧ slot s' = block_slot b ∧ tree_root_state s' = block_state_root b ∧
  finality_ok s' ∧
  cp_epoch (finalized_checkpoint s) ≤ cp_epoch (finalized_checkpoint s') ∧
  cp_epoch (current_justified_checkpoint s) ≤ cp_epoch (current_justified_checkpoint s').
Proof. apply state_transition_epochs. Qed.

(** ** Witnesses: an empty block on a state of sixteen validators *)

Definition toy_block (sl : Z) : BeaconBlock :=
  mkBeaconBlock sl toy_root toy_root BeaconBlockBody_default H768_default.

Section Witnesses.
#[local] Existing Instances toy_config toy_config_ok toy_mode toy_fuel toy_tree toy_merkle toy_bls.

Lemma toy_state_finality : finality_ok (toy_state 16 7).
Proof. split; vm_compute; done. Qed.

Lemma state_transition_finality_witness :
  let s := toy_state 16 7 in let s' := (state_transition (toy_block 8) s).2 in
  state_transition (toy_block 8) s = (Ok tt, s') ∧
  slot s ≤ slot s' ∧ slot s' = 8 ∧ tree_root_state s' = toy_root ∧ finality_ok s' ∧
  cp_epoch (finalized_checkpoint s) ≤ cp_epoch (finalized_checkpoint s') ∧
  cp_epoch (current_justified_checkpoint s) ≤ cp_epoch (current_justified_checkpoint s').
Proof.
  intros s s'.
  assert (wf_state s) as Hwf by (apply wf_stateb_spec; vm_compute; reflexivity).
  assert (state_transition (toy_block 8) s = (Ok tt, s')) as Hrun by (vm_compute; reflexivity).
  split; [exact Hrun|].
  exact (state_transition_finality (toy_block 8) s s' Hwf toy_state_finality eq_refl Hrun).
Defined.
End Witnesses.
