(* ===== verification/Termination.v ===== *)
(** * Slot and epoch processing terminate

    [returns] says that a computation ends, in a value, an error or a panic,
    within the bounds its model gives the loops.  The slot loop of
    [process_slots] runs once per missing slot, and nothing it calls has a loop
    without a bound: the only one besides the iterations over lists is the
    Newton iteration of [integer_squareroot]. *)
From stdpp Require Import base numbers list.
From Stdlib Require Import ZArith Lia.
From S2P Require Import Prelude Config Types Utils State Accessors Mutators Justification Reward Epoch EpochProps Block Transition.

#[local] Open Scope Z_scope.

Definition returns {E A} (m : res E A) : Prop := m ≠ OutOfFuel.
Definition returnsM {S E A} (m : M S E A) : Prop := ∀ s, returns (m s).1.

Create HintDb returns.

Lemma returns_Ok {E A} (a : A) : returns (Ok (E:=E) a).
Proof. done. Qed.
Lemma returns_Err {E A} (e : E) : returns (Err (A:=A) e).
Proof. done. Qed.
Lemma returns_Panic {E A} : returns (Panic (E:=E) (A:=A)).
Proof. done. Qed.
Lemma returns_bind {E A B} (m : res E A) (f : A → res E B) :
  returns m → (∀ a, m = Ok a → returns (f a)) → returns (m ≫= f).
Proof. unfold returns. destruct m; cbn; auto. Qed.
Lemma returns_map {E A B} (f : A → res E B) l :
  (∀ x, returns (f x)) → returns (res_map f l).
Proof.
  intros Hf. induction l; cbn; [done|]. apply returns_bind; [auto|]. intros ? _.
  apply returns_bind; [done|]. done.
Qed.
Lemma returns_fold {E A B} (f : B → A → res E B) b l :
  (∀ b x, returns (f b x)) → returns (res_fold f b l).
Proof.
  intros Hf. revert b. induction l; intros b; cbn; [done|]. apply returns_bind; auto.
Qed.

Lemma returns_vec_index {E A} (l : list A) i : returns (vec_index (E:=E) l i).
Proof. unfold vec_index. by destruct (_ !! _). Qed.
Lemma returns_vec_set {E A} (l : list A) i x : returns (vec_set (E:=E) l i x).
Proof. unfold vec_set. by case_decide. Qed.
Lemma returns_slice {E A} (l : list A) a b : returns (slice (E:=E) l a b).
Proof. unfold slice. by destruct (_ && _). Qed.

Section Arith.
Context `{AM : ArithMode} {E : Type}.
Lemma returns_check z : returns (u64_check (E:=E) z).
Proof. unfold u64_check. destruct (is_u64b z), overflow_checks; done. Qed.
Lemma returns_add a b : returns (u64_add (E:=E) a b).
Proof. apply returns_check. Qed.
Lemma returns_sub a b : returns (u64_sub (E:=E) a b).
Proof. apply returns_check. Qed.
Lemma returns_mul a b : returns (u64_mul (E:=E) a b).
Proof. apply returns_check. Qed.
Lemma returns_div a b : returns (u64_div (E:=E) a b).
Proof. unfold u64_div. by destruct (_ =? _). Qed.
Lemma returns_rem a b : returns (u64_rem (E:=E) a b).
Proof. unfold u64_rem. by destruct (_ =? _). Qed.
End Arith.

#[export] Hint Resolve returns_Ok returns_Err returns_Panic returns_vec_index returns_vec_set returns_slice
  returns_add returns_sub returns_mul returns_div returns_rem returns_map returns_fold : returns.

(** Commands. *)
Lemma returnsM_ret {S E A} (a : A) : returnsM (mret a : M S E A).
Proof. by intros s. Qed.
Lemma returnsM_lift {S E A} (m : res E A) : returns m → returnsM (lift m : M S E A).
Proof. by intros H s. Qed.
Lemma returnsM_throw {S E A} (e : E) : returnsM (throw e : M S E A).
Proof. by intros s. Qed.
Lemma returnsM_get {S E} : returnsM (get : M S E S).
Proof. by intros s. Qed.
Lemma returnsM_put {S E} (s' : S) : returnsM (put s' : M S E unit).
Proof. by intros s. Qed.
Lemma returnsM_bind {S E A B} (m : M S E A) (f : A → M S E B) :
  returnsM m → (∀ a, returnsM (f a)) → returnsM (m ≫= f).
Proof.
  intros Hm Hf s. specialize (Hm s). unfold mbind, M_bind, returns in *.
  destruct (m s) as [[a|e| |] s']; cbn in *; try done. apply Hf.
Qed.
Lemma returnsM_for_each {S E A} (l : list A) (f : A → M S E unit) :
  (∀ x, returnsM (f x)) → returnsM (for_each l f).
Proof. intros Hf. induction l; cbn; [apply returnsM_ret|]. by apply returnsM_bind. Qed.

#[export] Hint Resolve returnsM_ret returnsM_throw returnsM_get returnsM_put returnsM_lift
  returnsM_for_each : returns.

(** Take a computation apart down to calls whose lemmas are hints. *)
Ltac ret_tac :=
  repeat (cbv zeta; cbn beta; match goal with
  | |- ∀ _, _ => intros ?
  | |- returns (_ ≫= _) => apply returns_bind; [|intros ? _]
  | |- returns (if ?b then _ else _) => destruct b
  | |- returns (match ?o with Some _ => _ | None => _ end) => destruct o
  | |- returnsM (_ ≫= _) => apply returnsM_bind; [|intros ?]
  | |- returnsM (if ?b then _ else _) => destruct b
  | |- returnsM (match ?o with Some _ => _ | None => _ end) => destruct o
  | |- returnsM (for_each _ _) => apply returnsM_for_each; intros ?
  | |- returnsM (lift _) => apply returnsM_lift
  | |- returns (res_map _ _) => apply returns_map; intros ?
  | |- returns (res_fold _ _ _) => apply returns_fold; intros ? ?
  | |- _ => solve [auto with returns]
  end).

Section Reading.
Context `{Cfg : Config} `{AM : ArithMode}.

Lemma returns_to_uint {E} v : returns (to_uint (E:=E) v).
Proof. unfold to_uint. by case_decide. Qed.
Hint Resolve returns_to_uint : returns.
Lemma returns_shuffled_index i n sd : returns (shuffled_index i n sd).
Proof. unfold shuffled_index, shuffle_round. ret_tac. Qed.
Hint Resolve returns_shuffled_index : returns.
Lemma returns_beacon_committee s sl i : returns (beacon_committee s sl i).
Proof.
  unfold beacon_committee, committee_count_at_slot, seed, randao_mix, compute_committee, epoch_of_slot.
  ret_tac.
Qed.
Hint Resolve returns_beacon_committee : returns.
Lemma returns_attesting_indices s d b : returns (attesting_indices s d b).
Proof. unfold attesting_indices. ret_tac. Qed.
Lemma returns_total_balance s l : returns (total_balance s l).
Proof. unfold total_balance. ret_tac. Qed.
Lemma returns_current_epoch s : returns (current_epoch s).
Proof. unfold current_epoch, epoch_of_slot. ret_tac. Qed.
Hint Resolve returns_attesting_indices returns_total_balance returns_current_epoch : returns.
Lemma returns_previous_epoch s : returns (previous_epoch s).
Proof. unfold previous_epoch. ret_tac. Qed.
Lemma returns_total_active_balance s : returns (total_active_balance s).
Proof. unfold total_active_balance. ret_tac. Qed.
Lemma returns_block_root_at_slot s sl : returns (block_root_at_slot s sl).
Proof. unfold block_root_at_slot. ret_tac. Qed.
Hint Resolve returns_previous_epoch returns_total_active_balance returns_block_root_at_slot : returns.
Lemma returns_block_root s e : returns (block_root s e).
Proof. unfold block_root, start_slot_of_epoch. ret_tac. Qed.
Lemma returns_matching_source s e : returns (matching_source_attestations s e).
Proof. unfold matching_source_attestations. ret_tac. Qed.
Hint Resolve returns_block_root returns_matching_source : returns.
Lemma returns_matching_target s e : returns (matching_target_attestations s e).
Proof. unfold matching_target_attestations. ret_tac. Qed.
Lemma returns_matching_head s e : returns (matching_head_attestations s e).
Proof. unfold matching_head_attestations. ret_tac. Qed.
Lemma returns_retain s l : returns (retain_unslashed s l).
Proof. induction l; cbn; ret_tac. Qed.
Hint Resolve returns_matching_target returns_matching_head returns_retain : returns.
Lemma returns_unslashed s l : returns (unslashed_attesting_indices s l).
Proof. unfold unslashed_attesting_indices. ret_tac. Qed.
Lemma returns_min_inclusion s l i : returns (min_inclusion_attestation s l i).
Proof. unfold min_inclusion_attestation. ret_tac. Qed.
Hint Resolve returns_unslashed returns_min_inclusion : returns.
End Reading.

#[export] Hint Resolve returns_to_uint returns_shuffled_index returns_beacon_committee
  returns_attesting_indices returns_total_balance returns_current_epoch returns_previous_epoch
  returns_total_active_balance returns_block_root_at_slot returns_block_root returns_matching_source
  returns_matching_target returns_matching_head returns_retain returns_unslashed
  returns_min_inclusion : returns.

(** ** The square root *)

Section Sqrt.
Context `{AM : ArithMode}.

Lemma returns_integer_squareroot {E} n : is_u64 n → returns (integer_squareroot (E:=E) n).
Proof.
  intros Hn. destruct (decide (n = u64_max)) as [->|Hne].
  - unfold integer_squareroot, u64_add, u64_check. destruct overflow_checks; done.
  - destruct (integer_squareroot_total (E:=E) n) as (r & -> & _); [u64_lia|done].
Qed.
End Sqrt.

(** ** Epochs and slots *)

Section Epochs.
Context `{Cfg : Config} `{AM : ArithMode} `{COk : !ConfigOk Cfg} `{TR : TreeRoot}.

Lemma returns_base_reward s i : returns (base_reward s i).
Proof using Type.
  unfold base_reward. apply returns_bind; [auto with returns|]. intros total Ht.
  assert (is_u64 total) as Hu.
  { unfold total_active_balance in Ht. res_inv. apply total_balance_range in Ht. u64_lia. }
  ret_tac. by apply returns_integer_squareroot.
Qed.
Hint Resolve returns_base_reward : returns.

Lemma returns_eligible e l : returns (eligible_indices e l).
Proof using Type. induction l as [|[i v] l IH]; cbn; ret_tac. Qed.
Lemma returns_candidates s l : returns (activation_candidates s l).
Proof using Type. induction l as [|[i v] l IH]; cbn; [ret_tac|]. unfold activation_exit_epoch. ret_tac. Qed.
Hint Resolve returns_eligible returns_candidates : returns.

Lemma returns_attestation_deltas s : returns (attestation_deltas s).
Proof using Type.
  unfold attestation_deltas, micro_deltas, inclusion_deltas, inactivity_deltas, vec_add. ret_tac.
Qed.
Hint Resolve returns_attestation_deltas : returns.

Lemma returnsM_modify i f : returnsM (modify_validator i f).
Proof using Type. unfold modify_validator. ret_tac. Qed.
Lemma returnsM_increase i d : returnsM (increase_balance i d).
Proof using Type. unfold increase_balance. ret_tac. Qed.
Lemma returnsM_decrease i d : returnsM (decrease_balance i d).
Proof using Type. unfold decrease_balance. ret_tac. Qed.
Hint Resolve returnsM_modify returnsM_increase returnsM_decrease : returns.

Lemma returns_churn_limit s : returns (validator_churn_limit s).
Proof using Type. unfold validator_churn_limit. ret_tac. Qed.
Hint Resolve returns_churn_limit : returns.

Lemma returnsM_initiate_exit i : returnsM (initiate_validator_exit i).
Proof using Type. unfold initiate_validator_exit, activation_exit_epoch. ret_tac. Qed.
Hint Resolve returnsM_initiate_exit : returns.

Lemma returnsM_justifier p c (s : BeaconState) :
  returnsM (process (E:=Error) p c s).
Proof using Type.
  unfold process, justify, finalize_rule, has_supermajority. cbn. unfold attesting_balance. ret_tac.
Qed.

Lemma returnsM_epoch : returnsM process_epoch.
Proof using Type.
  unfold process_epoch, process_justification_and_finalization, process_rewards_and_penalties,
    process_registry_updates, registry_update, activate, process_slashings, slashing_penalty,
    process_final_updates, update_effective_balance, randao_mix, activation_exit_epoch.
  ret_tac. apply returnsM_justifier.
Qed.

Lemma returnsM_advance_slot : returnsM advance_slot.
Proof using Type.
  unfold advance_slot, process_slot. pose proof returnsM_epoch. ret_tac.
Qed.

(** The slot grows by one in every turn. *)
Lemma advance_slot_slot s s' :
  slot s + 1 < 2 ^ 64 → 0 ≤ slot s → advance_slot s = (Ok tt, s') → slot s' = slot s + 1.
Proof using Type.
  intros Hlt H0 Hrun. unfold advance_slot in Hrun. apply Mbind_Ok in Hrun as ([] & s1 & H1 & Hrun).
  pose proof (finality_frame_slot _ process_slot_frame s) as Hs1. rewrite H1 in Hs1. red in Hs1. cbn in Hs1.
  rewrite Mbind_get in Hrun. apply Mbind_lift in Hrun as (t & _ & Hrun).
  apply Mbind_lift in Hrun as (t' & _ & Hrun). apply Mbind_Ok in Hrun as ([] & s2 & H2 & Hrun).
  assert (slot s2 = slot s1) as Hs2.
  { destruct (t' =? 0); [|by injection H2 as <-].
    pose proof (process_epoch_slot s1) as Hp. by rewrite H2 in Hp. }
  rewrite Mbind_get in Hrun. rewrite u64_add_ok, Mbind_lift_Ok in Hrun by (rewrite Hs2, Hs1; unfold is_u64; lia).
  injection Hrun as <-. cbn. lia.
Qed.
End Epochs.

(** The bound on a loop is enough when a measure of the state goes down. *)
Lemma while_loop_returns {S E} (I : S → Prop) (m : S → Z) n c (body : M S E unit) s :
  returnsM body → (∀ s, I s → c s = true → 0 < m s) →
  (∀ s s', I s → c s = true → body s = (Ok tt, s') → I s' ∧ m s' < m s) →
  I s → m s ≤ Z.of_nat n → returns (while_loop n c body s).1.
Proof.
  intros Hb Hpos Hdec. revert s. induction n as [|n IH]; intros s HI Hm;
    cbn [while_loop]; unfold mbind, M_bind; cbn; destruct (c s) eqn:Hc; try done.
  - specialize (Hpos _ HI Hc). lia.
  - specialize (Hb s). destruct (body s) as [[[]|e| |] s1] eqn:E1; try done.
    destruct (Hdec s s1 HI Hc E1) as [HI1 Hlt]. apply IH; [done|lia].
Qed.

(** A successful run ends at the requested slot. *)
Lemma process_slots_slot `{Config} `{ArithMode} `{TreeRoot} (target : Uint) s s' :
  is_u64 (slot s) → is_u64 target → process_slots target s = (Ok tt, s') → slot s' = target.
Proof.
  intros Hs Ht. unfold process_slots. rewrite Mbind_get.
  destruct (Z.ltb_spec target (slot s)) as [Hlt|Hle]; [done|]. intros Hrun.
  apply (while_loop_Ok (same (λ _, tt)) (λ s, 0 ≤ slot s ≤ target)) in Hrun
    as (Hr & Hc%Z.ltb_ge & _); [lia| |u64_lia].
  intros u u' Hu ?%Z.ltb_lt Hrun'. apply advance_slot_slot in Hrun'; [|u64_lia..]. split; [lia|done].
Qed.

(** C5: advancing to any slot ends: it stops at once with an error when the
    slot is in the past, and otherwise returns or fails within the loop's
    bound, at the requested slot when it succeeds. *)
Theorem process_slots_terminates `{Config} `{ArithMode} `{TreeRoot} (target : Uint) s :
  is_u64 (slot s) → is_u64 target →
  (target < slot s → process_slots target s = (Err SlotOutOfRange, s)) ∧
  (process_slots target s).1 ≠ OutOfFuel ∧
  (∀ s', process_slots target s = (Ok tt, s') → slot s' = target).
Proof.
  intros Hs Ht. split; [|split; [|by intros s'; apply process_slots_slot]];
    unfold process_slots; rewrite Mbind_get; destruct (Z.ltb_spec target (slot s)) as [Hlt|Hle]; try (done || lia).
  apply (while_loop_returns (λ s, 0 ≤ slot s ≤ target) (λ s, target - slot s)).
  - apply returnsM_advance_slot.
  - intros u _ ?%Z.ltb_lt. lia.
  - intros u u' Hu ?%Z.ltb_lt Hrun. apply advance_slot_slot in Hrun; [|u64_lia..]. lia.
  - u64_lia.
  - lia.
Qed.

Lemma process_slots_terminates_witness :
  let run t := process_slots (Cfg:=toy_config) (AM:=toy_mode) (TR:=toy_tree) t (toy_state 16 7) in
  run 3 = (Err SlotOutOfRange, toy_state 16 7) ∧
  (run 9).1 = Ok tt ∧ slot (run 9).2 = 9.
Proof.
  intros run. assert ((run 9).1 = Ok tt) as Hok by (vm_compute; reflexivity). split; [|split; [exact Hok|]].
  - apply (process_slots_terminates (H:=toy_config) (H0:=toy_mode) (H1:=toy_tree) 3 (toy_state 16 7)); done.
  - assert (run 9 = (Ok tt, (run 9).2)) as Hrun by exact (run_eta _ _ Hok).
    exact (proj2 (proj2 (process_slots_terminates (H:=toy_config) (H0:=toy_mode) (H1:=toy_tree) 9
      (toy_state 16 7) ltac:(split; done) ltac:(split; done))) _ Hrun).
Defined.
