(* ===== verification/Lifecycle.v ===== *)
(** * The life of a validator across state transitions

    Properties of the registry that every part of the transition respects:
    entries are never removed or re-keyed, slashing is permanent, eligibility,
    activation and exit epochs are set once, and public keys stay unique.  They
    hold for every outcome of [state_transition], errors and panics included. *)
From stdpp Require Import base numbers list.
From Stdlib Require Import ZArith Lia.
From S2P Require Import Prelude Config Types Utils State Accessors Mutators Justification Reward Epoch Block Transition.

#[local] Open Scope Z_scope.

(** How a registry entry may evolve. *)
Record validator_le (v v' : Validator) : Prop := {
  vle_pubkey : v_pubkey v' = v_pubkey v;
  vle_credentials : v_withdrawal_credentials v' = v_withdrawal_credentials v;
  vle_slashed : v_slashed v = true → v_slashed v' = true;
  vle_eligibility : v_activation_eligibility_epoch v ≠ FAR_FUTURE_EPOCH →
                    v_activation_eligibility_epoch v' = v_activation_eligibility_epoch v;
  vle_activation : v_activation_epoch v ≠ FAR_FUTURE_EPOCH →
                   v_activation_epoch v' = v_activation_epoch v;
  vle_exit : v_exit_epoch v ≠ FAR_FUTURE_EPOCH → v_exit_epoch v' = v_exit_epoch v;
  vle_withdrawable : v_exit_epoch v ≠ FAR_FUTURE_EPOCH →
                     v_withdrawable_epoch v ≤ v_withdrawable_epoch v';
}.

#[global] Instance validator_le_preorder : PreOrder validator_le.
Proof.
  split; [intros v; by split|]. intros u v w [] []. split; try congruence; auto.
  - intros H. rewrite vle_eligibility1, vle_eligibility0; [done..|]. by rewrite vle_eligibility0.
  - intros H. rewrite vle_activation1, vle_activation0; [done..|]. by rewrite vle_activation0.
  - intros H. rewrite vle_exit1, vle_exit0; [done..|]. by rewrite vle_exit0.
  - intros H. etrans; [by apply vle_withdrawable0|]. apply vle_withdrawable1. by rewrite vle_exit0.
Qed.

(** The registry only grows at its end, and every entry evolves by
    [validator_le]. *)
Definition registry_le (s s' : BeaconState) : Prop :=
  ∀ i v, validators s !! i = Some v → ∃ v', validators s' !! i = Some v' ∧ validator_le v v'.

#[global] Instance registry_le_preorder : PreOrder registry_le.
Proof.
  split.
  - intros s i v Hv. exists v. split; [done|reflexivity].
  - intros s t u H1 H2 i v Hv. destruct (H1 i v Hv) as (v' & Hv' & ?).
    destruct (H2 i v' Hv') as (v'' & Hv'' & ?). exists v''. split; [done|]. by etrans.
Qed.

(** Public keys identify validators. *)
Definition pubkeys (s : BeaconState) : list ValidatorId := v_pubkey <$> validators s.
Definition unique_pubkeys (s : BeaconState) : Prop := NoDup (pubkeys s).

(** Both properties of a step of the registry. *)
Definition registry_step (s s' : BeaconState) : Prop :=
  registry_le s s' ∧ (unique_pubkeys s → unique_pubkeys s').

#[global] Instance registry_step_preorder : PreOrder registry_step.
Proof.
  split.
  - intros s. split; [reflexivity|done].
  - intros s t u [H1 K1] [H2 K2]. split; [by etrans|auto].
Qed.

(** A command that leaves the validators alone. *)
Lemma registry_step_same s s' : validators s' = validators s → registry_step s s'.
Proof.
  intros Heq. split.
  - intros i v Hv. rewrite Heq. exists v. split; [done|reflexivity].
  - unfold unique_pubkeys, pubkeys. by rewrite Heq.
Qed.

Lemma registry_step_insert s k v v' :
  validators s !! k = Some v → validator_le v v' →
  registry_step s (with_validators (<[k := v']> (validators s)) s).
Proof.
  intros Hv Hle. split.
  - intros i w Hw. cbn. destruct (decide (k = i)) as [->|Hne].
    + rewrite list_lookup_insert_eq by by eapply lookup_lt_Some. simplify_eq. eauto.
    + rewrite list_lookup_insert_ne by done. exists w. split; [done|reflexivity].
  - unfold unique_pubkeys, pubkeys. cbn. rewrite list_fmap_insert, (vle_pubkey _ _ Hle).
    rewrite list_insert_id; [done|]. by rewrite list_lookup_fmap, Hv.
Qed.

Lemma registry_step_app s v :
  v_pubkey v ∉ pubkeys s → registry_step s (with_validators (validators s ++ [v]) s).
Proof.
  intros Hv. split.
  - intros i w Hw. cbn. exists w. split; [by apply lookup_app_l_Some|reflexivity].
  - unfold unique_pubkeys, pubkeys in *. cbn. rewrite fmap_app. intros Hnd. apply NoDup_app.
    split; [done|]. split; [|apply NoDup_singleton]. by intros x Hx ->%list_elem_of_singleton.
Qed.

Section Lifecycle.
Context `{Cfg : Config} `{AM : ArithMode}.

Lemma modify_validator_le i f s :
  (∀ v, validators s !! Z.to_nat i = Some v → validator_le v (f v)) →
  registry_step s (modify_validator i f s).2.
Proof.
  intros Hf. unfold modify_validator. step_tac.
  apply vec_index_Ok in H. apply vec_set_Ok in H0 as [_ ->]. eapply registry_step_insert; eauto.
Qed.

Lemma increase_balance_le i d : steps registry_step (increase_balance i d).
Proof. intros s. apply registry_step_same, increase_balance_validators. Qed.

Lemma decrease_balance_le i d : steps registry_step (decrease_balance i d).
Proof. intros s. apply registry_step_same, decrease_balance_validators. Qed.

(** Setting the exit of an entry that had none. *)
Lemma exit_le v e w :
  v_exit_epoch v = FAR_FUTURE_EPOCH →
  validator_le v (with_v_exit_epoch e v) ∧
  validator_le v (with_v_withdrawable_epoch w (with_v_exit_epoch e v)).
Proof. intros Hfar. by repeat split. Qed.

Lemma initiate_validator_exit_le i : steps registry_step (initiate_validator_exit i).
Proof.
  unfold initiate_validator_exit. do 3 step_one.
  destruct (v_exit_epoch a =? FAR_FUTURE_EPOCH) eqn:Hfar; cbn [negb]; [|step_tac].
  apply Z.eqb_eq in Hfar. apply vec_index_Ok in H. do 4 step_one.
  rewrite (Mbind_step _ _ _ _ _ (modify_validator_total i _ s a H)).
  destruct (u64_add a3 min_validator_withdrawability_delay) as [w| | |];
    [|by apply (registry_step_insert s (Z.to_nat i) a); [|apply (exit_le a a3 0)]..].
  rewrite Mbind_lift_Ok. erewrite modify_validator_total
    by (cbn; apply list_lookup_insert_eq; by eapply lookup_lt_Some).
  cbn. rewrite list_insert_insert_eq.
  by apply (registry_step_insert s (Z.to_nat i) a); [|apply (exit_le a a3 w)].
Qed.

Lemma slash_validator_le `{Fuel} i w : steps registry_step (slash_validator i w).
Proof.
  unfold slash_validator. step_tac;
    try (by apply registry_step_same).
  - apply initiate_validator_exit_le.
  - apply modify_validator_le. intros v _. by split.
  - apply modify_validator_le. intros v Hv. apply vec_index_Ok in H3. simplify_eq.
    split; cbn; try done. lia.
  - apply decrease_balance_le.
  - apply increase_balance_le.
  - apply increase_balance_le.
Qed.

(** ** Epochs *)

Context `{TR : TreeRoot}.

Lemma registry_update_step i : steps registry_step (registry_update i).
Proof.
  unfold registry_update. step_tac; [|apply initiate_validator_exit_le].
  apply modify_validator_le. intros v Hv. apply vec_index_Ok in H. simplify_eq.
  apply andb_true_iff in Heqb as [He%Z.eqb_eq _]. by split.
Qed.

Lemma activate_step i : steps registry_step (activate i).
Proof.
  unfold activate. step_tac. apply modify_validator_le. intros v Hv. apply vec_index_Ok in H0.
  simplify_eq. apply Z.eqb_eq in Heqb. by split.
Qed.

Lemma process_slashings_step : steps registry_step process_slashings.
Proof.
  unfold process_slashings. step_tac.
  destruct a2; [apply decrease_balance_le|apply steps_ret; apply _].
Qed.

Lemma process_final_updates_step : steps registry_step process_final_updates.
Proof.
  unfold process_final_updates, update_effective_balance.
  step_tac; try (by apply registry_step_same). apply modify_validator_le. intros v _. by split.
Qed.

Lemma process_epoch_step : steps registry_step process_epoch.
Proof.
  unfold process_epoch, process_justification_and_finalization, process_rewards_and_penalties,
    process_registry_updates.
  step_tac; first [by apply registry_step_same | apply increase_balance_le
    | apply decrease_balance_le | apply registry_update_step | apply activate_step
    | apply process_slashings_step | apply process_final_updates_step].
Qed.

(** ** Blocks *)

Context `{BLS : BLSConfig} `{MT : MerkleTree} `{F : Fuel}.

Lemma slash_all_step l b : steps registry_step (slash_all l b).
Proof.
  revert b. induction l as [|i l IH]; intros b; cbn; [apply steps_ret; apply _|].
  step_tac; [apply slash_validator_le|apply IH..].
Qed.

Lemma process_deposit_step d : steps registry_step (process_deposit d).
Proof.
  unfold process_deposit, push_validator. step_tac; try (by apply registry_step_same).
  - apply registry_step_app. unfold pubkeys. cbn. intros Hin.
    apply negb_true_iff in Heqb. apply contains_spec in Hin. cbn in Heqb. congruence.
  - apply increase_balance_le.
Qed.

Lemma process_operations_step b : steps registry_step (process_operations b).
Proof.
  unfold process_operations, process_proposer_slashing, process_attester_slashing,
    process_attestation, process_voluntary_exit.
  step_tac; try (by apply registry_step_same).
  - apply check_slashed_header_steps. apply _.
  - apply slash_validator_le.
  - apply slash_all_step.
  - apply process_deposit_step.
  - apply initiate_validator_exit_le.
Qed.

Lemma process_block_step {B} `{Block B} (b : B) : steps registry_step (process_block b).
Proof.
  unfold process_block, process_block_header, process_randao, process_eth1_data.
  step_tac; try (by apply registry_step_same); [|apply process_operations_step].
  destruct (block_signature b); step_tac.
Qed.

Lemma advance_slot_step : steps registry_step advance_slot.
Proof.
  unfold advance_slot, process_slot. step_tac; try (by apply registry_step_same).
  apply process_epoch_step.
Qed.

Lemma state_transition_step {B} `{Block B} (b : B) : steps registry_step (state_transition b).
Proof.
  unfold state_transition, process_slots. step_tac; [|apply process_block_step].
  apply steps_while; [apply _|apply advance_slot_step].
Qed.
End Lifecycle.

(** C4: no block, valid or not, removes a validator, changes its key, clears
    its slashing, or moves an epoch of its life that has been set; the
    withdrawable epoch of an exiting validator never comes closer. *)
Theorem validator_lifecycle `{Config} `{ArithMode} `{BLSConfig} `{TreeRoot} `{MerkleTree} `{Fuel}
  {B} `{Block B} (b : B) s i v :
  validators s !! i = Some v →
  ∃ v', validators (state_transition b s).2 !! i = Some v' ∧ validator_le v v'.
Proof. intros Hv. by apply (state_transition_step b s). Qed.

(** Public keys stay unique. *)
Theorem pubkeys_stay_unique `{Config} `{ArithMode} `{BLSConfig} `{TreeRoot} `{MerkleTree} `{Fuel}
  {B} `{Block B} (b : B) s :
  unique_pubkeys s → unique_pubkeys (state_transition b s).2.
Proof. apply (state_transition_step b s). Qed.

(** ** Effective balances *)

(** Effective balances are whole increments up to the maximum. *)
Definition effective_ok `{Config} (v : Validator) : Prop :=
  0 ≤ v_effective_balance v ≤ max_effective_balance ∧
  (v_effective_balance v mod effective_balance_increment = 0 ∨
   v_effective_balance v = max_effective_balance).
Definition effective_balances_ok `{Config} (s : BeaconState) : Prop :=
  Forall effective_ok (validators s).

Section Effective.
Context `{Cfg : Config} `{AM : ArithMode} `{COk : !ConfigOk Cfg}.

Lemma effective_same s s' : validators s' = validators s → keeps effective_balances_ok s s'.
Proof using Type. unfold keeps, effective_balances_ok. by intros ->. Qed.

Lemma modify_validator_effective i f s :
  (∀ v, effective_ok v → effective_ok (f v)) →
  keeps effective_balances_ok s (modify_validator i f s).2.
Proof using Type.
  intros Hf. unfold modify_validator. step_tac. intros Hall.
  eapply vec_set_Forall; [done|done|]. by eapply Hf, vec_index_Forall.
Qed.

Lemma increase_balance_effective i d : steps (keeps effective_balances_ok) (increase_balance i d).
Proof using Type. intros s. apply effective_same, increase_balance_validators. Qed.

Lemma decrease_balance_effective i d : steps (keeps effective_balances_ok) (decrease_balance i d).
Proof using Type. intros s. apply effective_same, decrease_balance_validators. Qed.

Lemma initiate_validator_exit_effective i :
  steps (keeps effective_balances_ok) (initiate_validator_exit i).
Proof using Type. unfold initiate_validator_exit. step_tac; by apply modify_validator_effective. Qed.

Lemma slash_validator_effective `{Fuel} i w : steps (keeps effective_balances_ok) (slash_validator i w).
Proof using Type.
  unfold slash_validator. step_tac; first [by apply effective_same | by apply modify_validator_effective
    | apply initiate_validator_exit_effective | apply increase_balance_effective
    | apply decrease_balance_effective].
Qed.

(** The whole increments below a balance. *)
Lemma whole_increments_ok v b :
  is_u64 b →
  effective_ok (with_v_effective_balance
    (Z.min (b - b mod effective_balance_increment) max_effective_balance) v).
Proof using COk.
  intros Hb. unfold effective_ok. cbn. pose proof increment_pos.
  assert (0 ≤ b mod effective_balance_increment ≤ b).
  { split; [apply Z.mod_pos_bound; lia|apply Z.mod_le; u64_lia]. }
  split; [lia|]. destruct (Z.min_spec (b - b mod effective_balance_increment) max_effective_balance)
    as [[_ ->]|[_ ->]]; [left|by right].
  rewrite Zminus_mod_idemp_r, Z.sub_diag. apply Z.mod_0_l. lia.
Qed.

(** Well-formed states with such balances. *)
Definition effective_inv (s : BeaconState) : Prop := wf_state s ∧ effective_balances_ok s.

Lemma effective_inv_steps {A} (m : Exec A) :
  steps (keeps wf_state) m → steps (keeps effective_balances_ok) m → steps (keeps effective_inv) m.
Proof using Type. intros H1 H2 s [??]. split; [by apply H1|by apply H2]. Qed.

Lemma update_effective_balance_inv i : steps (keeps effective_inv) (update_effective_balance i).
Proof using COk.
  intros s [Hwf Heff]. split; [by apply update_effective_balance_wf|].
  revert Heff. change (keeps effective_balances_ok s (update_effective_balance i s).2).
  unfold update_effective_balance. step_tac. apply modify_validator_effective. intros v _.
  pose proof (vec_index_Forall is_u64 _ _ _ H0 (wf_balances _ Hwf)) as Hb.
  pose proof increment_pos. apply u64_rem_inv in H2 as [_ ->].
  apply u64_sub_inv in H3; [subst; by apply whole_increments_ok|].
  assert (0 ≤ a0 mod effective_balance_increment) by (apply Z.mod_pos_bound; lia).
  assert (a0 mod effective_balance_increment ≤ a0) by (apply Z.mod_le; u64_lia). u64_lia.
Qed.

Context `{TR : TreeRoot} `{BLS : BLSConfig} `{MT : MerkleTree} `{F : Fuel}.

Lemma effective_inv_same s s' :
  validators s' = validators s → keeps wf_state s s' → keeps effective_inv s s'.
Proof using Type. intros Hv Hwf [??]. split; [auto|]. by apply (effective_same s s' Hv). Qed.

Lemma process_registry_updates_effective : steps (keeps effective_balances_ok) process_registry_updates.
Proof using Type.
  unfold process_registry_updates, registry_update, activate.
  step_tac; first [by apply modify_validator_effective | apply initiate_validator_exit_effective].
Qed.

Lemma process_slashings_effective : steps (keeps effective_balances_ok) process_slashings.
Proof using Type.
  unfold process_slashings. step_tac.
  destruct a2; [apply decrease_balance_effective|apply steps_ret; apply _].
Qed.

Lemma process_final_updates_effective : steps (keeps effective_inv) process_final_updates.
Proof using COk.
  unfold process_final_updates. step_tac;
    try (apply effective_inv_same; [done|]; by (intros ?; eauto with shasper)).
  - apply update_effective_balance_inv.
  - apply effective_inv_same; [done|]. intros Hwf. apply wf_with_slashings; [by eapply vec_set_length| |done].
    eapply vec_set_Forall; [done|apply Hwf|done].
  - apply effective_inv_same; [done|]. intros Hwf. apply wf_with_randao_mixes; [by eapply vec_set_length|done].
  - apply effective_inv_same; [done|]. by intros [].
  - apply effective_inv_same; [done|]. by intros [].
Qed.

Lemma process_epoch_effective : steps (keeps effective_inv) process_epoch.
Proof using COk.
  unfold process_epoch. step_tac.
  - apply effective_inv_steps; [apply process_justification_wf|].
    unfold process_justification_and_finalization. step_tac; by apply effective_same.
  - apply effective_inv_steps; [apply process_rewards_wf|]. unfold process_rewards_and_penalties.
    step_tac; [apply increase_balance_effective|apply decrease_balance_effective].
  - apply effective_inv_steps; [apply process_registry_updates_wf|apply process_registry_updates_effective].
  - apply effective_inv_steps; [apply process_slashings_wf|apply process_slashings_effective].
  - apply process_final_updates_effective.
Qed.

Lemma slash_all_effective l b : steps (keeps effective_balances_ok) (slash_all l b).
Proof using Type.
  revert b. induction l as [|i l IH]; intros b; cbn; [apply steps_ret; apply _|].
  step_tac; [apply slash_validator_effective|apply IH..].
Qed.

Lemma process_deposit_effective d :
  wf_deposit d → steps (keeps effective_balances_ok) (process_deposit d).
Proof using COk.
  intros Hd. unfold process_deposit, push_validator. step_tac; try by apply effective_same.
  - intros Hall. apply Forall_app. split; [done|]. apply Forall_singleton.
    unfold deposit_effective_balance in H2. res_inv. apply u64_rem_inv in Ha as [_ ->].
    pose proof increment_pos. red in Hd.
    assert (0 ≤ dd_amount (dep_data d) mod effective_balance_increment) by (apply Z.mod_pos_bound; lia).
    assert (dd_amount (dep_data d) mod effective_balance_increment ≤ dd_amount (dep_data d))
      by (apply Z.mod_le; u64_lia).
    apply u64_sub_inv in Ha0; [|u64_lia]. subst a3.
    by apply (whole_increments_ok (mkValidator [] [] 0 false 0 0 0 0)).
  - apply increase_balance_effective.
Qed.

Lemma process_operations_effective b :
  wf_body b → steps (keeps effective_balances_ok) (process_operations b).
Proof using COk.
  intros Hb. unfold process_operations, process_proposer_slashing, process_attester_slashing,
    process_attestation, process_voluntary_exit.
  step_tac; try (by apply effective_same).
  - apply check_slashed_header_steps. apply _.
  - apply slash_validator_effective.
  - apply slash_all_effective.
  - apply process_deposit_effective. by eapply Forall_forall in Hb.
  - apply initiate_validator_exit_effective.
Qed.

Lemma process_block_effective {B} `{Block B} (b : B) :
  wf_body (block_body b) → steps (keeps effective_inv) (process_block b).
Proof using COk.
  intros Hb. apply effective_inv_steps; [by apply process_block_wf|].
  unfold process_block, process_block_header, process_randao, process_eth1_data.
  step_tac; try (by apply effective_same); [|by apply process_operations_effective].
  destruct (block_signature b); step_tac.
Qed.

Lemma advance_slot_effective : steps (keeps effective_inv) advance_slot.
Proof using COk.
  unfold advance_slot. step_tac.
  - apply effective_inv_steps; [apply process_slot_wf|].
    unfold process_slot. step_tac; by apply effective_same.
  - apply process_epoch_effective.
  - apply effective_inv_same; [done|]. intros ?. apply wf_with_slot; [by eapply u64_add_range|done].
Qed.
End Effective.

(** C28: whatever a block contains, effective balances stay whole increments
    capped by the maximum. *)
Theorem effective_balances_bounded `{Config} `{ArithMode} `{BLSConfig} `{TreeRoot} `{MerkleTree}
  `{Fuel} `{!ConfigOk _} {B} `{Block B} (b : B) s :
  wf_body (block_body b) → wf_state s → effective_balances_ok s →
  effective_balances_ok (state_transition b s).2.
Proof.
  intros Hb Hwf Heff. enough (effective_inv (state_transition b s).2) as [_ ?] by done.
  apply (λ H, H : keeps effective_inv s (state_transition b s).2); [|by split].
  unfold state_transition, process_slots. step_tac.
  - apply steps_while; [apply _|apply advance_slot_effective].
  - by apply process_block_effective.
Qed.

(** ** Genesis *)

Section Genesis.
Context `{Cfg : Config} `{AM : ArithMode} `{BLS : BLSConfig} `{TR : TreeRoot} `{MT : MerkleTree}.
Context `{COk : !ConfigOk Cfg}.

Lemma genesis_initial_wf t d : wf_state (genesis_initial t d).
Proof using COk.
  pose proof historical_root_pos. pose proof historical_vector_pos. pose proof slashings_vector_pos.
  split; cbn; try done; unfold zlen; rewrite ?length_fmap, ?length_replicate; try lia.
  by apply Forall_replicate.
Qed.

Lemma genesis_activate_wf v : wf_validator v → wf_validator (genesis_activate v).
Proof using COk.
  unfold genesis_activate. destruct (_ <=? _); [|done]. rewrite genesis_epoch_zero. by intros [].
Qed.

Lemma genesis_activate_same v :
  v_pubkey (genesis_activate v) = v_pubkey v ∧
  v_effective_balance (genesis_activate v) = v_effective_balance v.
Proof using Type. unfold genesis_activate. by destruct (_ <=? _). Qed.

Lemma genesis_run deposits t d s :
  genesis_beacon_state deposits t d = Ok s →
  ∃ s0, for_each deposits process_deposit (genesis_initial t d) = (Ok tt, s0) ∧
    s = with_validators (genesis_activate <$> validators s0) s0.
Proof using Type.
  unfold genesis_beacon_state. destruct (for_each _ _ _) as [[[]| | |] s0]; try done.
  intros [= <-]. eauto.
Qed.

(** Entries made by deposits only. *)
Definition fresh (v : Validator) : Prop :=
  v_activation_epoch v = FAR_FUTURE_EPOCH ∧ v_exit_epoch v = FAR_FUTURE_EPOCH ∧ v_slashed v = false.

Lemma process_deposit_fresh d :
  steps (keeps (λ s, Forall fresh (validators s))) (process_deposit d).
Proof using Type.
  unfold process_deposit, push_validator. step_tac; try (by intros ?).
  - intros Hall. cbn. apply Forall_app. split; [done|]. by apply Forall_singleton.
  - intros Hall. by rewrite increase_balance_validators.
Qed.

Lemma genesis_deposits {I : BeaconState → Prop} deposits t d s0 :
  (∀ x, x ∈ deposits → steps (keeps I) (process_deposit x)) → I (genesis_initial t d) →
  for_each deposits process_deposit (genesis_initial t d) = (Ok tt, s0) → I s0.
Proof using Type.
  intros Hx HI Hrun. assert (steps (keeps I) (for_each deposits process_deposit)) as Hs
    by (apply steps_for_each_in; [apply _|done]).
  specialize (Hs (genesis_initial t d) HI). by rewrite Hrun in Hs.
Qed.
End Genesis.

(** A genesis state satisfies every invariant of the chain; its active
    validators are exactly those with the maximal effective balance, and none
    is exiting or slashed. *)
Theorem genesis_invariants `{Config} `{ArithMode} `{BLSConfig} `{TreeRoot} `{MerkleTree}
  `{!ConfigOk _} (deposits : list Deposit) (t : Uint) (d : Eth1Data) s :
  Forall wf_deposit deposits → genesis_beacon_state deposits t d = Ok s →
  wf_state s ∧ finality_ok s ∧ unique_pubkeys s ∧ effective_balances_ok s ∧ slot s = 0 ∧
  ∀ v, v ∈ validators s →
    is_active v 0 = (max_effective_balance <=? v_effective_balance v) ∧
    v_exit_epoch v = FAR_FUTURE_EPOCH ∧ v_slashed v = false.
Proof.
  intros Hd (s0 & Hrun & ->)%genesis_run. rewrite Forall_forall in Hd.
  assert (wf_state s0) as Hwf
    by (eapply genesis_deposits, Hrun; [intros x Hx; by apply process_deposit_wf, Hd|apply genesis_initial_wf]).
  assert (Forall fresh (validators s0)) as Hfresh
    by (eapply (genesis_deposits (I:=λ s, Forall fresh (validators s))), Hrun;
        [intros x _; apply process_deposit_fresh|constructor]).
  assert (effective_balances_ok s0) as Heff
    by (eapply genesis_deposits, Hrun; [intros x Hx; by apply process_deposit_effective, Hd|constructor]).
  assert (unique_pubkeys s0) as Huniq
    by (eapply genesis_deposits, Hrun; [intros x _ s1; exact (proj2 (process_deposit_step x s1))|constructor]).
  assert (steps (same finality_frame) (for_each deposits process_deposit)) as Hfr
    by (step_tac; apply process_deposit_frame).
  specialize (Hfr (genesis_initial t d)). rewrite Hrun in Hfr. cbn [snd] in Hfr.
  apply same_finality in Hfr as (Hslot & Hj & _). split; [|split; [|split; [|split; [|split]]]].
  - apply wf_with_validators; [by rewrite length_fmap| |done]. apply Forall_fmap.
    eapply Forall_impl; [apply (wf_validators _ Hwf)|]. intros v. apply genesis_activate_wf.
  - eapply (finality_ok_ext (genesis_initial t d)); [done|exact Hj|]. unfold finality_ok. cbn.
    split; cbn; try done.
  - unfold unique_pubkeys, pubkeys in *. cbn. rewrite <- list_fmap_compose.
    erewrite list_fmap_ext; [exact Huniq|]. intros i v _. apply genesis_activate_same.
  - unfold effective_balances_ok in *. cbn. apply Forall_fmap. eapply Forall_impl; [exact Heff|].
    intros v. unfold effective_ok, compose. by rewrite (proj2 (genesis_activate_same v)).
  - done.
  - intros v (u & -> & Hu)%list_elem_of_fmap. pose proof (proj1 (Forall_forall _ _) Hfresh u Hu) as (Ha & He & Hs).
    rewrite (proj2 (genesis_activate_same u)). unfold genesis_activate, is_active.
    destruct (_ <=? v_effective_balance u); cbn; rewrite ?genesis_epoch_zero, ?Ha, He; by repeat split.
Qed.

(** ** Witnesses *)

Definition toy_deposit (i : Z) : Deposit :=
  mkDeposit (replicate 33 H256_default)
    (mkDepositData (replicate 48 i) H256_default 32000000000 H768_default).

Section Witnesses.
#[local] Existing Instances toy_config toy_config_ok toy_mode toy_fuel toy_tree toy_merkle toy_bls.

Lemma validator_lifecycle_witness :
  ∃ v', validators (state_transition (toy_block 8) (toy_state 16 7)).2 !! 3%nat = Some v' ∧
    validator_le (toy_validator 3) v'.
Proof. apply (validator_lifecycle (toy_block 8) (toy_state 16 7)). vm_compute. reflexivity. Defined.

Lemma toy_unique : unique_pubkeys (toy_state 16 7).
Proof. unfold unique_pubkeys. apply (bool_decide_unpack _). vm_compute. exact I. Qed.

Lemma pubkeys_stay_unique_witness :
  unique_pubkeys (toy_state 16 7) ∧ unique_pubkeys (state_transition (toy_block 8) (toy_state 16 7)).2.
Proof.
  split; [apply toy_unique|]. apply (pubkeys_stay_unique (toy_block 8) (toy_state 16 7)), toy_unique.
Defined.

Lemma effective_balances_bounded_witness :
  effective_balances_ok (state_transition (toy_block 8) (toy_state 16 7)).2.
Proof.
  apply (effective_balances_bounded (toy_block 8) (toy_state 16 7)).
  - constructor.
  - apply wf_stateb_spec. vm_compute. reflexivity.
  - repeat constructor; vm_compute; done.
Defined.

Lemma genesis_invariants_witness :
  ∃ s, genesis_beacon_state [toy_deposit 1; toy_deposit 2] 10 (mkEth1Data toy_root 2 toy_root) = Ok s ∧
  length (validators s) = 2%nat ∧
  (wf_state s ∧ finality_ok s ∧ unique_pubkeys s ∧ effective_balances_ok s ∧ slot s = 0 ∧
   ∀ v, v ∈ validators s →
     is_active v 0 = (max_effective_balance <=? v_effective_balance v) ∧
     v_exit_epoch v = FAR_FUTURE_EPOCH ∧ v_slashed v = false).
Proof.
  eexists. split; [vm_compute; reflexivity|]. split; [reflexivity|].
  apply (genesis_invariants [toy_deposit 1; toy_deposit 2] 10 (mkEth1Data toy_root 2 toy_root)).
  - repeat constructor; done.
  - vm_compute. reflexivity.
Defined.
End Witnesses.
