(* ===== verification/Bls.v ===== *)
(** * Signature verification: [crypto/src/lib.rs]

    [BLSVerification] implements the [BLSConfig] of the beacon chain with the
    external BLS library: byte strings are decoded into keys and signatures, and
    what does not decode is treated as a signature that does not verify, or
    aggregates to the default value.  The library's types and functions are the
    class [BlsCrate].

    The theorem composes it with the block transition: every signature in a
    block that is accepted has been decoded and verified by the library, for the
    key, message and domain that [block_signed] and its siblings name. *)
From stdpp Require Import base numbers list.
From Stdlib Require Import ZArith Lia.
From S2P Require Import Prelude Config Types Utils State Accessors Mutators Epoch Block Transition Lifecycle.

#[local] Open Scope Z_scope.

(** The BLS library: decoding of keys and signatures, aggregation, and
    verification against one key or several. *)
Class BlsCrate := {
  BlsPublic : Type;
  BlsSignature : Type;
  BlsAggregatePublic : Type;
  BlsAggregateSignature : Type;
  public_from_bytes : Bytes → option BlsPublic;
  signature_from_bytes : Bytes → option BlsSignature;
  aggregate_public_from_bytes : Bytes → option BlsAggregatePublic;
  aggregate_signature_from_bytes : Bytes → option BlsAggregateSignature;
  aggregate_public_new : BlsAggregatePublic;
  aggregate_public_add : BlsAggregatePublic → BlsPublic → BlsAggregatePublic;
  aggregate_public_bytes : BlsAggregatePublic → ValidatorId;
  aggregate_signature_new : BlsAggregateSignature;
  aggregate_signature_add : BlsAggregateSignature → BlsSignature → BlsAggregateSignature;
  aggregate_signature_bytes : BlsAggregateSignature → Signature;
  crate_verify : BlsAggregateSignature → Bytes → Z → BlsAggregatePublic → bool;
  crate_verify_multiple : BlsAggregateSignature → list Bytes → Z → list BlsAggregatePublic → bool;
}.

Section Verification.
Context `{BC : BlsCrate}.

(** [BLSVerification::verify] *)
Definition bls_verify (pubkey : ValidatorId) (message : H256) (signature : Signature) (domain : Z) : bool :=
  match aggregate_public_from_bytes pubkey with
  | None => false
  | Some pubkey =>
      match aggregate_signature_from_bytes signature with
      | None => false
      | Some signature => crate_verify signature message domain pubkey
      end
  end.

(** The loops of the two aggregations: [None] is the early return. *)
Fixpoint add_pubkeys (aggregated : BlsAggregatePublic) (pubkeys : list ValidatorId) : option BlsAggregatePublic :=
  match pubkeys with
  | [] => Some aggregated
  | pubkey :: rest =>
      match public_from_bytes pubkey with
      | Some value => add_pubkeys (aggregate_public_add aggregated value) rest
      | None => None
      end
  end.
Fixpoint add_signatures (aggregated : BlsAggregateSignature) (signatures : list Signature) :
  option BlsAggregateSignature :=
  match signatures with
  | [] => Some aggregated
  | signature :: rest =>
      match signature_from_bytes signature with
      | Some value => add_signatures (aggregate_signature_add aggregated value) rest
      | None => None
      end
  end.

(** [BLSVerification::aggregate_pubkeys] and [aggregate_signatures] *)
Definition bls_aggregate_pubkeys (pubkeys : list ValidatorId) : ValidatorId :=
  match add_pubkeys aggregate_public_new pubkeys with
  | Some aggregated => aggregate_public_bytes aggregated
  | None => H384_default
  end.
Definition bls_aggregate_signatures (signatures : list Signature) : Signature :=
  match add_signatures aggregate_signature_new signatures with
  | Some aggregated => aggregate_signature_bytes aggregated
  | None => H768_default
  end.

(** The loop over the keys of [verify_multiple] *)
Fixpoint decode_pubkeys (pubkeys : list ValidatorId) : option (list BlsAggregatePublic) :=
  match pubkeys with
  | [] => Some []
  | pubkey :: rest =>
      match aggregate_public_from_bytes pubkey with
      | Some value => cons value <$> decode_pubkeys rest
      | None => None
      end
  end.

(** [BLSVerification::verify_multiple] *)
Definition bls_verify_multiple (pubkeys : list ValidatorId) (messages : list H256) (signature : Signature)
  (domain : Z) : bool :=
  match aggregate_signature_from_bytes signature with
  | None => false
  | Some bls_signature =>
      match decode_pubkeys pubkeys with
      | None => false
      | Some bls_pubkeys => crate_verify_multiple bls_signature messages domain bls_pubkeys
      end
  end.

(** [impl BLSConfig for BLSVerification] *)
Definition BLSVerification : BLSConfig := {|
  verify := bls_verify;
  aggregate_pubkeys := bls_aggregate_pubkeys;
  aggregate_signatures := bls_aggregate_signatures;
  verify_multiple := bls_verify_multiple;
|}.
End Verification.

(** ** What the operations of a block leave alone *)

(** The slot, the fork and the key of every validator *)
Definition view (s t : BeaconState) : Prop := registry_le s t ∧ slot t = slot s ∧ fork t = fork s.

#[global] Instance view_preorder : PreOrder view.
Proof.
  split; [intros s; split; [reflexivity|done]|]. intros s t u (H1 & H2 & H3) (K1 & K2 & K3).
  split; [by etrans|]. split; congruence.
Qed.

(** The key of a validator *)
Definition key_at (s : BeaconState) (i : ValidatorIndex) (pubkey : ValidatorId) : Prop :=
  v_pubkey <$> validators s !! Z.to_nat i = Some pubkey.

Lemma key_at_view s t i pubkey : view s t → key_at s i pubkey → key_at t i pubkey.
Proof.
  intros [Hle _] (v & Hv & ->)%fmap_Some. destruct (Hle _ _ Hv) as (v' & Hv' & Hvle). unfold key_at.
  rewrite Hv'. cbn. by rewrite (vle_pubkey _ _ Hvle).
Qed.

Lemma key_at_index {E} s t i v : view s t → vec_index (validators s) i = Ok (E:=E) v → key_at t i (v_pubkey v).
Proof. intros Hv Hi%vec_index_Ok. apply (key_at_view s t _ _ Hv). unfold key_at. by rewrite Hi. Qed.

(** Where an element of a loop is processed *)
Lemma for_each_at {S E A} (f : A → M S E unit) l1 x l2 s s' :
  for_each (l1 ++ x :: l2) f s = (Ok tt, s') →
  ∃ t t', for_each l1 f s = (Ok tt, t) ∧ f x t = (Ok tt, t') ∧ for_each l2 f t' = (Ok tt, s').
Proof.
  revert s. induction l1 as [|y l1 IH]; intros s Hrun; cbn in Hrun; apply Mbind_Ok in Hrun as ([] & s1 & Hy & Hrun).
  - by exists s, s1.
  - destruct (IH s1 Hrun) as (t & t' & H1 & H2 & H3). exists t, t'. split; [|done]. cbn.
    by rewrite (Mbind_step _ _ _ _ _ Hy).
Qed.

Lemma steps_run {S E A} (R : relation S) (m : M S E A) s r s' : steps R m → m s = (r, s') → R s s'.
Proof. intros Hm Hrun. specialize (Hm s). by rewrite Hrun in Hm. Qed.

Section Views.
Context `{Cfg : Config} `{AM : ArithMode} `{BLS : BLSConfig} `{TR : TreeRoot} `{MT : MerkleTree} `{F : Fuel}.

Lemma view_steps {A} (m : Exec A) : steps registry_step m → steps (same finality_frame) m → steps view m.
Proof. intros H1 H2 s. destruct (H1 s) as [Hle _]. split; [done|]. specialize (H2 s). by injection H2. Qed.

Lemma slash_validator_view i w : steps view (slash_validator i w).
Proof. apply view_steps; [apply slash_validator_le|apply registry_to_finality, slash_validator_frame]. Qed.

Lemma process_randao_view body : steps view (process_randao body).
Proof. unfold process_randao. step_tac. split; [by apply registry_step_same|done]. Qed.

Lemma process_proposer_slashing_view ps : steps view (process_proposer_slashing ps).
Proof.
  unfold process_proposer_slashing. step_tac; [|apply slash_validator_view]. apply check_slashed_header_steps. apply _.
Qed.

Lemma process_attester_slashing_view a : steps view (process_attester_slashing a).
Proof. unfold process_attester_slashing. step_tac. apply view_steps; [apply slash_all_step|apply slash_all_frame]. Qed.

Lemma process_attestation_view a : steps view (process_attestation a).
Proof. unfold process_attestation. step_tac; (split; [apply registry_step_same|]; done). Qed.

Lemma process_deposit_view d : steps view (process_deposit d).
Proof. apply view_steps; [apply process_deposit_step|apply process_deposit_frame]. Qed.

Lemma process_voluntary_exit_view e : steps view (process_voluntary_exit e).
Proof.
  unfold process_voluntary_exit. step_tac.
  apply view_steps; [apply initiate_validator_exit_le|apply registry_to_finality, initiate_validator_exit_frame].
Qed.
End Views.

(** ** What must be signed, by whom *)

Section Accepted.
Context `{Cfg : Config} `{AM : ArithMode} `{BC : BlsCrate} `{TR : TreeRoot} `{MT : MerkleTree} `{F : Fuel}.
#[local] Existing Instance BLSVerification.

(** The library decodes the key and the signature and accepts them for the
    message in the domain. *)
Definition crate_signed (pubkey : ValidatorId) (message : H256) (signature : Signature) (d : Z) : Prop :=
  ∃ pk sig, aggregate_public_from_bytes pubkey = Some pk ∧ aggregate_signature_from_bytes signature = Some sig ∧
    crate_verify sig message d pk = true.

(** The same for several keys, each with its message *)
Definition crate_signed_multiple (pubkeys : list ValidatorId) (messages : list H256) (signature : Signature) (d : Z) : Prop :=
  ∃ pks sig, Forall2 (λ pubkey pk, aggregate_public_from_bytes pubkey = Some pk) pubkeys pks ∧
    aggregate_signature_from_bytes signature = Some sig ∧ crate_verify_multiple sig messages d pks = true.

(** The domain of a type at an epoch, with the version of the fork then *)
Definition signing_domain (s : BeaconState) (domain_type : Z) (epoch : Uint) : Uint :=
  bls_domain domain_type
    (if epoch <? fork_epoch (fork s) then fork_previous_version (fork s) else fork_current_version (fork s)).

Definition epoch_at (slot : Uint) : Uint := slot / slots_per_epoch.

(** The block itself and its randao reveal, by the proposer of the slot *)
Definition block_signed (start s : BeaconState) (block : BeaconBlock) : Prop :=
  ∃ p pubkey, beacon_proposer_index start = Ok p ∧ key_at s p pubkey ∧
    crate_signed pubkey (tree_root_unsealed_block (unsealed_from block)) (blk_signature block)
      (signing_domain s domain_beacon_proposer (epoch_at (slot s))) ∧
    crate_signed pubkey (tree_root_uint (epoch_at (slot s))) (body_randao_reveal (blk_body block))
      (signing_domain s domain_randao (epoch_at (slot s))).

(** A header in a proposer slashing, in the domain of its own slot *)
Definition header_signed (s : BeaconState) (pubkey : ValidatorId) (header : BeaconBlockHeader) : Prop :=
  crate_signed pubkey (tree_root_signing_header (signing_header header)) (bh_signature header)
    (signing_domain s domain_beacon_proposer (epoch_at (bh_slot header))).
Definition proposer_slashing_signed (s : BeaconState) (ps : ProposerSlashing) : Prop :=
  ∃ pubkey, key_at s (ps_proposer_index ps) pubkey ∧
    header_signed s pubkey (ps_header_1 ps) ∧ header_signed s pubkey (ps_header_2 ps).

(** An indexed attestation, by the validators it lists: the keys of those with
    either custody bit are aggregated, the data is signed with that bit. *)
Definition indexed_signed (s : BeaconState) (ia : IndexedAttestation) : Prop :=
  ∃ k0 k1, Forall2 (key_at s) (ia_custody_bit_0_indices ia) k0 ∧ Forall2 (key_at s) (ia_custody_bit_1_indices ia) k1 ∧
    crate_signed_multiple [bls_aggregate_pubkeys k0; bls_aggregate_pubkeys k1]
      [tree_root_attestation_data (mkAttestationDataAndCustodyBit (ia_data ia) false);
       tree_root_attestation_data (mkAttestationDataAndCustodyBit (ia_data ia) true)]
      (ia_signature ia) (signing_domain s domain_beacon_attester (cp_epoch (ad_target (ia_data ia)))).

Definition exit_signed (s : BeaconState) (e : VoluntaryExit) : Prop :=
  ∃ pubkey, key_at s (ve_validator_index e) pubkey ∧
    crate_signed pubkey (tree_root_signing_voluntary_exit (signing_voluntary_exit e)) (ve_signature e)
      (signing_domain s domain_voluntary_exit (ve_epoch e)).

(** A block, up to the attestation after [before] *)
Definition up_to_attestation (block : BeaconBlock) (before : list Attestation) : Exec unit :=
  let body := blk_body block in
  process_block_header block ;; process_randao body ;; process_eth1_data body ;;
  for_each (body_proposer_slashings body) process_proposer_slashing ;;
  for_each (body_attester_slashings body) process_attester_slashing ;;
  for_each before process_attestation.

(** ** The checks of the code *)

Lemma verify_signed pubkey message signature d :
  verify pubkey message signature d = true → crate_signed pubkey message signature d.
Proof using Type.
  cbn. unfold bls_verify. destruct (aggregate_public_from_bytes pubkey) as [pk|] eqn:Hp; [|done].
  destruct (aggregate_signature_from_bytes signature) as [sig|] eqn:Hs; [|done]. intros Hv. by exists pk, sig.
Qed.

Lemma decode_pubkeys_Forall2 pubkeys pks :
  decode_pubkeys pubkeys = Some pks → Forall2 (λ pubkey pk, aggregate_public_from_bytes pubkey = Some pk) pubkeys pks.
Proof using Type.
  revert pks. induction pubkeys as [|k l IH]; intros pks; cbn; [intros [= <-]; constructor|].
  destruct (aggregate_public_from_bytes k) as [pk|] eqn:Hk; [|done].
  intros (l' & Hl & ->)%fmap_Some. constructor; auto.
Qed.

Lemma verify_multiple_signed pubkeys messages signature d :
  verify_multiple pubkeys messages signature d = true → crate_signed_multiple pubkeys messages signature d.
Proof using Type.
  cbn. unfold bls_verify_multiple. destruct (aggregate_signature_from_bytes signature) as [sig|] eqn:Hs; [|done].
  destruct (decode_pubkeys pubkeys) as [pks|] eqn:Hd; [|done]. intros Hv. exists pks, sig.
  split; [by apply decode_pubkeys_Forall2|done].
Qed.

Lemma epoch_of_slot_at {E} sl e : epoch_of_slot sl = Ok (E:=E) e → e = epoch_at sl.
Proof using Type. unfold epoch_of_slot, u64_div. destruct (_ =? 0); [done|]. by intros [= <-]. Qed.

Lemma domain_signing s t ty epoch d :
  view s t → domain s ty epoch = Ok d → d = signing_domain t ty (default (epoch_at (slot t)) epoch).
Proof using Type.
  intros (_ & Hs & Hf) Hd. unfold domain, current_epoch in Hd. apply bind_Ok in Hd as (c & Hc%epoch_of_slot_at & Hd).
  injection Hd as <-. unfold signing_domain. by rewrite Hs, Hf, Hc.
Qed.

Lemma pubkeys_of_view s t l ks : view s t → pubkeys_of s l = Ok ks → Forall2 (key_at t) l ks.
Proof using Type.
  intros Hv Hl%res_map_Ok. eapply Forall2_impl; [exact Hl|]. intros i k (v & Hi & [= <-])%bind_Ok.
  by eapply key_at_index.
Qed.

Lemma valid_indexed_signed s t ia : view s t → is_valid_indexed_attestation s ia = Ok true → indexed_signed t ia.
Proof using Type.
  intros Hv. unfold is_valid_indexed_attestation. intros H. res_inv; [done..|].
  rename select (domain _ _ _ = _) into Hd. apply (domain_signing _ t) in Hd; [|done]. subst.
  eexists _, _. split; [by eapply pubkeys_of_view|]. split; [by eapply pubkeys_of_view|]. by apply verify_multiple_signed.
Qed.

Lemma proposer_slashing_checked ps s s' t :
  process_proposer_slashing ps s = (Ok tt, s') → view s t → proposer_slashing_signed t ps.
Proof using Type.
  unfold process_proposer_slashing, check_slashed_header. intros H Hv. cbn [for_each] in H. run_inv.
  rename select (vec_index _ _ = _) into Hi. apply (key_at_index _ t) in Hi; [|done].
  repeat match goal with
  | Hd : domain _ _ _ = Ok _ |- _ => apply (domain_signing _ t) in Hd; [|done]; subst
  | He : epoch_of_slot _ = Ok _ |- _ => apply epoch_of_slot_at in He; subst
  end.
  eexists. split; [exact Hi|]. split; by apply verify_signed.
Qed.

Lemma attester_slashing_checked a s s' t :
  process_attester_slashing a s = (Ok tt, s') → view s t →
  indexed_signed t (as_attestation_1 a) ∧ indexed_signed t (as_attestation_2 a).
Proof using Type.
  unfold process_attester_slashing. intros H Hv. run_inv. subst. split; by eapply valid_indexed_signed.
Qed.

Lemma attestation_checked a s s' t :
  process_attestation a s = (Ok tt, s') → view s t → ∃ ia, indexed_attestation s a = Ok ia ∧ indexed_signed t ia.
Proof using Type.
  unfold process_attestation. intros H Hv. run_inv; subst.
  all: eexists; split; [eassumption|]; by eapply valid_indexed_signed.
Qed.

Lemma exit_checked e s s' t : process_voluntary_exit e s = (Ok tt, s') → view s t → exit_signed t e.
Proof using Type.
  unfold process_voluntary_exit. intros H Hv. run_inv.
  rename select (domain _ _ _ = _) into Hd. apply (domain_signing _ t) in Hd; [|done]. subst.
  eexists. split; [by eapply key_at_index|]. by apply verify_signed.
Qed.

Lemma header_checked (block : BeaconBlock) s s' t :
  process_block_header block s = (Ok tt, s') → view s' t →
  view s s' ∧ beacon_proposer_index s' = beacon_proposer_index s ∧
  ∃ p pubkey, beacon_proposer_index s = Ok p ∧ key_at t p pubkey ∧
    crate_signed pubkey (tree_root_unsealed_block (unsealed_from block)) (blk_signature block)
      (signing_domain t domain_beacon_proposer (epoch_at (slot t))).
Proof using Type.
  unfold process_block_header. intros H Hv. cbn [block_signature BeaconBlock_Block] in H. run_inv.
  rename select (domain _ _ _ = _) into Hd. apply (domain_signing _ t) in Hd; [|done]. cbn [default] in Hd. subst.
  split; [split; [by apply registry_step_same|done]|]. split; [by apply beacon_proposer_index_ext|].
  eexists _, _. split; [|split; [by eapply key_at_index|by apply verify_signed]].
  rename select (beacon_proposer_index _ = _) into Hp. rewrite <- Hp. by apply beacon_proposer_index_ext.
Qed.

Lemma randao_checked body s s' t p pubkey :
  process_randao body s = (Ok tt, s') → view s t → beacon_proposer_index s = Ok p → key_at t p pubkey →
  view s s' ∧
  crate_signed pubkey (tree_root_uint (epoch_at (slot t))) (body_randao_reveal body)
    (signing_domain t domain_randao (epoch_at (slot t))).
Proof using Type.
  unfold process_randao. intros H Hv Hp Hk. rewrite Mbind_get, Hp in H. run_inv.
  rename select (domain _ _ _ = _) into Hd. apply (domain_signing _ t) in Hd; [|done]. cbn [default] in Hd. subst.
  rename select (Ok p = Ok _) into Hpa. injection Hpa as <-.
  rename select (vec_index _ _ = _) into Hi. apply (key_at_index _ t) in Hi; [|done].
  unfold key_at in Hk, Hi. rewrite Hk in Hi. injection Hi as ->.
  match goal with Hc : current_epoch _ = Ok ?c, Hx : verify _ (tree_root_uint ?c) _ _ = true |- _ =>
    apply epoch_of_slot_at in Hc; subst c end.
  split; [split; [by apply registry_step_same|done]|]. destruct Hv as (_ & Hs & _). rewrite Hs in *.
  by apply verify_signed.
Qed.

Lemma eth1_view body s s' : process_eth1_data body s = (Ok tt, s') → view s s'.
Proof using Type.
  unfold process_eth1_data. intros H. run_inv; (split; [by apply registry_step_same|done]).
Qed.

(** The loops of the operations, one after the other *)
Lemma operations_loops body s s' :
  process_operations body s = (Ok tt, s') →
  ∃ t1 t2 t3 t4, for_each (body_proposer_slashings body) process_proposer_slashing s = (Ok tt, t1) ∧
    for_each (body_attester_slashings body) process_attester_slashing t1 = (Ok tt, t2) ∧
    for_each (body_attestations body) process_attestation t2 = (Ok tt, t3) ∧
    for_each (body_deposits body) process_deposit t3 = (Ok tt, t4) ∧
    for_each (body_voluntary_exits body) process_voluntary_exit t4 = (Ok tt, s').
Proof using Type.
  unfold process_operations. intros H. run_inv. repeat match goal with u : unit |- _ => destruct u end. eauto 9.
Qed.

(** An operation of a loop is checked against the state after the loop, and
    against any later one. *)
Lemma loop_checked {A} (f : A → Exec unit) (P : BeaconState → A → Prop) l s s' t :
  (∀ x, steps view (f x)) → (∀ x u u' t, f x u = (Ok tt, u') → view u t → P t x) →
  for_each l f s = (Ok tt, s') → view s' t → Forall (P t) l.
Proof using Type.
  intros Hf HP Hrun Hv. apply Forall_forall. intros x (l1 & l2 & ->)%list_elem_of_split.
  destruct (for_each_at f l1 x l2 s s' Hrun) as (u & u' & _ & Hx & Hrest).
  apply (HP x u u' t Hx). etrans; [exact (steps_run view _ _ _ _ (Hf x) Hx)|].
  etrans; [|exact Hv]. by apply (steps_run view _ _ _ _ (steps_for_each view l2 f Hf) Hrest).
Qed.

Lemma loop_view {A} (f : A → Exec unit) l s s' :
  (∀ x, steps view (f x)) → for_each l f s = (Ok tt, s') → view s s'.
Proof using Type. intros Hf Hrun. by apply (steps_run view _ _ _ _ (steps_for_each view l f Hf) Hrun). Qed.

(** C11: no unverified signature enters the chain.  With the verification of the
    crypto crate, whenever a block is accepted by the state transition, the BLS
    library has decoded and accepted: the block and its randao reveal, for the
    key of the proposer of the slot, in their domains; both headers of every
    proposer slashing for the key of the accused; both attestations of every
    attester slashing, for the aggregated keys of the validators they list;
    every attestation, for the keys of those members of its committee whose
    bits are set, the committee being that of the state in which the
    attestation is processed; and every voluntary exit, for the key of the
    validator that leaves.  Keys, fork and epoch are those of the state after
    the block. *)
Theorem accepted_block_signatures (block : BeaconBlock) s s'
  (Hrun : state_transition block s = (Ok tt, s')) :
  ∃ start, process_slots (blk_slot block) s = (Ok tt, start) ∧ block_signed start s' block ∧
    Forall (proposer_slashing_signed s') (body_proposer_slashings (blk_body block)) ∧
    Forall (λ a, indexed_signed s' (as_attestation_1 a) ∧ indexed_signed s' (as_attestation_2 a))
      (body_attester_slashings (blk_body block)) ∧
    (∀ before a after, body_attestations (blk_body block) = before ++ a :: after →
       ∃ t ia, up_to_attestation block before start = (Ok tt, t) ∧ indexed_attestation t a = Ok ia ∧
         ia_signature ia = at_signature a ∧ ia_data ia = at_data a ∧ indexed_signed s' ia) ∧
    Forall (exit_signed s') (body_voluntary_exits (blk_body block)).
Proof using Type.
  unfold state_transition in Hrun. apply Mbind_Ok in Hrun as ([] & s1 & Hsl & Hrun).
  apply Mbind_Ok in Hrun as ([] & s2 & Hblock & Hend). assert (s2 = s') as -> by (by run_inv). clear Hend.
  exists s1. split; [done|]. unfold process_block in Hblock.
  apply Mbind_Ok in Hblock as ([] & h1 & Hh & Hblock). apply Mbind_Ok in Hblock as ([] & h2 & Hr & Hblock).
  apply Mbind_Ok in Hblock as ([] & h3 & He & Hblock).
  apply operations_loops in Hblock as (t1 & t2 & t3 & t4 & L1 & L2 & L3 & L4 & L5).
  pose proof (loop_view _ _ _ _ process_proposer_slashing_view L1) as V1. pose proof (loop_view _ _ _ _ process_attester_slashing_view L2) as V2.
  pose proof (loop_view _ _ _ _ process_attestation_view L3) as V3. pose proof (loop_view _ _ _ _ process_deposit_view L4) as V4.
  pose proof (loop_view _ _ _ _ process_voluntary_exit_view L5) as V5. pose proof (eth1_view _ _ _ He) as Ve.
  assert (view t3 s') as W3 by by etrans. assert (view t2 s') as W2 by by etrans. assert (view t1 s') as W1 by by etrans.
  assert (view h3 s') as W0 by by etrans. assert (view h1 h2) as Vr by by apply (steps_run view _ _ _ _ (process_randao_view _) Hr).
  assert (view h1 s') as Wh by (etrans; [exact Vr|by etrans]).
  split_and!.
  - destruct (header_checked block s1 h1 s' Hh Wh) as (_ & Heq & p & pk & Hp & Hk & Hs).
    exists p, pk. do 3 (split; [done|]). eapply (randao_checked _ h1 h2 s' p pk Hr); [done|by rewrite Heq|done].
  - by apply (loop_checked _ _ _ _ _ _ process_proposer_slashing_view proposer_slashing_checked L1).
  - by apply (loop_checked _ _ _ _ _ _ process_attester_slashing_view attester_slashing_checked L2).
  - intros before a after Hatt. change (blk_body block) with (block_body block) in Hatt. rewrite Hatt in L3.
    destruct (for_each_at _ _ _ _ _ _ L3) as (t & t' & Ht & Ha & Hrest).
    pose proof (loop_view _ _ _ _ process_attestation_view Hrest) as Va.
    pose proof (steps_run view _ _ _ _ (process_attestation_view a) Ha) as Vx.
    destruct (attestation_checked a t t' s' Ha) as (ia & Hia & Hsig); [by etrans; [exact Vx|etrans; [exact Va|exact W3]]|].
    exists t, ia. split; [|split; [done|]].
    + unfold up_to_attestation. cbv zeta. by rewrite (Mbind_step _ _ _ _ _ Hh), (Mbind_step _ _ _ _ _ Hr), (Mbind_step _ _ _ _ _ He),
        (Mbind_step _ _ _ _ _ L1), (Mbind_step _ _ _ _ _ L2).
    + unfold indexed_attestation in Hia. res_inv. by subst.
  - by apply (loop_checked _ _ _ _ _ _ process_voluntary_exit_view exit_checked L5).
Qed.
End Accepted.

(** ** Witness: a block with an attestation of one validator

    A library in which a signature consists of the key, the message and the
    domain it is made with. *)

Section Witness.
#[local] Existing Instances toy_config toy_mode toy_fuel toy_tree toy_merkle.

Definition toy_seal (key : Z) (message : H256) (d : Z) : Signature := key :: d mod 256 :: take 94 (message ++ replicate 94 0).

#[local] Instance toy_crate : BlsCrate := {|
  BlsPublic := Z; BlsSignature := Z; BlsAggregatePublic := Z; BlsAggregateSignature := Bytes;
  public_from_bytes := head;
  signature_from_bytes := head;
  aggregate_public_from_bytes := head;
  aggregate_signature_from_bytes b := if decide (length b = 96%nat) then Some b else None;
  aggregate_public_new := 0;
  aggregate_public_add := Z.add;
  aggregate_public_bytes k := replicate 48 k;
  aggregate_signature_new := [];
  aggregate_signature_add l k := l ++ [k];
  aggregate_signature_bytes := id;
  crate_verify sig m d pk := bool_decide (sig = toy_seal pk m d);
  crate_verify_multiple sig ms d pks := bool_decide (sig = toy_seal (foldr Z.add 0 pks) (default [] (head ms)) d);
|}.

(** Validator 4 proposes slot 9 and attests to slot 8. *)
Definition toy_signed_block : BeaconBlock :=
  let vote := mkAttestation [true; false]
    (mkAttestationData 8 0 H256_default Checkpoint_default (mkCheckpoint 1 H256_default)) [false; false]
    (toy_seal 4 toy_root domain_beacon_attester) in
  mkBeaconBlock 9 toy_root toy_root
    (mkBeaconBlockBody (toy_seal 4 toy_root domain_randao) Eth1Data_default H256_default [] [] [vote] [] [])
    (toy_seal 4 toy_root domain_beacon_proposer).

Lemma accepted_block_signatures_witness :
  let s' := (state_transition (BLS:=BLSVerification) toy_signed_block (toy_state 16 7)).2 in
  (state_transition (BLS:=BLSVerification) toy_signed_block (toy_state 16 7)).1 = Ok tt ∧
  (∃ start, block_signed start s' toy_signed_block) ∧
  ∃ ia, ia_signature ia = toy_seal 4 toy_root domain_beacon_attester ∧ indexed_signed s' ia.
Proof.
  intros s'.
  assert ((state_transition (BLS:=BLSVerification) toy_signed_block (toy_state 16 7)).1 = Ok tt) as Hrun
    by (vm_compute; reflexivity).
  split; [exact Hrun|]. pose proof (run_eta _ _ Hrun) as Hst. change (_.2) with s' in Hst. clearbody s'.
  destruct (accepted_block_signatures toy_signed_block (toy_state 16 7) s' Hst) as (start & _ & Hb & _ & _ & Hatt & _).
  split; [exists start; exact Hb|]. destruct (Hatt [] _ [] eq_refl) as (t & ia & _ & _ & Hsig & _ & Hok).
  exists ia. split; [rewrite Hsig; reflexivity|exact Hok].
Defined.
End Witness.
