(* ===== verification/Operations.v ===== *)
(** * What block operations do

    Functional theorems about the operations of [per_block/operations] and the
    authoring interface: the branches of a deposit, the condition and effect of
    a voluntary exit, whom an attester slashing hits, and how the authoring
    functions count deposits. *)
From stdpp Require Import base numbers list sorting.
From Stdlib Require Import ZArith Lia.
From S2P Require Import Prelude Config Types Utils State Accessors Mutators Justification Reward Epoch Block Transition Lifecycle.

#[local] Open Scope Z_scope.

(** ** Deposits *)

Section Deposits.
Context `{Cfg : Config} `{AM : ArithMode} `{BLS : BLSConfig} `{TR : TreeRoot} `{MT : MerkleTree}.
Context `{COk : !ConfigOk Cfg}.

(** The proof of a deposit against the eth1 data of the state. *)
Definition deposit_proved (s : BeaconState) (d : Deposit) : bool :=
  is_valid_merkle_branch (tree_root_deposit_data (dep_data d)) (dep_proof d)
    (DEPOSIT_CONTRACT_TREE_DEPTH + 1) (eth1_deposit_index s) (e1_deposit_root (eth1_data s)).

(** The proof of possession of a deposit. *)
Definition deposit_signed (s : BeaconState) (d : Deposit) : bool :=
  match domain s domain_deposit None with
  | Ok dom => verify (dd_pubkey (dep_data d))
      (tree_root_signing_deposit_data (signing_deposit_data (dep_data d)))
      (dd_signature (dep_data d)) dom
  | _ => false
  end.

(** The registry entry of a new validator. *)
Definition new_validator (d : DepositData) : Validator :=
  let amount := dd_amount d in
  mkValidator (dd_pubkey d) (dd_withdrawal_credentials d)
    (Z.min (amount - amount mod effective_balance_increment) max_effective_balance) false
    FAR_FUTURE_EPOCH FAR_FUTURE_EPOCH FAR_FUTURE_EPOCH FAR_FUTURE_EPOCH.

Lemma domain_ok s t e : ∃ d, domain s t e = Ok d.
Proof using COk. unfold domain. rewrite current_epoch_ok. cbn. eauto. Qed.

Lemma deposit_effective_balance_ok a :
  is_u64 a → deposit_effective_balance a =
  Ok (Z.min (a - a mod effective_balance_increment) max_effective_balance).
Proof using COk.
  intros Ha. unfold deposit_effective_balance. pose proof increment_pos.
  rewrite u64_rem_ok, res_bind_Ok by lia.
  assert (0 ≤ a mod effective_balance_increment < effective_balance_increment)
    by (apply Z.mod_pos_bound; lia).
  assert (a mod effective_balance_increment ≤ a) by (apply Z.mod_le; u64_lia).
  by rewrite u64_sub_ok by u64_lia.
Qed.

(** A proved and signed deposit for a key that is not known. *)
Lemma process_deposit_new (s : BeaconState) (d : Deposit) :
  wf_deposit d → is_u64 (eth1_deposit_index s + 1) →
  deposit_proved s d = true → dd_pubkey (dep_data d) ∉ pubkeys s → deposit_signed s d = true →
  process_deposit d s = (Ok tt, with_balances (balances s ++ [dd_amount (dep_data d)])
    (with_validators (validators s ++ [new_validator (dep_data d)])
       (with_eth1_deposit_index (eth1_deposit_index s + 1) s))).
Proof using COk.
  intros Hd Hi Hp Hk Hv. unfold process_deposit. rewrite Mbind_get. fold (deposit_proved s d).
  rewrite Hp. cbn [require]. rewrite (Mbind_step _ _ _ tt s) by done. rewrite u64_add_ok, Mbind_lift_Ok by done.
  rewrite Mbind_put, Mbind_get. cbv zeta.
  change (v_pubkey <$> validators (with_eth1_deposit_index _ s)) with (pubkeys s).
  change (domain (with_eth1_deposit_index _ s) domain_deposit None) with (domain s domain_deposit None).
  rewrite (proj2 (bool_decide_eq_false _) Hk : contains _ _ = _). cbn [negb].
  unfold deposit_signed in Hv. destruct (domain_ok s domain_deposit None) as [dom Hdom]. rewrite Hdom in *.
  rewrite Mbind_lift_Ok, Hv. cbn [negb]. by rewrite deposit_effective_balance_ok, Mbind_lift_Ok by exact Hd.
Qed.
End Deposits.

(** C27: what a deposit does, by its proof, its key and its signature. *)
Theorem process_deposit_correct `{Config} `{ArithMode} `{BLSConfig} `{TreeRoot} `{MerkleTree}
  `{!ConfigOk _} (s : BeaconState) (d : Deposit) :
  wf_deposit d → is_u64 (eth1_deposit_index s + 1) →
  let s1 := with_eth1_deposit_index (eth1_deposit_index s + 1) s in
  let key := dd_pubkey (dep_data d) in
  let amount := dd_amount (dep_data d) in
  (deposit_proved s d = false → process_deposit d s = (Err DepositMerkleInvalid, s)) ∧
  (deposit_proved s d = true → key ∉ pubkeys s → deposit_signed s d = false →
     process_deposit d s = (Ok tt, s1)) ∧
  (deposit_proved s d = true → key ∉ pubkeys s → deposit_signed s d = true →
     process_deposit d s = (Ok tt, with_balances (balances s ++ [amount])
       (with_validators (validators s ++ [new_validator (dep_data d)]) s1))) ∧
  (∀ i v b, deposit_proved s d = true → unique_pubkeys s →
     validators s !! i = Some v → v_pubkey v = key → balances s !! i = Some b → is_u64 (b + amount) →
     process_deposit d s = (Ok tt, with_balances (<[i := b + amount]> (balances s)) s1)).
Proof.
  intros Hd Hi s1 key amount. unfold process_deposit. rewrite Mbind_get. fold (deposit_proved s d).
  destruct (deposit_proved s d); cbn [require].
  2:{ split; [done|]. split; [done|]. split; [done|]. by intros. }
  rewrite (Mbind_step _ _ _ tt s) by done. rewrite u64_add_ok, Mbind_lift_Ok by done.
  rewrite Mbind_put, Mbind_get. fold s1 key amount. cbv zeta.
  change (v_pubkey <$> validators s1) with (pubkeys s).
  change (domain s1 domain_deposit None) with (domain s domain_deposit None).
  unfold deposit_signed. destruct (domain_ok s domain_deposit None) as [dom ->]. fold key.
  split; [done|]. split; [|split].
  - intros _ Hk Hv. rewrite (proj2 (bool_decide_eq_false _) Hk : contains _ _ = _). cbn [negb].
    by rewrite Mbind_lift_Ok, Hv.
  - intros _ Hk Hv. rewrite (proj2 (bool_decide_eq_false _) Hk : contains _ _ = _). cbn [negb].
    rewrite Mbind_lift_Ok, Hv. cbn [negb]. fold amount.
    by rewrite deposit_effective_balance_ok, Mbind_lift_Ok by exact Hd.
  - intros i v b _ Huniq Hv Hkey Hb Hsum.
    assert (pubkeys s !! i = Some key) as Hlk by (unfold pubkeys; by rewrite list_lookup_fmap, Hv, <- Hkey).
    assert (contains (pubkeys s) key = true) as -> by by eapply contains_spec, list_elem_of_lookup_2.
    cbn [negb]. destruct (position _ (pubkeys s)) as [k|] eqn:Hpos.
    + apply position_Some in Hpos as (Hk0 & x & Hx & Hxk & _). apply bool_decide_eq_true in Hxk as ->.
      pose proof (NoDup_lookup _ _ _ _ Huniq Hx Hlk) as <-.
      cbn [unwrap]. rewrite Mbind_lift_Ok. apply increase_balance_Ok. exists b, (b + amount).
      split; [done|]. split; [by apply u64_add_ok|done].
    + exfalso. rewrite position_None in Hpos. apply list_elem_of_lookup_2 in Hlk.
      specialize (Hpos _ Hlk). by apply bool_decide_eq_false in Hpos.
Qed.

(** ** Voluntary exits *)

(** The conditions on a voluntary exit, in the order they are checked. *)
Record exit_allowed `{Config} `{ArithMode} `{BLSConfig} `{TreeRoot} (s : BeaconState)
  (x : VoluntaryExit) (v : Validator) : Prop := {
  ea_known : validators s !! Z.to_nat (ve_validator_index x) = Some v;
  ea_active : is_active v (slot s / slots_per_epoch) = true;
  ea_fresh : v_exit_epoch v = FAR_FUTURE_EPOCH;
  ea_epoch : ve_epoch x ≤ slot s / slots_per_epoch;
  ea_period : v_activation_epoch v + persistent_committee_period ≤ slot s / slots_per_epoch;
  ea_signature : ∀ d, domain s domain_voluntary_exit (Some (ve_epoch x)) = Ok d →
    verify (v_pubkey v) (tree_root_signing_voluntary_exit (signing_voluntary_exit x))
      (ve_signature x) d = true;
}.

(** A voluntary exit is accepted exactly under its conditions, and puts the
    validator in the exit queue. *)
Theorem process_voluntary_exit_correct `{Config} `{ArithMode} `{BLSConfig} `{TreeRoot}
  `{!ConfigOk _} (s s' : BeaconState) (x : VoluntaryExit) :
  wf_state s → epochs_in_range s → 0 ≤ ve_validator_index x →
  process_voluntary_exit x s = (Ok tt, s') ↔
  ∃ v, exit_allowed s x v ∧
    s' = with_validators (<[Z.to_nat (ve_validator_index x) :=
           with_v_withdrawable_epoch (assigned_exit s + min_validator_withdrawability_delay)
             (with_v_exit_epoch (assigned_exit s) v)]> (validators s)) s.
Proof.
  intros Hwf Hr Hix. unfold process_voluntary_exit. rewrite Mbind_get.
  pose proof (epoch_range _ (wf_slot _ Hwf)) as He. pose proof persistent_small.
  destruct (domain_ok s domain_voluntary_exit (Some (ve_epoch x))) as [d Hd]. split.
  - intros Hrun. rewrite current_epoch_ok, Hd in Hrun. run_inv.
    apply vec_index_Ok in Ha0. injection Ha1 as <-. injection Ha7 as <-.
    apply Z.eqb_eq in Ha3. apply Z.leb_le in Ha4, Ha6.
    assert (v_activation_epoch a ≤ slot s / slots_per_epoch)
      by (unfold is_active in Ha2; apply andb_true_iff in Ha2 as [?%Z.leb_le _]; done).
    pose proof (Forall_lookup_1 _ _ _ _ (wf_validators _ Hwf) Ha0) as [_ _ Hact _ _].
    apply u64_add_inv in Ha5; [|destruct Hr; u64_lia]. subst.
    rewrite (initiate_validator_exit_total _ s a) in Hrun by done. injection Hrun as <-.
    exists a. split; [|done]. split; try done. intros d' Hd'. rewrite Hd in Hd'. by injection Hd' as <-.
  - intros (v & [Hv Hact Hfar Hep Hper Hsig] & ->).
    assert (0 ≤ v_activation_epoch v) by (pose proof (Forall_lookup_1 _ _ _ _ (wf_validators _ Hwf) Hv) as [_ _ [] _ _]; done).
    apply Mbind_require. split; [apply lookup_lt_Some in Hv; apply Z.ltb_lt; unfold zlen; lia|].
    rewrite (proj2 (vec_index_Ok _ _ _) Hv), Mbind_lift_Ok, current_epoch_ok, Mbind_lift_Ok.
    apply Mbind_require. split; [done|]. apply Mbind_require. split; [by rewrite Hfar|].
    apply Mbind_require. split; [by apply Z.leb_le|].
    rewrite u64_add_ok, Mbind_lift_Ok by (destruct Hr; u64_lia).
    apply Mbind_require. split; [by apply Z.leb_le|]. rewrite Hd, Mbind_lift_Ok.
    apply Mbind_require. split; [by apply Hsig|]. by apply initiate_validator_exit_total.
Qed.

(** ** Attester slashings *)

Section AttesterSlashing.
Context `{Cfg : Config} `{AM : ArithMode} `{COk : !ConfigOk Cfg} `{F : Fuel}.

Lemma elem_of_attester_slashing_indices a i :
  i ∈ attester_slashing_indices a ↔
  i ∈ ia_custody_bit_0_indices (as_attestation_1 a) ++ ia_custody_bit_1_indices (as_attestation_1 a) ∨
  i ∈ ia_custody_bit_0_indices (as_attestation_2 a) ++ ia_custody_bit_1_indices (as_attestation_2 a).
Proof using Type.
  unfold attester_slashing_indices. cbv zeta. rewrite elem_of_sort, elem_of_push_all_new.
  rewrite elem_of_nil, elem_of_app. tauto.
Qed.

(** Slashing sets the flag, and touches no other entry. *)
Lemma slash_validator_marks i w s s' :
  slash_validator i w s = (Ok tt, s') → ∃ v, validators s' !! Z.to_nat i = Some v ∧ v_slashed v = true.
Proof using Type.
  intros Hrun. unfold slash_validator in Hrun.
  apply Mbind_Ok in Hrun as (? & ? & _ & Hrun). apply Mbind_Ok in Hrun as (? & ? & _ & Hrun).
  apply Mbind_Ok in Hrun as ([] & s1 & _ & Hrun). apply Mbind_Ok in Hrun as ([] & s2 & Hm & Hrun).
  apply modify_validator_Ok in Hm as (v & Hv & ->).
  assert (validators (with_validators (<[Z.to_nat i := with_v_slashed true v]> (validators s1)) s1)
    !! Z.to_nat i = Some (with_v_slashed true v)) as Hl.
  { cbn. apply list_lookup_insert_eq. by eapply lookup_lt_Some. }
  match type of Hrun with ?m ?st = _ => assert (steps registry_step m) as Hs end.
  { step_tac; try (by apply registry_step_same);
      first [apply decrease_balance_le | apply increase_balance_le
            | apply modify_validator_le; intros u Hu; apply vec_index_Ok in H; simplify_eq;
              split; cbn; try done; lia]. }
  destruct (Hs (with_validators (<[Z.to_nat i := with_v_slashed true v]> (validators s1)) s1))
    as [Hreg _]. destruct (Hreg _ _ Hl) as (v' & Hv' & Hle).
  rewrite Hrun in Hv'. exists v'. split; [done|]. by apply Hle.
Qed.

(** The entries a command on validator [i] leaves alone. *)
Definition others_same (i : ValidatorIndex) (s s' : BeaconState) : Prop :=
  slot s' = slot s ∧ ∀ k, k ≠ Z.to_nat i → validators s' !! k = validators s !! k.

#[local] Instance others_same_preorder i : PreOrder (others_same i).
Proof.
  split; [intros s; by split|]. intros s t u [H1 K1] [H2 K2]. split; [congruence|].
  intros k Hk. by rewrite K2, K1.
Qed.

Lemma modify_validator_others_same i f : steps (others_same i) (modify_validator i f).
Proof using Type.
  unfold modify_validator. step_tac. apply vec_set_Ok in H0 as [_ ->]. split; [done|].
  intros k Hk. cbn. by rewrite list_lookup_insert_ne.
Qed.

Lemma slash_validator_others i w s s' :
  slash_validator i w s = (Ok tt, s') → others_same i s s'.
Proof using Type.
  intros Hrun. assert (steps (others_same i) (slash_validator i w)) as Hs.
  { unfold slash_validator, initiate_validator_exit, increase_balance, decrease_balance.
    step_tac; try apply modify_validator_others_same; by split. }
  specialize (Hs s). by rewrite Hrun in Hs.
Qed.

(** The loop marks every slashable validator of the list. *)
Lemma slash_all_marks l b s s' r :
  NoDup (Z.to_nat <$> l) → slash_all l b s = (Ok r, s') →
  (∀ i v, i ∈ l → validators s !! Z.to_nat i = Some v → is_slashable v (slot s / slots_per_epoch) = true →
     ∃ v', validators s' !! Z.to_nat i = Some v' ∧ v_slashed v' = true) ∧
  (r = true ↔ b = true ∨ ∃ i v, i ∈ l ∧ validators s !! Z.to_nat i = Some v ∧
     is_slashable v (slot s / slots_per_epoch) = true).
Proof using COk.
  revert b s. induction l as [|j l IH]; intros b s Hnd Hrun.
  { injection Hrun as <- <-. split; [by intros i v Hi%elem_of_nil|]. split; [by left|].
    intros [?|(i & v & Hi%elem_of_nil & _)]; done. }
  apply NoDup_cons in Hnd as [Hj Hnd]. cbn in Hrun. rewrite Mbind_get in Hrun.
  apply Mbind_lift in Hrun as (vj & Hvj%vec_index_Ok & Hrun).
  rewrite current_epoch_ok, Mbind_lift_Ok in Hrun.
  destruct (is_slashable vj _) eqn:Hsl.
  - apply Mbind_Ok in Hrun as ([] & s1 & H1 & Hrun).
    pose proof (slash_validator_marks _ _ _ _ H1) as (u & Hu & Hus).
    pose proof (slash_validator_others _ _ _ _ H1) as (Hslot & Hothers).
    destruct (slash_all_step l true s1) as [Hreg _].
    destruct (IH true s1 Hnd Hrun) as [Hmark Hr]. split.
    + intros i v [->|Hi]%elem_of_cons Hv Hs.
      * destruct (Hreg _ _ Hu) as (u' & Hu' & Hle). rewrite Hrun in Hu'. exists u'.
        split; [done|]. by apply Hle.
      * apply (Hmark i v Hi); [|by rewrite Hslot]. rewrite Hothers; [done|].
        intros Heq. apply Hj. rewrite <- Heq. by apply list_elem_of_fmap_2.
    + split; [|intros _; apply Hr; by left]. intros _. right. exists j, vj.
      split; [left|done].
  - destruct (IH b s Hnd Hrun) as [Hmark Hr]. split.
    + intros i v [->|Hi]%elem_of_cons Hv Hs; [congruence|by eapply Hmark].
    + rewrite Hr. split; (intros [?|(i & v & Hi & Hv & Hs)]; [by left|right]).
      * exists i, v. split; [by right|done].
      * apply elem_of_cons in Hi as [->|Hi]; [congruence|]. exists i, v. done.
Qed.
End AttesterSlashing.

(** C34: an accepted attester slashing marks every slashable validator of either
    attestation, whether or not it signed both. *)
Theorem process_attester_slashing_correct `{Config} `{ArithMode} `{BLSConfig} `{TreeRoot} `{Fuel}
  `{!ConfigOk _} (a : AttesterSlashing) (s s' : BeaconState) :
  Forall (λ i, 0 ≤ i) (attester_slashing_indices a) →
  process_attester_slashing a s = (Ok tt, s') →
  is_slashable_data (ia_data (as_attestation_1 a)) (ia_data (as_attestation_2 a)) = true ∧
  (∃ i v, i ∈ attester_slashing_indices a ∧ validators s !! Z.to_nat i = Some v ∧
     is_slashable v (slot s / slots_per_epoch) = true) ∧
  ∀ i v, i ∈ ia_custody_bit_0_indices (as_attestation_1 a) ++ ia_custody_bit_1_indices (as_attestation_1 a) ∨
         i ∈ ia_custody_bit_0_indices (as_attestation_2 a) ++ ia_custody_bit_1_indices (as_attestation_2 a) →
    validators s !! Z.to_nat i = Some v → is_slashable v (slot s / slots_per_epoch) = true →
    ∃ v', validators s' !! Z.to_nat i = Some v' ∧ v_slashed v' = true.
Proof.
  intros Hpos Hrun. unfold process_attester_slashing in Hrun. cbv zeta in Hrun. run_inv.
  apply slash_all_marks in Ha4 as [Hmark Hany].
  - split; [done|]. split.
    + destruct (proj1 Hany eq_refl) as [?|?]; done.
    + intros i v Hi. apply Hmark. by apply elem_of_attester_slashing_indices.
  - apply NoDup_fmap_2_strong.
    + intros x y Hx Hy Hxy. rewrite Forall_forall in Hpos.
      pose proof (Hpos x Hx). pose proof (Hpos y Hy). cbn in *. lia.
    + unfold attester_slashing_indices. cbv zeta. rewrite sort_perm. apply push_all_new_NoDup. constructor.
Qed.

(** ** Authoring *)

Section Authoring.
Context `{Cfg : Config} `{AM : ArithMode} `{BLS : BLSConfig} `{TR : TreeRoot} `{MT : MerkleTree} `{F : Fuel}.

(** The eth1 view of the state: only votes and deposits write it. *)
Definition eth1_frame (s : BeaconState) := (eth1_data s, eth1_deposit_index s).

Lemma registry_to_eth1 {A} (m : Exec A) :
  steps (same registry_frame) m → steps (same eth1_frame) m.
Proof.
  intros Hm s. specialize (Hm s). unfold same in *.
  change (eth1_frame (registry_frame (m s).2) = eth1_frame (registry_frame s)). by rewrite Hm.
Qed.

Lemma slash_all_eth1 l b : steps (same eth1_frame) (slash_all l b).
Proof.
  revert b. induction l as [|i l IH]; intros b; cbn; [apply steps_ret; apply _|].
  step_tac; [apply registry_to_eth1, slash_validator_frame|apply IH..].
Qed.

Lemma process_deposit_eth1 d s s' :
  process_deposit d s = (Ok tt, s') → is_u64 (eth1_deposit_index s + 1) →
  eth1_data s' = eth1_data s ∧ eth1_deposit_index s' = eth1_deposit_index s + 1.
Proof.
  intros Hrun Hi. unfold process_deposit in Hrun. rewrite Mbind_get in Hrun.
  apply Mbind_require in Hrun as [_ Hrun]. rewrite u64_add_ok, Mbind_lift_Ok, Mbind_put in Hrun by done.
  set (s1 := with_eth1_deposit_index _ s) in *.
  match type of Hrun with ?m ?st = _ => assert (steps (same eth1_frame) m) as Hs end.
  { unfold push_validator. step_tac; try done. apply registry_to_eth1, increase_balance_frame. }
  specialize (Hs s1). rewrite Hrun in Hs. unfold same, eth1_frame in Hs. cbn in Hs.
  by injection Hs as -> ->.
Qed.

(** The block under construction holds exactly the deposits applied so far. *)
Definition author_inv (d0 : Eth1Data) (i0 : Uint) (bs : UnsealedBeaconBlock * BeaconState) : Prop :=
  eth1_data bs.2 = d0 ∧ eth1_deposit_index bs.2 = i0 + zlen (body_deposits (ub_body bs.1)).

(** Transactions other than deposits. *)
Lemma author_other d0 i0 (m : Exec unit) f bs bs' :
  steps (same eth1_frame) m → (∀ b, body_deposits (f b) = body_deposits b) →
  (on_state m ;; modify_body f) bs = (Ok tt, bs') → author_inv d0 i0 bs → author_inv d0 i0 bs'.
Proof.
  intros Hm Hf Hrun [Hd Hi]. specialize (Hm bs.2). unfold on_state, modify_body in Hrun.
  apply Mbind_Ok in Hrun as ([] & bs1 & H1 & Hrun). destruct (m bs.2) as [r s1].
  injection H1 as -> <-. run_inv. cbn in *. unfold same, eth1_frame in Hm. injection Hm as Hm1 Hm2.
  split; cbn; [congruence|]. by rewrite Hf, Hm2.
Qed.

Lemma author_deposit d0 i0 d bs bs' :
  (on_state (process_deposit d) ;;
   modify_body (λ b, with_body_deposits (body_deposits b ++ [d]) b)) bs = (Ok tt, bs') →
  is_u64 (eth1_deposit_index bs.2 + 1) → author_inv d0 i0 bs → author_inv d0 i0 bs'.
Proof.
  intros Hrun Hi [Hd Hx]. unfold on_state, modify_body in Hrun.
  apply Mbind_Ok in Hrun as ([] & bs1 & H1 & Hrun).
  destruct (process_deposit d bs.2) as [r s1] eqn:Hp. injection H1 as -> <-. run_inv.
  apply process_deposit_eth1 in Hp as [Hp1 Hp2]; [|done]. cbn. split; cbn; [congruence|].
  rewrite Hp2, Hx. unfold zlen. rewrite length_app. cbn. lia.
Qed.

Lemma author_room_Ok len max e bs bs' :
  author_room len max e bs = (Ok tt, bs') → len < max ∧ bs' = bs.
Proof. unfold author_room. destruct (Z.leb_spec max len); [done|]. by intros [= <-]. Qed.

Lemma apply_transaction_inv d0 i0 tx bs bs' :
  apply_transaction tx bs = (Ok tt, bs') → 0 ≤ i0 → i0 + max_deposits < 2 ^ 64 →
  author_inv d0 i0 bs → author_inv d0 i0 bs'.
Proof.
  intros Hrun H0 Hi HI. unfold apply_transaction in Hrun. rewrite Mbind_get in Hrun. cbv zeta in Hrun.
  destruct tx; apply Mbind_Ok in Hrun as ([] & bs1 & [Hroom ->]%author_room_Ok & Hrun).
  - refine (author_other _ _ _ _ _ _ _ _ Hrun HI); [|done]. unfold process_proposer_slashing. step_tac.
    + apply check_slashed_header_steps. apply _.
    + apply registry_to_eth1, slash_validator_frame.
  - refine (author_other _ _ _ _ _ _ _ _ Hrun HI); [|done]. unfold process_attester_slashing. step_tac.
    apply slash_all_eth1.
  - refine (author_other _ _ _ _ _ _ _ _ Hrun HI); [|done]. unfold process_attestation. step_tac; done.
  - eapply author_deposit; [exact Hrun| |done]. destruct HI as [_ ->].
    unfold is_u64. pose proof (zlen_nonneg (body_deposits (ub_body bs.1))). lia.
  - refine (author_other _ _ _ _ _ _ _ _ Hrun HI); [|done]. unfold process_voluntary_exit. step_tac.
    apply registry_to_eth1, initiate_validator_exit_frame.
Qed.

Lemma apply_transactions_inv d0 i0 txs bs bs' :
  for_each txs apply_transaction bs = (Ok tt, bs') → 0 ≤ i0 → i0 + max_deposits < 2 ^ 64 →
  author_inv d0 i0 bs → author_inv d0 i0 bs'.
Proof.
  intros Hrun H0 Hi. revert bs Hrun. induction txs as [|tx txs IH]; intros bs Hrun; [by injection Hrun as <-|].
  cbn in Hrun. apply Mbind_Ok in Hrun as ([] & bs1 & H1 & Hrun). intros HI.
  eapply IH; [done|]. by eapply apply_transaction_inv.
Qed.
End Authoring.

(** C40: with some but fewer than twice [max_deposits] deposits outstanding, a
    block that the authoring functions finalize is refused on import. *)
Theorem authored_deposits_refused `{Config} `{ArithMode} `{BLSConfig} `{TreeRoot} `{MerkleTree} `{Fuel}
  (b0 b : UnsealedBeaconBlock) (s0 s1 s : BeaconState) (txs : list Transaction) :
  let outstanding := e1_deposit_count (eth1_data s0) - eth1_deposit_index s0 in
  body_deposits (ub_body b0) = [] →
  0 ≤ eth1_deposit_index s0 → eth1_deposit_index s0 + max_deposits < 2 ^ 64 →
  e1_deposit_count (eth1_data s0) < 2 ^ 64 →
  0 < outstanding < 2 * max_deposits →
  (for_each txs apply_transaction ;; finalize_block) (b0, s0) = (Ok tt, (b, s1)) →
  eth1_data s = eth1_data s0 → eth1_deposit_index s = eth1_deposit_index s0 →
  process_operations (ub_body b) s = (Err TooManyDeposits, s).
Proof.
  intros outstanding Hb0 Hi0 Hmax Hcount Hout Hrun Hd Hi.
  apply Mbind_Ok in Hrun as ([] & [b1 s2] & Htx & Hfin).
  apply (apply_transactions_inv (eth1_data s0) (eth1_deposit_index s0)) in Htx as [Hd1 Hi1];
    [|done..|split; cbn; [done|rewrite Hb0; unfold zlen; cbn; lia]].
  cbn in Hd1, Hi1. unfold finalize_block in Hfin. rewrite Mbind_get in Hfin. cbn [fst snd] in Hfin.
  pose proof (zlen_nonneg (body_deposits (ub_body b1))).
  destruct (Z.ltb_spec (e1_deposit_count (eth1_data s2)) (eth1_deposit_index s2)); [done|].
  rewrite Hd1, Hi1 in *. rewrite u64_sub_ok, Mbind_lift_Ok in Hfin by (unfold is_u64; lia).
  destruct (Z.eqb_spec (zlen (body_deposits (ub_body b1)))
    (Z.min max_deposits (e1_deposit_count (eth1_data s0) -
      (eth1_deposit_index s0 + zlen (body_deposits (ub_body b1)))))) as [Hn|]; [|done].
  cbn [negb] in Hfin. unfold on_state in Hfin. apply Mbind_Ok in Hfin as ([] & bs3 & Hhd & Hfin).
  cbn [fst snd] in Hhd. destruct (process_block_header b1 s2). injection Hhd as -> <-. run_inv. cbn [fst snd ub_body] in *.
  unfold process_operations. rewrite Mbind_get, Hd, Hi.
  rewrite u64_sub_ok, Mbind_lift_Ok by (unfold is_u64; lia).
  replace (_ =? _) with false; [done|]. symmetry. apply Z.eqb_neq. unfold outstanding in *. lia.
Qed.

(** ** Witnesses *)

Section Witnesses.
#[local] Existing Instances toy_config toy_config_ok toy_mode toy_fuel toy_tree toy_merkle toy_bls.

(** A state that announces two deposits it has not seen yet. *)
Definition toy_eth1 (sl : Z) : BeaconState :=
  with_eth1_data (mkEth1Data toy_root 2 toy_root) (toy_state 16 sl).

(** A new key, and a top-up of validator 5. *)
Lemma process_deposit_correct_witness :
  process_deposit (toy_deposit 77) (toy_eth1 7) =
    (Ok tt, with_balances (balances (toy_eth1 7) ++ [32000000000])
      (with_validators (validators (toy_eth1 7) ++ [new_validator (dep_data (toy_deposit 77))])
        (with_eth1_deposit_index 1 (toy_eth1 7)))) ∧
  process_deposit (toy_deposit 5) (toy_eth1 7) =
    (Ok tt, with_balances (<[5%nat := 64000000000]> (balances (toy_eth1 7)))
      (with_eth1_deposit_index 1 (toy_eth1 7))).
Proof.
  split.
  - refine (proj1 (proj2 (proj2 (process_deposit_correct (toy_eth1 7) (toy_deposit 77) _ _))) _ _ _);
      try (vm_compute; done).
    apply (bool_decide_unpack _). vm_compute. exact I.
  - refine (proj2 (proj2 (proj2 (process_deposit_correct (toy_eth1 7) (toy_deposit 5) _ _)))
      5%nat (toy_validator 5) 32000000000 _ _ _ _ _ _); try (vm_compute; done).
    unfold unique_pubkeys. apply (bool_decide_unpack _). vm_compute. exact I.
Defined.

Definition toy_exit : VoluntaryExit := mkVoluntaryExit 2048 3 H768_default.

Lemma process_voluntary_exit_correct_witness :
  let s := toy_state 16 16384 in
  exit_allowed s toy_exit (toy_validator 3) ∧
  process_voluntary_exit toy_exit s = (Ok tt, with_validators (<[3%nat :=
    with_v_withdrawable_epoch (assigned_exit s + min_validator_withdrawability_delay)
      (with_v_exit_epoch (assigned_exit s) (toy_validator 3))]> (validators s)) s).
Proof.
  intros s. assert (exit_allowed s toy_exit (toy_validator 3)) as Ha by (split; vm_compute; done).
  split; [exact Ha|]. apply (process_voluntary_exit_correct s _ toy_exit).
  - apply wf_stateb_spec. vm_compute. reflexivity.
  - split; [vm_compute; done|]. repeat constructor.
  - done.
  - exists (toy_validator 3). split; [exact Ha|done].
Defined.

(** Two votes for the same target epoch; only validator 2 signed both. *)
Definition toy_vote (l : list Z) (root : H256) : IndexedAttestation :=
  mkIndexedAttestation l []
    (mkAttestationData 8 0 root Checkpoint_default (mkCheckpoint 1 H256_default)) H768_default.
Definition toy_slashing : AttesterSlashing :=
  mkAttesterSlashing (toy_vote [1; 2] H256_default) (toy_vote [2; 3] toy_root).

Lemma process_attester_slashing_correct_witness :
  let s := toy_state 16 9 in let s' := (process_attester_slashing toy_slashing s).2 in
  process_attester_slashing toy_slashing s = (Ok tt, s') ∧
  ∃ v', validators s' !! 3%nat = Some v' ∧ v_slashed v' = true.
Proof.
  intros s s'.
  assert (process_attester_slashing toy_slashing s = (Ok tt, s')) as Hrun by (vm_compute; reflexivity).
  split; [exact Hrun|].
  assert (Forall (λ i, 0 ≤ i) (attester_slashing_indices toy_slashing)) as Hpos.
  { assert (attester_slashing_indices toy_slashing = [1; 2; 3]) as -> by (vm_compute; reflexivity).
    repeat constructor; done. }
  destruct (process_attester_slashing_correct toy_slashing s s' Hpos Hrun) as (_ & _ & Hmark).
  apply (Hmark 3 (toy_validator 3)); [|vm_compute; reflexivity..].
  right. apply (bool_decide_unpack _). vm_compute. exact I.
Defined.

Lemma author_run_eta {E S T} (r : res E unit * (S * T)) : r.1 = Ok tt → r = (Ok tt, (r.2.1, r.2.2)).
Proof. destruct r as [x [? ?]]. cbn. by intros ->. Qed.

Lemma authored_deposits_refused_witness :
  let b0 := mkUnsealedBeaconBlock 7 toy_root H256_default BeaconBlockBody_default in
  let run := (for_each [TxDeposit (toy_deposit 77)] apply_transaction ;; finalize_block) (b0, toy_eth1 7) in
  run.1 = Ok tt ∧
  process_operations (ub_body run.2.1) (toy_eth1 7) = (Err TooManyDeposits, toy_eth1 7).
Proof.
  intros b0 run. assert (run.1 = Ok tt) as Hok by (vm_compute; reflexivity). split; [exact Hok|].
  assert (run = (Ok tt, (run.2.1, run.2.2))) as Hrun
    by exact (author_run_eta run Hok).
  assert (0 ≤ eth1_deposit_index (toy_eth1 7)) as Hi by (vm_compute; discriminate).
  assert (eth1_deposit_index (toy_eth1 7) + max_deposits < 2 ^ 64) as Hm by (vm_compute; reflexivity).
  assert (e1_deposit_count (eth1_data (toy_eth1 7)) < 2 ^ 64) as Hc by (vm_compute; reflexivity).
  assert (0 < e1_deposit_count (eth1_data (toy_eth1 7)) - eth1_deposit_index (toy_eth1 7)
    < 2 * max_deposits) as Ho by (vm_compute; split; reflexivity).
  exact (authored_deposits_refused b0 run.2.1 (toy_eth1 7) run.2.2 (toy_eth1 7)
    [TxDeposit (toy_deposit 77)] eq_refl Hi Hm Hc Ho Hrun eq_refl eq_refl).
Defined.
End Witnesses.
