(* ===== verification/LmdGhost.v ===== *)
(** * The fork choice: [blockchain/lmd-ghost/src/archive.rs]

    [ArchiveGhost] keeps the latest vote of every validator, with an overlay
    for the votes of a block that is being imported, and walks from the
    justified block to a leaf along the children with the most votes.  The
    block store is the class [ChainQuery], the interface of the external crate
    [blockchain]; [ChainOk] states what that store promises: children are the
    blocks whose parent is the given one, and depths count the steps from the
    root.  The walk is bounded by a fuel, which is enough as soon as it exceeds
    the height of the tree. *)
From stdpp Require Import base numbers list gmap fin_maps.
From Stdlib Require Import ZArith Lia.
From S2P Require Import Prelude.

#[local] Open Scope Z_scope.

(** The store: [depth_at], the parent of [block_at], [children_at]. *)
Class ChainQuery (Ba Id E : Type) := {
  depth_at : Ba → Id → res E Z;
  parent_at : Ba → Id → res E (option Id);
  children_at : Ba → Id → res E (list Id);
}.

(** The votes of the validators, the map from [ValidatorIndex] to block. *)
Record ArchiveGhost (Id : Type) := mkArchiveGhost {
  votes : gmap Z Id;
  overlayed_votes : gmap Z Id;
}.
Arguments mkArchiveGhost {Id} _ _.
Arguments votes {Id} _.
Arguments overlayed_votes {Id} _.

Section Ghost.
Context {Ba Id E : Type} `{EqDecision Id} `{ChainQuery Ba Id E}.
Implicit Types (ba : Ba) (g : ArchiveGhost Id).

(** [NoCacheAncestorQuery::ancestor_at] *)
Fixpoint ancestor_loop (fuel : nat) (ba : Ba) (current : Id) (depth : Z) : res E Id :=
  d ← depth_at ba current;
  if depth <? d then
    match fuel with
    | O => OutOfFuel
    | S n =>
        p ← parent_at ba current;
        current ← unwrap p;
        ancestor_loop n ba current depth
    end
  else Ok current.

(** One step per unit of depth is enough. *)
Definition ancestor_at (ba : Ba) (id : Id) (depth : Z) : res E Id :=
  d ← depth_at ba id;
  ancestor_loop (Z.to_nat (d - depth)) ba id depth.

Definition ghost_new : ArchiveGhost Id := mkArchiveGhost ∅ ∅.

Definition update_overlay (g : ArchiveGhost Id) (validator_id : Z) (target_root : Id) : ArchiveGhost Id :=
  mkArchiveGhost (votes g) (<[validator_id := target_root]> (overlayed_votes g)).

(** The loop of [commit_overlay] inserts every overlayed vote. *)
Definition commit_overlay (g : ArchiveGhost Id) : ArchiveGhost Id :=
  mkArchiveGhost (map_fold (λ k v m, <[k := v]> m) (votes g) (overlayed_votes g)) ∅.

Definition reset_overlay (g : ArchiveGhost Id) : ArchiveGhost Id := mkArchiveGhost (votes g) ∅.

Definition update_active (g : ArchiveGhost Id) (active_validators : list Z) : ArchiveGhost Id :=
  mkArchiveGhost (filter (λ kv, kv.1 ∈ active_validators) (votes g)) (overlayed_votes g).

(** How many of the listed targets have [block] as their ancestor. *)
Definition count_targets (ba : Ba) (block : Id) (block_depth : Z) (total : Z) (targets : list Id)
  : res E Z :=
  res_fold (λ total target,
    a ← ancestor_at ba target block_depth;
    Ok (if bool_decide (a = block) then total + 1 else total)) total targets.

Definition vote_count (ba : Ba) (g : ArchiveGhost Id) (block : Id) (block_depth : Z) : res E Z :=
  total ← count_targets ba block block_depth 0 (map_to_list (overlayed_votes g)).*2;
  count_targets ba block block_depth total
    (filter (λ kv, overlayed_votes g !! kv.1 = None) (map_to_list (votes g))).*2.

(** The best child: the first with the strictly largest score so far. *)
Fixpoint best_child (ba : Ba) (g : ArchiveGhost Id) (depth : Z) (best : Id) (best_score : Z)
  (children : list Id) : res E Id :=
  match children with
  | [] => Ok best
  | child :: rest =>
      c ← vote_count ba g child depth;
      if best_score <? c then best_child ba g depth child c rest
      else best_child ba g depth best best_score rest
  end.

Fixpoint head_loop (fuel : nat) (ba : Ba) (g : ArchiveGhost Id) (head : Id) (head_depth : Z)
  : res E Id :=
  children ← children_at ba head;
  match children with
  | [] => Ok head
  | first :: _ =>
      match fuel with
      | O => OutOfFuel
      | S n =>
          best ← best_child ba g (head_depth + 1) first 0 children;
          head_loop n ba g best (head_depth + 1)
      end
  end.

Definition head (fuel : nat) (ba : Ba) (g : ArchiveGhost Id) (justified : Id) : res E Id :=
  head_depth ← depth_at ba justified;
  head_loop fuel ba g justified head_depth.
End Ghost.

(** ** Latest messages *)

Section Votes.
Context {Id : Type}.
Implicit Types (g : ArchiveGhost Id).

(** The latest vote of every validator: an overlayed vote replaces the one
    that was committed. *)
Definition latest_votes g : gmap Z Id := overlayed_votes g ∪ votes g.

Lemma commit_overlay_votes g : votes (commit_overlay g) = latest_votes g.
Proof.
  unfold commit_overlay, latest_votes. cbn. generalize (votes g) as m. intros m.
  apply (map_fold_weak_ind (λ r o, r = o ∪ m)); [by rewrite map_empty_union|].
  intros k v o r Hk ->. by rewrite insert_union_l.
Qed.

Lemma update_overlay_latest g v t : latest_votes (update_overlay g v t) = <[v := t]> (latest_votes g).
Proof. unfold latest_votes. cbn. by rewrite insert_union_l. Qed.
End Votes.

(** ** The tree behind the store *)

Record Chain (Id : Type) := mkChain {
  known : Id → Prop;
  cdepth : Id → Z;
  cparent : Id → option Id;
  cchildren : Id → list Id;
  cheight : Z;
}.
Arguments known {Id} _ _.
Arguments cdepth {Id} _ _.
Arguments cparent {Id} _ _.
Arguments cchildren {Id} _ _.
Arguments cheight {Id} _.

(** What the store promises about the blocks it holds. *)
Class ChainOk {Ba Id E} `{ChainQuery Ba Id E} (ba : Ba) (ch : Chain Id) : Prop := {
  store_depth : ∀ x, known ch x → depth_at ba x = Ok (E:=E) (cdepth ch x);
  store_parent : ∀ x, known ch x → parent_at ba x = Ok (E:=E) (cparent ch x);
  store_children : ∀ x, known ch x → children_at ba x = Ok (E:=E) (cchildren ch x);
  parent_known : ∀ x p, known ch x → cparent ch x = Some p →
    known ch p ∧ cdepth ch x = cdepth ch p + 1;
  root_depth : ∀ x, known ch x → cparent ch x = None → cdepth ch x = 0;
  children_spec : ∀ x c, known ch x → c ∈ cchildren ch x ↔ known ch c ∧ cparent ch c = Some x;
  depth_range : ∀ x, known ch x → 0 ≤ cdepth ch x ≤ cheight ch;
}.

(** [x] is [y] or a descendant of it. *)
Inductive descends {Id} (ch : Chain Id) : Id → Id → Prop :=
  | descends_refl x : descends ch x x
  | descends_step x p y : cparent ch x = Some p → descends ch p y → descends ch x y.

Section Tree.
Context {Ba Id E : Type} `{EqDecision Id} `{CQ : ChainQuery Ba Id E} (ba : Ba) (ch : Chain Id).
Context `{OK : !ChainOk ba ch}.

Lemma descends_trans x y z : descends ch x y → descends ch y z → descends ch x z.
Proof using Type. induction 1; [done|]. intros. eapply descends_step; eauto. Qed.

Lemma descends_known x y : descends ch x y → known ch x → known ch y ∧ cdepth ch y ≤ cdepth ch x.
Proof using OK.
  induction 1 as [|x p y Hp _ IH]; intros Hx; [done|].
  destruct (parent_known x p Hx Hp) as [Hkp Hd]. destruct (IH Hkp). split; [done|lia].
Qed.

(** A block has one ancestor at each depth. *)
Lemma descends_unique x y z :
  known ch x → descends ch x y → descends ch x z → cdepth ch y = cdepth ch z → y = z.
Proof using OK.
  intros Hx Hy. revert z Hx. induction Hy as [x|x p y Hp Hy IH]; intros z Hx Hz Hd.
  - destruct Hz as [|x p z Hp Hz]; [done|]. destruct (parent_known x p Hx Hp) as [Hk Hdx].
    apply descends_known in Hz as [_ ?]; [lia|done].
  - destruct (parent_known x p Hx Hp) as [Hk Hdx]. destruct Hz as [x|x p' z Hp' Hz].
    + apply descends_known in Hy as [_ ?]; [lia|done].
    + rewrite Hp in Hp'. injection Hp' as <-. by apply IH.
Qed.

Lemma ancestor_loop_total n x d :
  known ch x → 0 ≤ d → cdepth ch x - d ≤ Z.of_nat n →
  ∃ a, ancestor_loop n ba x d = Ok a ∧ descends ch x a ∧ cdepth ch a = Z.min (cdepth ch x) d.
Proof using OK.
  revert x. induction n as [|n IH]; intros x Hx Hd Hn; cbn [ancestor_loop];
    rewrite store_depth, res_bind_Ok by done; destruct (Z.ltb_spec d (cdepth ch x)); try lia.
  - exists x. split; [done|]. split; [constructor|lia].
  - rewrite store_parent, res_bind_Ok by done.
    destruct (cparent ch x) as [p|] eqn:Hp; [|apply root_depth in Hp; [lia|done]].
    cbn [unwrap]. rewrite res_bind_Ok. destruct (parent_known x p Hx Hp) as [Hk Hdx].
    destruct (IH p Hk Hd ltac:(lia)) as (a & -> & Ha & Hda). exists a.
    split; [done|]. split; [by eapply descends_step|lia].
  - exists x. split; [done|]. split; [constructor|lia].
Qed.

Lemma ancestor_at_total x d :
  known ch x → 0 ≤ d →
  ∃ a, ancestor_at ba x d = Ok a ∧ descends ch x a ∧ cdepth ch a = Z.min (cdepth ch x) d.
Proof using OK.
  intros Hx Hd. unfold ancestor_at. rewrite store_depth, res_bind_Ok by done.
  apply ancestor_loop_total; [done..|lia].
Qed.

(** Whether a vote for [target] supports [block]. *)
Definition supports (block : Id) (target : Id) : bool :=
  match ancestor_at ba target (cdepth ch block) with
  | Ok a => bool_decide (a = block)
  | _ => false
  end.

Lemma supports_spec block target :
  known ch block → known ch target → supports block target = true ↔ descends ch target block.
Proof using OK.
  intros Hb Ht. pose proof (depth_range block Hb). unfold supports.
  destruct (ancestor_at_total target (cdepth ch block) Ht ltac:(lia)) as (a & -> & Ha & Hd).
  rewrite bool_decide_eq_true. split; [by intros <-|]. intros Hdesc.
  pose proof (descends_known _ _ Hdesc Ht) as [_ Hle].
  eapply descends_unique; eauto. lia.
Qed.

(** The number of validators whose latest vote supports [block]. *)
Definition support (g : ArchiveGhost Id) (block : Id) : Z :=
  Z.of_nat (size (filter (λ kv, supports block kv.2 = true) (latest_votes g))).

Lemma count_targets_total block total l :
  known ch block → Forall (known ch) l →
  count_targets ba block (cdepth ch block) total l =
  Ok (total + zlen (filter (λ t, supports block t = true) l)).
Proof using OK.
  intros Hb Hl. pose proof (depth_range block Hb). unfold count_targets.
  revert total. induction Hl as [|t l Ht Hl IH]; intros total; cbn [res_fold];
    [by rewrite Z.add_0_r|]. rewrite filter_cons.
  destruct (ancestor_at_total t (cdepth ch block) Ht ltac:(lia)) as (a & Ha & _ & _).
  rewrite Ha, !res_bind_Ok, IH. f_equal.
  assert (supports block t = bool_decide (a = block)) as -> by (unfold supports; by rewrite Ha).
  case_bool_decide; [rewrite decide_True by done|rewrite decide_False by done]; unfold zlen; cbn; lia.
Qed.
End Tree.

(** ** Counting *)

Section Counting.
Context {Id : Type}.

Lemma filter_map_to_list_length (P : Z * Id → Prop) `{∀ x, Decision (P x)} (m : gmap Z Id) :
  length (filter P (map_to_list m)) = size (filter P m).
Proof.
  rewrite map_filter_alt, map_size_list_to_map; [done|].
  eapply sublist_NoDup; [apply (NoDup_fst_map_to_list m)|]. apply fmap_sublist, sublist_filter.
Qed.

Lemma filter_snd_length (Q : Id → Prop) `{∀ x, Decision (Q x)} (l : list (Z * Id)) :
  length (filter Q l.*2) = length (filter (λ kv, Q kv.2) l).
Proof.
  induction l as [|[k v] l IH]; [done|]. cbn [fmap list_fmap snd]. rewrite !filter_cons. cbn [snd].
  destruct (decide (Q v)); cbn [length]; by rewrite IH.
Qed.

(** Overlayed votes and the committed votes they do not replace. *)
Lemma latest_votes_split (g : ArchiveGhost Id) (Q : Id → Prop) `{∀ x, Decision (Q x)}
  `{∀ kv : Z * Id, Decision (overlayed_votes g !! kv.1 = None)} :
  (length (filter Q (map_to_list (overlayed_votes g)).*2) +
   length (filter Q (filter (λ kv, overlayed_votes g !! kv.1 = None) (map_to_list (votes g))).*2))%nat =
  size (filter (λ kv, Q kv.2) (latest_votes g)).
Proof.
  rewrite !filter_snd_length, filter_map_to_list_length, list_filter_filter, filter_map_to_list_length.
  set (o := overlayed_votes g). set (v := votes g).
  assert (latest_votes g = o ∪ filter (λ kv, o !! kv.1 = None) v) as ->.
  { unfold latest_votes. fold o v. apply map_eq. intros i. apply option_eq. intros x.
    rewrite !lookup_union_Some_raw, map_lookup_filter_Some. cbn. naive_solver. }
  assert (o ##ₘ filter (λ kv, o !! kv.1 = None) v) as Hdisj.
  { apply map_disjoint_spec. intros i x y Hx [_ Hn]%map_lookup_filter_Some. cbn in Hn. congruence. }
  rewrite map_filter_union, map_size_disj_union by (done || by apply map_disjoint_filter).
  by rewrite map_filter_filter.
Qed.
End Counting.

Section VoteCount.
Context {Ba Id E : Type} `{EqDecision Id} `{CQ : ChainQuery Ba Id E} (ba : Ba) (ch : Chain Id).
Context `{OK : !ChainOk ba ch}.

(** Every vote is for a block of the store. *)
Definition votes_known (g : ArchiveGhost Id) : Prop :=
  map_Forall (λ _ t, known ch t) (overlayed_votes g) ∧ map_Forall (λ _ t, known ch t) (votes g).

Lemma map_Forall_snd (P : Id → Prop) (m : gmap Z Id) :
  map_Forall (λ _ t, P t) m → Forall P (map_to_list m).*2.
Proof using Type.
  intros Hm. apply Forall_fmap, Forall_forall. intros [k t] Hk%elem_of_map_to_list. by eapply Hm.
Qed.

Lemma vote_count_total g block :
  votes_known g → known ch block →
  vote_count ba g block (cdepth ch block) = Ok (support ba ch g block).
Proof using OK.
  intros [Ho Hv] Hb. unfold vote_count.
  rewrite (count_targets_total ba ch), res_bind_Ok by (done || by apply map_Forall_snd).
  rewrite (count_targets_total ba ch); [|done|].
  - f_equal. unfold support, zlen. rewrite Z.add_0_l, <- Nat2Z.inj_add. f_equal.
    set (sup := supports ba ch block). exact (latest_votes_split g (λ t, sup t = true)).
  - apply Forall_fmap, Forall_forall. intros [k t] [_ Hk%elem_of_map_to_list]%list_elem_of_filter.
    by eapply Hv.
Qed.

Lemma best_child_spec g depth best score children :
  votes_known g → (∀ c, c ∈ children → known ch c ∧ cdepth ch c = depth) →
  ∃ b, best_child ba g depth best score children = Ok b ∧
    (b = best ∧ (∀ c, c ∈ children → support ba ch g c ≤ score) ∨
     b ∈ children ∧ score < support ba ch g b ∧
       ∀ c, c ∈ children → support ba ch g c ≤ support ba ch g b).
Proof using OK.
  intros Hg. revert best score. induction children as [|c children IH]; intros best score Hc; cbn.
  { exists best. split; [done|]. left. split; [done|]. by intros c ?%elem_of_nil. }
  destruct (Hc c (list_elem_of_here _ _)) as [Hk <-]. rewrite vote_count_total, res_bind_Ok by done.
  assert (∀ c', c' ∈ children → known ch c' ∧ cdepth ch c' = cdepth ch c) as Hc'
    by (intros c' Hin; apply Hc; by right).
  destruct (Z.ltb_spec score (support ba ch g c)) as [Hlt|Hge].
  - destruct (IH c (support ba ch g c) Hc') as (b & -> & Hb). exists b. split; [done|]. right.
    destruct Hb as [[-> Hall]|(Hin & Hs & Hall)].
    + split; [left|]. split; [done|]. intros c' [->|Hin]%elem_of_cons; [done|by apply Hall].
    + split; [by right|]. split; [lia|]. intros c' [->|Hin']%elem_of_cons; [lia|by apply Hall].
  - destruct (IH best score Hc') as (b & -> & Hb). exists b. split; [done|].
    destruct Hb as [[-> Hall]|(Hin & Hs & Hall)].
    + left. split; [done|]. intros c' [->|Hin]%elem_of_cons; [done|by apply Hall].
    + right. split; [by right|]. split; [done|]. intros c' [->|Hin']%elem_of_cons; [lia|by apply Hall].
Qed.

(** A walk to a leaf along children with maximal support. *)
Inductive ghost_walk (g : ArchiveGhost Id) : Id → Id → Prop :=
  | walk_leaf x : cchildren ch x = [] → ghost_walk g x x
  | walk_step x c h :
      c ∈ cchildren ch x →
      (∀ c', c' ∈ cchildren ch x → support ba ch g c' ≤ support ba ch g c) →
      ghost_walk g c h → ghost_walk g x h.

Lemma child_depth x c : known ch x → c ∈ cchildren ch x → known ch c ∧ cdepth ch c = cdepth ch x + 1.
Proof using OK.
  intros Hx Hc. apply children_spec in Hc as [Hk Hp]; [|done].
  split; [done|]. by apply parent_known in Hp as [_ ?].
Qed.

Lemma best_child_first g x first rest :
  votes_known g → known ch x → cchildren ch x = first :: rest →
  ∃ b, best_child ba g (cdepth ch x + 1) first 0 (first :: rest) = Ok b ∧ b ∈ first :: rest ∧
    ∀ c, c ∈ first :: rest → support ba ch g c ≤ support ba ch g b.
Proof using OK.
  intros Hg Hx Hch.
  destruct (best_child_spec g (cdepth ch x + 1) first 0 (first :: rest)) as (b & -> & Hb); [done| |].
  { intros c Hc. apply child_depth; [done|]. by rewrite Hch. }
  exists b. split; [done|]. destruct Hb as [[-> Hall]|(Hin & _ & Hall)]; [|done].
  split; [left|]. intros c Hc. etrans; [by apply Hall|]. unfold support. lia.
Qed.

Lemma head_loop_total n g x :
  votes_known g → known ch x → cheight ch - cdepth ch x ≤ Z.of_nat n →
  ∃ h, head_loop n ba g x (cdepth ch x) = Ok h ∧ ghost_walk g x h.
Proof using OK.
  intros Hg. revert x. induction n as [|n IH]; intros x Hx Hn; cbn [head_loop];
    rewrite store_children, res_bind_Ok by done;
    destruct (cchildren ch x) as [|first rest] eqn:Hch;
    try (exists x; split; [done|by constructor]).
  - destruct (child_depth x first Hx) as [Hk Hd]; [rewrite Hch; left|].
    pose proof (depth_range first Hk). lia.
  - destruct (best_child_first g x first rest Hg Hx Hch) as (b & -> & Hin & Hall).
    rewrite res_bind_Ok. rewrite <- Hch in Hin, Hall. destruct (child_depth x b Hx Hin) as [Hk Hd].
    rewrite <- Hd. destruct (IH b Hk ltac:(lia)) as (h & -> & Hw). exists h.
    split; [done|]. by econstructor.
Qed.

(** The walk only depends on the latest votes. *)
Lemma support_ext g g' block :
  latest_votes g = latest_votes g' → support ba ch g block = support ba ch g' block.
Proof using Type. unfold support. by intros ->. Qed.

Lemma best_child_ext g g' depth best score children :
  votes_known g → votes_known g' → latest_votes g = latest_votes g' →
  (∀ c, c ∈ children → known ch c ∧ cdepth ch c = depth) →
  best_child ba g depth best score children = best_child ba g' depth best score children.
Proof using OK.
  intros Hg Hg' Hl. revert best score. induction children as [|c children IH]; intros best score Hc; [done|].
  cbn. destruct (Hc c (list_elem_of_here _ _)) as [Hk Hd]. rewrite <- Hd in *.
  rewrite !vote_count_total, !res_bind_Ok, (support_ext g g') by done.
  assert (∀ c', c' ∈ children → known ch c' ∧ cdepth ch c' = cdepth ch c) as Hc'
    by (intros c' Hin; apply Hc; by right).
  destruct (_ <? _); by apply IH.
Qed.

Lemma head_loop_ext n g g' x :
  votes_known g → votes_known g' → latest_votes g = latest_votes g' → known ch x →
  head_loop n ba g x (cdepth ch x) = head_loop n ba g' x (cdepth ch x).
Proof using OK.
  intros Hg Hg' Hl. revert x. induction n as [|n IH]; intros x Hx; cbn [head_loop];
    rewrite store_children, !res_bind_Ok by done;
    destruct (cchildren ch x) as [|first rest] eqn:Hch; try done.
  rewrite (best_child_ext g g') by (done || (rewrite <- Hch; intros c Hc; by apply child_depth)).
  destruct (best_child_first g' x first rest Hg' Hx Hch) as (b & -> & Hin & _).
  rewrite !res_bind_Ok. rewrite <- Hch in Hin. destruct (child_depth x b Hx Hin) as [Hk Hd].
  rewrite <- Hd. by apply IH.
Qed.

Lemma ghost_walk_leaf g x h :
  ghost_walk g x h → known ch x → known ch h ∧ cchildren ch h = [] ∧ descends ch h x.
Proof using OK.
  induction 1 as [x Hx|x c h Hc _ _ IH]; intros Hk; [by repeat constructor|].
  pose proof Hc as Hc'. apply children_spec in Hc' as [Hkc Hp]; [|done].
  destruct (IH Hkc) as (? & ? & Hd). split; [done|]. split; [done|].
  eapply descends_trans; [done|]. by repeat econstructor.
Qed.
End VoteCount.

(** C12: the vote count of a block is the number of validators whose latest vote
    is for the block or a descendant of it; every validator counts once, with
    its overlayed vote before its committed one. *)
Theorem vote_count_latest {Ba Id E} `{EqDecision Id} `{ChainQuery Ba Id E} (ba : Ba) (ch : Chain Id)
  `{!ChainOk ba ch} (g : ArchiveGhost Id) (block : Id) :
  votes_known ch g → known ch block →
  ∃ supporters : gmap Z Id,
    vote_count ba g block (cdepth ch block) = Ok (Z.of_nat (size supporters)) ∧
    ∀ v t, supporters !! v = Some t ↔ latest_votes g !! v = Some t ∧ descends ch t block.
Proof.
  intros Hg Hb. exists (filter (λ kv, supports ba ch block kv.2 = true) (latest_votes g)).
  split; [by apply vote_count_total|]. intros v t. rewrite map_lookup_filter_Some. cbn.
  assert (latest_votes g !! v = Some t → known ch t) as Hk.
  { unfold latest_votes. destruct Hg as [Ho Hv].
    intros [Hl|[_ Hl]]%lookup_union_Some_raw; [exact (Ho _ _ Hl)|exact (Hv _ _ Hl)]. }
  split; (intros [Hl Hs]; split; [done|]); by apply (supports_spec ba ch block t Hb (Hk Hl)).
Qed.

(** With a bound above the height of the tree, the head is a leaf below the
    justified block, reached along children whose support is maximal. *)
Theorem head_correct {Ba Id E} `{EqDecision Id} `{ChainQuery Ba Id E} (ba : Ba) (ch : Chain Id)
  `{!ChainOk ba ch} (g : ArchiveGhost Id) (fuel : nat) (justified : Id) :
  votes_known ch g → known ch justified → cheight ch ≤ Z.of_nat fuel →
  ∃ h, head fuel ba g justified = Ok h ∧ ghost_walk ba ch g justified h ∧
    known ch h ∧ cchildren ch h = [] ∧ descends ch h justified.
Proof.
  intros Hg Hj Hf. unfold head. rewrite store_depth, res_bind_Ok by done.
  pose proof (depth_range justified Hj).
  destruct (head_loop_total ba ch fuel g justified Hg Hj ltac:(lia)) as (h & -> & Hw).
  exists h. split; [done|]. split; [done|]. by eapply ghost_walk_leaf.
Qed.

(** Committing the overlay changes neither the latest votes nor the head. *)
Theorem commit_overlay_head {Ba Id E} `{EqDecision Id} `{ChainQuery Ba Id E} (ba : Ba) (ch : Chain Id)
  `{!ChainOk ba ch} (g : ArchiveGhost Id) (fuel : nat) (justified : Id) :
  votes_known ch g → known ch justified → cheight ch ≤ Z.of_nat fuel →
  latest_votes (commit_overlay g) = latest_votes g ∧ overlayed_votes (commit_overlay g) = ∅ ∧
  head fuel ba (commit_overlay g) justified = head fuel ba g justified.
Proof.
  intros Hg Hj Hf.
  assert (latest_votes (commit_overlay g) = latest_votes g) as Hl.
  { unfold latest_votes at 1. rewrite commit_overlay_votes. cbn. by rewrite map_empty_union. }
  assert (votes_known ch (commit_overlay g)) as Hg'.
  { split; [apply map_Forall_empty|]. rewrite commit_overlay_votes.
    destruct Hg as [Ho Hv].
    intros v t [Hl'|[_ Hl']]%lookup_union_Some_raw; [exact (Ho _ _ Hl')|exact (Hv _ _ Hl')]. }
  split; [done|]. split; [done|]. unfold head. rewrite store_depth, !res_bind_Ok by done.
  pose proof (depth_range justified Hj). by apply (head_loop_ext ba ch).
Qed.

(** ** Importing a block *)

(** Errors of the importer. *)
Inductive ImportError (Eb Ee : Type) : Type :=
  | IsGenesis
  | Backend (e : Eb)
  | Executor (e : Ee).
Arguments IsGenesis {Eb Ee}.
Arguments Backend {Eb Ee} _.
Arguments Executor {Eb Ee} _.

(** The executor: the trait [JustifiableExecutor] with [execute_block]. *)
Class JustifiableExecutor (Bl St Id Ee : Type) := {
  block_parent : Bl → option Id;
  run_block : Bl → St → res Ee St;
  executor_active_validators : St → res Ee (list Z);
  executor_justified_block : St → res Ee (option Id);
  executor_votes : Bl → St → res Ee (list (Z * Id));
}.

(** The committing side of the store: [state_at], [genesis], and an
    [ImportAction] that imports a block or sets the head and commits. *)
Class ImportBackend (Ba Bl St Id Eb : Type) := {
  state_at : Ba → Id → res Eb St;
  backend_genesis : Ba → Id;
  commit_import : Ba → Bl → St → res Eb Ba;
  commit_head : Ba → Id → res Eb Ba;
}.

Section Importer.
Context {Ba Bl St Id Eb Ee : Type} `{EqDecision Id} `{ChainQuery Ba Id Eb}.
Context `{JustifiableExecutor Bl St Id Ee} `{ImportBackend Ba Bl St Id Eb}.

Record Importer := mkImporter {
  im_backend : Ba;
  im_ghost : ArchiveGhost Id;
}.

Notation Import := (M Importer (ImportError Eb Ee)).

Definition set_ghost (g : ArchiveGhost Id) : Import unit :=
  im ← get; put (mkImporter (im_backend im) g).
Definition set_backend (ba : Ba) : Import unit :=
  im ← get; put (mkImporter ba (im_ghost im)).

(** [ArchiveGhostImporter::import_raw] *)
Definition import_raw (fuel : nat) (block : Bl) (state : St) : Import unit :=
  active ← lift (res_map_err Executor (executor_active_validators state));
  justified ← lift (res_map_err Executor (executor_justified_block state));
  im ← get;
  let justified_block_id := default (backend_genesis (im_backend im)) justified in
  votes ← lift (res_map_err Executor (executor_votes block state));
  ba ← lift (res_map_err Backend (commit_import (im_backend im) block state));
  set_backend ba ;;
  for_each votes (λ kv, im ← get; set_ghost (update_overlay (im_ghost im) kv.1 kv.2)) ;;
  im ← get;
  set_ghost (update_active (im_ghost im) active) ;;
  im ← get;
  match head fuel (im_backend im) (im_ghost im) justified_block_id with
  | Ok new_head =>
      match commit_head (im_backend im) new_head with
      | Ok ba => set_backend ba ;; im ← get; set_ghost (commit_overlay (im_ghost im))
      | Err _ => set_ghost (reset_overlay (im_ghost im))
      | Panic => lift Panic
      | OutOfFuel => lift OutOfFuel
      end
  | Err e => set_ghost (reset_overlay (im_ghost im)) ;; throw (Backend e)
  | Panic => lift Panic
  | OutOfFuel => lift OutOfFuel
  end.

(** [ArchiveGhostImporter::import_block] *)
Definition import_block (fuel : nat) (block : Bl) : Import unit :=
  im ← get;
  parent ← lift (ok_or (block_parent block) IsGenesis);
  state ← lift (res_map_err Backend (state_at (im_backend im) parent));
  state ← lift (res_map_err Executor (run_block block state));
  import_raw fuel block state.

(** The overlay after the votes of a block. *)
Definition add_votes (g : ArchiveGhost Id) (vs : list (Z * Id)) : ArchiveGhost Id :=
  foldl (λ g kv, update_overlay g kv.1 kv.2) g vs.

Lemma add_votes_run vs im :
  for_each vs (λ kv, im ← get; set_ghost (update_overlay (im_ghost im) kv.1 kv.2)) im =
  (Ok (E:=ImportError Eb Ee) tt, mkImporter (im_backend im) (add_votes (im_ghost im) vs)).
Proof using Type.
  revert im. induction vs as [|[k v] vs IH]; intros im; [by destruct im|]. cbn [for_each].
  rewrite (Mbind_step _ _ _ tt (mkImporter (im_backend im) (update_overlay (im_ghost im) k v))) by done.
  by rewrite IH.
Qed.

Lemma add_votes_votes g vs : votes (add_votes g vs) = votes g.
Proof using Type.
  revert g. induction vs as [|[k v] vs IH]; intros g; [done|]. cbn. by rewrite IH.
Qed.

Lemma add_votes_lookup g vs v t :
  latest_votes (add_votes g vs) !! v = Some t → (v, t) ∈ vs ∨ latest_votes g !! v = Some t.
Proof using Type.
  revert g. induction vs as [|[k x] vs IH]; intros g Hl; [by right|].
  destruct (IH _ Hl) as [?|Hu]; [left; by right|].
  cbn [fst snd] in Hu. rewrite update_overlay_latest in Hu.
  apply lookup_insert_Some in Hu as [[-> ->]|[_ ?]]; [left; left|by right].
Qed.

(** The last vote of a validator is the one that counts. *)
Lemma add_votes_last g l1 v t l2 : v ∉ l2.*1 → overlayed_votes (add_votes g (l1 ++ (v, t) :: l2)) !! v = Some t.
Proof using Type.
  intros Hv. unfold add_votes. rewrite foldl_app. cbn. generalize (foldl (λ g kv, update_overlay g kv.1 kv.2) g l1) as g0. intros g0.
  assert (overlayed_votes (update_overlay g0 v t) !! v = Some t) as Hg by apply lookup_insert_eq.
  revert Hg. generalize (update_overlay g0 v t) as g1. induction l2 as [|[k x] l2 IH]; intros g1 Hg; [done|].
  cbn in *. apply not_elem_of_cons in Hv as [Hk Hv]. apply IH; [done|]. cbn. by rewrite lookup_insert_ne.
Qed.

(** The end of an import, once the block is stored in [ba] and the votes are
    in [g]. *)
Definition import_tail (fuel : nat) (ba : Ba) (g : ArchiveGhost Id) (justified : Id)
  : res (ImportError Eb Ee) unit * Importer :=
  match head fuel ba g justified with
  | Ok new_head =>
      match commit_head ba new_head with
      | Ok ba' => (Ok tt, mkImporter ba' (commit_overlay g))
      | Err _ => (Ok tt, mkImporter ba (reset_overlay g))
      | Panic => (Panic, mkImporter ba g)
      | OutOfFuel => (OutOfFuel, mkImporter ba g)
      end
  | Err e => (Err (Backend e), mkImporter ba (reset_overlay g))
  | Panic => (Panic, mkImporter ba g)
  | OutOfFuel => (OutOfFuel, mkImporter ba g)
  end.

(** One step of an import whose outcome is known, and the end of an import at
    a step that is no success *)
#[local] Ltac import_step :=
  first [ rewrite Mbind_get; cbv zeta
        | rewrite Mbind_lift_case; match goal with H : ?x = _ |- context [?x] => rewrite H end; cbn [res_map_err] ].
#[local] Ltac import_stops :=
  left; unfold import_raw; repeat import_step; eexists; split; [done|]; split; [by intros [??]|done].

(** Once the block is stored, an import goes on to its end. *)
Lemma import_raw_stores fuel block state im active jb vs ba :
  executor_active_validators state = Ok active → executor_justified_block state = Ok jb →
  executor_votes block state = Ok vs → commit_import (im_backend im) block state = Ok ba →
  import_raw fuel block state im =
    import_tail fuel ba (update_active (add_votes (im_ghost im) vs) active) (default (backend_genesis (im_backend im)) jb).
Proof using Type.
  intros Ha Hj Hv Hc. unfold import_raw. do 5 import_step.
  rewrite (Mbind_step _ _ _ tt (mkImporter ba (im_ghost im))) by done.
  rewrite (Mbind_step _ _ _ _ _ (add_votes_run vs _)), Mbind_get. cbn [im_ghost im_backend].
  rewrite (Mbind_step _ _ _ tt (mkImporter ba (update_active (add_votes (im_ghost im) vs) active))), Mbind_get by done.
  cbn [im_ghost im_backend]. unfold import_tail.
  destruct (head fuel ba _ _) as [h|e| |]; try done. by destruct (commit_head ba h).
Qed.

(** An import stops before the block is stored, with the importer as it was, or
    goes on to its end. *)
Lemma import_raw_cases fuel block state im :
  (∃ r, import_raw fuel block state im = (r, im) ∧ ¬ (∃ x, r = Ok x) ∧
     (definite (executor_active_validators state) → definite (executor_justified_block state) →
      definite (executor_votes block state) → definite (commit_import (im_backend im) block state) → definite r)) ∨
  ∃ active jb vs ba, executor_active_validators state = Ok active ∧ executor_justified_block state = Ok jb ∧
    executor_votes block state = Ok vs ∧ commit_import (im_backend im) block state = Ok ba ∧
    import_raw fuel block state im =
      import_tail fuel ba (update_active (add_votes (im_ghost im) vs) active) (default (backend_genesis (im_backend im)) jb).
Proof using Type.
  destruct (executor_active_validators state) as [active|ea| |] eqn:Ha; [|import_stops..].
  destruct (executor_justified_block state) as [jb|ej| |] eqn:Hj; [|import_stops..].
  destruct (executor_votes block state) as [vs|ev| |] eqn:Hv; [|import_stops..].
  destruct (commit_import (im_backend im) block state) as [ba|ec| |] eqn:Hc; [|import_stops..].
  right. exists active, jb, vs, ba. do 4 (split; [done|]). by apply import_raw_stores.
Qed.

(** What an import leaves of the votes *)
Lemma import_raw_run fuel block state im r im' :
  import_raw fuel block state im = (r, im') →
  (im_ghost im' = im_ghost im ∧ ¬ (∃ x, r = Ok x)) ∨
  ∃ active vs, executor_active_validators state = Ok active ∧ executor_votes block state = Ok vs ∧
    let g := update_active (add_votes (im_ghost im) vs) active in
    (im_ghost im' = commit_overlay g ∧ r = Ok tt) ∨
    (im_ghost im' = reset_overlay g ∧ (r = Ok tt ∨ ∃ e, r = Err e)) ∨
    (r = Panic ∨ r = OutOfFuel).
Proof using Type.
  destruct (import_raw_cases fuel block state im) as [(r0 & -> & Hr & _)|(active & jb & vs & ba & Ha & _ & Hv & _ & ->)].
  { intros [= <- <-]. by left. }
  intros Hrun. right. exists active, vs. do 2 (split; [done|]). cbv zeta. unfold import_tail in Hrun.
  destruct (head fuel ba _ _) as [h|e| |]; [destruct (commit_head ba h)|..]; injection Hrun as <- <-; eauto 6.
Qed.
End Importer.

(** After an import that ends, no vote is left in the overlay, and a failed
    import leaves no vote of its block behind; an import that ends in success
    either commits the votes of the block or, when the new head cannot be
    stored, drops them without reporting the failure. *)
Theorem import_raw_overlay {Ba Bl St Id Eb Ee} `{EqDecision Id} `{ChainQuery Ba Id Eb}
  `{JustifiableExecutor Bl St Id Ee} `{ImportBackend Ba Bl St Id Eb}
  fuel (block : Bl) (state : St) (im im' : Importer) (r : res (ImportError Eb Ee) unit) :
  import_raw fuel block state im = (r, im') → r ≠ Panic → r ≠ OutOfFuel →
  overlayed_votes (im_ghost im) = ∅ →
  overlayed_votes (im_ghost im') = ∅ ∧
  (r = Ok tt → ∃ active vs, executor_active_validators state = Ok active ∧
     executor_votes block state = Ok vs ∧
     (votes (im_ghost im') =
        latest_votes (update_active (add_votes (im_ghost im) vs) active) ∨
      votes (im_ghost im') = filter (λ kv, kv.1 ∈ active) (votes (im_ghost im)))) ∧
  (∀ e, r = Err e → votes (im_ghost im') ⊆ votes (im_ghost im)).
Proof.
  intros Hrun Hp Hf Ho. apply import_raw_run in Hrun as [[-> Hr]|(active & vs & Ha & Hv & Hrun)].
  { split; [done|]. split; [|done]. intros ->. exfalso. apply Hr. eauto. }
  cbv zeta in Hrun. destruct Hrun as [[-> ->]|[[-> Hr]|[?|?]]]; try done.
  - split; [done|]. split; [|done]. intros _. exists active, vs. split; [done|]. split; [done|].
    left. apply commit_overlay_votes.
  - split; [done|]. cbn. rewrite add_votes_votes. split.
    + intros _. exists active, vs. eauto.
    + intros e _. apply map_filter_subseteq.
Qed.

(** ** Witnesses: a fork

    Block 0 is the root, 1 and 2 are its children, 3 is the child of 1. *)

Section Witnesses.
#[local] Instance toy_store : ChainQuery unit nat unit := {|
  depth_at := λ _ x, match x with 0%nat => Ok 0 | 1%nat | 2%nat => Ok 1 | 3%nat => Ok 2 | _ => Err tt end;
  parent_at := λ _ x,
    match x with 0%nat => Ok None | 1%nat | 2%nat => Ok (Some 0%nat) | 3%nat => Ok (Some 1%nat) | _ => Err tt end;
  children_at := λ _ x,
    match x with 0%nat => Ok [1%nat; 2%nat] | 1%nat => Ok [3%nat] | 2%nat | 3%nat => Ok [] | _ => Err tt end;
|}.

Definition toy_chain : Chain nat := mkChain nat (λ x, (x < 4)%nat)
  (λ x, match x with 0%nat => 0 | 1%nat | 2%nat => 1 | _ => 2 end)
  (λ x, match x with 0%nat => None | 1%nat | 2%nat => Some 0%nat | _ => Some 1%nat end)
  (λ x, match x with 0%nat => [1%nat; 2%nat] | 1%nat => [3%nat] | _ => [] end) 3.

Lemma toy_chain_ok : ChainOk tt toy_chain.
Proof.
  split; cbn.
  - intros [|[|[|[|]]]] ?; try done; lia.
  - intros [|[|[|[|]]]] ?; try done; lia.
  - intros [|[|[|[|]]]] ?; try done; lia.
  - intros [|[|[|[|]]]] p ? [= <-]; split; lia.
  - intros [|[|[|[|]]]] ? ?; done.
  - intros x c Hx. rewrite ?elem_of_cons.
    destruct x as [|[|[|[|]]]]; [..|lia]; destruct c as [|[|[|[|c]]]]; rewrite ?elem_of_cons, ?elem_of_nil;
      split; intros Hc; naive_solver lia.
  - intros [|[|[|[|]]]] ?; lia.
Qed.

(** Validators 0 and 1 voted for 2 and 3; the block under import carries the
    vote of validator 0 for 3. *)
Definition toy_ghost : ArchiveGhost nat :=
  mkArchiveGhost {[0 := 2%nat; 1 := 3%nat]} {[0 := 3%nat]}.

Lemma toy_votes_known : votes_known toy_chain toy_ghost.
Proof.
  unfold votes_known. split; apply map_Forall_to_list; vm_compute; repeat constructor.
Qed.

Lemma vote_count_latest_witness :
  ∃ supporters : gmap Z nat,
    vote_count tt toy_ghost 1%nat 1 = Ok (E:=unit) (Z.of_nat (size supporters)) ∧
    ∀ v t, supporters !! v = Some t ↔ latest_votes toy_ghost !! v = Some t ∧ descends toy_chain t 1%nat.
Proof.
  apply (vote_count_latest (ChainOk0:=toy_chain_ok) tt toy_chain toy_ghost 1%nat toy_votes_known). cbn. lia.
Defined.

Lemma head_correct_witness :
  ∃ h, head 3 tt toy_ghost 0%nat = Ok (E:=unit) h ∧ ghost_walk tt toy_chain toy_ghost 0%nat h ∧
    known toy_chain h ∧ cchildren toy_chain h = [] ∧ descends toy_chain h 0%nat.
Proof.
  apply (head_correct (ChainOk0:=toy_chain_ok) tt toy_chain toy_ghost 3 0%nat toy_votes_known); cbn; lia.
Defined.

Lemma commit_overlay_head_witness :
  latest_votes (commit_overlay toy_ghost) = latest_votes toy_ghost ∧
  overlayed_votes (commit_overlay toy_ghost) = ∅ ∧
  head 3 tt (commit_overlay toy_ghost) 0%nat = head (E:=unit) 3 tt toy_ghost 0%nat.
Proof.
  apply (commit_overlay_head (ChainOk0:=toy_chain_ok) tt toy_chain toy_ghost 3 0%nat toy_votes_known); cbn; lia.
Defined.

(** An executor whose blocks are the votes they carry, and a store that
    accepts every one of them. *)
#[local] Instance toy_executor : JustifiableExecutor (list (Z * nat)) unit nat unit := {|
  block_parent := λ _, Some 3%nat;
  run_block := λ _ _, Ok tt;
  executor_active_validators := λ _, Ok [0; 1];
  executor_justified_block := λ _, Ok None;
  executor_votes := λ b _, Ok b;
|}.
#[local] Instance toy_backend : ImportBackend unit (list (Z * nat)) unit nat unit := {|
  state_at := λ _ _, Ok tt;
  backend_genesis := λ _, 0%nat;
  commit_import := λ _ _ _, Ok tt;
  commit_head := λ _ _, Ok tt;
|}.

Definition toy_importer : Importer (Ba:=unit) (Id:=nat) :=
  mkImporter tt (mkArchiveGhost {[0 := 2%nat; 1 := 3%nat]} ∅).

Lemma import_raw_overlay_witness :
  let run := import_raw (Eb:=unit) (Ee:=unit) 3 [(0, 3%nat)] tt toy_importer in
  run.1 = Ok tt ∧ overlayed_votes (im_ghost run.2) = ∅ ∧
  ∃ active vs, executor_active_validators (Ee:=unit) tt = Ok active ∧
    executor_votes (Ee:=unit) [(0, 3%nat)] tt = Ok vs ∧
    (votes (im_ghost run.2) =
       latest_votes (update_active (add_votes (im_ghost toy_importer) vs) active) ∨
     votes (im_ghost run.2) = filter (λ kv, kv.1 ∈ active) (votes (im_ghost toy_importer))).
Proof.
  intros run. assert (run.1 = Ok tt) as Hok by (vm_compute; reflexivity). split; [exact Hok|].
  destruct (import_raw_overlay 3 [(0, 3%nat)] tt toy_importer run.2 run.1 (surjective_pairing _)) as (Ho & Hv & _);
    [by rewrite Hok..|reflexivity|].
  split; [exact Ho|exact (Hv Hok)].
Defined.
End Witnesses.
