(* ===== verification/Pool.v ===== *)
(** * The attestation pool: [blockchain/src/pool.rs]

    Attestations by the hash of their data.  [push] tries to aggregate a new
    attestation into one that is already there and appends it otherwise. *)
From stdpp Require Import base numbers list gmap fin_maps.
From Stdlib Require Import ZArith Lia.
From S2P Require Import Prelude Config Types State.

#[local] Open Scope Z_scope.

(** The map from data hashes to attestations. *)
Notation AttestationPool := (gmap (list Z) (list Attestation)).

Section Pool.
Context `{TR : TreeRoot} `{BLS : BLSConfig} {E : Type}.

Definition pool_new : AttestationPool := ∅.

(** The key of an attestation. *)
Definition pool_key (attestation : Attestation) : H256 :=
  tree_root_attestation_data (mkAttestationDataAndCustodyBit (at_data attestation) false).

(** The loop over the bits of [existing] that sets [has_duplicate]. *)
Definition has_duplicate (attestation existing : Attestation) : res E bool :=
  res_fold (λ dup i,
    b ← vec_index (at_aggregation_bits attestation) i;
    Ok (if (b : bool) then true else dup)) false
    (zrange 0 (zlen (at_aggregation_bits existing))).

(** [for (i, bit) in new.iter().enumerate() { old[i] |= bit }] *)
Definition or_bits (old new : list bool) : res E (list bool) :=
  res_fold (λ old ib,
    b ← vec_index old ib.1;
    vec_set old ib.1 (b || ib.2)) old (enumerate new).

(** Merge [attestation] into [existing]. *)
Definition aggregate (attestation existing : Attestation) : res E Attestation :=
  bits ← or_bits (at_aggregation_bits existing) (at_aggregation_bits attestation);
  custody ← or_bits (at_custody_bits existing) (at_custody_bits attestation);
  res_fold (λ _ i,
    b ← vec_index (at_custody_bits attestation) i;
    if (b : bool) then Panic else Ok tt) tt (zrange 0 (zlen custody)) ;;
  Ok (mkAttestation bits (at_data existing) custody
        (aggregate_signatures [at_signature existing; at_signature attestation])).

(** The loop over the attestations of a key: the updated list, and whether the
    attestation was aggregated. *)
Fixpoint aggregate_into (attestation : Attestation) (existings : list Attestation)
  : res E (list Attestation * bool) :=
  match existings with
  | [] => Ok ([], false)
  | existing :: rest =>
      dup ← has_duplicate attestation existing;
      if (dup : bool) then
        r ← aggregate_into attestation rest;
        Ok (existing :: r.1, r.2)
      else
        e ← aggregate attestation existing;
        Ok (e :: rest, true)
  end.

(** [AttestationPool::push] *)
Definition push (pool : AttestationPool) (attestation : Attestation) : res E AttestationPool :=
  let hash := pool_key attestation in
  match pool !! hash with
  | Some existings =>
      r ← aggregate_into attestation existings;
      Ok (<[hash := if (r.2 : bool) then r.1 else r.1 ++ [attestation]]> pool)
  | None => Ok (<[hash := [attestation]]> pool)
  end.

(** [AttestationPool::pop] *)
Definition pop (pool : AttestationPool) (key : H256) : AttestationPool := delete key pool.

(** [AttestationPool::iter], in the order of the map's entries. *)
Definition iter (pool : AttestationPool) : list (H256 * Attestation) :=
  mjoin ((λ ha, (λ at_, (ha.1, at_)) <$> ha.2) <$> map_to_list pool).

Lemma has_duplicate_spec attestation existing :
  length (at_aggregation_bits existing) = length (at_aggregation_bits attestation) →
  has_duplicate attestation existing = Ok (existsb id (at_aggregation_bits attestation)).
Proof using Type.
  intros Hl. unfold has_duplicate, zlen. rewrite Hl. generalize (at_aggregation_bits attestation) as l.
  intros l. clear.
  assert (∀ pre dup, res_fold (E:=E) (λ dup i, b ← vec_index (pre ++ l) i; Ok (if (b : bool) then true else dup))
    dup (zrange (zlen pre) (zlen (pre ++ l))) = Ok (dup || existsb id l)) as H.
  { induction l as [|b l IH]; intros pre dup.
    - rewrite app_nil_r, zrange_nil by lia. cbn. by rewrite orb_false_r.
    - rewrite zrange_cons by (unfold zlen; rewrite length_app; cbn; lia). cbn [res_fold].
      rewrite (proj2 (vec_index_Ok (E:=E) (pre ++ b :: l) (zlen pre) b)).
      2:{ unfold zlen. rewrite Nat2Z.id, lookup_app_r, Nat.sub_diag by lia. done. }
      rewrite !res_bind_Ok. specialize (IH (pre ++ [b]) (if b then true else dup)).
      rewrite <- app_assoc in IH. cbn [app] in IH.
      replace (zlen (pre ++ [b])) with (zlen pre + 1) in IH by (unfold zlen; rewrite length_app; cbn; lia).
      rewrite IH. cbn. by destruct b, dup. }
  apply (H []).
Qed.

Lemma aggregate_into_none attestation existings :
  existsb id (at_aggregation_bits attestation) = true →
  Forall (λ e, length (at_aggregation_bits e) = length (at_aggregation_bits attestation)) existings →
  aggregate_into attestation existings = Ok (existings, false).
Proof using Type.
  intros Hset. induction 1 as [|e l He Hl IH]; [done|]. cbn.
  by rewrite has_duplicate_spec, Hset, res_bind_Ok, IH.
Qed.

Lemma elem_of_iter pool h a :
  (h, a) ∈ iter pool ↔ ∃ l, pool !! h = Some l ∧ a ∈ l.
Proof using Type.
  unfold iter. rewrite list_elem_of_join. setoid_rewrite list_elem_of_fmap. split.
  - intros (l & Hin & [h' l'] & -> & Hl%elem_of_map_to_list).
    apply list_elem_of_fmap in Hin as (a' & [= <- <-] & Ha). eauto.
  - intros (l & Hl & Ha). exists ((λ at_, (h, at_)) <$> l). split.
    + by apply list_elem_of_fmap_2.
    + exists (h, l). split; [done|]. by apply elem_of_map_to_list.
Qed.
End Pool.

(** Pushing an attestation with a set bit never aggregates: when the
    committees match, it is appended as it is, even next to an attestation of
    disjoint validators, and nothing already in the pool changes. *)
Theorem push_appends `{TreeRoot} `{BLSConfig} {E : Type} (pool : AttestationPool) (a : Attestation) :
  existsb id (at_aggregation_bits a) = true →
  Forall (λ e, length (at_aggregation_bits e) = length (at_aggregation_bits a))
    (default [] (pool !! pool_key a)) →
  ∃ pool', push (E:=E) pool a = Ok pool' ∧
    pool' = <[pool_key a := default [] (pool !! pool_key a) ++ [a]]> pool ∧
    ∀ h b, (h, b) ∈ iter pool' ↔ (h, b) ∈ iter pool ∨ h = pool_key a ∧ b = a.
Proof.
  intros Hset Hlen. eexists. split; [|split; [reflexivity|]].
  - unfold push. cbv zeta. destruct (pool !! pool_key a) as [l|]; [|done]. cbn in Hlen.
    by rewrite aggregate_into_none.
  - intros h b. rewrite !elem_of_iter. destruct (decide (h = pool_key a)) as [->|Hne].
    + rewrite lookup_insert_eq. destruct (pool !! pool_key a) as [l|]; cbn.
      * split.
        -- intros (l' & Hl & Hb). injection Hl as <-.
           apply elem_of_app in Hb as [?|Hb]; [eauto|]. apply list_elem_of_singleton in Hb. auto.
        -- intros Hor. eexists. split; [done|]. apply elem_of_app.
           destruct Hor as [(l' & Hl & Hb)|[_ ->]]; [injection Hl as <-; by left|right; left].
      * split.
        -- intros (l' & Hl & Hb). injection Hl as <-. apply list_elem_of_singleton in Hb. auto.
        -- intros [(l' & ? & ?)|[_ ->]]; [done|]. eexists. split; [done|left].
    + rewrite lookup_insert_ne by done. naive_solver.
Qed.

(** ** Witness: two attestations of disjoint validators of one committee *)

Definition toy_attestation (bits : list bool) : Attestation :=
  mkAttestation bits (mkAttestationData 8 0 H256_default Checkpoint_default Checkpoint_default)
    (replicate (length bits) false) H768_default.

Section Witnesses.
#[local] Existing Instances toy_tree toy_bls.

Lemma push_appends_witness :
  let a := toy_attestation [true; false] in let b := toy_attestation [false; true] in
  let pool : AttestationPool := {[pool_key a := [a]]} in
  ∃ pool', push (E:=unit) pool b = Ok pool' ∧
    pool' = <[pool_key b := default [] (pool !! pool_key b) ++ [b]]> pool ∧
    ∀ h x, (h, x) ∈ iter pool' ↔ (h, x) ∈ iter pool ∨ h = pool_key b ∧ x = b.
Proof.
  intros a b pool. apply (push_appends (E:=unit) pool b); [reflexivity|]. repeat constructor.
Defined.
End Witnesses.
