(* ===== verification/Node.v ===== *)
(** * The block executor: [blockchain/runtime/src/lib.rs], [blockchain/src/lib.rs]

    The runtime gives a beacon block its identifier and its parent's; the
    executor wraps the beacon crate in the interface the importer of [LmdGhost]
    asks for.  The theorems connect the three: a block is only accepted on the
    state of the block it names as its parent, so that the identifiers under
    which the store keeps states agree with the parent check of the beacon
    chain, and the votes an import hands to the fork choice are the attesters
    of the block. *)
From stdpp Require Import base numbers list gmap.
From Stdlib Require Import ZArith Lia.
From S2P Require Import Prelude Config Types Utils State Accessors Mutators Justification Epoch Block Transition LmdGhost.

#[local] Open Scope Z_scope.

Section Node.
Context `{Cfg : Config} `{AM : ArithMode} `{BLS : BLSConfig} `{TR : TreeRoot} `{MT : MerkleTree} `{F : Fuel}.

(** [Block::id] *)
Definition block_id (b : BeaconBlock) : H256 :=
  let header := mkBeaconBlockHeader (blk_slot b) (blk_parent_root b) (blk_state_root b)
                  (tree_root_body (blk_body b)) H768_default in
  tree_root_signing_header (signing_header header).

(** [Block::parent_id] *)
Definition parent_id (b : BeaconBlock) : option H256 :=
  if bytes_eqb (blk_parent_root b) H256_default then None else Some (blk_parent_root b).

(** The error of the executor. *)
Inductive NodeError : Type := Beacon (e : Error).

(** [Executor::execute_block], from the parent state to the state of the block. *)
Definition executor_execute_block (b : BeaconBlock) (s : BeaconState) : res NodeError BeaconState :=
  let (r, s') := execute_block b s in
  res_map_err Beacon r ;; Ok s'.

(** [Executor::justified_block_id] *)
Definition justified_block_id (s : BeaconState) : res NodeError (option H256) :=
  let justified_root := cp_root (current_justified_checkpoint s) in
  Ok (if bytes_eqb justified_root H256_default then None else Some justified_root).

(** [impl JustifiableExecutor for Executor] *)
#[global] Instance BeaconExecutor : JustifiableExecutor BeaconBlock BeaconState H256 NodeError := {|
  block_parent := parent_id;
  run_block := executor_execute_block;
  executor_active_validators := λ s, Ok (justified_active_validators s);
  executor_justified_block := justified_block_id;
  executor_votes := λ b s, res_map_err Beacon (block_vote_targets s b);
|}.

(** [Executor::initialize_block], [apply_inherent], [apply_extrinsic] and
    [finalize_block] pass on to the beacon crate. *)
Definition executor_initialize_block (target_slot : Uint) (s : BeaconState) : res NodeError unit * BeaconState :=
  let (r, s') := initialize_block target_slot s in (res_map_err Beacon r, s').

Definition executor_apply_inherent (parent : BeaconBlock) (inherent : Inherent) (s : BeaconState)
  : res NodeError UnsealedBeaconBlock * BeaconState :=
  let (r, s') := apply_inherent parent inherent s in (res_map_err Beacon r, s').

Definition executor_apply_extrinsic (extrinsic : Transaction) (bs : UnsealedBeaconBlock * BeaconState)
  : res NodeError unit * (UnsealedBeaconBlock * BeaconState) :=
  let (r, bs') := apply_transaction extrinsic bs in (res_map_err Beacon r, bs').

Definition executor_finalize_block (bs : UnsealedBeaconBlock * BeaconState)
  : res NodeError unit * (UnsealedBeaconBlock * BeaconState) :=
  let (r, bs') := finalize_block bs in (res_map_err Beacon r, bs').
End Node.

(** ** The header of the last block *)

Section Header.
Context `{Cfg : Config} `{AM : ArithMode} `{BLS : BLSConfig} `{TR : TreeRoot} `{MT : MerkleTree} `{F : Fuel}.

Notation keeps_header := (steps (same latest_block_header)).

Lemma registry_to_header {A} (m : M BeaconState Error A) : steps (same registry_frame) m → keeps_header m.
Proof.
  intros Hm s. specialize (Hm s). unfold same in *.
  change (latest_block_header (registry_frame (m s).2) = latest_block_header (registry_frame s)).
  by rewrite Hm.
Qed.

Lemma process_epoch_header : keeps_header process_epoch.
Proof.
  unfold process_epoch. step_tac.
  - unfold process_justification_and_finalization. step_tac; done.
  - unfold process_rewards_and_penalties.
    step_tac; apply registry_to_header; [apply increase_balance_frame|apply decrease_balance_frame].
  - unfold process_registry_updates, registry_update, activate.
    step_tac; apply registry_to_header; apply modify_validator_frame || apply initiate_validator_exit_frame.
  - unfold process_slashings. step_tac.
    match goal with |- context [match ?o with Some _ => _ | None => _ end] => destruct o end;
      [|apply steps_ret; apply _].
    apply registry_to_header, decrease_balance_frame.
  - unfold process_final_updates, update_effective_balance. step_tac; try done.
    apply registry_to_header, modify_validator_frame.
Qed.

Lemma slash_all_header l b : keeps_header (slash_all l b).
Proof.
  revert b. induction l as [|i l IH]; intros b; cbn; [apply steps_ret; apply _|].
  step_tac; [apply registry_to_header, slash_validator_frame|apply IH..].
Qed.

Lemma process_operations_header b : keeps_header (process_operations b).
Proof.
  unfold process_operations, process_proposer_slashing, process_attester_slashing, process_attestation,
    process_deposit, push_validator, process_voluntary_exit.
  step_tac; try done.
  all: first [apply slash_all_header | apply check_slashed_header_steps; apply _ | apply registry_to_header].
  all: first [apply slash_validator_frame | apply increase_balance_frame | apply initiate_validator_exit_frame].
Qed.

(** The header with the state root filled in once it is known. *)
Definition fill_state_root (root : H256) (h : BeaconBlockHeader) : BeaconBlockHeader :=
  if bytes_eqb (bh_state_root h) H256_default then with_bh_state_root root h else h.

Lemma advance_slot_header s s' :
  advance_slot s = (Ok tt, s') →
  latest_block_header s' = fill_state_root (tree_root_state s) (latest_block_header s).
Proof.
  intros Hrun. unfold advance_slot in Hrun.
  apply Mbind_Ok in Hrun as ([] & s1 & Hslot & Hrun). rewrite Mbind_get in Hrun.
  assert (latest_block_header s1 = fill_state_root (tree_root_state s) (latest_block_header s)) as H1.
  { unfold process_slot in Hslot. run_inv; unfold fill_state_root; cbn in *; by destruct (bytes_eqb _ _). }
  apply Mbind_lift in Hrun as (t & _ & Hrun). apply Mbind_lift in Hrun as (u & _ & Hrun).
  apply Mbind_Ok in Hrun as ([] & s2 & Hep & Hrun). rewrite Mbind_get in Hrun.
  apply Mbind_lift in Hrun as (w & _ & Hrun). injection Hrun as <-. cbn. rewrite <- H1.
  destruct (u =? 0); [|by injection Hep as <-].
  pose proof (process_epoch_header s1) as Hh. by rewrite Hep in Hh.
Qed.

(** Once filled in, the header stays; the loop fills it in with the root of the
    state it starts from. *)
Lemma process_slots_header t s s' :
  process_slots t s = (Ok tt, s') → slot s < t → tree_root_state s ≠ H256_default →
  latest_block_header s' = fill_state_root (tree_root_state s) (latest_block_header s).
Proof.
  intros Hrun Hlt Hroot. unfold process_slots in Hrun. rewrite Mbind_get in Hrun.
  rewrite (proj2 (Z.ltb_ge _ _)) in Hrun by lia.
  destruct (Z.to_nat (t - slot s)) as [|n] eqn:Hn; [lia|]. cbn [while_loop] in Hrun.
  rewrite Mbind_get, (proj2 (Z.ltb_lt _ _) Hlt) in Hrun.
  apply Mbind_Ok in Hrun as ([] & s1 & H1 & Hrun). apply advance_slot_header in H1.
  set (h := fill_state_root _ _) in *.
  assert (bh_state_root h ≠ H256_default) as Hh.
  { unfold h, fill_state_root. destruct (bytes_eqb _ _) eqn:Hb; [done|].
    unfold bytes_eqb in Hb. by apply bool_decide_eq_false in Hb. }
  apply (while_loop_Ok (same latest_block_header) (λ s, latest_block_header s = h)) in Hrun as [-> _];
    [done| |done].
  intros u u' Hu _ Hstep. apply advance_slot_header in Hstep. rewrite Hu in Hstep.
  unfold fill_state_root, bytes_eqb in Hstep. rewrite bool_decide_eq_false_2 in Hstep by done.
  unfold same. by rewrite Hstep.
Qed.

(** The header an accepted block leaves behind, its state root still open. *)
Lemma state_transition_header (b : BeaconBlock) s s' :
  state_transition b s = (Ok tt, s') →
  blk_state_root b = tree_root_state s' ∧
  latest_block_header s' = mkBeaconBlockHeader (blk_slot b) (blk_parent_root b) H256_default
    (tree_root_body (blk_body b)) H768_default.
Proof.
  intros Hrun. unfold state_transition in Hrun. apply Mbind_Ok in Hrun as ([] & s1 & _ & Hrun).
  apply Mbind_Ok in Hrun as ([] & s2 & Hbl & Hrun). run_inv. apply bool_decide_eq_true in Ha.
  split; [done|]. unfold process_block in Hbl.
  apply Mbind_Ok in Hbl as ([] & s3 & Hh & Hbl).
  assert (keeps_header (process_randao (blk_body b) ;; process_eth1_data (blk_body b) ;;
    process_operations (blk_body b))) as Hk.
  { unfold process_randao, process_eth1_data. step_tac; try done. apply process_operations_header. }
  specialize (Hk s3). cbn in Hbl. rewrite Hbl in Hk. cbn in Hk. rewrite Hk.
  unfold process_block_header in Hh. run_inv. destruct (block_signature b); by run_inv.
Qed.

Lemma state_transition_parent (b : BeaconBlock) s s' :
  state_transition b s = (Ok tt, s') →
  ∃ s1, process_slots (blk_slot b) s = (Ok tt, s1) ∧
    blk_parent_root b = tree_root_signing_header (signing_header (latest_block_header s1)).
Proof.
  intros Hrun. unfold state_transition in Hrun. apply Mbind_Ok in Hrun as ([] & s1 & Hsl & Hrun).
  apply Mbind_Ok in Hrun as ([] & s2 & Hbl & _). exists s1. split; [done|].
  unfold process_block in Hbl. apply Mbind_Ok in Hbl as ([] & s3 & Hh & _).
  unfold process_block_header in Hh. run_inv. by apply bool_decide_eq_true in Ha0.
Qed.

Lemma accepted_link (b c : BeaconBlock) s s1 s2 :
  state_transition b s = (Ok tt, s1) → state_transition c s1 = (Ok tt, s2) →
  slot s1 < blk_slot c → blk_state_root b ≠ H256_default → blk_parent_root c = block_id b.
Proof.
  intros Hb Hc Hlt Hroot. apply state_transition_header in Hb as [Hr Hh].
  apply state_transition_parent in Hc as (s3 & Hsl & ->).
  apply process_slots_header in Hsl; [|done|by rewrite <- Hr].
  rewrite Hsl, Hh, <- Hr. done.
Qed.
End Header.

(** ** The votes of a block *)

(** [v] signed an attestation of the block for the target [t]. *)
Definition votes_in `{Config} `{ArithMode} (b : BeaconBlock) (s : BeaconState) (v : Uint) (t : H256) : Prop :=
  ∃ a ia, a ∈ body_attestations (blk_body b) ∧ indexed_attestation s a = Ok ia ∧
    v ∈ ia_custody_bit_0_indices ia ++ ia_custody_bit_1_indices ia ∧ t = cp_root (ad_target (ia_data ia)).

Lemma block_vote_targets_sound `{Config} `{ArithMode} s b l :
  block_vote_targets s b = Ok l → ∀ v t, (v, t) ∈ l → votes_in b s v t.
Proof.
  unfold block_vote_targets, votes_in. intros Hrun.
  assert (∀ atts ret, res_fold (λ ret attestation,
      indexed ← indexed_attestation s attestation;
      Ok (ret ++ ((λ v, (v, cp_root (ad_target (ia_data indexed)))) <$>
        (ia_custody_bit_0_indices indexed ++ ia_custody_bit_1_indices indexed)))) ret atts = Ok l →
    ∀ v t, (v, t) ∈ l → (v, t) ∈ ret ∨ ∃ a ia, a ∈ atts ∧ indexed_attestation s a = Ok ia ∧
      v ∈ ia_custody_bit_0_indices ia ++ ia_custody_bit_1_indices ia ∧ t = cp_root (ad_target (ia_data ia))) as Hgen.
  { clear. induction atts as [|a atts IH]; intros ret Hf v t Hin; [injection Hf as <-; by left|].
    cbn in Hf. res_inv. destruct (IH _ Hf v t Hin) as [Hr|(a2 & ia & Hm2 & Hia)].
    - apply elem_of_app in Hr as [?|(w & [= -> ->] & Hw)%list_elem_of_fmap]; [by left|].
      right. exists a, a1. split; [left|]. done.
    - right. exists a2, ia. split; [by right|done]. }
  intros v t Hin. destruct (Hgen _ _ Hrun v t Hin) as [[]%elem_of_nil|?]; done.
Qed.

(** A block that the importer accepts on the state it finds under the
    block's parent identifier extends the block that state belongs to: if the
    state is the one block [b] led to, the parent identifier is the identifier
    of [b].  The only assumptions are that the block is not in the slot of its
    parent and that the state root of [b] is not the zero hash, which the slot
    processing takes as the mark of an open header. *)
Theorem imported_block_extends_parent `{Config} `{ArithMode} `{BLSConfig} `{TreeRoot} `{MerkleTree} `{Fuel}
  {Ba Eb} `{ChainQuery Ba H256 Eb} `{ImportBackend Ba BeaconBlock BeaconState H256 Eb}
  fuel (b c : BeaconBlock) (s s1 : BeaconState) (im im' : Importer (Ba:=Ba) (Id:=H256)) (p : H256) :
  state_transition b s = (Ok tt, s1) → blk_state_root b ≠ H256_default → slot s1 < blk_slot c →
  parent_id c = Some p → state_at (im_backend im) p = Ok (E:=Eb) s1 →
  import_block (Ee:=NodeError) fuel c im = (Ok tt, im') →
  p = block_id b ∧ ∃ s2, state_transition c s1 = (Ok tt, s2) ∧ tree_root_state s2 = blk_state_root c.
Proof.
  intros Hb Hroot Hlt Hp Hst Hrun. unfold import_block in Hrun. rewrite Mbind_get in Hrun.
  apply Mbind_lift in Hrun as (p' & Hp' & Hrun). apply Mbind_lift in Hrun as (st & Hs & Hrun).
  apply Mbind_lift in Hrun as (s2 & Hx & _). cbn in Hp'. rewrite Hp in Hp'. injection Hp' as <-.
  rewrite Hst in Hs. injection Hs as <-. cbn in Hx. unfold executor_execute_block, execute_block in Hx.
  destruct (state_transition c s1) as [[[]| | |] s3] eqn:Hc; try done. injection Hx as <-.
  pose proof (accepted_link b c s s1 s3 Hb Hc Hlt Hroot) as Hlink.
  unfold parent_id in Hp. destruct (bytes_eqb _ _); [done|]. injection Hp as <-.
  split; [done|]. exists s3. split; [done|]. symmetry. by apply state_transition_header in Hc as [].
Qed.

(** Every vote the fork choice holds after a successful import was there
    before, or was signed by its validator in an attestation of the block for
    that target. *)
Theorem imported_votes_sound `{Config} `{ArithMode} `{BLSConfig} `{TreeRoot} `{MerkleTree} `{Fuel}
  {Ba Eb} `{ChainQuery Ba H256 Eb} `{ImportBackend Ba BeaconBlock BeaconState H256 Eb}
  fuel (b : BeaconBlock) (s : BeaconState) (im im' : Importer (Ba:=Ba) (Id:=H256)) (v : Uint) (t : H256) :
  overlayed_votes (im_ghost im) = ∅ →
  import_raw (Ee:=NodeError) fuel b s im = (Ok tt, im') →
  votes (im_ghost im') !! v = Some t → votes (im_ghost im) !! v = Some t ∨ votes_in b s v t.
Proof.
  intros Ho Hrun Hv. apply import_raw_run in Hrun as [[_ Hno]|(active & vs & _ & Hvs & Hrun)].
  { exfalso. eauto. }
  assert (votes (im_ghost im) !! v = Some t ∨ (v, t) ∈ vs) as [?|Hin].
  - cbv zeta in Hrun. destruct Hrun as [[Hg _]|[[Hg _]|[?|?]]]; [| |done..]; rewrite Hg in Hv.
    + rewrite commit_overlay_votes in Hv.
      assert (latest_votes (add_votes (im_ghost im) vs) !! v = Some t) as Hl.
      { unfold latest_votes in *. cbn in Hv. rewrite lookup_union_Some_raw in *.
        destruct Hv as [?|[? [? _]%map_lookup_filter_Some]]; [by left|by right]. }
      apply add_votes_lookup in Hl as [?|Hl]; [by right|]. left. unfold latest_votes in Hl.
      by rewrite Ho, map_empty_union in Hl.
    + cbn in Hv. apply map_lookup_filter_Some in Hv as [Hv _]. rewrite add_votes_votes in Hv. by left.
  - by left.
  - right. cbn in Hvs. destruct (block_vote_targets s b) as [l| | |] eqn:Hl; try done.
    injection Hvs as <-. by eapply block_vote_targets_sound.
Qed.

(** ** Witnesses: two empty blocks on the toy chain, and the votes of a block *)

Section Witnesses.
#[local] Existing Instances toy_config toy_config_ok toy_mode toy_fuel toy_tree toy_merkle toy_bls.

(** A store that knows one state, that of the parent. *)
#[local] Instance toy_node_query : ChainQuery BeaconState H256 unit := {|
  depth_at := λ _ _, Ok 0;
  parent_at := λ _ _, Ok None;
  children_at := λ _ _, Ok [];
|}.
#[local] Instance toy_node_backend : ImportBackend BeaconState BeaconBlock BeaconState H256 unit := {|
  state_at := λ ba _, Ok ba;
  backend_genesis := λ _, H256_default;
  commit_import := λ ba _ _, Ok ba;
  commit_head := λ ba _, Ok ba;
|}.

Definition toy_parent_state : BeaconState := (state_transition (toy_block 8) (toy_state 16 7)).2.

Lemma imported_block_extends_parent_witness :
  let im := mkImporter (Ba:=BeaconState) (Id:=H256) toy_parent_state ghost_new in
  let im' := (import_block (Eb:=unit) (Ee:=NodeError) 1 (toy_block 9) im).2 in
  import_block (Eb:=unit) (Ee:=NodeError) 1 (toy_block 9) im = (Ok tt, im') ∧
  toy_root = block_id (toy_block 8) ∧
  ∃ s2, state_transition (toy_block 9) toy_parent_state = (Ok tt, s2) ∧
    tree_root_state s2 = blk_state_root (toy_block 9).
Proof.
  intros im im'.
  assert (import_block (Eb:=unit) (Ee:=NodeError) 1 (toy_block 9) im = (Ok tt, im')) as Hrun
    by (vm_compute; reflexivity).
  split; [exact Hrun|]. clearbody im'.
  apply (imported_block_extends_parent (Eb:=unit) 1 (toy_block 8) (toy_block 9) (toy_state 16 7)
    toy_parent_state im im' toy_root); [| | | | |exact Hrun].
  - vm_compute. reflexivity.
  - discriminate.
  - vm_compute. reflexivity.
  - vm_compute. reflexivity.
  - vm_compute. reflexivity.
Defined.

(** A block with the attestation of the committee [4; 8] of slot 8. *)
Definition toy_voting_block : BeaconBlock :=
  let data := mkAttestationData 8 0 toy_root Checkpoint_default (mkCheckpoint 1 toy_root) in
  mkBeaconBlock 9 toy_root toy_root
    (with_body_attestations [mkAttestation [true; true] data [false; false] H768_default]
       BeaconBlockBody_default) H768_default.

Lemma imported_votes_sound_witness :
  let im := mkImporter (Ba:=BeaconState) (Id:=H256) (toy_state 16 9) ghost_new in
  let im' := (import_raw (Eb:=unit) (Ee:=NodeError) 1 toy_voting_block (toy_state 16 9) im).2 in
  import_raw (Eb:=unit) (Ee:=NodeError) 1 toy_voting_block (toy_state 16 9) im = (Ok tt, im') ∧
  votes (im_ghost im') !! 8 = Some toy_root ∧
  (votes (im_ghost im) !! 8 = Some toy_root ∨ votes_in toy_voting_block (toy_state 16 9) 8 toy_root).
Proof.
  intros im im'.
  assert (import_raw (Eb:=unit) (Ee:=NodeError) 1 toy_voting_block (toy_state 16 9) im = (Ok tt, im'))
    as Hrun by (vm_compute; reflexivity).
  assert (votes (im_ghost im') !! 8 = Some toy_root) as Hv by (vm_compute; reflexivity).
  split; [exact Hrun|]. split; [exact Hv|]. clearbody im'.
  apply (imported_votes_sound (Eb:=unit) 1 toy_voting_block (toy_state 16 9) im im' 8 toy_root);
    [reflexivity|exact Hrun|exact Hv].
Defined.
End Witnesses.
