(* ===== verification/Externalities.v ===== *)
(** * The state wrappers of the node: [blockchain/src/lib.rs]

    The store keeps the beacon state behind one of two wrappers, [MemoryState]
    and [RocksState], and the executor reaches it through the trait
    [StateExternalities] of [blockchain/runtime/src/lib.rs].  A mutable borrow
    of the state is a command on the state that is run inside the wrapper; the
    class [ExternalitiesOk] is what an implementation owes, and the executor
    behind any such wrapper is shown to be the executor on the bare state. *)
From stdpp Require Import base numbers list gmap.
From Stdlib Require Import ZArith Lia.
From S2P Require Import Prelude Config Types Utils State Accessors Mutators Justification Epoch Block Transition LmdGhost Node.

#[local] Open Scope Z_scope.

(** [trait StateExternalities]: [state], and [state_mut] as the commands that
    run on the borrowed state. *)
Class StateExternalities (S : Type) := {
  ext_state : S → BeaconState;
  ext_state_mut : ∀ {E A}, M BeaconState E A → M S E A;
}.

(** A command leaves behind the state it computes, with its result. *)
Class ExternalitiesOk (S : Type) `{StateExternalities S} : Prop := {
  state_mut_result : ∀ {E A} (m : M BeaconState E A) s, (ext_state_mut m s).1 = (m (ext_state s)).1;
  state_mut_state : ∀ {E A} (m : M BeaconState E A) s, ext_state (ext_state_mut m s).2 = (m (ext_state s)).2;
}.

(** [struct MemoryState] and its conversions *)
Record MemoryState := memory_from_beacon { memory_into_beacon : BeaconState }.

(** [impl StateExternalities for MemoryState] *)
#[export] Instance MemoryExternalities : StateExternalities MemoryState := {|
  ext_state := memory_into_beacon;
  ext_state_mut := λ _ _ m s, let (r, state) := m (memory_into_beacon s) in (r, memory_from_beacon state);
|}.

(** [struct RocksState] and its conversions *)
Record RocksState := rocks_from_beacon { rocks_into_beacon : BeaconState }.

(** [impl StateExternalities for RocksState] *)
#[export] Instance RocksExternalities : StateExternalities RocksState := {|
  ext_state := rocks_into_beacon;
  ext_state_mut := λ _ _ m s, let (r, state) := m (rocks_into_beacon s) in (r, rocks_from_beacon state);
|}.

(** [impl RocksStateT for RocksState]: the raw value is the beacon state, and
    the handle of the database is not used. *)
Definition rocks_from_raw {DB : Type} (state : BeaconState) (_db : DB) : RocksState := rocks_from_beacon state.
Definition rocks_into_raw (s : RocksState) : BeaconState := rocks_into_beacon s.

#[export] Instance memory_externalities_ok : ExternalitiesOk MemoryState.
Proof. split; intros E A m s; cbn; by destruct (m (memory_into_beacon s)). Qed.

#[export] Instance rocks_externalities_ok : ExternalitiesOk RocksState.
Proof. split; intros E A m s; cbn; by destruct (m (rocks_into_beacon s)). Qed.

(** What is written to the database is what is read back. *)
Lemma rocks_raw_round {DB : Type} (s : RocksState) (db : DB) : rocks_from_raw (rocks_into_raw s) db = s.
Proof. by destruct s. Qed.

Section Executor.
Context `{Cfg : Config} `{AM : ArithMode} `{BLS : BLSConfig} `{TR : TreeRoot} `{MT : MerkleTree} `{F : Fuel}.
Context {S : Type} `{StateExternalities S}.

(** [Executor::execute_block] on the borrowed state *)
Definition external_execute_block (b : BeaconBlock) (s : S) : res NodeError S :=
  let (r, s') := ext_state_mut (execute_block b) s in
  res_map_err Beacon r ;; Ok s'.

(** [impl BlockExecutor] and [impl JustifiableExecutor for Executor], on a
    wrapped state *)
Definition external_executor : JustifiableExecutor BeaconBlock S H256 NodeError := {|
  block_parent := parent_id;
  run_block := external_execute_block;
  executor_active_validators := λ s, Ok (justified_active_validators (ext_state s));
  executor_justified_block := λ s, justified_block_id (ext_state s);
  executor_votes := λ b s, res_map_err Beacon (block_vote_targets (ext_state s) b);
|}.

(** Behind a wrapper, a block leads to the state it leads to without one, with
    the same errors. *)
Lemma external_execute_spec `{!ExternalitiesOk S} (b : BeaconBlock) (s : S) :
  (s' ← external_execute_block b s; Ok (ext_state s')) = executor_execute_block b (ext_state s).
Proof.
  unfold external_execute_block, executor_execute_block.
  pose proof (state_mut_result (execute_block b) s) as Hr. pose proof (state_mut_state (execute_block b) s) as Hs.
  destruct (ext_state_mut (execute_block b) s) as [r s'], (execute_block b (ext_state s)) as [r0 s0]. cbn in *. subst.
  by destruct r0.
Qed.

Lemma external_execute_Ok `{!ExternalitiesOk S} (b : BeaconBlock) (s s' : S) :
  external_execute_block b s = Ok s' → state_transition b (ext_state s) = (Ok tt, ext_state s').
Proof.
  intros Hrun. pose proof (external_execute_spec b s) as Hspec. rewrite Hrun in Hspec. cbn in Hspec.
  unfold executor_execute_block, execute_block in Hspec. destruct (state_transition b (ext_state s)) as [[[]| | |] s0]; try done.
  cbn in Hspec. congruence.
Qed.
End Executor.
