(* ===== verification/ChainRoots.v ===== *)
(** * The roots a state holds are blocks of its chain

    A beacon state records the roots of past blocks in [block_roots], and its
    checkpoints are taken from there.  The slot processing writes one root only,
    that of the last block with its state root filled in ([tip_root]); so every
    root in the state after a block is one of the parent's state, or the
    parent itself.  Here this is proved of [state_transition]; with the store
    it says that the block the fork choice starts from is always on the chain
    of the imported block. *)
From stdpp Require Import base numbers list gmap.
From Stdlib Require Import ZArith Lia.
From S2P Require Import Prelude Config Types Utils State Accessors Mutators Justification Epoch Block Transition Lifecycle Node.

#[local] Open Scope Z_scope.

(** Every root in the state that names a block *)
Record roots_in (P : H256 → Prop) (s : BeaconState) : Prop := {
  roots_blocks : Forall P (block_roots s);
  roots_current : P (cp_root (current_justified_checkpoint s));
  roots_previous : P (cp_root (previous_justified_checkpoint s));
  roots_finalized : P (cp_root (finalized_checkpoint s));
}.

Lemma roots_in_impl (P Q : H256 → Prop) s : (∀ r, P r → Q r) → roots_in P s → roots_in Q s.
Proof. intros HPQ [H1 H2 H3 H4]. split; auto. by eapply Forall_impl. Qed.

Definition roots_frame (s : BeaconState) :=
  (block_roots s, current_justified_checkpoint s, previous_justified_checkpoint s, finalized_checkpoint s).

Lemma roots_frame_in (P : H256 → Prop) s s' : same roots_frame s s' → roots_in P s → roots_in P s'.
Proof. unfold same, roots_frame. intros [= H1 H2 H3 H4] [? ? ? ?]. split; congruence. Qed.

Lemma frame_keeps (P : H256 → Prop) {A} (m : M BeaconState Error A) :
  steps (same roots_frame) m → steps (keeps (roots_in P)) m.
Proof. intros Hm s. exact (roots_frame_in P s (m s).2 (Hm s)). Qed.

(** What a command on the registry leaves alone *)
Lemma registry_to {T A} (f : BeaconState → T) (m : M BeaconState Error A) :
  (∀ s, f (registry_frame s) = f s) → steps (same registry_frame) m → steps (same f) m.
Proof. intros Hf Hm s. unfold same. by rewrite <- (Hf (m s).2), (Hm s : registry_frame _ = _), Hf. Qed.

Lemma registry_to_roots {A} (m : M BeaconState Error A) : steps (same registry_frame) m → steps (same roots_frame) m.
Proof. by apply registry_to. Qed.

(** ** Justification *)

Section Justifier.
Context {R E : Type} `{JustifierRegistry R Checkpoint E} `{AM : ArithMode}.

(** The three checkpoints of the justifier *)
Definition checkpoints_in (P : Checkpoint → Prop) (j : Justifier Checkpoint) : Prop :=
  P (j_current_justified_checkpoint j) ∧ P (j_previous_justified_checkpoint j) ∧ P (j_finalized_checkpoint j).

Lemma justify_in (P : Checkpoint → Prop) (r : R) c i : P c → steps (keeps (checkpoints_in P)) (justify r c i).
Proof. intros Hc. unfold justify. step_tac; intros (Hc1 & Hc2 & Hc3); by split. Qed.

Lemma finalize_rule_in (P : Checkpoint → Prop) bits a b c n e :
  P c → steps (keeps (checkpoints_in P)) (Justification.finalize_rule (E:=E) bits a b c n e).
Proof. intros Hc. unfold Justification.finalize_rule. step_tac. intros (Hc1 & Hc2 & Hc3). by split. Qed.

(** The checkpoints after a call are the ones before it, and the two it was
    given. *)
Lemma process_in (P : Checkpoint → Prop) p c (r : R) : P p → P c → steps (keeps (checkpoints_in P)) (process p c r).
Proof.
  intros Hp Hc j Hj.
  assert (P (j_current_justified_checkpoint j) ∧ P (j_previous_justified_checkpoint j)) as [Hcur Hprev] by by destruct Hj as (? & ? & ?).
  revert Hj. change (keeps (checkpoints_in P) j (process p c r j).2). unfold process.
  step_tac; try (by apply justify_in); try (by apply finalize_rule_in); intros (Hc1 & Hc2 & Hc3); by split.
Qed.
End Justifier.

(** ** The transition *)

Section Roots.
Context `{Cfg : Config} `{AM : ArithMode} `{BLS : BLSConfig} `{TR : TreeRoot} `{MT : MerkleTree} `{F : Fuel}.

Notation keeps_roots := (steps (same roots_frame)).

Lemma block_root_in (P : H256 → Prop) s e r : block_root s e = Ok r → Forall P (block_roots s) → P r.
Proof.
  unfold block_root, block_root_at_slot. intros Hrun HP. res_inv; try done.
  all: apply vec_index_Ok in Hrun; by eapply Forall_lookup_1.
Qed.

Lemma process_justification_roots (P : H256 → Prop) : steps (keeps (roots_in P)) process_justification_and_finalization.
Proof.
  intros s Hs.
  assert (∀ pe pr ce cr j, block_root s pe = Ok pr → block_root s ce = Ok cr →
    j = (process (mkCheckpoint pe pr) (mkCheckpoint ce cr) s (mkJustifier (justification_bits s)
      (current_justified_checkpoint s) (previous_justified_checkpoint s) (finalized_checkpoint s))).2 →
    P (cp_root (j_current_justified_checkpoint j)) ∧ P (cp_root (j_previous_justified_checkpoint j)) ∧
    P (cp_root (j_finalized_checkpoint j))) as Hout.
  { intros pe pr ce cr j Hp%(block_root_in P) Hc%(block_root_in P) ->; [|apply Hs..].
    apply (process_in (λ c, P (cp_root c))); [done|done|by destruct Hs]. }
  generalize Hs. fold (keeps (roots_in P) s (process_justification_and_finalization s).2).
  unfold process_justification_and_finalization. step_tac.
  all: intros [G1 G2 G3 G4]; split; try done; eapply Hout; try reflexivity; eassumption.
Qed.

(** The stages of an epoch after justification do not touch the roots. *)
Lemma process_epoch_roots (P : H256 → Prop) : steps (keeps (roots_in P)) process_epoch.
Proof.
  unfold process_epoch. step_tac; [apply process_justification_roots|apply frame_keeps..].
  - unfold process_rewards_and_penalties.
    step_tac; apply registry_to_roots; [apply increase_balance_frame|apply decrease_balance_frame].
  - unfold process_registry_updates, registry_update, activate.
    step_tac; apply registry_to_roots; apply modify_validator_frame || apply initiate_validator_exit_frame.
  - unfold process_slashings. step_tac.
    match goal with |- context [match ?o with Some _ => _ | None => _ end] => destruct o end;
      [|apply steps_ret; apply _].
    apply registry_to_roots, decrease_balance_frame.
  - unfold process_final_updates, update_effective_balance. step_tac; try done.
    apply registry_to_roots, modify_validator_frame.
Qed.

Lemma slash_all_roots l b : keeps_roots (slash_all l b).
Proof.
  revert b. induction l as [|i l IH]; intros b; cbn; [apply steps_ret; apply _|].
  step_tac; [apply registry_to_roots, slash_validator_frame|apply IH..].
Qed.

Lemma process_operations_roots b : keeps_roots (process_operations b).
Proof.
  unfold process_operations, process_proposer_slashing, process_attester_slashing, process_attestation,
    process_deposit, push_validator, process_voluntary_exit.
  step_tac; try done.
  all: first [apply slash_all_roots | apply check_slashed_header_steps; apply _ | apply registry_to_roots].
  all: first [apply slash_validator_frame | apply increase_balance_frame | apply initiate_validator_exit_frame].
Qed.

Lemma process_block_roots {B} `{Block B} (b : B) : keeps_roots (process_block b).
Proof.
  unfold process_block, process_block_header, process_randao, process_eth1_data. step_tac; try done.
  all: try (match goal with |- context [match ?o with Some _ => _ | None => _ end] => destruct o end; step_tac; done).
  apply process_operations_roots.
Qed.

(** ** Slots *)

Definition header_root (h : BeaconBlockHeader) : H256 := tree_root_signing_header (signing_header h).

(** The root under which the next slots record the last block of the state *)
Definition tip_root (s : BeaconState) : H256 := header_root (fill_state_root (tree_root_state s) (latest_block_header s)).

Lemma process_slot_roots (P : H256 → Prop) s s' :
  process_slot s = (Ok tt, s') → P (tip_root s) → roots_in P s → roots_in P s'.
Proof.
  intros Hrun Htip [H1 H2 H3 H4]. unfold process_slot in Hrun. run_inv.
  all: split; cbn; try done; eapply (vec_set_Forall P); [done|done|].
  all: unfold tip_root, fill_state_root, header_root in Htip; cbn in *.
  all: match goal with Hb : bytes_eqb _ _ = _ |- _ => rewrite Hb in Htip end; exact Htip.
Qed.

Lemma advance_slot_roots (P : H256 → Prop) s s' :
  advance_slot s = (Ok tt, s') → P (tip_root s) → roots_in P s → roots_in P s'.
Proof.
  intros Hrun Htip Hs. unfold advance_slot in Hrun. apply Mbind_Ok in Hrun as ([] & s1 & Hslot & Hrun).
  pose proof (process_slot_roots P s s1 Hslot Htip Hs) as Hs1. rewrite Mbind_get in Hrun.
  apply Mbind_lift in Hrun as (t & _ & Hrun). apply Mbind_lift in Hrun as (u & _ & Hrun).
  apply Mbind_Ok in Hrun as ([] & s2 & Hep & Hrun). rewrite Mbind_get in Hrun.
  apply Mbind_lift in Hrun as (w & _ & Hrun). injection Hrun as <-.
  enough (roots_in P s2) as [] by by split.
  destruct (u =? 0); [|by injection Hep as <-]. pose proof (process_epoch_roots P s1 Hs1) as Hk. by rewrite Hep in Hk.
Qed.

Lemma fill_state_root_filled r h : r ≠ H256_default → bh_state_root (fill_state_root r h) ≠ H256_default.
Proof.
  intros Hr. unfold fill_state_root, bytes_eqb. destruct (bool_decide_reflect (bh_state_root h = H256_default)); done.
Qed.

Lemma fill_state_root_idem r r' h : r ≠ H256_default → fill_state_root r' (fill_state_root r h) = fill_state_root r h.
Proof.
  intros Hr. pose proof (fill_state_root_filled r h Hr) as Hf. unfold fill_state_root at 1, bytes_eqb.
  by rewrite bool_decide_eq_false_2.
Qed.

(** Every slot records the same root: that of the last block of the state the
    loop starts from. *)
Lemma process_slots_roots (P : H256 → Prop) t s s' :
  process_slots t s = (Ok tt, s') → tree_root_state s ≠ H256_default → P (tip_root s) → roots_in P s → roots_in P s'.
Proof.
  intros Hrun Hroot Htip Hs. unfold process_slots in Hrun. rewrite Mbind_get in Hrun.
  destruct (t <? slot s) eqn:Hlt; [done|].
  set (inv := λ u, roots_in P u ∧ tip_root u = tip_root s ∧
    (latest_block_header u = fill_state_root (tree_root_state s) (latest_block_header s) ∨ u = s)).
  apply (while_loop_Ok (keeps inv) inv) in Hrun as [[Hin _] _]; [done| |by split; [done|split; [done|by right]]].
  intros u u' (Hu & Htu & Hhu) _ Hstep. enough (inv u') by (split; [done|by intros _]).
  pose proof (advance_slot_header u u' Hstep) as Hh. assert (roots_in P u') as Hu' by (eapply advance_slot_roots; [done|by rewrite Htu|done]).
  assert (latest_block_header u' = fill_state_root (tree_root_state s) (latest_block_header s)) as Hh'.
  { rewrite Hh. destruct Hhu as [->| ->]; [by apply fill_state_root_idem|done]. }
  split; [done|]. split; [|by left]. unfold tip_root. rewrite Hh'. by rewrite fill_state_root_idem.
Qed.

(** After a block, the roots are those of the parent's state and the root of
    the parent's last block; the block itself is the new tip. *)
Lemma state_transition_roots (P : H256 → Prop) (b : BeaconBlock) s s' :
  state_transition b s = (Ok tt, s') → tree_root_state s ≠ H256_default → P (tip_root s) → roots_in P s → roots_in P s'.
Proof.
  intros Hrun Hroot Htip Hs. unfold state_transition in Hrun. apply Mbind_Ok in Hrun as ([] & s1 & Hsl & Hrun).
  apply Mbind_Ok in Hrun as ([] & s2 & Hbl & Hrun). pose proof (process_slots_roots P _ s s1 Hsl Hroot Htip Hs) as Hs1.
  pose proof (frame_keeps P _ (process_block_roots b) s1 Hs1) as Hs2. rewrite Hbl in Hs2. cbn in Hs2. run_inv. exact Hs2.
Qed.

Lemma state_transition_tip (b : BeaconBlock) s s' :
  state_transition b s = (Ok tt, s') → tip_root s' = block_id b ∧ tree_root_state s' = blk_state_root b.
Proof.
  intros [Hr Hh]%state_transition_header. split; [|done]. unfold tip_root. rewrite Hh, <- Hr.
  unfold fill_state_root, bytes_eqb. cbn. by rewrite bool_decide_eq_true_2.
Qed.

(** Accepted on a later slot, a block names the tip of its parent's state. *)
Lemma state_transition_extends (b : BeaconBlock) s s' :
  state_transition b s = (Ok tt, s') → slot s < blk_slot b → tree_root_state s ≠ H256_default → blk_parent_root b = tip_root s.
Proof.
  intros (s1 & Hsl & ->)%state_transition_parent Hlt Hroot. apply process_slots_header in Hsl; [|done..]. by rewrite Hsl.
Qed.

(** ** Genesis *)

Lemma process_deposit_tip d : steps (same (λ s, (latest_block_header s, roots_frame s))) (process_deposit d).
Proof.
  unfold process_deposit, push_validator. step_tac; try done.
  by apply registry_to, increase_balance_frame.
Qed.

(** The genesis block of a generated state is its tip, and no root is recorded. *)
Lemma genesis_roots deposits t d s :
  genesis_beacon_state deposits t d = Ok s → roots_in (λ r, r = H256_default) s ∧
  tip_root s = block_id (mkBeaconBlock 0 H256_default (tree_root_state s) BeaconBlockBody_default H768_default).
Proof.
  intros (s0 & Hrun & ->)%genesis_run.
  assert (steps (same (λ s, (latest_block_header s, roots_frame s))) (for_each deposits process_deposit)) as Hs
    by (apply steps_for_each; [apply _|apply process_deposit_tip]).
  specialize (Hs (genesis_initial t d)). rewrite Hrun in Hs. unfold same, roots_frame in Hs. cbn in Hs. injection Hs as Hh Hb Hc Hp Hf.
  split.
  - split; cbn; rewrite ?Hb, ?Hc, ?Hp, ?Hf; try done. apply Forall_replicate. done.
  - unfold tip_root. cbn. rewrite Hh. unfold fill_state_root, bytes_eqb. cbn. by rewrite bool_decide_eq_true_2.
Qed.
End Roots.
