(* ===== verification/CasperPallet.v ===== *)
(** * The Casper FFG pallet: [substrate/casper/pallet/src/lib.rs]

    The Substrate module keeps the validators of the session, the epochs with
    the block numbers they started at, the attestations for the current and
    the previous epoch, and justification bits.  Its storage items are the
    fields of [Casper]; the dispatchable calls, the session handler and the
    offchain worker are commands on it.  Keys, signatures, the codec and the
    origin check belong to Substrate and are the class [PalletConfig]; the
    block number and hashes of the system module are the argument [System] of
    the calls that read them, since they change between calls. *)
From stdpp Require Import base numbers list strings relations.
From Stdlib Require Import ZArith Lia.
From S2P Require Import Prelude.

#[local] Open Scope Z_scope.

(** [Checkpoint] and [Attestation] *)
Record Checkpoint (Hash : Type) := mkCheckpoint { epoch : Z; chash : Hash }.
Arguments mkCheckpoint {Hash} _ _.
Arguments epoch {Hash} _.
Arguments chash {Hash} _.

#[global] Instance pallet_checkpoint_eq_dec {Hash} `{EqDecision Hash} : EqDecision (Checkpoint Hash).
Proof. solve_decision. Defined.

Record Attestation (Hash Id : Type) := mkAttestation {
  validator_id : Id;
  source : Checkpoint Hash;
  target : Checkpoint Hash;
}.
Arguments mkAttestation {Hash Id} _ _ _.
Arguments validator_id {Hash Id} _.
Arguments source {Hash Id} _.
Arguments target {Hash Id} _.

#[global] Instance pallet_attestation_eq_dec {Hash Id} `{EqDecision Hash} `{EqDecision Id} :
  EqDecision (Attestation Hash Id).
Proof. solve_decision. Defined.

(** What the pallet takes from Substrate: keys and the codec, the origin of a
    call, [T::BlockNumber]'s addition of one, the wrapping of a call into an
    unsigned extrinsic, which may not be possible, and its submission. *)
Class PalletConfig (Hash Id Sig Origin : Type) := {
  verify : Id → list Z → Sig → bool;
  sign : Id → list Z → option Sig;
  encode : Attestation Hash Id → list Z;
  ensure_none : Origin → res string unit;
  local_keys : list Id;
  number_succ : Z → res string Z;
  Extrinsic : Type;
  new_unsigned : Attestation Hash Id → Sig → option Extrinsic;
  submit_transaction : Extrinsic → bool;
}.

(** The system module, as the calls see it. *)
Record System (Hash : Type) := mkSystem { block_number : Z; block_hash : Z → Hash }.
Arguments mkSystem {Hash} _ _.
Arguments block_number {Hash} _.
Arguments block_hash {Hash} _ _.

Inductive Event (Hash Id : Type) : Type :=
  | OnNewPreviousEpochAttestation (a : Attestation Hash Id)
  | OnNewCurrentEpochAttestation (a : Attestation Hash Id).
Arguments OnNewPreviousEpochAttestation {Hash Id} _.
Arguments OnNewCurrentEpochAttestation {Hash Id} _.

(** The storage of the module, with the events it deposits and the calls it
    makes to [OnSlashing]. *)
Record Casper (Hash Id : Type) := mkCasper {
  validators : list (Id * Z);
  current_epoch : Z;
  current_epoch_number : Z;
  previous_epoch : Z;
  previous_epoch_number : Z;
  previous_justified_epoch : Z;
  previous_justified_epoch_number : Z;
  current_justified_epoch : Z;
  current_justified_epoch_number : Z;
  finalized_epoch : Z;
  finalized_epoch_number : Z;
  current_epoch_attestations : list (Attestation Hash Id);
  current_epoch_attestations_count : Z;
  previous_epoch_attestations : list (Attestation Hash Id);
  previous_epoch_attestations_count : Z;
  justification_bits : list bool;
  events : list (Event Hash Id);
  slashed : list Id;
}.
Arguments mkCasper {Hash Id} _ _ _ _ _ _ _ _ _ _ _ _ _ _ _ _ _ _.
Arguments validators {Hash Id} _.
Arguments current_epoch {Hash Id} _.
Arguments current_epoch_number {Hash Id} _.
Arguments previous_epoch {Hash Id} _.
Arguments previous_epoch_number {Hash Id} _.
Arguments previous_justified_epoch {Hash Id} _.
Arguments previous_justified_epoch_number {Hash Id} _.
Arguments current_justified_epoch {Hash Id} _.
Arguments current_justified_epoch_number {Hash Id} _.
Arguments finalized_epoch {Hash Id} _.
Arguments finalized_epoch_number {Hash Id} _.
Arguments current_epoch_attestations {Hash Id} _.
Arguments current_epoch_attestations_count {Hash Id} _.
Arguments previous_epoch_attestations {Hash Id} _.
Arguments previous_epoch_attestations_count {Hash Id} _.
Arguments justification_bits {Hash Id} _.
Arguments events {Hash Id} _.
Arguments slashed {Hash Id} _.

(** ** Storage updates *)

Section Storage.
Context {Hash Id : Type}.
Implicit Types (s : Casper Hash Id).

Definition put_validators (v : list (Id * Z)) s : Casper Hash Id :=
  mkCasper (v) (current_epoch s) (current_epoch_number s) (previous_epoch s) (previous_epoch_number s)
    (previous_justified_epoch s) (previous_justified_epoch_number s) (current_justified_epoch s)
    (current_justified_epoch_number s) (finalized_epoch s) (finalized_epoch_number s)
    (current_epoch_attestations s) (current_epoch_attestations_count s) (previous_epoch_attestations s)
    (previous_epoch_attestations_count s) (justification_bits s) (events s) (slashed s).
Definition put_epochs (c cn p pn : Z) s : Casper Hash Id :=
  mkCasper (validators s) (c) (cn) (p) (pn) (previous_justified_epoch s) (previous_justified_epoch_number
    s) (current_justified_epoch s) (current_justified_epoch_number s) (finalized_epoch s)
    (finalized_epoch_number s) (current_epoch_attestations s) (current_epoch_attestations_count s)
    (previous_epoch_attestations s) (previous_epoch_attestations_count s) (justification_bits s) (events
    s) (slashed s).
Definition put_previous_justified (e n : Z) s : Casper Hash Id :=
  mkCasper (validators s) (current_epoch s) (current_epoch_number s) (previous_epoch s)
    (previous_epoch_number s) (e) (n) (current_justified_epoch s) (current_justified_epoch_number s)
    (finalized_epoch s) (finalized_epoch_number s) (current_epoch_attestations s)
    (current_epoch_attestations_count s) (previous_epoch_attestations s)
    (previous_epoch_attestations_count s) (justification_bits s) (events s) (slashed s).
Definition put_current_justified (e n : Z) s : Casper Hash Id :=
  mkCasper (validators s) (current_epoch s) (current_epoch_number s) (previous_epoch s)
    (previous_epoch_number s) (previous_justified_epoch s) (previous_justified_epoch_number s) (e) (n)
    (finalized_epoch s) (finalized_epoch_number s) (current_epoch_attestations s)
    (current_epoch_attestations_count s) (previous_epoch_attestations s)
    (previous_epoch_attestations_count s) (justification_bits s) (events s) (slashed s).
Definition put_finalized (e n : Z) s : Casper Hash Id :=
  mkCasper (validators s) (current_epoch s) (current_epoch_number s) (previous_epoch s)
    (previous_epoch_number s) (previous_justified_epoch s) (previous_justified_epoch_number s)
    (current_justified_epoch s) (current_justified_epoch_number s) (e) (n) (current_epoch_attestations s)
    (current_epoch_attestations_count s) (previous_epoch_attestations s)
    (previous_epoch_attestations_count s) (justification_bits s) (events s) (slashed s).
Definition put_current_attestations (l : list (Attestation Hash Id)) s : Casper Hash Id :=
  mkCasper (validators s) (current_epoch s) (current_epoch_number s) (previous_epoch s)
    (previous_epoch_number s) (previous_justified_epoch s) (previous_justified_epoch_number s)
    (current_justified_epoch s) (current_justified_epoch_number s) (finalized_epoch s)
    (finalized_epoch_number s) (l) (current_epoch_attestations_count s) (previous_epoch_attestations s)
    (previous_epoch_attestations_count s) (justification_bits s) (events s) (slashed s).
Definition put_current_count (n : Z) s : Casper Hash Id :=
  mkCasper (validators s) (current_epoch s) (current_epoch_number s) (previous_epoch s)
    (previous_epoch_number s) (previous_justified_epoch s) (previous_justified_epoch_number s)
    (current_justified_epoch s) (current_justified_epoch_number s) (finalized_epoch s)
    (finalized_epoch_number s) (current_epoch_attestations s) (n) (previous_epoch_attestations s)
    (previous_epoch_attestations_count s) (justification_bits s) (events s) (slashed s).
Definition put_previous_attestations (l : list (Attestation Hash Id)) s : Casper Hash Id :=
  mkCasper (validators s) (current_epoch s) (current_epoch_number s) (previous_epoch s)
    (previous_epoch_number s) (previous_justified_epoch s) (previous_justified_epoch_number s)
    (current_justified_epoch s) (current_justified_epoch_number s) (finalized_epoch s)
    (finalized_epoch_number s) (current_epoch_attestations s) (current_epoch_attestations_count s) (l)
    (previous_epoch_attestations_count s) (justification_bits s) (events s) (slashed s).
Definition put_previous_count (n : Z) s : Casper Hash Id :=
  mkCasper (validators s) (current_epoch s) (current_epoch_number s) (previous_epoch s)
    (previous_epoch_number s) (previous_justified_epoch s) (previous_justified_epoch_number s)
    (current_justified_epoch s) (current_justified_epoch_number s) (finalized_epoch s)
    (finalized_epoch_number s) (current_epoch_attestations s) (current_epoch_attestations_count s)
    (previous_epoch_attestations s) (n) (justification_bits s) (events s) (slashed s).
Definition put_bits (b : list bool) s : Casper Hash Id :=
  mkCasper (validators s) (current_epoch s) (current_epoch_number s) (previous_epoch s)
    (previous_epoch_number s) (previous_justified_epoch s) (previous_justified_epoch_number s)
    (current_justified_epoch s) (current_justified_epoch_number s) (finalized_epoch s)
    (finalized_epoch_number s) (current_epoch_attestations s) (current_epoch_attestations_count s)
    (previous_epoch_attestations s) (previous_epoch_attestations_count s) (b) (events s) (slashed s).
Definition deposit_event (e : Event Hash Id) s : Casper Hash Id :=
  mkCasper (validators s) (current_epoch s) (current_epoch_number s) (previous_epoch s)
    (previous_epoch_number s) (previous_justified_epoch s) (previous_justified_epoch_number s)
    (current_justified_epoch s) (current_justified_epoch_number s) (finalized_epoch s)
    (finalized_epoch_number s) (current_epoch_attestations s) (current_epoch_attestations_count s)
    (previous_epoch_attestations s) (previous_epoch_attestations_count s) (justification_bits s) (events
    s ++ [e]) (slashed s).
Definition on_slashing (v : Id) s : Casper Hash Id :=
  mkCasper (validators s) (current_epoch s) (current_epoch_number s) (previous_epoch s)
    (previous_epoch_number s) (previous_justified_epoch s) (previous_justified_epoch_number s)
    (current_justified_epoch s) (current_justified_epoch_number s) (finalized_epoch s)
    (finalized_epoch_number s) (current_epoch_attestations s) (current_epoch_attestations_count s)
    (previous_epoch_attestations s) (previous_epoch_attestations_count s) (justification_bits s) (events
    s) (slashed s ++ [v]).
End Storage.

(** The storage at genesis. *)
Definition casper_genesis {Hash Id} (vs : list (Id * Z)) : Casper Hash Id :=
  mkCasper vs 0 0 0 0 0 0 0 0 0 0 [] 0 [] 0 [false; false; false; false] [] [].

(** ** The calls *)

Section Calls.
Context {Hash Id Sig Origin : Type} `{EqDecision Hash} `{EqDecision Id}.
Context `{PC : PalletConfig Hash Id Sig Origin} `{AM : ArithMode}.
Notation Att := (Attestation Hash Id).
Notation Pallet := (M (Casper Hash Id) string).

(** The slashing conditions of Casper FFG: a double vote, or the first
    attestation surrounds the second. *)
Definition slashable_cond (a1 a2 : Att) : bool :=
  (epoch (target a1) =? epoch (target a2)) ||
  ((epoch (source a1) <? epoch (source a2)) && (epoch (target a2) <? epoch (target a1))).

(** [Module::slash] *)
Definition slash (origin : Origin) (a1 : Att) (sig1 : Sig) (a2 : Att) (sig2 : Sig) : Pallet unit :=
  lift (ensure_none origin) ;;
  require (negb (bool_decide (a1 = a2)))
    "not slashable because it's the same attestation"%string ;;
  require (verify (validator_id a1) (encode a1) sig1)
    "not slashable because attestation 1's signature is invalid"%string ;;
  require (verify (validator_id a2) (encode a2) sig2)
    "not slashable because attestation 2's signature is invalid"%string ;;
  require (bool_decide (validator_id a1 = validator_id a2))
    "not slashable because attestation not signed by the same validator"%string ;;
  require (slashable_cond a1 a2)
    "not slashable because it does not satisfy FFG's slashing conditions"%string ;;
  s ← get;
  put (on_slashing (validator_id a1) s).

(** The checkpoints an attestation has to name: the epoch and the hash of the
    block it started at. *)
Definition checkpoint_at (sys : System Hash) (e n : Z) : Checkpoint Hash := mkCheckpoint e (block_hash sys n).

Definition matches (sys : System Hash) (a : Att) (se sn te tn : Z) : bool :=
  (epoch (source a) =? se) && bool_decide (chash (source a) = block_hash sys sn) &&
  (epoch (target a) =? te) && bool_decide (chash (target a) = block_hash sys tn).

(** [len() as u32] *)
Definition as_u32 (n : Z) : Z := n mod 2 ^ 32.

(** [Module::attest] *)
Definition attest (sys : System Hash) (origin : Origin) (a : Att) (sig : Sig) : Pallet unit :=
  lift (ensure_none origin) ;;
  s ← get;
  require (existsb (λ v, bool_decide (v.1 = validator_id a)) (validators s))
    "validator not in session"%string ;;
  require (verify (validator_id a) (encode a) sig)
    "invalid attestation signature"%string ;;
  if matches sys a (previous_justified_epoch s) (previous_justified_epoch_number s)
       (previous_epoch s) (previous_epoch_number s) then
    let l := previous_epoch_attestations s ++ [a] in
    put (deposit_event (OnNewPreviousEpochAttestation a)
           (put_previous_attestations l (put_previous_count (as_u32 (zlen l)) s)))
  else if matches sys a (current_justified_epoch s) (current_justified_epoch_number s)
            (current_epoch s) (current_epoch_number s) then
    let l := current_epoch_attestations s ++ [a] in
    put (deposit_event (OnNewCurrentEpochAttestation a)
           (put_current_attestations l (put_current_count (as_u32 (zlen l)) s)))
  else throw "invalid attestation source or target"%string.

(** ** The session handler *)

(** [validators.iter().fold(0, |acc, v| acc + v.1)] *)
Definition total_weight (vs : list (Id * Z)) : res string Z :=
  res_fold (λ acc v, u64_add acc v.2) 0 vs.

(** The weight of a validator, zero when it is not in the session. *)
Definition weight_of (vs : list (Id * Z)) (v : Id) : Z :=
  from_option snd 0 (list_find (λ x, x.1 = v) vs ≫= λ ix, Some ix.2).

(** The fold over the attestations of an epoch. *)
Definition matching_balance (vs : list (Id * Z)) (l : list Att) : res string Z :=
  res_fold (λ acc a, u64_add acc (weight_of vs (validator_id a))) 0 l.

(** [matching * 3 >= total * 2] *)
Definition two_thirds (matching total : Z) : res string bool :=
  m ← u64_mul matching 3;
  t ← u64_mul total 2;
  Ok (t <=? m).

(** One finalization rule: the bits [a..b] are set and the justified epoch is
    [n] epochs back. *)
Definition finalize_rule (bits : list bool) (a b justified number n : Z) : Pallet unit :=
  range ← lift (slice bits a b);
  if forallb id range then
    e ← lift (u64_add justified n);
    s ← get;
    if e =? current_epoch s then put (put_finalized justified number s) else mret tt
  else mret tt.

(** [Module::on_new_session] *)
Definition on_new_session (sys : System Hash) (changed : bool) (new_validators : list Id) : Pallet unit :=
  s ← get;
  let vs := validators s in
  total_balance ← lift (total_weight vs);
  previous_matching ← lift (matching_balance vs (previous_epoch_attestations s));
  current_matching ← lift (matching_balance vs (current_epoch_attestations s));
  let old_bits := justification_bits s in
  src ← lift (slice old_bits 0 3);
  let bits := take 1 old_bits ++ src in
  let old_previous := previous_justified_epoch s in
  let old_previous_number := previous_justified_epoch_number s in
  let old_current := current_justified_epoch s in
  let old_current_number := current_justified_epoch_number s in
  put (put_previous_justified (current_justified_epoch s) (current_justified_epoch_number s) s) ;;
  p ← lift (two_thirds previous_matching total_balance);
  s ← get;
  (if (p : bool) then put (put_current_justified (previous_epoch s) (previous_epoch_number s) s) else mret tt) ;;
  bits ← lift (if (p : bool) then vec_set bits 1 true else Ok bits);
  c ← lift (two_thirds current_matching total_balance);
  s ← get;
  (if (c : bool) then put (put_current_justified (current_epoch s) (current_epoch_number s) s) else mret tt) ;;
  bits ← lift (if (c : bool) then vec_set bits 0 true else Ok bits);
  finalize_rule bits 1 4 old_previous old_previous_number 3 ;;
  finalize_rule bits 1 3 old_previous old_previous_number 2 ;;
  finalize_rule bits 0 3 old_current old_current_number 2 ;;
  finalize_rule bits 0 2 old_current old_current_number 1 ;;
  s ← get;
  put (put_current_attestations [] (put_previous_attestations [] (put_bits bits s))) ;;
  s ← get;
  (if changed then put (put_validators ((λ k, (k, 1)) <$> new_validators) s) else mret tt) ;;
  s ← get;
  next ← lift (u64_add (current_epoch s) 1);
  put (put_epochs next (block_number sys) (current_epoch s) (current_epoch_number s) s).

(** [Module::on_disabled] *)
Definition on_disabled (i : Z) : Pallet unit :=
  s ← get;
  v ← lift (vec_index (validators s) i);
  vs ← lift (vec_set (validators s) i (v.1, 0));
  put (put_validators vs s).

(** The blocks of the justified and finalized epochs. *)
Definition current_justified_block (sys : System Hash) (s : Casper Hash Id) : Hash :=
  block_hash sys (current_justified_epoch_number s).
Definition previous_justified_block (sys : System Hash) (s : Casper Hash Id) : Hash :=
  block_hash sys (previous_justified_epoch_number s).
Definition finalized_block (sys : System Hash) (s : Casper Hash Id) : Hash :=
  block_hash sys (finalized_epoch_number s).

(** ** The offchain worker *)

(** The attestation the worker makes for a local key. *)
Definition local_attestation (sys : System Hash) (s : Casper Hash Id) (key : Id) : Att :=
  mkAttestation key
    (checkpoint_at sys (current_justified_epoch s) (current_justified_epoch_number s))
    (checkpoint_at sys (current_epoch s) (current_epoch_number s)).

(** [Module::offchain]: the transactions submitted before the first failure. *)
Definition offchain (sys : System Hash) (n : Z) (s : Casper Hash Id) : M (list (Att * Sig)) string unit :=
  next ← lift (number_succ (current_epoch_number s));
  if n =? next then
    for_each (filter (λ v, v.1 ∈ local_keys) (validators s)) (λ v,
      let a := local_attestation sys s v.1 in
      sig ← lift (ok_or (sign v.1 (encode a)) "attestation signing failed"%string);
      ex ← lift (ok_or (new_unsigned a sig) "create unsigned attestation failed"%string);
      if negb (submit_transaction ex) then throw "submit attestation failed"%string
      else l ← get; put (l ++ [(a, sig)]))
  else mret tt.
End Calls.

(** ** The order of the epochs *)

Section Sessions.
Context {Hash Id Sig Origin : Type} `{EqDecision Hash} `{EqDecision Id}.
Context `{PC : PalletConfig Hash Id Sig Origin} `{AM : ArithMode}.
Implicit Types (s : Casper Hash Id) (sys : System Hash).

Record casper_ok (s : Casper Hash Id) : Prop := {
  co_bits : length (justification_bits s) = 4%nat;
  co_finalized : 0 ≤ finalized_epoch s ≤ previous_justified_epoch s;
  co_previous : previous_justified_epoch s ≤ current_justified_epoch s;
  co_current : current_justified_epoch s ≤ previous_epoch s;
  co_epochs : previous_epoch s ≤ current_epoch s < 2 ^ 62;
}.

(** Epochs, justification and finality only grow. *)
Definition casper_le (s s' : Casper Hash Id) : Prop :=
  current_epoch s ≤ current_epoch s' ∧ finalized_epoch s ≤ finalized_epoch s' ∧
  previous_justified_epoch s ≤ previous_justified_epoch s' ∧
  current_justified_epoch s ≤ current_justified_epoch s'.

#[global] Instance casper_le_preorder : PreOrder casper_le.
Proof. split; [intros s; red; lia|intros s t u; unfold casper_le; lia]. Qed.

(** The sums of a session leave room for the arithmetic. *)
Definition vote_weight (vs : list (Id * Z)) (l : list (Attestation Hash Id)) : Z :=
  sum_list_z ((λ a, weight_of vs (validator_id a)) <$> l).

Record session_bounded (s : Casper Hash Id) : Prop := {
  sb_weights : Forall (λ v, 0 ≤ v.2) (validators s);
  sb_total : sum_list_z (validators s).*2 < 2 ^ 62;
  sb_previous : vote_weight (validators s) (previous_epoch_attestations s) < 2 ^ 62;
  sb_current : vote_weight (validators s) (current_epoch_attestations s) < 2 ^ 62;
}.

Lemma weight_of_nonneg vs v : Forall (λ v : Id * Z, 0 ≤ v.2) vs → 0 ≤ weight_of vs v.
Proof using Type.
  intros Hvs. unfold weight_of. destruct (list_find _ vs) as [[i x]|] eqn:Hf; cbn; [|lia].
  apply list_find_Some in Hf as (Hx & _). exact (Forall_lookup_1 _ _ _ _ Hvs Hx).
Qed.

Lemma vote_weight_nonneg vs l : Forall (λ v : Id * Z, 0 ≤ v.2) vs → 0 ≤ vote_weight vs l.
Proof using Type.
  intros Hvs. apply sum_list_z_nonneg, Forall_fmap, Forall_true. intros a. by apply weight_of_nonneg.
Qed.

Lemma vote_weight_app vs l1 l2 : vote_weight vs (l1 ++ l2) = vote_weight vs l1 + vote_weight vs l2.
Proof using Type. unfold vote_weight. by rewrite fmap_app, sum_list_z_app. Qed.

Lemma vote_weight_one vs a : vote_weight vs [a] = weight_of vs (validator_id a).
Proof using Type. unfold vote_weight. cbn. lia. Qed.

Lemma matching_balance_ok vs l :
  Forall (λ v : Id * Z, 0 ≤ v.2) vs → vote_weight vs l < 2 ^ 62 →
  matching_balance vs l = Ok (vote_weight vs l).
Proof using Type.
  intros Hvs Hw. unfold matching_balance.
  rewrite (res_fold_sum_ok (λ a, weight_of vs (validator_id a))); [done|lia| |].
  - apply Forall_true. intros a. by apply weight_of_nonneg.
  - unfold vote_weight in Hw. lia.
Qed.

Lemma two_thirds_ok m t : 0 ≤ m < 2 ^ 62 → 0 ≤ t < 2 ^ 62 → two_thirds m t = Ok (2 * t <=? 3 * m).
Proof using Type.
  intros Hm Ht. unfold two_thirds.
  rewrite u64_mul_ok by (unfold is_u64; lia). cbn.
  rewrite u64_mul_ok by (unfold is_u64; lia). cbn. by rewrite (Z.mul_comm t), (Z.mul_comm m).
Qed.

(** The bits after the shift; the first one keeps its old value. *)
Definition shifted_bits (bits : list bool) (p c : bool) : list bool :=
  let l := take 1 bits ++ take 3 bits in
  let l := if p then <[1%nat := true]> l else l in
  if c then <[0%nat := true]> l else l.

(** The epoch a session justifies last. *)
Definition next_justified (s : Casper Hash Id) (p c : bool) : Z * Z :=
  if c then (current_epoch s, current_epoch_number s)
  else if p then (previous_epoch s, previous_epoch_number s)
  else (current_justified_epoch s, current_justified_epoch_number s).

(** One rule as a function of the epoch that is finalized so far. *)
Definition rule_result (bits : list bool) (e a b j jn n : Z) (f : Z * Z) : Z * Z :=
  if forallb id (take (Z.to_nat (b - a)) (drop (Z.to_nat a) bits)) && (j + n =? e) then (j, jn) else f.

(** The epoch a session finalizes. *)
Definition next_finalized (s : Casper Hash Id) (bits : list bool) : Z * Z :=
  let p := previous_justified_epoch s in let pn := previous_justified_epoch_number s in
  let c := current_justified_epoch s in let cn := current_justified_epoch_number s in
  let rule := rule_result bits (current_epoch s) in
  rule 0 2 c cn 1 (rule 0 3 c cn 2 (rule 1 3 p pn 2 (rule 1 4 p pn 3
    (finalized_epoch s, finalized_epoch_number s)))).

Definition session_majority (s : Casper Hash Id) (l : list (Attestation Hash Id)) : bool :=
  2 * sum_list_z (validators s).*2 <=? 3 * vote_weight (validators s) l.

(** The storage after a session. *)
Definition next_session (sys : System Hash) (changed : bool) (new_validators : list Id) (s : Casper Hash Id)
  : Casper Hash Id :=
  let p := session_majority s (previous_epoch_attestations s) in
  let c := session_majority s (current_epoch_attestations s) in
  let bits := shifted_bits (justification_bits s) p c in
  let j := next_justified s p c in
  let f := next_finalized s bits in
  mkCasper (if changed then (λ k, (k, 1)) <$> new_validators else validators s)
    (current_epoch s + 1) (block_number sys) (current_epoch s) (current_epoch_number s)
    (current_justified_epoch s) (current_justified_epoch_number s) j.1 j.2 f.1 f.2
    [] (current_epoch_attestations_count s) [] (previous_epoch_attestations_count s)
    bits (events s) (slashed s).

(** The storage with the epoch [f] finalized. *)
Definition with_finalized (f : Z * Z) (s : Casper Hash Id) : Casper Hash Id := put_finalized f.1 f.2 s.

Lemma pallet_finalize_rule_total {B} bits a b j jn n f t (k : unit → M (Casper Hash Id) string B) :
  length bits = 4%nat → 0 ≤ a ≤ b → b ≤ 4 → 0 ≤ j < 2 ^ 62 → 0 ≤ n ≤ 3 →
  (finalize_rule bits a b j jn n ≫= k) (with_finalized f t) =
  k tt (with_finalized (rule_result bits (current_epoch t) a b j jn n f) t).
Proof using Type.
  intros Hl Hab Hb Hj Hn. apply Mbind_step. unfold finalize_rule, rule_result.
  rewrite slice_ok, Mbind_lift_Ok by (unfold zlen; lia). destruct (forallb id _); [|done].
  rewrite u64_add_ok, Mbind_lift_Ok, Mbind_get by (unfold is_u64; lia).
  cbn [andb]. change (current_epoch (with_finalized f t)) with (current_epoch t). by destruct (_ =? _).
Qed.

(** The four rules together, before the rest [k] of the handler. *)
Lemma finalize_rules_total {B} s t bits (k : M (Casper Hash Id) string B) :
  casper_ok s → length bits = 4%nat → current_epoch t = current_epoch s →
  t = with_finalized (finalized_epoch s, finalized_epoch_number s) t →
  let p := previous_justified_epoch s in let pn := previous_justified_epoch_number s in
  let c := current_justified_epoch s in let cn := current_justified_epoch_number s in
  (finalize_rule bits 1 4 p pn 3 ;; finalize_rule bits 1 3 p pn 2 ;;
   finalize_rule bits 0 3 c cn 2 ;; finalize_rule bits 0 2 c cn 1 ;; k) t =
  k (with_finalized (next_finalized s bits) t).
Proof using Type.
  intros [_ Hf Hp Hc He] Hl Ht Hfin p pn c cn. rewrite Hfin at 1. unfold next_finalized. cbv zeta.
  rewrite <- Ht. do 4 rewrite pallet_finalize_rule_total by (done || unfold p, c; lia). done.
Qed.

Lemma shifted_bits_length bits p c : length bits = 4%nat → length (shifted_bits bits p c) = 4%nat.
Proof using Type. intros H. do 5 (destruct bits as [|? bits]; try done). by destruct p, c. Qed.

Lemma set_bit_ok (p : bool) (l : list bool) (i : Z) :
  0 ≤ i < zlen l →
  (if p then vec_set l i true else Ok l) = Ok (E:=string) (if p then <[Z.to_nat i := true]> l else l).
Proof using Type. intros Hi. destruct p; [|done]. by rewrite vec_set_in. Qed.

Lemma session_total s sys changed new_validators :
  session_bounded s → casper_ok s →
  on_new_session sys changed new_validators s = (Ok tt, next_session sys changed new_validators s).
Proof using Type.
  intros [Hw Ht Hp Hc] Hok. pose proof Hok as [Hb Hf Hpj Hcj He].
  pose proof (vote_weight_nonneg _ (previous_epoch_attestations s) Hw).
  pose proof (vote_weight_nonneg _ (current_epoch_attestations s) Hw).
  assert (0 ≤ sum_list_z (validators s).*2) by by apply sum_list_z_nonneg, Forall_fmap.
  unfold on_new_session, next_session. rewrite Mbind_get.
  unfold total_weight. rewrite (res_fold_sum_ok snd), Mbind_lift_Ok by (done || lia).
  rewrite !matching_balance_ok, Mbind_lift_Ok, Mbind_lift_Ok by done.
  rewrite slice_ok, Mbind_lift_Ok by (unfold zlen; lia). cbv zeta.
  rewrite Mbind_put, !two_thirds_ok, Mbind_lift_Ok, Mbind_get by lia.
  rewrite !Z.add_0_l.
  change (2 * sum_list_z (validators s).*2 <=? 3 * vote_weight (validators s) (previous_epoch_attestations s))
    with (session_majority s (previous_epoch_attestations s)).
  change (2 * sum_list_z (validators s).*2 <=? 3 * vote_weight (validators s) (current_epoch_attestations s))
    with (session_majority s (current_epoch_attestations s)).
  generalize (session_majority s (previous_epoch_attestations s)) as p.
  generalize (session_majority s (current_epoch_attestations s)) as c. intros c p.
  set (t1 := put_previous_justified _ _ s).
  rewrite (Mbind_step _ _ _ tt (if p then put_current_justified (previous_epoch t1) (previous_epoch_number t1) t1
    else t1)) by by destruct p.
  set (t2 := if p then _ else t1).
  set (l := take 1 _ ++ _). assert (length l = 4%nat) as Hl
    by (unfold l; rewrite length_app, !length_take, length_drop, Hb; done).
  rewrite set_bit_ok, Mbind_lift_Ok, Mbind_lift_Ok, Mbind_get by (unfold zlen; lia).
  rewrite (Mbind_step _ _ _ tt (if c then put_current_justified (current_epoch t2) (current_epoch_number t2) t2
    else t2)) by by destruct c.
  set (t3 := if c then _ else t2).
  rewrite set_bit_ok, Mbind_lift_Ok by (unfold zlen; destruct p; rewrite ?length_insert; lia).
  change (if c then _ else _) with (shifted_bits (justification_bits s) p c).
  rewrite (finalize_rules_total s t3); [|done|by apply shifted_bits_length|by unfold t3, t2; destruct p, c|].
  2:{ unfold t3, t2, t1. destruct s, p, c; done. }
  rewrite Mbind_get, Mbind_put, Mbind_get. cbv beta.
  rewrite (Mbind_step _ _ _ tt (if changed then put_validators ((λ k, (k, 1)) <$> new_validators) _ else _))
    by by destruct changed.
  rewrite Mbind_get.
  rewrite u64_add_ok, Mbind_lift_Ok
    by (unfold t3, t2; destruct changed, p, c; cbn; unfold is_u64; lia).
  unfold t3, t2. by destruct s, changed, p, c.
Qed.

Lemma rule_result_range bits e a b j jn n f lo hi :
  lo ≤ j ≤ hi → lo ≤ f.1 ≤ hi → lo ≤ (rule_result bits e a b j jn n f).1 ≤ hi.
Proof using Type. intros Hj Hf. unfold rule_result. by destruct (_ && _). Qed.

Lemma next_session_ok sys changed new_validators s :
  casper_ok s → current_epoch s + 1 < 2 ^ 62 →
  casper_ok (next_session sys changed new_validators s) ∧
  casper_le s (next_session sys changed new_validators s).
Proof using Type.
  intros [Hb Hf Hp Hc He] Hnext. unfold next_session. cbv zeta.
  set (p := session_majority s (previous_epoch_attestations s)).
  set (c := session_majority s (current_epoch_attestations s)).
  set (bits := shifted_bits _ p c).
  assert (finalized_epoch s ≤ (next_finalized s bits).1 ≤ current_justified_epoch s).
  { unfold next_finalized. cbv zeta. repeat apply rule_result_range; cbn; lia. }
  assert (current_justified_epoch s ≤ (next_justified s p c).1 ≤ current_epoch s)
    by (unfold next_justified; destruct c, p; cbn; lia).
  split; [split; cbn; try lia; by apply shifted_bits_length|]. unfold casper_le. cbn. lia.
Qed.

(** ** Runs of the pallet *)

(** One successful call; sessions are those whose sums are in range. *)
Inductive pallet_step : Casper Hash Id → Casper Hash Id → Prop :=
  | step_slash origin a1 sig1 a2 sig2 s s' :
      slash origin a1 sig1 a2 sig2 s = (Ok tt, s') → pallet_step s s'
  | step_attest sys origin a sig s s' : attest sys origin a sig s = (Ok tt, s') → pallet_step s s'
  | step_session sys changed new_validators s s' :
      session_bounded s → current_epoch s + 1 < 2 ^ 62 →
      on_new_session sys changed new_validators s = (Ok tt, s') → pallet_step s s'
  | step_disabled i s s' : on_disabled i s = (Ok tt, s') → pallet_step s s'.

(** What only a session changes. *)
Definition epochs_of (s : Casper Hash Id) :=
  (current_epoch s, current_epoch_number s, previous_epoch s, previous_epoch_number s,
   previous_justified_epoch s, current_justified_epoch s, current_justified_epoch_number s,
   finalized_epoch s, justification_bits s).

Lemma epochs_of_ok s s' : epochs_of s' = epochs_of s → casper_ok s → casper_ok s' ∧ casper_le s s'.
Proof using Type.
  unfold epochs_of. intros [= E1 E2 E3 E4 E5 E6 E7 E8 E9] [].
  split; [split|unfold casper_le]; rewrite ?E1, ?E3, ?E5, ?E6, ?E8, ?E9; done || lia.
Qed.

Lemma call_epochs s s' :
  pallet_step s s' →
  epochs_of s' = epochs_of s ∨
  ∃ sys changed new_validators, session_bounded s ∧ current_epoch s + 1 < 2 ^ 62 ∧
    on_new_session sys changed new_validators s = (Ok tt, s').
Proof using Type.
  intros [origin a1 sig1 a2 sig2 t t' Hrun|sys origin a sig t t' Hrun|sys ch new t t' Hsb Hlt Hrun|i t t' Hrun].
  - left. unfold slash in Hrun. run_inv. done.
  - left. unfold attest in Hrun. run_inv; done.
  - right. eauto 6.
  - left. unfold on_disabled in Hrun. run_inv. done.
Qed.

Lemma pallet_step_ok s s' : pallet_step s s' → casper_ok s → casper_ok s' ∧ casper_le s s'.
Proof using Type.
  intros [He|(sys & ch & new & Hsb & Hlt & Hrun)]%call_epochs Hok; [by apply epochs_of_ok|].
  rewrite session_total in Hrun by done. injection Hrun as <-. by apply next_session_ok.
Qed.

Lemma pallet_run_ok s s' : rtc pallet_step s s' → casper_ok s → casper_ok s' ∧ casper_le s s'.
Proof using Type.
  induction 1 as [s|s t u Hstep _ IH]; intros Hok; [split; [done|reflexivity]|].
  destruct (pallet_step_ok s t Hstep Hok) as [Hok1 H1]. destruct (IH Hok1) as [Hok2 H2].
  split; [done|by etrans].
Qed.
End Sessions.

(** ** What an accepted attestation changes *)

Section Attest.
Context {Hash Id Sig Origin : Type} `{EqDecision Hash} `{EqDecision Id}.
Context `{PC : PalletConfig Hash Id Sig Origin}.
Implicit Types (s : Casper Hash Id) (sys : System Hash) (a : Attestation Hash Id).

Definition matches_previous sys a s : bool :=
  matches sys a (previous_justified_epoch s) (previous_justified_epoch_number s)
    (previous_epoch s) (previous_epoch_number s).
Definition matches_current sys a s : bool :=
  matches sys a (current_justified_epoch s) (current_justified_epoch_number s)
    (current_epoch s) (current_epoch_number s).

(** The attestation recorded for the previous or the current epoch. *)
Definition record_vote sys a s : Casper Hash Id :=
  if matches_previous sys a s then
    let l := previous_epoch_attestations s ++ [a] in
    deposit_event (OnNewPreviousEpochAttestation a)
      (put_previous_attestations l (put_previous_count (as_u32 (zlen l)) s))
  else
    let l := current_epoch_attestations s ++ [a] in
    deposit_event (OnNewCurrentEpochAttestation a)
      (put_current_attestations l (put_current_count (as_u32 (zlen l)) s)).

Lemma attest_iff sys (origin : Origin) a sig s s' :
  attest sys origin a sig s = (Ok tt, s') ↔
  ensure_none origin = Ok tt ∧ (∃ w, (validator_id a, w) ∈ validators s) ∧
  verify (validator_id a) (encode a) sig = true ∧
  matches_previous sys a s || matches_current sys a s = true ∧ s' = record_vote sys a s.
Proof using Type.
  assert (existsb (λ v, bool_decide (v.1 = validator_id a)) (validators s) = true ↔
    ∃ w, (validator_id a, w) ∈ validators s) as <-.
  { rewrite existsb_exists. split.
    - intros ([i w] & Hin%list_elem_of_In & Hb%bool_decide_eq_true). cbn in Hb. subst i. eauto.
    - intros [w Hw]. exists (validator_id a, w). split; [by apply list_elem_of_In|]. by apply bool_decide_eq_true_2. }
  unfold attest. rewrite Mbind_lift_case. destruct (ensure_none origin) as [[]| | |];
    [|split; [done|by intros [? _]]..].
  rewrite Mbind_get, !Mbind_require. unfold record_vote. fold (matches_previous sys a s) (matches_current sys a s).
  destruct (matches_previous sys a s), (matches_current sys a s); cbn [orb]; unfold put, throw; naive_solver.
Qed.

(** The weight recorded for both epochs. *)
Definition attesting_weight s : Z :=
  vote_weight (validators s) (previous_epoch_attestations s ++ current_epoch_attestations s).

Lemma record_vote_weight sys a s :
  attesting_weight (record_vote sys a s) = attesting_weight s + weight_of (validators s) (validator_id a).
Proof using Type.
  unfold record_vote, attesting_weight. rewrite <- vote_weight_one.
  destruct (matches_previous sys a s); rewrite !vote_weight_app;
    cbn [validators previous_epoch_attestations current_epoch_attestations deposit_event
      put_previous_attestations put_current_attestations put_previous_count put_current_count];
    rewrite ?vote_weight_app; lia.
Qed.
End Attest.

(** ** Theorems *)

(** C15: a session handler that starts in order never fails, advances the epoch
    by one, forgets the attestations, justifies exactly the latest epoch whose
    attestations carry two thirds of the weight, and keeps finalized,
    previously justified and justified epochs in order without moving any back. *)
Theorem session_correct {Hash Id} `{EqDecision Id} `{ArithMode}
  (sys : System Hash) (changed : bool) (new_validators : list Id) (s : Casper Hash Id) :
  session_bounded s → casper_ok s → current_epoch s + 1 < 2 ^ 62 →
  ∃ s', on_new_session sys changed new_validators s = (Ok tt, s') ∧
    casper_ok s' ∧ casper_le s s' ∧
    current_epoch s' = current_epoch s + 1 ∧ previous_epoch s' = current_epoch s ∧
    current_epoch_attestations s' = [] ∧ previous_epoch_attestations s' = [] ∧
    previous_justified_epoch s' = current_justified_epoch s ∧
    current_justified_epoch s' =
      (if session_majority s (current_epoch_attestations s) then current_epoch s
       else if session_majority s (previous_epoch_attestations s) then previous_epoch s
       else current_justified_epoch s).
Proof.
  intros Hb Hok Hlt. exists (next_session sys changed new_validators s).
  split; [by apply session_total|]. destruct (next_session_ok sys changed new_validators s Hok Hlt).
  do 7 (split; [done|]). unfold next_session, next_justified. cbn.
  by destruct (session_majority s (current_epoch_attestations s)),
    (session_majority s (previous_epoch_attestations s)).
Qed.

(** A slashing report is accepted exactly for two different attestations of
    one validator, both signed, that vote twice for an epoch or of which the
    first surrounds the second; the validator is then reported once. *)
Theorem slash_correct {Hash Id Sig Origin} `{EqDecision Hash} `{EqDecision Id}
  `{PalletConfig Hash Id Sig Origin} (origin : Origin) a1 sig1 a2 sig2 (s s' : Casper Hash Id) :
  slash origin a1 sig1 a2 sig2 s = (Ok tt, s') ↔
  ensure_none origin = Ok tt ∧ a1 ≠ a2 ∧ validator_id a1 = validator_id a2 ∧
  verify (validator_id a1) (encode a1) sig1 = true ∧ verify (validator_id a2) (encode a2) sig2 = true ∧
  (epoch (target a1) = epoch (target a2) ∨
   epoch (source a1) < epoch (source a2) ∧ epoch (target a2) < epoch (target a1)) ∧
  s' = on_slashing (validator_id a1) s.
Proof.
  assert (slashable_cond a1 a2 = true ↔ epoch (target a1) = epoch (target a2) ∨
   epoch (source a1) < epoch (source a2) ∧ epoch (target a2) < epoch (target a1)) as <-.
  { unfold slashable_cond. by rewrite orb_true_iff, andb_true_iff, Z.eqb_eq, !Z.ltb_lt. }
  unfold slash. rewrite Mbind_lift_case. destruct (ensure_none origin) as [[]| | |];
    [|split; [done|by intros [? _]]..].
  rewrite !Mbind_require, Mbind_get, negb_true_iff, bool_decide_eq_false, bool_decide_eq_true.
  unfold put. split; [intros (? & ? & ? & ? & ? & [= <-]); by auto 10|naive_solver].
Qed.

(** C19: two attestations that the offchain worker makes for a key in different
    epochs of a run are never accepted as a slashing report, in either order
    and whatever was called in between. *)
Theorem worker_never_slashed {Hash Id Sig Origin} `{EqDecision Hash} `{EqDecision Id}
  `{PalletConfig Hash Id Sig Origin} `{ArithMode} (s1 s2 : Casper Hash Id) (sys1 sys2 : System Hash) (key : Id) :
  casper_ok s1 → rtc pallet_step s1 s2 → current_epoch s1 < current_epoch s2 →
  ∀ (origin : Origin) sig1 sig2 (s s' : Casper Hash Id),
    slash origin (local_attestation sys1 s1 key) sig1 (local_attestation sys2 s2 key) sig2 s ≠ (Ok tt, s') ∧
    slash origin (local_attestation sys2 s2 key) sig2 (local_attestation sys1 s1 key) sig1 s ≠ (Ok tt, s').
Proof.
  intros Hok Hrun Hlt origin sig1 sig2 s s'. destruct (pallet_run_ok s1 s2 Hrun Hok) as [_ Hle].
  assert (∀ a1 a2 sa sb, slash origin a1 sa a2 sb s = (Ok tt, s') → slashable_cond a1 a2 = true) as Hcond.
  { intros a1 a2 sa sb Hs. unfold slash in Hs. run_inv. by destruct (slashable_cond a1 a2). }
  unfold casper_le in Hle. split; intros Hs%Hcond; unfold slashable_cond in Hs; cbn in Hs;
    apply orb_true_iff in Hs as [?%Z.eqb_eq|[?%Z.ltb_lt ?%Z.ltb_lt]%andb_true_iff]; lia.
Qed.

(** C38: the first justification bit is never cleared.  When the last session
    justified its current epoch, the next one finalizes that epoch even if
    nobody attested to anything in between: no vote for the following epoch is
    needed. *)
Theorem stale_bit_finalizes {Hash Id} `{EqDecision Id} `{ArithMode}
  (sys : System Hash) (changed : bool) (new_validators : list Id) (s : Casper Hash Id) (b1 b2 b3 : bool) :
  session_bounded s → casper_ok s → 0 < sum_list_z (validators s).*2 →
  justification_bits s = [true; b1; b2; b3] → current_justified_epoch s + 1 = current_epoch s →
  current_epoch_attestations s = [] → previous_epoch_attestations s = [] →
  ∃ s', on_new_session sys changed new_validators s = (Ok tt, s') ∧
    finalized_epoch s' = current_justified_epoch s ∧
    current_justified_epoch s' = current_justified_epoch s ∧ justification_bits s' = [true; true; b1; b2].
Proof.
  intros Hb Hok Hw Hbits Hj Hc Hp. exists (next_session sys changed new_validators s).
  split; [by apply session_total|]. unfold next_session. rewrite Hc, Hp, Hbits. cbv zeta.
  assert (session_majority s [] = false) as ->.
  { unfold session_majority, vote_weight. cbn [fmap list_fmap sum_list_z]. apply Z.leb_gt. lia. }
  unfold next_finalized, rule_result. cbn. by rewrite (proj2 (Z.eqb_eq _ _) Hj).
Qed.

(** An attestation is accepted exactly when it is signed by a validator of
    the session and votes from the justified to the started epoch, for the
    previous or the current epoch.  It is then accepted again, and every
    repetition adds the weight of its validator once more. *)
Theorem attest_counts_again {Hash Id Sig Origin} `{EqDecision Hash} `{EqDecision Id}
  `{PalletConfig Hash Id Sig Origin} (sys : System Hash) (origin : Origin) a sig (s s1 : Casper Hash Id) :
  attest sys origin a sig s = (Ok tt, s1) →
  verify (validator_id a) (encode a) sig = true ∧ (∃ w, (validator_id a, w) ∈ validators s) ∧
  matches_previous sys a s || matches_current sys a s = true ∧
  ∃ s2, attest sys origin a sig s1 = (Ok tt, s2) ∧
    let weight := weight_of (validators s) (validator_id a) in
    attesting_weight s1 = attesting_weight s + weight ∧ attesting_weight s2 = attesting_weight s + 2 * weight.
Proof.
  intros (Ho & Hw & Hv & Hm & ->)%attest_iff. do 3 (split; [done|]).
  assert (∀ x, matches_previous sys x (record_vote sys a s) = matches_previous sys x s ∧
    matches_current sys x (record_vote sys a s) = matches_current sys x s ∧
    validators (record_vote sys a s) = validators s) as Hsame.
  { intros x. unfold record_vote. by destruct (matches_previous sys a s). }
  destruct (Hsame a) as (Hmp & Hmc & Hvs). exists (record_vote sys a (record_vote sys a s)).
  split; [apply attest_iff; by rewrite Hmp, Hmc, Hvs|]. cbv zeta. rewrite !record_vote_weight, Hvs. lia.
Qed.

(** ** Witnesses: three validators of weight one, from genesis *)

Section Witnesses.
#[local] Instance toy_pallet : PalletConfig Z Z unit unit := {|
  verify := λ _ _ _, true;
  sign := λ _ _, Some tt;
  encode := λ a, [validator_id a; epoch (source a); epoch (target a)];
  ensure_none := λ _, Ok tt;
  local_keys := [0; 1];
  number_succ := λ n, Ok (n + 1);
  Extrinsic := Attestation Z Z * unit;
  new_unsigned := λ a sig, Some (a, sig);
  submit_transaction := λ _, true;
|}.
#[local] Instance toy_arith : ArithMode := true.

Definition toy_system (n : Z) : System Z := mkSystem n (λ k, k).
Definition toy_session (n : Z) (s : Casper Z Z) : Casper Z Z := (on_new_session (toy_system n) false [] s).2.
Definition toy_vote (n key : Z) (s : Casper Z Z) : Casper Z Z :=
  (attest (toy_system n) tt (local_attestation (toy_system n) s key) tt s).2.

(** Epoch 1 starts at block 10; everybody attests; epoch 2 starts at block 20. *)
Definition toy_epoch1 : Casper Z Z := toy_session 10 (casper_genesis [(0, 1); (1, 1); (2, 1)]).
Definition toy_epoch2 : Casper Z Z :=
  toy_session 20 (toy_vote 11 2 (toy_vote 11 1 (toy_vote 11 0 toy_epoch1))).

Lemma toy_epoch1_ok : casper_ok toy_epoch1 ∧ session_bounded toy_epoch1.
Proof. repeat split; vm_compute; repeat constructor; done. Qed.

Lemma toy_epoch2_ok : casper_ok toy_epoch2 ∧ session_bounded toy_epoch2.
Proof. repeat split; vm_compute; repeat constructor; done. Qed.

Lemma session_correct_witness :
  ∃ s', on_new_session (toy_system 20) true [3; 4] toy_epoch1 = (Ok tt, s') ∧
    casper_ok s' ∧ casper_le toy_epoch1 s' ∧ current_epoch s' = 2 ∧ previous_epoch s' = 1 ∧
    current_epoch_attestations s' = [] ∧ previous_epoch_attestations s' = [] ∧
    previous_justified_epoch s' = 0 ∧ current_justified_epoch s' = 0.
Proof.
  exact (session_correct (toy_system 20) true [3; 4] toy_epoch1 (proj2 toy_epoch1_ok) (proj1 toy_epoch1_ok) eq_refl).
Defined.

(** Two votes of validator 0 for epoch 1. *)
Lemma slash_correct_witness :
  let a1 := mkAttestation 0 (mkCheckpoint 0 0) (mkCheckpoint 1 10) in
  let a2 := mkAttestation 0 (mkCheckpoint 0 0) (mkCheckpoint 1 11) in
  slash tt a1 tt a2 tt toy_epoch1 = (Ok tt, on_slashing 0 toy_epoch1).
Proof.
  intros a1 a2. apply (slash_correct tt a1 tt a2 tt toy_epoch1 (on_slashing 0 toy_epoch1)).
  split; [done|]. split; [discriminate|]. do 3 (split; [done|]). split; [by left|done].
Defined.

Lemma toy_run : rtc pallet_step toy_epoch1 toy_epoch2.
Proof.
  apply (rtc_l _ _ (toy_vote 11 0 toy_epoch1)).
  { apply (step_attest (toy_system 11) tt (local_attestation (toy_system 11) toy_epoch1 0) tt).
    vm_compute. reflexivity. }
  apply (rtc_l _ _ (toy_vote 11 1 (toy_vote 11 0 toy_epoch1))).
  { apply (step_attest (toy_system 11) tt
      (local_attestation (toy_system 11) (toy_vote 11 0 toy_epoch1) 1) tt). vm_compute. reflexivity. }
  apply (rtc_l _ _ (toy_vote 11 2 (toy_vote 11 1 (toy_vote 11 0 toy_epoch1)))).
  { apply (step_attest (toy_system 11) tt
      (local_attestation (toy_system 11) (toy_vote 11 1 (toy_vote 11 0 toy_epoch1)) 2) tt).
    vm_compute. reflexivity. }
  apply rtc_once, (step_session (toy_system 20) false []); [|vm_compute; reflexivity..].
  repeat split; vm_compute; repeat constructor; done.
Qed.

Lemma worker_never_slashed_witness :
  slash tt (local_attestation (toy_system 11) toy_epoch1 0) tt (local_attestation (toy_system 21) toy_epoch2 0) tt
    toy_epoch2 ≠ (Ok tt, toy_epoch2).
Proof.
  assert (current_epoch toy_epoch1 < current_epoch toy_epoch2) as Hlt by (vm_compute; reflexivity).
  exact (proj1 (worker_never_slashed toy_epoch1 toy_epoch2 (toy_system 11) (toy_system 21) 0
    (proj1 toy_epoch1_ok) toy_run Hlt tt tt tt toy_epoch2 toy_epoch2)).
Defined.

(** Epoch 1 is finalized although nobody attests in epoch 2. *)
Lemma stale_bit_finalizes_witness :
  ∃ s', on_new_session (toy_system 30) false [] toy_epoch2 = (Ok tt, s') ∧ finalized_epoch s' = 1 ∧
    current_justified_epoch s' = 1 ∧ justification_bits s' = [true; true; false; false].
Proof.
  exact (stale_bit_finalizes (toy_system 30) false [] toy_epoch2 false false false
    (proj2 toy_epoch2_ok) (proj1 toy_epoch2_ok) eq_refl eq_refl eq_refl eq_refl eq_refl).
Defined.

Lemma attest_counts_again_witness :
  let a := local_attestation (toy_system 11) toy_epoch1 0 in
  ∃ s2, attest (toy_system 11) tt a tt (toy_vote 11 0 toy_epoch1) = (Ok tt, s2) ∧
    attesting_weight (toy_vote 11 0 toy_epoch1) = attesting_weight toy_epoch1 + 1 ∧
    attesting_weight s2 = attesting_weight toy_epoch1 + 2 * 1.
Proof.
  intros a.
  assert (attest (toy_system 11) tt a tt toy_epoch1 = (Ok tt, toy_vote 11 0 toy_epoch1)) as Hrun
    by (vm_compute; reflexivity).
  exact (proj2 (proj2 (proj2 (attest_counts_again (toy_system 11) tt a tt toy_epoch1 _ Hrun)))).
Defined.
End Witnesses.
