(* ===== verification/Consensus.v ===== *)
(** * The Substrate consensus engine: [substrate/casper/consensus/src/lib.rs]

    [CasperBlockImport] wraps the block import of a Substrate client: after a
    block is imported it asks the runtime, at the parent of the block, which
    block is finalized, and finalizes it in the client.  The client and the
    runtime API are external and are the class [CasperClient]; the runtime API
    is [CasperApi] of [substrate/casper/primitives/src/lib.rs], which the
    pallet of [CasperPallet] answers.

    The file also has the two entry points of the pallet that belong to the
    node around it: the offchain worker and the check of unsigned
    transactions. *)
From stdpp Require Import base numbers list strings relations.
From Stdlib Require Import ZArith Lia.
From S2P Require Import Prelude CasperPallet.

#[local] Open Scope Z_scope.

(** ** The client *)

(** [Params] is [BlockImportParams] with its cache, [Check] is
    [BlockCheckParams], [R] is [ImportResult]. *)
Class CasperClient (Client Hash Params Check R E : Type) := {
  params_parent_hash : Params → Hash;
  client_import : Params → M Client E R;
  client_check : Check → M Client E R;
  is_imported : R → bool;
  runtime_finalized_block : Hash → Client → res E Hash;
  client_finalized_hash : Client → Hash;
  client_finalize : Hash → M Client E unit;
}.

(** What the code relies on: a finalization that succeeds is visible in the
    chain info, one that fails changes nothing, and a call of the runtime that
    goes wrong is an error of the client.  Nothing is assumed of the client's
    own import, which may finalize: [BlockImportParams] has a flag for it. *)
Class CasperClientLaws (Client Hash Params Check R E : Type) `{!CasperClient Client Hash Params Check R E} := {
  finalize_visible : ∀ h c c', client_finalize h c = (Ok tt, c') → client_finalized_hash c' = h;
  finalize_failed : ∀ h c e c', client_finalize h c = (Err e, c') → client_finalized_hash c' = client_finalized_hash c;
  finalize_total : ∀ h c, ∃ c', client_finalize h c = (Ok tt, c') ∨ ∃ e, client_finalize h c = (Err e, c');
  runtime_returns : ∀ h c, (∃ x, runtime_finalized_block h c = Ok x) ∨ ∃ e, runtime_finalized_block h c = Err e;
}.

(** A result whose error is only logged. *)
Definition logged {S E} (m : M S E unit) : M S E unit := λ s,
  match m s with (Err _, s') => (Ok tt, s') | r => r end.

Section Importing.
Context {Client Hash Params Check R E : Type} `{EqDecision Hash}.
Context `{CC : !CasperClient Client Hash Params Check R E}.

(** The closure [inner] of [import_block] *)
Definition finalize_at (at_ : Hash) : M Client E unit := logged (
  c ← get;
  finalized_hash ← lift (runtime_finalized_block at_ c);
  let last_finalized := client_finalized_hash c in
  if bool_decide (finalized_hash = last_finalized) then mret tt
  else client_finalize finalized_hash).

(** [CasperBlockImport::import_block] *)
Definition import_block (block : Params) : M Client E R :=
  let at_ := params_parent_hash block in
  result ← client_import block;
  (if is_imported result then finalize_at at_ else mret tt) ;;
  mret result.

(** [CasperBlockImport::check_block] *)
Definition check_block (block : Check) : M Client E R := client_check block.
End Importing.

(** ** The pallet's entry points *)

Section Entry.
Context {Hash Id Sig Origin : Type} `{EqDecision Hash} `{EqDecision Id}.
Context `{PC : PalletConfig Hash Id Sig Origin}.
Notation Att := (Attestation Hash Id).

(** [offchain_worker]: [is_validator] is the host function. *)
Definition offchain_worker (is_validator : bool) (sys : System Hash) (n : Z) (s : Casper Hash Id) :
  M (list (Att * Sig)) string unit :=
  if is_validator then logged (offchain sys n s) else mret tt.

(** The calls of the module, as [validate_unsigned] tells them apart *)
Inductive Call : Type :=
  | CallSlash (a1 : Att) (sig1 : Sig) (a2 : Att) (sig2 : Sig)
  | CallAttest (a : Att) (sig : Sig)
  | CallOther.

(** [ValidTransaction]; [requires] is empty. *)
Record ValidTransaction := mkValidTransaction {
  priority : Z;
  provides : list (list Z);
  longevity : Z;
  propagate : bool;
}.

Inductive InvalidTransaction : Type := BadProof.

(** [Module::validate_unsigned]; [encode_pair] is the codec of the pair of two
    attestations. *)
Definition validate_unsigned (encode_pair : Att * Att → list Z) (call : Call) : res InvalidTransaction ValidTransaction :=
  match call with
  | CallAttest attestation _ => Ok (mkValidTransaction 0 [encode attestation] u64_max true)
  | CallSlash a1 _ a2 _ => Ok (mkValidTransaction 0 [encode_pair (a1, a2)] u64_max true)
  | CallOther => Err BadProof
  end.

(** A call in a block; the other variant of the enum is never built. *)
Definition dispatch `{ArithMode} (sys : System Hash) (origin : Origin) (call : Call) : M (Casper Hash Id) string unit :=
  match call with
  | CallAttest a sig => attest sys origin a sig
  | CallSlash a1 sig1 a2 sig2 => slash origin a1 sig1 a2 sig2
  | CallOther => lift Panic
  end.
End Entry.
Arguments Call Hash Id Sig : clear implicits.

(** * Theorems *)

Section ImportProps.
Context {Client Hash Params Check R E : Type} `{EqDecision Hash}.
Context `{CC : !CasperClient Client Hash Params Check R E} `{CL : !CasperClientLaws Client Hash Params Check R E}.

(** The closure returns, and the client has finalized what the runtime named,
    or nothing. *)
Lemma finalize_at_spec at_ c :
  ∃ c', finalize_at at_ c = (Ok tt, c') ∧
  (client_finalized_hash c' = client_finalized_hash c ∨ runtime_finalized_block at_ c = Ok (client_finalized_hash c')) ∧
  (∀ h, runtime_finalized_block at_ c = Ok h →
    client_finalized_hash c' = h ∨
    (∃ e, (client_finalize h c).1 = Err e) ∧ client_finalized_hash c' = client_finalized_hash c).
Proof.
  unfold finalize_at, logged, lift, get, mbind, M_bind.
  destruct (runtime_returns at_ c) as [[h ->]|[e ->]];
    [|eexists; split; [done|]; split; [by left|done]].
  case_bool_decide as Heq.
  { eexists. split; [done|]. split; [by left|]. intros h' [= <-]. by left. }
  destruct (finalize_total h c) as (c' & [Hok|(e & Herr)]).
  - rewrite Hok. exists c'. split; [done|]. pose proof (finalize_visible _ _ _ Hok) as Hv.
    split; [right; congruence|]. intros h' [= <-]. by left.
  - rewrite Herr. exists c'. split; [done|]. pose proof (finalize_failed _ _ _ _ Herr) as Hf.
    split; [by left|]. intros h' [= <-]. right. split; [|done]. exists e. by rewrite Herr.
Qed.

(** An import that is not an import of a new block is that of the client. *)
Lemma import_block_passes b c :
  (∀ r c1, client_import b c = (Ok r, c1) → is_imported r = false) → import_block b c = client_import b c.
Proof.
  intros Hno. unfold import_block, mbind, M_bind. destruct (client_import b c) as [[r|e| |] c1]; [|done..].
  by rewrite (Hno r c1).
Qed.

Lemma import_block_imports b c r c1 :
  client_import b c = (Ok r, c1) → is_imported r = true →
  import_block b c = (Ok r, (finalize_at (params_parent_hash b) c1).2).
Proof.
  intros Himp Hr. unfold import_block, mbind, M_bind. rewrite Himp, Hr.
  by destruct (finalize_at_spec (params_parent_hash b) c1) as (c' & -> & _).
Qed.

(** Importing a block through the Casper engine has the result of the
    client's own import, whatever becomes of the finalization.  When the block
    is new, the finalized block of the client is afterwards the one that the
    runtime names at the parent of the block, unless the client refused to
    finalize it and is left as its own import left it; otherwise nothing but the client's import happened. *)
Theorem import_block_correct (b : Params) (c : Client) :
  (import_block b c).1 = (client_import b c).1 ∧
  (∀ r c1 h, client_import b c = (Ok r, c1) → is_imported r = true →
    runtime_finalized_block (params_parent_hash b) c1 = Ok h →
    client_finalized_hash (import_block b c).2 = h ∨
    (∃ e, (client_finalize h c1).1 = Err e) ∧
    client_finalized_hash (import_block b c).2 = client_finalized_hash c1) ∧
  ((∀ r c1, client_import b c = (Ok r, c1) → is_imported r = false) → (import_block b c).2 = (client_import b c).2).
Proof.
  split_and!.
  - destruct (client_import b c) as [[r|e| |] c1] eqn:Himp; [|by rewrite import_block_passes, Himp by congruence..].
    destruct (is_imported r) eqn:Hr; [by rewrite (import_block_imports b c r c1)|].
    rewrite import_block_passes, Himp; [done|]. congruence.
  - intros r c1 h Himp Hr Hh. rewrite (import_block_imports b c r c1) by done. cbn [snd].
    destruct (finalize_at_spec (params_parent_hash b) c1) as (c' & -> & _ & Hfin). cbn. by apply Hfin.
  - intros Hno. by rewrite import_block_passes.
Qed.

(** Importing one block after the other, the failed ones included *)
Definition import_all (bs : list Params) (c : Client) : Client := foldl (λ c b, (import_block b c).2) c bs.

(** Where the finalized block after an import comes from: it is that of the
    client before, or the client's own import has finalized it, or the block was
    imported and the runtime has named it. *)
Lemma import_finalizes b c :
  let c' := (import_block b c).2 in
  client_finalized_hash c' = client_finalized_hash c ∨
  client_finalized_hash c' = client_finalized_hash (client_import b c).2 ∨
  ∃ r c1, client_import b c = (Ok r, c1) ∧ is_imported r = true ∧
    runtime_finalized_block (params_parent_hash b) c1 = Ok (client_finalized_hash c').
Proof.
  destruct (client_import b c) as [[r|e| |] c1] eqn:Himp; [|right; left; by rewrite import_block_passes, Himp by congruence..].
  destruct (is_imported r) eqn:Hr; [|right; left; by rewrite import_block_passes, Himp by congruence].
  rewrite (import_block_imports b c r c1) by done. cbn.
  destruct (finalize_at_spec (params_parent_hash b) c1) as (c' & -> & [Heq|Hrt] & _); cbn; [by right; left|].
  right. right. by exists r, c1.
Qed.

Lemma import_all_snoc bs b c : import_all (bs ++ [b]) c = (import_block b (import_all bs c)).2.
Proof. unfold import_all. by rewrite foldl_app. Qed.

(** Over a sequence of imports, with the import it comes from *)
Lemma import_all_finalizes bs c :
  client_finalized_hash (import_all bs c) = client_finalized_hash c ∨
  ∃ bs1 b bs2, bs = bs1 ++ b :: bs2 ∧
    let c0 := import_all bs1 c in
    (client_finalized_hash (import_all bs c) = client_finalized_hash (client_import b c0).2 ∧
       client_finalized_hash (client_import b c0).2 ≠ client_finalized_hash c0 ∨
     ∃ r c1, client_import b c0 = (Ok r, c1) ∧ is_imported r = true ∧
       runtime_finalized_block (params_parent_hash b) c1 = Ok (client_finalized_hash (import_all bs c))).
Proof.
  induction bs as [|b bs IH] using rev_ind; [by left|]. rewrite import_all_snoc.
  assert (client_finalized_hash (import_block b (import_all bs c)).2 = client_finalized_hash (import_all bs c) ∨
    client_finalized_hash (import_block b (import_all bs c)).2 ≠ client_finalized_hash (import_all bs c)) as [Heq|Hne]
    by (destruct (decide (client_finalized_hash (import_block b (import_all bs c)).2 = client_finalized_hash (import_all bs c))); auto).
  - rewrite Heq. destruct IH as [IH|(bs1 & b' & bs2 & -> & IH)]; [by left|right].
    exists bs1, b', (bs2 ++ [b]). split; [by rewrite <- app_assoc|exact IH].
  - right. exists bs, b, []. split; [done|]. destruct (import_finalizes b (import_all bs c)) as [Heq|[Heq|Hrt]]; [done| |by right].
    left. split; [exact Heq|]. by rewrite <- Heq.
Qed.
End ImportProps.

(** ** The engine over the pallet *)

Section Chain.
Context {Client Hash Params Check R E Id Sig Origin : Type} `{EqDecision Hash} `{EqDecision Id}.
Context `{CC : !CasperClient Client Hash Params Check R E} `{CL : !CasperClientLaws Client Hash Params Check R E}.
Context `{PC : PalletConfig Hash Id Sig Origin} `{AM : ArithMode}.

(** The runtime answers with the pallet: the state after a block is reached
    from the genesis of the validators by calls of the pallet. *)
Record pallet_runtime (vs : list (Id * Z)) (pallet_at : Hash → System Hash * Casper Hash Id) : Prop := {
  pr_finalized : ∀ h c x, runtime_finalized_block h c = Ok x → x = finalized_block (pallet_at h).1 (pallet_at h).2;
  pr_reached : ∀ h, rtc pallet_step (casper_genesis vs) (pallet_at h).2;
}.

Lemma casper_genesis_ok vs : casper_ok (Hash:=Hash) (Id:=Id) (casper_genesis vs).
Proof. by split. Qed.

(** C16: Whatever blocks are imported through the engine, in whatever order and
    with whatever failures, the block that is finalized in the end was so from
    the start, or was finalized by the client's own import of one of the blocks,
    before the engine acts, or is the finalized block of the pallet in the state
    of the parent of a block that the client has imported, a state whose
    finalized epoch is at most its justified epochs and none of whose epochs is
    behind genesis: the engine itself finalizes nothing else. *)
Theorem client_follows_pallet (vs : list (Id * Z)) (pallet_at : Hash → System Hash * Casper Hash Id)
  (bs : list Params) (c : Client) :
  pallet_runtime vs pallet_at →
  client_finalized_hash (import_all bs c) = client_finalized_hash c ∨
  ∃ bs1 b bs2, bs = bs1 ++ b :: bs2 ∧
    let c0 := import_all bs1 c in
    (client_finalized_hash (import_all bs c) = client_finalized_hash (client_import b c0).2 ∧
       client_finalized_hash (client_import b c0).2 ≠ client_finalized_hash c0 ∨
     ∃ r sys s, (client_import b c0).1 = Ok r ∧ is_imported r = true ∧
       pallet_at (params_parent_hash b) = (sys, s) ∧
       client_finalized_hash (import_all bs c) = finalized_block sys s ∧
       casper_ok s ∧ casper_le (casper_genesis vs) s).
Proof.
  intros [Hfin Hreach]. destruct (import_all_finalizes bs c) as [Heq|(bs1 & b & bs2 & Hbs & Hor)]; [by left|]. right.
  exists bs1, b, bs2. split; [done|]. destruct Hor as [Hown|(r & c1 & Himp & Hr & Hrt)]; [by left|right].
  destruct (pallet_at (params_parent_hash b)) as [sys s] eqn:Hat. exists r, sys, s.
  apply Hfin in Hrt. specialize (Hreach (params_parent_hash b)). rewrite Hat in Hrt, Hreach.
  destruct (pallet_run_ok _ _ Hreach (casper_genesis_ok vs)). by rewrite Himp.
Qed.
End Chain.

(** ** Unsigned transactions *)

Section Unsigned.
Context {Hash Id Sig Origin : Type} `{EqDecision Hash} `{EqDecision Id}.
Context `{PC : PalletConfig Hash Id Sig Origin} `{AM : ArithMode}.

(** The check of unsigned transactions does not look at signatures: an
    attestation is accepted and propagated with any signature, under the same
    tag, so a copy with a wrong signature takes the place of the signed one in
    a transaction pool; only its execution in a block fails, and changes
    nothing. *)
Theorem unsigned_signature_ignored (encode_pair : Attestation Hash Id * Attestation Hash Id → list Z)
  (sys : System Hash) (origin : Origin) (a : Attestation Hash Id) (sig forged : Sig) (s : Casper Hash Id) :
  ensure_none origin = Ok tt → verify (validator_id a) (encode a) forged = false →
  validate_unsigned encode_pair (CallAttest a forged) = validate_unsigned encode_pair (CallAttest a sig) ∧
  (∃ t, validate_unsigned encode_pair (CallAttest a forged) = Ok t ∧ propagate t = true) ∧
  ∃ e, dispatch sys origin (CallAttest a forged) s = (Err e, s).
Proof.
  intros Ho Hv. split; [done|]. split; [by eexists|]. cbn [dispatch]. unfold attest, lift, get, mbind, M_bind.
  rewrite Ho. unfold require. destruct (existsb _ (validators s)); [|by eexists]. rewrite Hv. by eexists.
Qed.
End Unsigned.

(** ** Witnesses *)

(** A client that imports every block and finalizes every block but 13; a
    block is the hash of its parent. *)
#[local] Instance toy_client : CasperClient Z Z Z Z bool string := {|
  params_parent_hash := id;
  client_import := λ _, mret true;
  client_check := λ _, mret true;
  is_imported := id;
  runtime_finalized_block := λ h _, Ok (finalized_block (toy_system h) (casper_genesis (Id:=Z) []));
  client_finalized_hash := id;
  client_finalize := λ h c, if h =? 13 then (Err "refused"%string, c) else (Ok tt, h);
|}.

#[local] Instance toy_client_laws : CasperClientLaws Z Z Z Z bool string.
Proof.
  split; cbn.
  - intros h c c'. destruct (h =? 13); congruence.
  - intros h c e c'. destruct (h =? 13); congruence.
  - intros h c. destruct (h =? 13); eexists; [right|left]; eauto.
  - intros h c. left. by eexists.
Qed.

Lemma import_block_correct_witness : client_finalized_hash (import_block 5 (-1)).2 = 0.
Proof.
  destruct (proj1 (proj2 (import_block_correct (CC:=toy_client) (CL:=toy_client_laws) 5 (-1))) true (-1) 0 eq_refl eq_refl eq_refl) as [H|[[e H] _]].
  - exact H.
  - discriminate H.
Defined.

Lemma client_follows_pallet_witness :
  client_finalized_hash (CasperClient:=toy_client) (import_all (CC:=toy_client) [5; 6] (-1)) = 0 ∧
  ∃ b sys s, b ∈ [5; 6] ∧ (toy_system b, casper_genesis (Id:=Z) []) = (sys, s) ∧
    client_finalized_hash (CasperClient:=toy_client) (import_all (CC:=toy_client) [5; 6] (-1)) = finalized_block sys s ∧ casper_ok s.
Proof.
  split; [vm_compute; reflexivity|].
  destruct (client_follows_pallet (CC:=toy_client) (CL:=toy_client_laws) (PC:=toy_pallet) (AM:=true) []
    (λ h, (toy_system h, casper_genesis [])) [5; 6] (-1)) as [Heq|(bs1 & b & bs2 & Hbs & [[_ Hne]|(r & sys & s & _ & _ & Hat & Hf & Hok & _)])].
  - split; [intros h c x Hx; by injection Hx as <-|intros h; apply rtc_refl].
  - vm_compute in Heq. discriminate Heq.
  - destruct (Hne eq_refl).
  - exists b, sys, s. split; [rewrite Hbs; apply elem_of_app; right; left|]. exact (conj Hat (conj Hf Hok)).
Defined.

(** A pallet where only the signature 1 is valid *)
#[local] Instance signed_pallet : PalletConfig Z Z Z unit := {|
  verify := λ _ _ sig, sig =? 1;
  sign := λ _ _, Some 1;
  encode := λ a, [validator_id a; epoch (source a); epoch (target a)];
  ensure_none := λ _, Ok tt;
  local_keys := [];
  number_succ := λ n, Ok (n + 1);
  Extrinsic := Attestation Z Z * Z;
  new_unsigned := λ a sig, Some (a, sig);
  submit_transaction := λ _, true;
|}.

Lemma unsigned_signature_ignored_witness :
  let a := mkAttestation 0 (mkCheckpoint 0 0) (mkCheckpoint 1 10) in
  ∃ e, dispatch (H:=true) (toy_system 11) tt (CallAttest a 7) toy_epoch1 = (Err e, toy_epoch1).
Proof.
  intros a. exact (proj2 (proj2 (unsigned_signature_ignored (AM:=true) (λ _, []) (toy_system 11) tt a 1 7 toy_epoch1
    eq_refl eq_refl))).
Defined.
