(* ===== verification/Ssz.v ===== *)
(** * SimpleSerialize: the crate [utils/ssz]

    A type of the crate implements three traits: [Codec] (its size, when it is
    fixed), [Encode] and [Decode].  Here an implementation is a value of
    [SszType], and one definition per [impl] builds it: [basic.rs] (integers
    and booleans), [series.rs] (offsets and parts), [utils.rs] (sequences),
    [fixed.rs] and [variable.rs] (arrays, lists and bit fields), and the code
    that [derive/src/lib.rs] generates for a struct, as a combinator over the
    list of its fields.  [GenericArray], [VecArray], [MaxVec] and [Vec] are
    lists; [Compact] and [CompactRef] select the implementation.

    [SszLaws] states what an implementation promises: decoding an encoded
    value gives it back, the encoding has the declared size and consists of
    bytes.  Every implementation is an instance of it. *)
From stdpp Require Import base numbers list.
From Stdlib Require Import ZArith Lia.
From Stdlib Require String.
From S2P Require Import Prelude Config.

#[local] Open Scope Z_scope.

(** Error type for encoding and decoding. *)
Inductive SszError : Type :=
  | IncorrectSize
  | InvalidType
  | InvalidLength
  | ListTooLarge
  | OtherError (msg : String.string).

(** ** Sizes: [None] is a variable-sized type *)
Notation Size := (option Z) (only parsing).

Definition is_fixed (s : Size) : bool := match s with Some _ => true | None => false end.
Definition is_variable (s : Size) : bool := match s with Some _ => false | None => true end.

Definition size_add (a b : Size) : Size :=
  match a, b with Some a, Some b => Some (a + b) | _, _ => None end.
Definition size_mul (a b : Size) : Size :=
  match a, b with Some a, Some b => Some (a * b) | _, _ => None end.
Definition size_div (a b : Size) : Size :=
  match a, b with Some a, Some b => Some (a / b) | _, _ => None end.

(** ** Implementations *)
Record SszType (A : Type) := mkSszType {
  ssz_size : Size;
  ssz_encode : A → Bytes;
  ssz_decode : Bytes → res SszError A;
}.
Arguments mkSszType {A} _ _ _.
Arguments ssz_size {A} _.
Arguments ssz_encode {A} _ _.
Arguments ssz_decode {A} _ _.

(** [impl_builtin_uint!]: an unsigned integer of [n] bytes, little endian. *)
Definition ssz_uint (n : nat) : SszType Z := {|
  ssz_size := Some (Z.of_nat n);
  ssz_encode := λ z, to_le_bytes n z;
  ssz_decode := λ value,
    if negb (Nat.eqb (length value) n) then Err IncorrectSize
    else Ok (from_le_bytes value);
|}.

Definition ssz_u8 : SszType Z := ssz_uint 1.
Definition ssz_u32 : SszType Z := ssz_uint 4.
Definition ssz_u64 : SszType Z := ssz_uint 8.

Definition ssz_bool : SszType bool := {|
  ssz_size := Some 1;
  ssz_encode := λ b : bool, ssz_encode ssz_u8 (if b then 1 else 0);
  ssz_decode := λ value,
    v ← ssz_decode ssz_u8 value;
    if v =? 1 then Ok true else if v =? 0 then Ok false else Err InvalidType;
|}.

(** ** Series *)

(** Item in a ssz series. *)
Inductive SeriesItem : Type :=
  | FixedItem (b : Bytes)
  | VariableItem (b : Bytes).

(** [LengthOffset] is [u32]: four bytes. *)
Definition LengthOffset : SszType Z := ssz_u32.
Definition offset_len : Z := zlen (ssz_encode LengthOffset 0).

(** [as LengthOffset] *)
Definition as_u32 (z : Z) : Z := z mod 2 ^ 32.

(** The size of the fixed parts.  The sums of lengths of vectors in memory do
    not overflow a [usize]. *)
Definition fixed_part_size (part : SeriesItem) : Z :=
  match part with FixedItem fixed => zlen fixed | VariableItem _ => offset_len end.
Definition fixed_parts_size (parts : list SeriesItem) : Z :=
  foldl (λ acc part, acc + fixed_part_size part) 0 parts.

Fixpoint encode_fixed_parts (offset : Z) (parts : list SeriesItem) : Bytes :=
  match parts with
  | [] => []
  | FixedItem fixed :: parts' => fixed ++ encode_fixed_parts offset parts'
  | VariableItem variable :: parts' =>
      ssz_encode LengthOffset (as_u32 offset) ++ encode_fixed_parts (offset + zlen variable) parts'
  end.

Fixpoint encode_variable_parts (parts : list SeriesItem) : Bytes :=
  match parts with
  | [] => []
  | FixedItem _ :: parts' => encode_variable_parts parts'
  | VariableItem variable :: parts' => variable ++ encode_variable_parts parts'
  end.

(** [Series::encode] *)
Definition series_encode (parts : list SeriesItem) : Bytes :=
  encode_fixed_parts (fixed_parts_size parts) parts ++ encode_variable_parts parts.

(** The first loop of [Series::decode_vector]: the fixed items, empty variable
    items, and the queue of offsets. *)
Fixpoint vector_fixed_parts (value : Bytes) (typs : list Size) (pos : Z)
  : res SszError (list SeriesItem * list Z) :=
  match typs with
  | [] => Ok ([], [])
  | Some fixed_len :: typs' =>
      fixed ← slice value pos (pos + fixed_len);
      '(ret, variable_offsets) ← vector_fixed_parts value typs' (pos + fixed_len);
      Ok (FixedItem fixed :: ret, variable_offsets)
  | None :: typs' =>
      bytes ← slice value pos (pos + offset_len);
      offset ← ssz_decode LengthOffset bytes;
      '(ret, variable_offsets) ← vector_fixed_parts value typs' (pos + offset_len);
      Ok (VariableItem [] :: ret, offset :: variable_offsets)
  end.

(** [variable_offsets.front().map(|v| *v as usize).unwrap_or(value.len())] *)
Definition next_offset (value : Bytes) (variable_offsets : list Z) : Z :=
  default (zlen value) (head variable_offsets).

(** The second loop: every variable item takes the bytes up to the next
    offset. *)
Fixpoint vector_variable_parts (value : Bytes) (ret : list SeriesItem) (variable_offsets : list Z)
  : res SszError (list SeriesItem) :=
  match ret with
  | [] => Ok []
  | FixedItem fixed :: ret' =>
      parts ← vector_variable_parts value ret' variable_offsets;
      Ok (FixedItem fixed :: parts)
  | VariableItem part :: ret' =>
      match variable_offsets with
      | [] => Panic
      | offset :: offsets' =>
          bytes ← slice value offset (next_offset value offsets');
          parts ← vector_variable_parts value ret' offsets';
          Ok (VariableItem (part ++ bytes) :: parts)
      end
  end.

(** [Series::decode_vector] *)
Definition decode_vector (value : Bytes) (typs : list Size) : res SszError (list SeriesItem) :=
  '(ret, variable_offsets) ← vector_fixed_parts value typs 0;
  vector_variable_parts value ret variable_offsets.

(** [Series::decode_list]: the loop of a fixed-sized element type. *)
Fixpoint list_fixed_parts (fuel : nat) (value : Bytes) (fixed_len pos : Z) : res SszError (list SeriesItem) :=
  if pos + fixed_len <=? zlen value then
    match fuel with
    | O => OutOfFuel
    | S fuel' =>
        fixed ← slice value pos (pos + fixed_len);
        ret ← list_fixed_parts fuel' value fixed_len (pos + fixed_len);
        Ok (FixedItem fixed :: ret)
    end
  else Ok [].

(** The loop that reads the offsets of a variable-sized element type; [front]
    is the front of the queue. *)
Fixpoint list_offsets (fuel : nat) (value : Bytes) (front : option Z) (pos : Z) : res SszError (list Z) :=
  if (pos + offset_len <=? zlen value) &&
     match front with Some f => pos + offset_len <=? f | None => true end then
    match fuel with
    | O => OutOfFuel
    | S fuel' =>
        bytes ← slice value pos (pos + offset_len);
        offset ← ssz_decode LengthOffset bytes;
        offsets ← list_offsets fuel' value (Some (default offset front)) (pos + offset_len);
        Ok (offset :: offsets)
    end
  else Ok [].

(** [while let Some(offset) = variable_offsets.pop_front()] *)
Fixpoint list_variable_parts (value : Bytes) (variable_offsets : list Z) : res SszError (list SeriesItem) :=
  match variable_offsets with
  | [] => Ok []
  | offset :: offsets' =>
      bytes ← slice value offset (next_offset value offsets');
      ret ← list_variable_parts value offsets';
      Ok (VariableItem bytes :: ret)
  end.

(** [Series::decode_list].  Every iteration of either loop moves [pos] by the
    size of an item, so one more iteration than there are bytes is enough
    whenever that size is not zero. *)
Definition decode_list_fuel (value : Bytes) : nat := S (length value).
Definition decode_series_list (value : Bytes) (typ : Size) : res SszError (list SeriesItem) :=
  match typ with
  | Some fixed_len => list_fixed_parts (decode_list_fuel value) value fixed_len 0
  | None =>
      offsets ← list_offsets (decode_list_fuel value) value None 0;
      list_variable_parts value offsets
  end.

(** ** Sequences: [utils.rs] *)

(** An item of a series, for a type of the given size. *)
Definition series_item (s : Size) (b : Bytes) : SeriesItem :=
  if is_fixed s then FixedItem b else VariableItem b.

Definition encode_list {A} (c : SszType A) (values : list A) : Bytes :=
  series_encode ((λ value, series_item (ssz_size c) (ssz_encode c value)) <$> values).

(** Decode an item whose kind must be that of the type. *)
Definition decode_item {A} (s : Size) (decode : Bytes → res SszError A) (part : SeriesItem) : res SszError A :=
  match part with
  | FixedItem fixed => if is_fixed s then decode fixed else Err InvalidType
  | VariableItem variable => if is_variable s then decode variable else Err InvalidType
  end.

Definition decode_list {A} (c : SszType A) (value : Bytes) : res SszError (list A) :=
  series ← decode_series_list value (ssz_size c);
  res_map (decode_item (ssz_size c) (ssz_decode c)) series.

(** ** Arrays and lists: [fixed.rs] and [variable.rs] *)

(** [if decoded.len() != L::to_usize() { return Err(InvalidLength) }]; the
    loop that follows copies the elements.  [GenericArray::from_exact_iter]
    and [VecArray::try_from] fail on another length, too. *)
Definition exact_len {A} (L : Z) (decoded : list A) : res SszError (list A) :=
  if zlen decoded =? L then Ok decoded else Err InvalidLength.

(** [if decoded.len() > ML::to_usize() { return Err(ListTooLarge) }] *)
Definition max_len {A} (ML : Z) (decoded : list A) : res SszError (list A) :=
  if ML <? zlen decoded then Err ListTooLarge else Ok decoded.

(** [Compact<GenericArray<uint, L>>] and [Compact<VecArray<uint, L>>] *)
Definition ssz_compact_uint_array (n : nat) (L : Z) : SszType (list Z) := {|
  ssz_size := size_mul (ssz_size (ssz_uint n)) (Some L);
  ssz_encode := encode_list (ssz_uint n);
  ssz_decode := λ value, decoded ← decode_list (ssz_uint n) value; exact_len L decoded;
|}.

(** [GenericArray<T, L>] *)
Definition ssz_generic_array {A} (c : SszType A) (L : Z) : SszType (list A) := {|
  ssz_size := size_mul (ssz_size c) (Some L);
  ssz_encode := encode_list c;
  ssz_decode := λ value, decoded ← decode_list c value; exact_len L decoded;
|}.

(** [VecArray<T, L>] *)
Definition ssz_vec_array {A} (c : SszType A) (L : Z) : SszType (list A) := {|
  ssz_size := size_mul (ssz_size c) (Some L);
  ssz_encode := encode_list c;
  ssz_decode := λ value, decoded ← decode_list c value; exact_len L decoded;
|}.

(** [Compact<Vec<uint>>] *)
Definition ssz_compact_uint_vec (n : nat) : SszType (list Z) := {|
  ssz_size := None;
  ssz_encode := encode_list (ssz_uint n);
  ssz_decode := decode_list (ssz_uint n);
|}.

(** [Compact<MaxVec<uint, ML>>] *)
Definition ssz_compact_uint_maxvec (n : nat) (ML : Z) : SszType (list Z) := {|
  ssz_size := None;
  ssz_encode := encode_list (ssz_uint n);
  ssz_decode := λ value, decoded ← decode_list (ssz_uint n) value; max_len ML decoded;
|}.

(** [Vec<T>] *)
Definition ssz_vec {A} (c : SszType A) : SszType (list A) := {|
  ssz_size := None;
  ssz_encode := encode_list c;
  ssz_decode := decode_list c;
|}.

(** [MaxVec<T, ML>] *)
Definition ssz_maxvec {A} (c : SszType A) (ML : Z) : SszType (list A) := {|
  ssz_size := None;
  ssz_encode := encode_list c;
  ssz_decode := λ value, ret ← decode_list c value; max_len ML ret;
|}.

(** [H256], and the hashes of [impl_beacon_fixed_hash!] *)
Definition ssz_H256 : SszType H256 := {|
  ssz_size := ssz_size (ssz_compact_uint_array 1 32);
  ssz_encode := ssz_encode (ssz_compact_uint_array 1 32);
  ssz_decode := ssz_decode (ssz_compact_uint_array 1 32);
|}.

Definition ssz_fixed_hash (SIZE : Z) : SszType Bytes := {|
  ssz_size := Some SIZE;
  ssz_encode := ssz_encode (ssz_compact_uint_array 1 SIZE);
  ssz_decode := ssz_decode (ssz_compact_uint_array 1 SIZE);
|}.

Definition ssz_ValidatorId : SszType ValidatorId := ssz_fixed_hash 48.
Definition ssz_Signature : SszType Signature := ssz_fixed_hash 96.
Definition ssz_Version : SszType Version := ssz_fixed_hash 4.

(** ** Bit fields *)

(** [bytes[i / 8] |= (bit as u8) << (i % 8)]; the callers make [bytes] long
    enough for every [i]. *)
Definition or_bit (bytes : Bytes) (i : Z) (bit : bool) : Bytes :=
  alter (λ byte, Z.lor byte (Z.shiftl (if bit then 1 else 0) (i mod 8))) (Z.to_nat (i / 8)) bytes.

(** [for i in 0..self.0.len() { bytes[i / 8] |= .. }] *)
Definition or_bits (bytes : Bytes) (bits : list bool) : Bytes :=
  foldl (λ bytes '(i, bit), or_bit bytes i bit) bytes (enumerate bits).

(** [value[i / 8] & (1 << (i % 8)) != 0] for [i] in [0..len] *)
Definition read_bit (value : Bytes) (i : Z) : res SszError bool :=
  if zlen value <=? i / 8 then Err IncorrectSize
  else byte ← vec_index value (i / 8); Ok (negb (Z.land byte (Z.shiftl 1 (i mod 8)) =? 0)).

(** [Compact<GenericArray<bool, L>>] and [Compact<VecArray<bool, L>>] *)
Definition ssz_bitvector (L : Z) : SszType (list bool) := {|
  ssz_size := size_div (size_add (Some L) (Some 7)) (Some 8);
  ssz_encode := λ bits, or_bits (replicate (Z.to_nat ((zlen bits + 7) / 8)) 0) bits;
  ssz_decode := λ value, res_map (read_bit value) (zrange 0 L);
|}.

(** [u8::leading_zeros] *)
Definition leading_zeros (byte : Z) : Z := if byte =? 0 then 8 else 7 - Z.log2 byte.

(** [Compact<Vec<bool>>]: a set bit after the last one marks the length. *)
Definition ssz_bitlist `{ArithMode} : SszType (list bool) := {|
  ssz_size := None;
  ssz_encode := λ bits,
    let bytes := or_bits (replicate (Z.to_nat ((zlen bits + 1 + 7) / 8)) 0) bits in
    or_bit bytes (zlen bits) true;
  ssz_decode := λ value,
    last ← u64_sub (zlen value) 1;
    whole ← u64_mul last 8;
    byte ← vec_index value last;
    rest ← u64_sub 7 (leading_zeros byte);
    len ← u64_add whole rest;
    res_map (read_bit value) (zrange 0 len);
|}.

(** [Compact<MaxVec<bool, ML>>] *)
Definition ssz_bitlist_maxvec `{ArithMode} (ML : Z) : SszType (list bool) := {|
  ssz_size := None;
  ssz_encode := ssz_encode ssz_bitlist;
  ssz_decode := λ value, decoded ← ssz_decode ssz_bitlist value; max_len ML decoded;
|}.

(** ** Structs: the derive macro

    A field of type [#ty], marked [#[bm(compact)]] or not, has two sizes: that
    of [#ty], which the derived [Codec] and the choice between fixed and
    variable items use, and that of the implementation that encodes it, which
    the derived [Decode] passes to [decode_vector]. *)
Record Field (A : Type) := mkField {
  field_ty_size : Size;
  field_codec : SszType A;
}.
Arguments mkField {A} _ _.
Arguments field_ty_size {A} _.
Arguments field_codec {A} _.

Definition plain {A} (c : SszType A) : Field A := mkField (ssz_size c) c.
Definition compact {A} (ty c : SszType A) : Field A := mkField (ssz_size ty) c.

(** The fields of a struct, in order; its values as nested pairs. *)
Inductive Fields : Type → Type :=
  | one_field {A} (f : Field A) : Fields A
  | more_fields {A B} (f : Field A) (fs : Fields B) : Fields (A * B).

(** [type Size = ssz::sum!(..)]: the macro nests [Add] to the right. *)
Fixpoint fields_ty_size {T} (fs : Fields T) : Size :=
  match fs with
  | one_field f => field_ty_size f
  | more_fields f fs' => size_add (field_ty_size f) (fields_ty_size fs')
  end.

(** [series.0.push(..)] for every field *)
Definition field_item {A} (f : Field A) (x : A) : SeriesItem :=
  series_item (field_ty_size f) (ssz_encode (field_codec f) x).

Fixpoint fields_series {T} (fs : Fields T) : T → list SeriesItem :=
  match fs with
  | one_field f => λ x, [field_item f x]
  | more_fields f fs' => λ x, field_item f x.1 :: fields_series fs' x.2
  end.

(** [let types = [..]] *)
Fixpoint fields_types {T} (fs : Fields T) : list Size :=
  match fs with
  | one_field f => [ssz_size (field_codec f)]
  | more_fields f fs' => ssz_size (field_codec f) :: fields_types fs'
  end.

(** [match &series.0[i] { .. }] for every field *)
Definition decode_field {A} (f : Field A) (series : list SeriesItem) (i : Z) : res SszError A :=
  part ← vec_index series i;
  decode_item (field_ty_size f) (ssz_decode (field_codec f)) part.

Fixpoint decode_fields {T} (fs : Fields T) : list SeriesItem → Z → res SszError T :=
  match fs with
  | one_field f => λ series i, decode_field f series i
  | more_fields f fs' => λ series i,
      x ← decode_field f series i;
      y ← decode_fields fs' series (i + 1);
      Ok (x, y)
  end.

(** [#[derive(Codec, Encode, Decode)]] on a struct [A] whose fields are [T] *)
Definition ssz_struct {A T} (fs : Fields T) (to : A → T) (from : T → A) : SszType A := {|
  ssz_size := fields_ty_size fs;
  ssz_encode := λ x, series_encode (fields_series fs (to x));
  ssz_decode := λ value,
    series ← decode_vector value (fields_types fs);
    x ← decode_fields fs series 0;
    Ok (from x);
|}.

(** ** What an implementation promises

    [valid] describes the values of the Rust type: the ranges of integers, the
    lengths of arrays, and that offsets fit in four bytes. *)
Class SszLaws {A} (c : SszType A) (valid : A → Prop) : Prop := {
  ssz_decode_encode : ∀ x, valid x → ssz_decode c (ssz_encode c x) = Ok x;
  ssz_encode_size : ∀ x n, valid x → ssz_size c = Some n → zlen (ssz_encode c x) = n;
  ssz_encode_bytes : ∀ x, valid x → Forall is_u8 (ssz_encode c x);
  ssz_size_pos : ∀ n, ssz_size c = Some n → 0 < n;
}.

(** ** Integers and booleans *)

Definition is_uint (n : nat) (z : Z) : Prop := 0 ≤ z < 256 ^ Z.of_nat n.

#[global] Instance ssz_uint_laws n : SszLaws (ssz_uint (S n)) (is_uint (S n)).
Proof.
  split; unfold ssz_uint; cbn [ssz_decode ssz_encode ssz_size].
  - intros z Hz. by rewrite to_le_bytes_length, Nat.eqb_refl, from_to_le_bytes, Z.mod_small.
  - intros z m _ [= <-]. unfold zlen. by rewrite to_le_bytes_length.
  - intros z _. apply to_le_bytes_u8.
  - intros m [= <-]. lia.
Qed.

#[global] Instance ssz_bool_laws : SszLaws ssz_bool (λ _, True).
Proof. split; [by intros []|by intros [] n _ [= <-]|intros []; by repeat constructor|by intros n [= <-]]. Qed.

(** ** Series *)

Lemma zlen_app {A} (l k : list A) : zlen (l ++ k) = zlen l + zlen k.
Proof. unfold zlen. rewrite length_app. lia. Qed.

Lemma slice_mid {E A} (p x q : list A) a b :
  a = zlen p → b = zlen p + zlen x → slice (p ++ x ++ q) a b = Ok (E:=E) x.
Proof.
  intros -> ->. unfold slice, zlen. rewrite !length_app.
  rewrite (proj2 (Z.leb_le _ _)), (proj2 (Z.leb_le _ _)) by lia. cbn.
  rewrite Nat2Z.id, drop_app_length, Z.add_simpl_l, Nat2Z.id. by rewrite take_app_length.
Qed.

Lemma offset_len_4 : offset_len = 4.
Proof. done. Qed.

Lemma offset_roundtrip o :
  0 ≤ o < 2 ^ 32 → ssz_decode LengthOffset (ssz_encode LengthOffset (as_u32 o)) = Ok o.
Proof.
  intros Ho. unfold as_u32. rewrite Z.mod_small by done.
  apply (ssz_decode_encode (c:=ssz_uint 4)). exact Ho.
Qed.

Lemma offset_encode_len o : zlen (ssz_encode LengthOffset o) = 4.
Proof. unfold LengthOffset, ssz_u32, ssz_uint, zlen. cbn [ssz_encode]. by rewrite to_le_bytes_length. Qed.

(** The type that a decoder needs to read an item back. *)
Definition item_typ (part : SeriesItem) : Size :=
  match part with FixedItem b => Some (zlen b) | VariableItem _ => None end.
Definition item_bytes (part : SeriesItem) : Bytes :=
  match part with FixedItem b | VariableItem b => b end.
Definition cleared (part : SeriesItem) : SeriesItem :=
  match part with FixedItem b => FixedItem b | VariableItem _ => VariableItem [] end.

Fixpoint offsets_from (o : Z) (parts : list SeriesItem) : list Z :=
  match parts with
  | [] => []
  | FixedItem _ :: parts' => offsets_from o parts'
  | VariableItem b :: parts' => o :: offsets_from (o + zlen b) parts'
  end.

Lemma fixed_parts_acc acc parts :
  foldl (λ acc part, acc + fixed_part_size part) acc parts = acc + fixed_parts_size parts.
Proof.
  revert acc. unfold fixed_parts_size. induction parts as [|x parts IH]; intros acc; cbn [foldl]; [lia|].
  rewrite (IH (acc + _)), (IH (0 + _)). lia.
Qed.

Lemma fixed_parts_size_cons part parts :
  fixed_parts_size (part :: parts) = fixed_part_size part + fixed_parts_size parts.
Proof. unfold fixed_parts_size at 1. cbn [foldl]. apply fixed_parts_acc. Qed.

Lemma encode_fixed_parts_len o parts : zlen (encode_fixed_parts o parts) = fixed_parts_size parts.
Proof.
  revert o. induction parts as [|[b|b] parts IH]; intros o; [done|..]; cbn [encode_fixed_parts];
    rewrite zlen_app, IH, fixed_parts_size_cons; [done|]. by rewrite offset_encode_len.
Qed.

Lemma series_encode_len parts :
  zlen (series_encode parts) = fixed_parts_size parts + zlen (encode_variable_parts parts).
Proof. unfold series_encode. by rewrite zlen_app, encode_fixed_parts_len. Qed.

Lemma encode_fixed_parts_u8 o parts :
  Forall (λ part, Forall is_u8 (item_bytes part)) parts → Forall is_u8 (encode_fixed_parts o parts).
Proof.
  intros H. revert o. induction H as [|[b|b] parts Hb _ IH]; intros o; [done|..];
    cbn [encode_fixed_parts]; apply Forall_app; split; auto. apply to_le_bytes_u8.
Qed.

Lemma series_encode_u8 parts :
  Forall (λ part, Forall is_u8 (item_bytes part)) parts → Forall is_u8 (series_encode parts).
Proof.
  intros H. unfold series_encode. apply Forall_app. split; [by apply encode_fixed_parts_u8|].
  induction H as [|[b|b] parts Hb _ IH]; [done|done|]. cbn. by apply Forall_app.
Qed.

(** The offsets of a series fit in [LengthOffset]. *)
Lemma next_offset_from value o parts :
  zlen value = o + zlen (encode_variable_parts parts) → next_offset value (offsets_from o parts) = o.
Proof.
  unfold next_offset. induction parts as [|[b|b] parts IH]; cbn; [unfold zlen; cbn; lia|done|done].
Qed.

Lemma vector_fixed_parts_ok p q o parts :
  0 ≤ o → (None ∈ item_typ <$> parts → o + zlen (encode_variable_parts parts) < 2 ^ 32) →
  vector_fixed_parts (p ++ encode_fixed_parts o parts ++ q) (item_typ <$> parts) (zlen p) =
    Ok (cleared <$> parts, offsets_from o parts).
Proof.
  revert p o. induction parts as [|[b|b] parts IH]; intros p o Ho Hlen; [done|..];
    cbn [fmap list_fmap item_typ encode_fixed_parts vector_fixed_parts encode_variable_parts] in *.
  - rewrite <- app_assoc, slice_mid by done. cbn [mbind res_bind].
    rewrite (assoc_L (++)), <- zlen_app, IH; [done|done|]. intros Hn. apply Hlen. by right.
  - rewrite zlen_app in Hlen. specialize (Hlen ltac:(left)). pose proof (zlen_nonneg b). pose proof (zlen_nonneg (encode_variable_parts parts)).
    rewrite <- app_assoc, slice_mid by (done || by rewrite offset_encode_len). cbn [mbind res_bind].
    rewrite offset_roundtrip by lia. cbn [mbind res_bind].
    rewrite (assoc_L (++)).
    replace (zlen p + offset_len) with (zlen (p ++ ssz_encode LengthOffset (as_u32 o)))
      by by rewrite zlen_app, offset_encode_len.
    rewrite IH; [done|lia|lia].
Qed.

Lemma vector_variable_parts_ok p parts :
  vector_variable_parts (p ++ encode_variable_parts parts) (cleared <$> parts) (offsets_from (zlen p) parts) =
    Ok parts.
Proof.
  revert p. induction parts as [|[b|b] parts IH]; intros p; [done|..];
    cbn [fmap list_fmap cleared encode_variable_parts offsets_from vector_variable_parts].
  - by rewrite IH.
  - rewrite next_offset_from by (rewrite !zlen_app; lia).
    rewrite slice_mid by done. cbn [mbind res_bind]. rewrite (assoc_L (++)), <- zlen_app, IH. done.
Qed.

Lemma decode_vector_encode parts :
  (None ∈ item_typ <$> parts → zlen (series_encode parts) < 2 ^ 32) →
  decode_vector (series_encode parts) (item_typ <$> parts) = Ok parts.
Proof.
  rewrite series_encode_len. intros Hlen. unfold decode_vector, series_encode.
  pose proof (zlen_nonneg (encode_fixed_parts 0 parts)) as H0. rewrite encode_fixed_parts_len in H0.
  pose proof (vector_fixed_parts_ok [] (encode_variable_parts parts) (fixed_parts_size parts) parts H0 Hlen) as Hv.
  change (zlen []) with 0 in Hv. cbn [app] in Hv. rewrite Hv. cbn [mbind res_bind].
  by rewrite <- (encode_fixed_parts_len (fixed_parts_size parts) parts) at 2; rewrite vector_variable_parts_ok.
Qed.

(** A list of fixed-sized elements is their concatenation. *)
Lemma encode_fixed_list o (bs : list Bytes) : encode_fixed_parts o (FixedItem <$> bs) = concat bs.
Proof. induction bs as [|b bs IH]; cbn; [done|]. by rewrite IH. Qed.

Lemma encode_variable_fixed_list (bs : list Bytes) : encode_variable_parts (FixedItem <$> bs) = [].
Proof. by induction bs. Qed.

Lemma series_encode_fixed_list (bs : list Bytes) : series_encode (FixedItem <$> bs) = concat bs.
Proof. unfold series_encode. by rewrite encode_fixed_list, encode_variable_fixed_list, app_nil_r. Qed.

Lemma encode_variable_list (bs : list Bytes) : encode_variable_parts (VariableItem <$> bs) = concat bs.
Proof. induction bs as [|b bs IH]; cbn; [done|]. by rewrite IH. Qed.

Lemma fixed_parts_size_variable (bs : list Bytes) :
  fixed_parts_size (VariableItem <$> bs) = 4 * zlen bs.
Proof.
  induction bs as [|b bs IH]; [done|]. cbn [fmap list_fmap].
  rewrite fixed_parts_size_cons, IH. unfold zlen. cbn [length fixed_part_size]. rewrite offset_len_4. lia.
Qed.

Lemma list_fixed_parts_ok fuel n p (bs : list Bytes) (rest : Bytes) :
  0 < n → Forall (λ b, zlen b = n) bs → zlen rest < n → (length bs ≤ fuel)%nat →
  list_fixed_parts fuel (p ++ concat bs ++ rest) n (zlen p) = Ok (FixedItem <$> bs).
Proof.
  intros Hn Hbs Hrest. revert fuel p. induction Hbs as [|b bs Hb _ IH]; intros fuel p Hf.
  - cbn [concat app]. destruct fuel; cbn [list_fixed_parts];
      by rewrite (proj2 (Z.leb_gt _ _)) by (rewrite zlen_app; lia).
  - destruct fuel as [|fuel]; [cbn in Hf; lia|]. cbn [list_fixed_parts concat]. rewrite <- app_assoc.
    rewrite (proj2 (Z.leb_le _ _)) by (rewrite !zlen_app; pose proof (zlen_nonneg (concat bs ++ rest));
      rewrite zlen_app in *; lia).
    rewrite slice_mid by (done || by rewrite Hb). cbn [mbind res_bind].
    rewrite (assoc_L (++)). replace (zlen p + n) with (zlen (p ++ b)) by (rewrite zlen_app; lia).
    rewrite IH by (cbn in Hf; lia). done.
Qed.

Lemma list_offsets_ok fuel p q o front (bs : list Bytes) :
  let first := zlen p + 4 * zlen bs in
  0 ≤ o → o + zlen (concat bs) < 2 ^ 32 → first ≤ zlen (p ++ encode_fixed_parts o (VariableItem <$> bs) ++ q) →
  (bs = [] → front = None → p ++ q = []) → front = Some first ∨ front = None ∧ o = first →
  (length bs ≤ fuel)%nat →
  list_offsets fuel (p ++ encode_fixed_parts o (VariableItem <$> bs) ++ q) front (zlen p) =
    Ok (offsets_from o (VariableItem <$> bs)).
Proof.
  cbv zeta. revert fuel p o front. induction bs as [|b bs IH]; intros fuel p o front Ho Hlen Hin Hnil Hfront Hf.
  - cbn [fmap list_fmap encode_fixed_parts app offsets_from].
    destruct fuel; cbn [list_offsets]; rewrite (proj2 (andb_false_iff _ _)); try done;
      (destruct Hfront as [->|[-> _]];
       [right; apply Z.leb_gt; change (zlen []) with 0; rewrite offset_len_4; lia
       |left; rewrite Hnil by done; apply app_eq_nil in Hnil as [-> ->]; [done..]]).
  - destruct fuel as [|fuel]; [cbn in Hf; lia|].
    assert (zlen (b :: bs) = zlen bs + 1) as Hcons by (unfold zlen; cbn; lia).
    rewrite Hcons in *. cbn [concat] in Hlen. rewrite zlen_app in Hlen.
    pose proof (zlen_nonneg bs). pose proof (zlen_nonneg b). pose proof (zlen_nonneg (concat bs)).
    cbn [fmap list_fmap encode_fixed_parts offsets_from list_offsets].
    cbn [fmap list_fmap encode_fixed_parts] in Hin.
    rewrite (proj2 (andb_true_iff _ _)); [|split].
    2: { rewrite offset_len_4. apply Z.leb_le. lia. }
    2: { destruct Hfront as [->|[-> _]]; [apply Z.leb_le; rewrite offset_len_4; lia|done]. }
    rewrite <- app_assoc, slice_mid by (done || by rewrite offset_encode_len). cbn [mbind res_bind].
    rewrite offset_roundtrip by lia. cbn [mbind res_bind]. rewrite (assoc_L (++)).
    replace (zlen p + offset_len) with (zlen (p ++ ssz_encode LengthOffset (as_u32 o)))
      by by rewrite zlen_app, offset_encode_len.
    rewrite IH; [done|lia|lia|..].
    + rewrite <- app_assoc in Hin. rewrite <- app_assoc, zlen_app, offset_encode_len. lia.
    + intros _ [=].
    + left. f_equal. rewrite zlen_app, offset_encode_len. destruct Hfront as [->|[-> ->]]; cbn; lia.
    + cbn in Hf. lia.
Qed.

Lemma list_variable_parts_ok p (bs : list Bytes) :
  list_variable_parts (p ++ concat bs) (offsets_from (zlen p) (VariableItem <$> bs)) = Ok (VariableItem <$> bs).
Proof.
  revert p. induction bs as [|b bs IH]; intros p; [done|].
  cbn [fmap list_fmap offsets_from list_variable_parts concat].
  rewrite next_offset_from by (rewrite encode_variable_list, !zlen_app; lia).
  rewrite slice_mid by done. cbn [mbind res_bind]. rewrite (assoc_L (++)), <- zlen_app, IH. done.
Qed.

Lemma decode_list_fixed n (bs : list Bytes) (rest : Bytes) :
  0 < n → Forall (λ b, zlen b = n) bs → zlen rest < n →
  decode_series_list (concat bs ++ rest) (Some n) = Ok (FixedItem <$> bs).
Proof.
  intros Hn Hbs Hrest. unfold decode_series_list, decode_list_fuel.
  apply (list_fixed_parts_ok _ n [] bs); [done|done|done|]. rewrite length_app.
  enough (length bs ≤ length (concat bs))%nat by lia. clear Hrest.
  induction Hbs as [|b bs Hb _ IH]; cbn [concat length]; [lia|].
  rewrite length_app. unfold zlen in Hb. lia.
Qed.

Lemma decode_list_variable (bs : list Bytes) :
  zlen (series_encode (VariableItem <$> bs)) < 2 ^ 32 →
  decode_series_list (series_encode (VariableItem <$> bs)) None = Ok (VariableItem <$> bs).
Proof.
  rewrite series_encode_len, fixed_parts_size_variable, encode_variable_list. intros Hlen.
  pose proof (zlen_nonneg bs). unfold decode_series_list, series_encode, decode_list_fuel.
  rewrite fixed_parts_size_variable, encode_variable_list.
  set (fixed := encode_fixed_parts (4 * zlen bs) (VariableItem <$> bs)).
  assert (zlen fixed = 4 * zlen bs) as Hfixed
    by by unfold fixed; rewrite encode_fixed_parts_len, fixed_parts_size_variable.
  assert (list_offsets (S (length (fixed ++ concat bs))) (fixed ++ concat bs) None 0 =
    Ok (offsets_from (4 * zlen bs) (VariableItem <$> bs))) as ->.
  { apply (list_offsets_ok _ [] (concat bs)); change (zlen []) with 0; cbn [app]; try lia; fold fixed.
    - rewrite zlen_app, Hfixed. pose proof (zlen_nonneg (concat bs)). lia.
    - by intros ->.
    - by right.
    - rewrite length_app. unfold zlen in *. lia. }
  cbn [mbind res_bind]. by rewrite <- Hfixed, list_variable_parts_ok.
Qed.

(** ** Sequences *)

(** The length of an array is not zero. *)
Class PosLength (L : Z) : Prop := pos_length : 0 < L.
#[global] Hint Extern 0 (PosLength (Zpos _)) => reflexivity : typeclass_instances.

(** The values of a sequence: its elements, and offsets that fit. *)
Definition list_valid {A} (c : SszType A) (valid : A → Prop) (l : list A) : Prop :=
  Forall valid l ∧ (ssz_size c = None → zlen (encode_list c l) < 2 ^ 32).

Section Sequences.
Context {A} (c : SszType A) (valid : A → Prop) `{!SszLaws c valid}.

Lemma encode_list_items l :
  encode_list c l = series_encode ((if is_fixed (ssz_size c) then FixedItem else VariableItem) <$> (ssz_encode c <$> l)).
Proof. unfold encode_list, series_item. rewrite <- list_fmap_compose. by destruct (ssz_size c). Qed.

Lemma decode_items l :
  Forall valid l →
  res_map (decode_item (ssz_size c) (ssz_decode c))
    ((if is_fixed (ssz_size c) then FixedItem else VariableItem) <$> (ssz_encode c <$> l)) = Ok l.
Proof.
  induction 1 as [|x l Hx _ IH]; [done|]. cbn [fmap list_fmap res_map].
  assert (decode_item (ssz_size c) (ssz_decode c)
    ((if is_fixed (ssz_size c) then FixedItem else VariableItem) (ssz_encode c x)) = Ok x) as ->.
  { destruct (ssz_size c); apply (ssz_decode_encode x Hx). }
  cbn [mbind res_bind]. cbn [fmap list_fmap] in IH. by rewrite IH.
Qed.

Lemma encode_items_size l n :
  Forall valid l → ssz_size c = Some n → Forall (λ b, zlen b = n) (ssz_encode c <$> l).
Proof.
  intros Hl Hs. apply Forall_fmap. eapply Forall_impl; [done|]. intros x Hx. by eapply ssz_encode_size.
Qed.

Lemma decode_encode_list l : list_valid c valid l → decode_list c (encode_list c l) = Ok l.
Proof.
  intros [Hl Hoff]. unfold decode_list. pose proof (decode_items l Hl) as Hitems.
  rewrite encode_list_items in *. destruct (ssz_size c) as [n|] eqn:Hs; cbn [is_fixed] in *.
  - rewrite series_encode_fixed_list, <- (app_nil_r (concat _)).
    pose proof (ssz_size_pos n Hs). rewrite decode_list_fixed; [done|done|by apply encode_items_size|done].
  - rewrite decode_list_variable by auto. done.
Qed.

Lemma encode_list_size l n :
  Forall valid l → ssz_size c = Some n → zlen (encode_list c l) = n * zlen l.
Proof.
  intros Hl Hn. rewrite encode_list_items, Hn. cbn [is_fixed].
  rewrite series_encode_fixed_list.
  induction Hl as [|x l Hx _ IH]; [unfold zlen; cbn; lia|].
  cbn [fmap list_fmap concat]. rewrite zlen_app, (ssz_encode_size x n Hx Hn). fold (ssz_encode c <$> l).
  rewrite IH. unfold zlen. cbn [length]. lia.
Qed.

Lemma encode_list_u8 l : Forall valid l → Forall is_u8 (encode_list c l).
Proof.
  intros Hl. unfold encode_list. apply series_encode_u8, Forall_fmap. eapply Forall_impl; [done|].
  intros x Hx. unfold series_item. cbn. destruct (is_fixed (ssz_size c)); by apply ssz_encode_bytes.
Qed.

Definition array_valid (L : Z) (l : list A) : Prop := list_valid c valid l ∧ zlen l = L.
Definition maxvec_valid (ML : Z) (l : list A) : Prop := list_valid c valid l ∧ zlen l ≤ ML.

Lemma array_laws (L : Z) (ty : SszType (list A)) :
  0 < L → ssz_size ty = size_mul (ssz_size c) (Some L) → ssz_encode ty = encode_list c →
  (∀ value, ssz_decode ty value = (decoded ← decode_list c value; exact_len L decoded)) →
  SszLaws ty (array_valid L).
Proof.
  intros HL Hsize Henc Hdec. split.
  - intros l [Hl <-]. rewrite Henc, Hdec, decode_encode_list by done. cbn. unfold exact_len. by rewrite Z.eqb_refl.
  - intros l n [[Hl _] <-]. rewrite Hsize, Henc. destruct (ssz_size c) as [m|] eqn:Hm; [|done].
    intros [= <-]. by apply encode_list_size.
  - intros l [[Hl _] _]. rewrite Henc. by apply encode_list_u8.
  - intros n. rewrite Hsize. destruct (ssz_size c) as [m|] eqn:Hm; [|done].
    intros [= <-]. pose proof (ssz_size_pos m Hm). nia.
Qed.

#[global] Instance ssz_generic_array_laws L : PosLength L → SszLaws (ssz_generic_array c L) (array_valid L).
Proof. intros HL. by apply array_laws. Qed.

#[global] Instance ssz_vec_array_laws L : PosLength L → SszLaws (ssz_vec_array c L) (array_valid L).
Proof. intros HL. by apply array_laws. Qed.

#[global] Instance ssz_vec_laws : SszLaws (ssz_vec c) (list_valid c valid).
Proof.
  split; [|done| |done]; [|intros l [Hl _]; by apply encode_list_u8]. intros l Hl. by apply decode_encode_list.
Qed.

#[global] Instance ssz_maxvec_laws ML : SszLaws (ssz_maxvec c ML) (maxvec_valid ML).
Proof.
  split; [|done| |done]; [|intros l [[Hl _] _]; by apply encode_list_u8].
  intros l [Hl Hlen]. cbn. rewrite decode_encode_list by done. cbn. unfold max_len.
  by rewrite (proj2 (Z.ltb_ge _ _)).
Qed.
End Sequences.

#[global] Instance ssz_compact_uint_array_laws n L :
  PosLength L → SszLaws (ssz_compact_uint_array (S n) L) (array_valid (ssz_uint (S n)) (is_uint (S n)) L).
Proof. intros HL. by apply (ssz_vec_array_laws (ssz_uint (S n)) (is_uint (S n)) L). Qed.

#[global] Instance ssz_compact_uint_vec_laws n :
  SszLaws (ssz_compact_uint_vec (S n)) (list_valid (ssz_uint (S n)) (is_uint (S n))).
Proof. apply (ssz_vec_laws (ssz_uint (S n)) (is_uint (S n))). Qed.

#[global] Instance ssz_compact_uint_maxvec_laws n ML :
  SszLaws (ssz_compact_uint_maxvec (S n) ML) (maxvec_valid (ssz_uint (S n)) (is_uint (S n)) ML).
Proof. apply (ssz_maxvec_laws (ssz_uint (S n)) (is_uint (S n)) ML). Qed.

Lemma bytes_array_valid n b :
  bytes_of_len n b → array_valid (ssz_uint 1) (is_uint 1) (Z.of_nat n) b.
Proof. intros [<- Hb]. split; [split; [exact Hb|done]|done]. Qed.

#[global] Instance ssz_H256_laws : SszLaws ssz_H256 (bytes_of_len 32).
Proof.
  pose proof (ssz_compact_uint_array_laws 0 32 eq_refl) as [H1 H2 H3 H4].
  split; intros *; [intros ?%bytes_array_valid; by apply H1|intros ?%bytes_array_valid; by apply H2
    |intros ?%bytes_array_valid; by apply H3|by apply H4].
Qed.

#[global] Instance ssz_fixed_hash_laws n :
  SszLaws (ssz_fixed_hash (Z.of_nat (S n))) (bytes_of_len (S n)).
Proof.
  pose proof (ssz_compact_uint_array_laws 0 (Z.of_nat (S n)) ltac:(unfold PosLength; lia)) as [H1 H2 H3 H4].
  split; intros *; [intros ?%bytes_array_valid; by apply H1| |intros ?%bytes_array_valid; by apply H3|].
  - intros Hx%bytes_array_valid [= <-]. apply (H2 x); [done|]. cbn. by rewrite Z.mul_1_l.
  - intros [= <-]. lia.
Qed.

(** ** Bit fields *)

Definition bit_at (bytes : Bytes) (k : Z) : bool := Z.testbit (bytes !!! Z.to_nat (k / 8)) (k mod 8).

Lemma or_bit_len bytes i b : zlen (or_bit bytes i b) = zlen bytes.
Proof. unfold zlen, or_bit. by rewrite length_alter. Qed.

Lemma or_bit_at bytes i b k :
  0 ≤ i → 0 ≤ k → k / 8 < zlen bytes → bit_at (or_bit bytes i b) k = bit_at bytes k || (k =? i) && b.
Proof.
  intros Hi Hk Hlen. unfold bit_at, or_bit.
  assert (Z.to_nat (k / 8) < length bytes)%nat as Hin
    by (unfold zlen in Hlen; pose proof (Z.div_pos k 8); lia).
  destruct (lookup_lt_is_Some_2 _ _ Hin) as [byte Hbyte].
  rewrite (list_lookup_total_correct _ _ _ Hbyte).
  destruct (decide (k / 8 = i / 8)) as [Heq|Hne].
  - rewrite <- Heq. erewrite list_lookup_total_correct by (by rewrite list_lookup_alter_eq, Hbyte).
    rewrite Z.lor_spec. f_equal. rewrite Z.shiftl_spec by (apply Z.mod_pos_bound; lia).
    destruct (Z.eqb_spec k i) as [->|Hki]; [by rewrite Z.sub_diag; destruct b|].
    assert (k mod 8 ≠ i mod 8) by (pose proof (Z.div_mod k 8); pose proof (Z.div_mod i 8); lia).
    destruct b; [|by rewrite Z.testbit_0_l].
    rewrite andb_false_l. apply (Z.pow2_bits_false 0). lia.
  - erewrite list_lookup_total_correct; [|rewrite list_lookup_alter_ne; [done|]].
    + destruct (Z.eqb_spec k i) as [->|]; [done|]. by rewrite orb_false_r.
    + intros Hn. apply Hne. pose proof (Z.div_pos k 8). pose proof (Z.div_pos i 8). lia.
Qed.

Lemma or_bit_u8 bytes i b : 0 ≤ i → Forall is_u8 bytes → Forall is_u8 (or_bit bytes i b).
Proof.
  intros Hi Hb. apply Forall_alter; [done|]. intros byte _ [H0 H1]. pose proof (Z.mod_pos_bound i 8).
  assert (0 ≤ Z.shiftl (if b then 1 else 0) (i mod 8) < 2 ^ 8) as [? ?].
  { rewrite Z.shiftl_mul_pow2 by lia. pose proof (Z.pow_pos_nonneg 2 (i mod 8)).
    assert (2 ^ (i mod 8) ≤ 2 ^ 7) by (apply Z.pow_le_mono_r; lia). destruct b; lia. }
  assert (0 ≤ Z.lor byte (Z.shiftl (if b then 1 else 0) (i mod 8))) by (by apply Z.lor_nonneg).
  split; [done|]. apply (Z.bounded_iff_bits_nonneg 8); [lia|done|]. intros l Hl. rewrite Z.lor_spec.
  apply orb_false_iff. split; (apply (Z.bounded_iff_bits_nonneg 8); [lia|done|done|done]).
Qed.

Lemma or_bits_snoc bytes bits b : or_bits bytes (bits ++ [b]) = or_bit (or_bits bytes bits) (zlen bits) b.
Proof.
  unfold or_bits, enumerate. rewrite zlen_app. change (zlen [b]) with 1.
  rewrite zrange_snoc by apply zlen_nonneg.
  rewrite zip_with_app by (rewrite zrange_length; unfold zlen; lia). by rewrite foldl_app.
Qed.

Lemma or_bits_len bytes bits : zlen (or_bits bytes bits) = zlen bytes.
Proof. induction bits as [|b bits IH] using rev_ind; [done|]. by rewrite or_bits_snoc, or_bit_len. Qed.

Lemma or_bits_u8 bytes bits : Forall is_u8 bytes → Forall is_u8 (or_bits bytes bits).
Proof.
  intros Hb. induction bits as [|b bits IH] using rev_ind; [done|]. rewrite or_bits_snoc.
  by apply or_bit_u8; [apply zlen_nonneg|].
Qed.

Lemma or_bits_at bytes bits k :
  0 ≤ k → k / 8 < zlen bytes →
  bit_at (or_bits bytes bits) k = bit_at bytes k || default false (bits !! Z.to_nat k).
Proof.
  intros Hk Hlen. induction bits as [|b bits IH] using rev_ind; [by rewrite lookup_nil, orb_false_r|].
  rewrite or_bits_snoc, or_bit_at, IH by (try apply zlen_nonneg; by rewrite ?or_bits_len).
  rewrite <- orb_assoc. f_equal. destruct (Z.eqb_spec k (zlen bits)) as [->|Hne]; unfold zlen in *.
  - rewrite Nat2Z.id, (lookup_ge_None_2 bits) by lia. by rewrite lookup_app_r, Nat.sub_diag by done.
  - rewrite orb_false_r. destruct (decide (Z.to_nat k < length bits)%nat).
    + by rewrite lookup_app_l.
    + rewrite !lookup_ge_None_2; [done|rewrite length_app; cbn; lia|lia].
Qed.

Lemma zeros_at n k : k / 8 < zlen (replicate n 0) → 0 ≤ k → bit_at (replicate n 0) k = false.
Proof.
  unfold zlen. rewrite length_replicate. intros Hk H0. pose proof (Z.div_pos k 8). unfold bit_at.
  by rewrite lookup_total_replicate_2, Z.testbit_0_l by lia.
Qed.

Lemma zeros_u8 n : Forall is_u8 (replicate n 0).
Proof. by apply Forall_replicate. Qed.

Lemma read_bit_at value k : 0 ≤ k → k / 8 < zlen value → read_bit value k = Ok (bit_at value k).
Proof.
  intros Hk Hlen. unfold read_bit, bit_at. rewrite (proj2 (Z.leb_gt _ _)) by done.
  destruct (vec_index_lt (E:=SszError) value (k / 8)) as (byte & Hbyte & ->);
    [pose proof (Z.div_pos k 8); lia|]. rewrite (list_lookup_total_correct _ _ _ Hbyte).
  cbn. f_equal. rewrite Z.shiftl_1_l. pose proof (Z.mod_pos_bound k 8 eq_refl).
  destruct (Z.testbit byte (k mod 8)) eqn:Hb.
  - apply negb_true_iff, Z.eqb_neq. intros H0. apply (f_equal (λ z, Z.testbit z (k mod 8))) in H0.
    by rewrite Z.land_spec, Hb, Z.pow2_bits_true, Z.testbit_0_l in H0 by lia.
  - apply negb_false_iff, Z.eqb_eq. apply Z.bits_inj_0. intros m. rewrite Z.land_spec.
    destruct (decide (m = k mod 8)) as [->|]; [by rewrite Hb|].
    by rewrite Z.pow2_bits_false, andb_false_r by lia.
Qed.

(** Reading the first bits of a byte string. *)
Lemma read_bits value (bits : list bool) :
  (zlen bits - 1) / 8 < zlen value → (∀ k b, bits !! k = Some b → bit_at value (Z.of_nat k) = b) →
  res_map (read_bit value) (zrange 0 (zlen bits)) = Ok bits.
Proof.
  intros Hlen Hbits. rewrite (res_map_total (read_bit value) (bit_at value)).
  - f_equal. apply list_eq. intros k. rewrite list_lookup_fmap.
    destruct (bits !! k) as [b|] eqn:Hk.
    + pose proof (lookup_lt_Some _ _ _ Hk). unfold zrange. rewrite lookup_seqZ_lt by (unfold zlen; lia).
      cbn. f_equal. by apply Hbits.
    + apply lookup_ge_None in Hk. unfold zrange. rewrite lookup_seqZ_ge by (unfold zlen; lia). done.
  - intros k [Hk0 Hk]%elem_of_zrange. apply read_bit_at; [done|].
    apply (Z.le_lt_trans _ ((zlen bits - 1) / 8)); [apply Z.div_le_mono; lia|done].
Qed.

#[global] Instance ssz_bitvector_laws L : PosLength L → SszLaws (ssz_bitvector L) (λ bits, zlen bits = L).
Proof.
  intros HL. unfold PosLength in HL. assert (0 ≤ (L + 7) / 8) by (apply Z.div_pos; lia).
  assert (∀ bits, zlen bits = L → zlen (ssz_encode (ssz_bitvector L) bits) = (L + 7) / 8) as Hsize.
  { intros bits Hb. cbn. rewrite or_bits_len, Hb. unfold zlen. rewrite length_replicate. lia. }
  split.
  - intros bits Hb. specialize (Hsize bits Hb). cbn in *. rewrite <- Hb at 1.
    assert ((L - 1) / 8 < (L + 7) / 8) by (replace (L + 7) with (L - 1 + 1 * 8) by lia; rewrite Z.div_add by lia; lia).
    apply read_bits; [by rewrite Hsize, Hb|]. intros k b Hk.
    rewrite or_bits_len in Hsize.
    assert (Z.of_nat k / 8 < (L + 7) / 8).
    { apply (Z.le_lt_trans _ ((L - 1) / 8)); [|done].
      apply lookup_lt_Some in Hk. unfold zlen in Hb. apply Z.div_le_mono; lia. }
    rewrite or_bits_at, zeros_at, Nat2Z.id, Hk by lia. done.
  - intros bits n Hb [= <-]. by apply Hsize.
  - intros bits _. apply or_bits_u8, zeros_u8.
  - intros n [= <-]. apply Z.div_str_pos. lia.
Qed.

(** The bit that ends a bit list is the highest one of its last byte. *)
Lemma bitlist_last_byte `{ArithMode} bits byte :
  ssz_encode ssz_bitlist bits !! Z.to_nat (zlen bits / 8) = Some byte → Z.log2 byte = zlen bits mod 8 ∧ byte ≠ 0.
Proof.
  set (value := ssz_encode ssz_bitlist bits). intros Hbyte. pose proof (zlen_nonneg bits).
  pose proof (Z.div_mod (zlen bits) 8). pose proof (Z.mod_pos_bound (zlen bits) 8). pose proof (Z.div_pos (zlen bits) 8).
  assert (Forall is_u8 value) as Hu8 by (apply or_bit_u8; [done|]; apply or_bits_u8, zeros_u8).
  assert (∀ m, 0 ≤ m < 8 → Z.testbit byte m =
    default false (bits !! Z.to_nat (8 * (zlen bits / 8) + m)) || (8 * (zlen bits / 8) + m =? zlen bits)) as Hbits.
  { intros m Hm. set (k := 8 * (zlen bits / 8) + m).
    assert (k / 8 = zlen bits / 8 ∧ k mod 8 = m) as [Hd Hr].
    { unfold k. split; [symmetry; apply (Z.div_unique _ 8 _ m)|symmetry; apply (Z.mod_unique _ 8 (zlen bits / 8))]; lia. }
    assert (zlen bits / 8 < zlen value) by (apply lookup_lt_Some in Hbyte; unfold zlen in *; lia).
    transitivity (bit_at value k); [unfold bit_at; by rewrite Hd, Hr, (list_lookup_total_correct _ _ _ Hbyte)|].
    unfold value in *. cbn in *. rewrite or_bit_len, or_bits_len in *.
    rewrite or_bit_at, or_bits_at, zeros_at, andb_true_r by (rewrite ?or_bits_len; lia). done. }
  assert (Z.testbit byte (zlen bits mod 8) = true) as Htop.
  { rewrite Hbits by lia. apply orb_true_iff. right. apply Z.eqb_eq. lia. }
  split; [|intros ->; by rewrite Z.testbit_0_l in Htop].
  apply Z.log2_bits_unique; [done|]. intros m Hm. destruct (decide (m < 8)).
  - rewrite Hbits by lia. apply orb_false_iff. split; [|apply Z.eqb_neq; lia].
    rewrite lookup_ge_None_2; [done|]. unfold zlen in *. lia.
  - pose proof (proj1 (Forall_lookup _ _) Hu8 _ _ Hbyte) as [? ?].
    apply (Z.bounded_iff_bits_nonneg 8); lia.
Qed.

#[global] Instance ssz_bitlist_laws `{ArithMode} : SszLaws ssz_bitlist (λ bits, is_u64 (zlen bits)).
Proof.
  split; [|done| |done]; [|intros bits _; apply or_bit_u8, or_bits_u8, zeros_u8; apply zlen_nonneg].
  intros bits Hb. pose proof (zlen_nonneg bits).
  pose proof (Z.div_mod (zlen bits) 8). pose proof (Z.mod_pos_bound (zlen bits) 8). pose proof (Z.div_pos (zlen bits) 8).
  assert (zlen (ssz_encode ssz_bitlist bits) = zlen bits / 8 + 1) as Hlen.
  { cbn. rewrite or_bit_len, or_bits_len. unfold zlen at 1. rewrite length_replicate.
    replace (zlen bits + 1 + 7) with (zlen bits + 1 * 8) by lia. rewrite Z.div_add by lia. lia. }
  destruct (vec_index_lt (E:=SszError) (ssz_encode ssz_bitlist bits) (zlen bits / 8)) as (byte & Hbyte & Hi); [lia|].
  destruct (bitlist_last_byte bits byte Hbyte) as [Hlog Hne].
  assert (leading_zeros byte = 7 - zlen bits mod 8) as Hlz.
  { unfold leading_zeros. rewrite (proj2 (Z.eqb_neq _ _) Hne). lia. }
  remember (ssz_encode ssz_bitlist bits) as value eqn:Hvalue. cbn [ssz_decode ssz_bitlist].
  unfold is_u64 in *.
  rewrite Hlen, u64_sub_ok by (unfold is_u64; lia). cbn [mbind res_bind]. rewrite Z.add_simpl_r.
  rewrite u64_mul_ok by (unfold is_u64; lia). cbn [mbind res_bind]. rewrite Hi. cbn [mbind res_bind].
  rewrite Hlz, u64_sub_ok by (unfold is_u64; lia). cbn [mbind res_bind].
  rewrite u64_add_ok by (unfold is_u64; lia). cbn [mbind res_bind].
  replace (zlen bits / 8 * 8 + (7 - (7 - zlen bits mod 8))) with (zlen bits) by lia.
  assert (∀ k, k ≤ zlen bits → k / 8 < zlen value) as Hk8
    by (intros k Hk; pose proof (Z.div_le_mono k (zlen bits) 8); lia).
  apply read_bits; [apply Hk8; lia|]. intros k b Hk. pose proof (lookup_lt_Some _ _ _ Hk) as Hlt.
  assert (Z.of_nat k < zlen bits) by (unfold zlen; lia). specialize (Hk8 (Z.of_nat k) ltac:(lia)).
  rewrite Hvalue in *. cbn in *. rewrite or_bit_len, or_bits_len in *.
  rewrite or_bit_at, or_bits_at, zeros_at, Nat2Z.id, Hk by (rewrite ?or_bits_len; lia).
  rewrite (proj2 (Z.eqb_neq _ _)) by lia. by rewrite orb_false_r.
Qed.

#[global] Instance ssz_bitlist_maxvec_laws `{ArithMode} ML :
  SszLaws (ssz_bitlist_maxvec ML) (λ bits, is_u64 (zlen bits) ∧ zlen bits ≤ ML).
Proof.
  split; [|done|intros bits [Hb _]; by apply (ssz_encode_bytes (c:=ssz_bitlist))|done].
  intros bits [Hb HML]. unfold ssz_bitlist_maxvec. cbn [ssz_decode ssz_encode].
  rewrite ssz_decode_encode by done. cbn. unfold max_len. by rewrite (proj2 (Z.ltb_ge _ _)).
Qed.

(** ** Structs *)

Fixpoint fields_codec_size {T} (fs : Fields T) : Size :=
  match fs with
  | one_field f => ssz_size (field_codec f)
  | more_fields f fs' => size_add (ssz_size (field_codec f)) (fields_codec_size fs')
  end.

(** A field's two sizes are both fixed or both variable. *)
Class FieldLaws {A} (f : Field A) (valid : A → Prop) : Prop := {
  field_laws :: SszLaws (field_codec f) valid;
  field_kind : is_fixed (field_ty_size f) = is_fixed (ssz_size (field_codec f));
}.

Class FieldsLaws {T} (fs : Fields T) (valid : T → Prop) : Prop := {
  fields_kind : is_fixed (fields_ty_size fs) = is_fixed (fields_codec_size fs);
  fields_pos : ∀ n, fields_codec_size fs = Some n → 0 < n;
  fields_decode : ∀ x pre, valid x → decode_fields fs (pre ++ fields_series fs x) (zlen pre) = Ok x;
  fields_typ : ∀ x, valid x → item_typ <$> fields_series fs x = fields_types fs;
  fields_bytes : ∀ x, valid x → Forall (λ part, Forall is_u8 (item_bytes part)) (fields_series fs x);
}.

Definition pair_valid {A B} (va : A → Prop) (vb : B → Prop) (x : A * B) : Prop := va x.1 ∧ vb x.2.

#[global] Instance plain_laws {A} (c : SszType A) valid : SszLaws c valid → FieldLaws (plain c) valid.
Proof. by split. Qed.

#[global] Instance compact_laws {A} (ty c : SszType A) valid :
  SszLaws c valid → TCEq (is_fixed (ssz_size ty)) (is_fixed (ssz_size c)) → FieldLaws (compact ty c) valid.
Proof. intros Hc Hk%TCEq_eq. by split. Qed.

Section Fields.
Context {A} (f : Field A) (valid : A → Prop) `{!FieldLaws f valid}.

Lemma field_typ x : valid x → item_typ (field_item f x) = ssz_size (field_codec f).
Proof.
  intros Hx. unfold field_item, series_item. rewrite field_kind.
  destruct (ssz_size (field_codec f)) as [n|] eqn:Hs; [|done]. cbn. f_equal. by eapply ssz_encode_size.
Qed.

Lemma field_bytes x : valid x → Forall is_u8 (item_bytes (field_item f x)).
Proof.
  intros Hx. unfold field_item, series_item. destruct (is_fixed _); cbn; by apply ssz_encode_bytes.
Qed.

Lemma field_decode x pre post : valid x → decode_field f (pre ++ field_item f x :: post) (zlen pre) = Ok x.
Proof.
  intros Hx. unfold decode_field. assert (vec_index (E:=SszError) (pre ++ field_item f x :: post) (zlen pre) = Ok (field_item f x)) as ->.
  { apply vec_index_Ok. unfold zlen. by rewrite Nat2Z.id, list_lookup_middle. }
  cbn [mbind res_bind]. unfold field_item, series_item, decode_item.
  by destruct (field_ty_size f); cbn [is_fixed is_variable]; apply ssz_decode_encode.
Qed.

#[global] Instance one_field_laws : FieldsLaws (one_field f) valid.
Proof.
  split.
  - exact field_kind.
  - intros n. apply ssz_size_pos.
  - intros x pre Hx. by apply field_decode.
  - intros x Hx. cbn. f_equal. by apply field_typ.
  - intros x Hx. constructor; [by apply field_bytes|done].
Qed.

#[global] Instance more_fields_laws {B} (fs : Fields B) (validb : B → Prop) `{!FieldsLaws fs validb} :
  FieldsLaws (more_fields f fs) (pair_valid valid validb).
Proof.
  split; cbn [fields_ty_size fields_codec_size fields_series fields_types decode_fields].
  - pose proof (fields_kind (fs:=fs)) as Hk. pose proof (field_kind (f:=f)) as Hk'.
    by destruct (field_ty_size f), (fields_ty_size fs), (ssz_size (field_codec f)), (fields_codec_size fs).
  - intros n. destruct (ssz_size (field_codec f)) as [a|] eqn:Ha, (fields_codec_size fs) as [b|] eqn:Hb; try done.
    intros [= <-]. pose proof (ssz_size_pos a Ha). pose proof (fields_pos b Hb). lia.
  - intros [x y] pre [Hx Hy]; cbn [fst snd] in *.
    rewrite field_decode by done. cbn [mbind res_bind].
    rewrite cons_middle, (assoc_L (++)).
    replace (zlen pre + 1) with (zlen (pre ++ [field_item f x])) by by rewrite zlen_app.
    by rewrite fields_decode.
  - intros [x y] [Hx Hy]. cbn [fmap list_fmap fst snd] in *. f_equal; [by apply field_typ|by apply fields_typ].
  - intros [x y] [Hx Hy]. constructor; [by apply field_bytes|by apply fields_bytes].
Qed.
End Fields.

Lemma fields_types_fixed {T} (fs : Fields T) n : fields_codec_size fs = Some n → None ∉ fields_types fs.
Proof.
  revert n. induction fs as [A f|A B f fs IH]; intros n; cbn.
  - intros Hn Hin%list_elem_of_singleton. congruence.
  - destruct (ssz_size (field_codec f)) eqn:Hs, (fields_codec_size fs); try done.
    intros _ [?|?]%elem_of_cons; [done|]. by eapply IH.
Qed.

(** The size of the encoding of a series of fixed items. *)
Lemma series_encode_fixed {T} (fs : Fields T) parts n :
  item_typ <$> parts = fields_types fs → fields_codec_size fs = Some n → zlen (series_encode parts) = n.
Proof.
  rewrite series_encode_len. revert parts n. induction fs as [A f|A B f fs IH]; intros parts n Ht Hn; cbn in *.
  - rewrite Hn in Ht. destruct parts as [|[b|b] [|]]; try discriminate. injection Ht as <-.
    rewrite fixed_parts_size_cons. cbn [fixed_part_size encode_variable_parts].
    change (fixed_parts_size []) with 0. change (zlen []) with 0. lia.
  - destruct (ssz_size (field_codec f)) as [a|] eqn:Ha, (fields_codec_size fs) as [m|] eqn:Hm; try discriminate.
    injection Hn as <-. destruct parts as [|[b|b] parts]; try discriminate. injection Ht as Hb Ht.
    rewrite fixed_parts_size_cons. cbn [fixed_part_size encode_variable_parts].
    rewrite <- (IH parts m); [lia|done|done].
Qed.

(** The values of a struct: its fields, and offsets that fit. *)
Definition struct_valid {A T} (fs : Fields T) (to : A → T) (valid : T → Prop) (x : A) : Prop :=
  valid (to x) ∧ (fields_ty_size fs = None → zlen (series_encode (fields_series fs (to x))) < 2 ^ 32).

Lemma struct_decode_encode {A T} (fs : Fields T) (to : A → T) (from : T → A) valid x :
  FieldsLaws fs valid → from (to x) = x → struct_valid fs to valid x →
  ssz_decode (ssz_struct fs to from) (ssz_encode (ssz_struct fs to from) x) = Ok x.
Proof.
  intros Hfs Hto [Hx Hlen]. pose proof fields_kind as Hkind. cbn [ssz_struct ssz_encode ssz_decode].
  rewrite <- (fields_typ (to x) Hx), decode_vector_encode.
  - cbn [mbind res_bind]. pose proof (fields_decode (to x) [] Hx) as Hd. change (zlen []) with 0 in Hd.
    cbn [app] in Hd. rewrite Hd. cbn. by rewrite Hto.
  - rewrite fields_typ by done. intros Hn. apply Hlen. destruct (fields_ty_size fs); [|done].
    destruct (fields_codec_size fs) eqn:Hc; [|done]. by eapply fields_types_fixed in Hc.
Qed.

Lemma ssz_struct_laws {A T} (fs : Fields T) (to : A → T) (from : T → A) valid :
  FieldsLaws fs valid → (∀ x, from (to x) = x) →
  fields_ty_size fs = None ∨ fields_ty_size fs = fields_codec_size fs →
  SszLaws (ssz_struct fs to from) (struct_valid fs to valid).
Proof.
  intros Hfs Hto Hsize. split.
  - intros x Hx. by eapply struct_decode_encode.
  - intros x n [Hx _] Hn. cbn in Hn. destruct Hsize as [?|Hsize]; [congruence|]. rewrite Hn in Hsize.
    by eapply series_encode_fixed; [apply fields_typ|].
  - intros x [Hx _]. by apply series_encode_u8, fields_bytes.
  - intros n Hn. cbn in Hn. destruct Hsize as [?|Hsize]; [congruence|]. apply fields_pos. congruence.
Qed.

(** ** Malformed input *)

(** The bytes the fixed parts of a struct take. *)
Definition typ_len (typ : Size) : Z := default offset_len typ.
Definition typs_len (typs : list Size) : Z := sum_list_z (typ_len <$> typs).

Lemma offset_decode_ok value a b bytes :
  b = a + offset_len → slice (E:=SszError) value a b = Ok bytes → 0 ≤ a → ∃ o, ssz_decode LengthOffset bytes = Ok o.
Proof.
  intros -> [[Hle Hlen] ->]%slice_Ok Ha. exists (from_le_bytes (take (Z.to_nat (a + offset_len - a)) (drop (Z.to_nat a) value))).
  unfold LengthOffset, ssz_u32, ssz_uint. cbn [ssz_decode].
  rewrite length_take, length_drop. unfold zlen in Hlen. rewrite offset_len_4 in *.
  replace (Z.to_nat (a + 4 - a) `min` (length value - Z.to_nat a))%nat with 4%nat by lia. done.
Qed.

Lemma vector_fixed_parts_short value typs pos :
  Forall (λ typ, 0 ≤ typ_len typ) typs → 0 ≤ pos ≤ zlen value → zlen value < pos + typs_len typs →
  vector_fixed_parts value typs pos = Panic.
Proof.
  intros Ht. revert pos. induction Ht as [|typ typs H0 _ IH]; intros pos Hpos Hlen.
  { unfold typs_len in Hlen. cbn in Hlen. lia. }
  assert (slice (E:=SszError) value pos (pos + typ_len typ) = Panic ∨
    (∃ bytes, slice (E:=SszError) value pos (pos + typ_len typ) = Ok bytes) ∧
    vector_fixed_parts value typs (pos + typ_len typ) = Panic) as Hcase.
  { unfold typs_len in *. cbn in Hlen. unfold slice. fold (zlen value).
    destruct ((pos <=? pos + typ_len typ) && (pos + typ_len typ <=? zlen value)) eqn:Hb; [|by left].
    right. apply andb_true_iff in Hb as [_ Hb%Z.leb_le]. split; [by eexists|]. apply IH; lia. }
  destruct typ as [n|]; cbn [vector_fixed_parts typ_len default id] in *.
  - destruct Hcase as [->|[[bytes ->] Hrest]]; [done|]. cbn [mbind res_bind]. by rewrite Hrest.
  - destruct Hcase as [->|[[bytes Hs] Hrest]]; [done|].
    destruct (offset_decode_ok value pos (pos + offset_len) bytes) as [o Ho]; [done|done|lia|].
    rewrite Hs. cbn [mbind res_bind]. rewrite Ho. cbn [mbind res_bind]. by rewrite Hrest.
Qed.

Lemma chunks n (value : Bytes) : 0 < n →
  ∃ bs rest, value = concat bs ++ rest ∧ Forall (λ b, zlen b = n) bs ∧ zlen rest < n.
Proof.
  intros Hn. induction value as [value IH] using (induction_ltof1 _ length).
  destruct (decide (zlen value < n)); [by exists [], value|].
  destruct (IH (drop (Z.to_nat n) value)) as (bs & rest & Heq & Hbs & Hrest).
  { unfold ltof. rewrite length_drop. unfold zlen in *. lia. }
  exists (take (Z.to_nat n) value :: bs), rest. cbn [concat]. rewrite <- app_assoc, <- Heq, take_drop.
  split; [done|]. split; [|done]. constructor; [|done]. unfold zlen in *. rewrite length_take. lia.
Qed.

Lemma list_offsets_terminates fuel value front pos :
  0 ≤ pos → zlen value - pos < Z.of_nat fuel → list_offsets fuel value front pos ≠ OutOfFuel.
Proof.
  revert front pos. induction fuel as [|fuel IH]; intros front pos Hpos Hf; cbn [list_offsets];
    rewrite offset_len_4; destruct ((pos + 4 <=? zlen value) && _) eqn:Hb; try done;
    apply andb_true_iff in Hb as [Hb%Z.leb_le _]; [lia|].
  destruct (slice (E:=SszError) value pos (pos + 4)) as [bytes| | |] eqn:Hs; try done;
    [|by unfold slice in Hs; destruct (_ && _)].
  destruct (offset_decode_ok value pos (pos + offset_len) bytes) as [o Ho]; [done|done|lia|].
  cbn [mbind res_bind]. rewrite Ho. cbn [mbind res_bind].
  specialize (IH (Some (default o front)) (pos + 4)). destruct (list_offsets _ _ _ _); try done. apply IH; lia.
Qed.

Lemma list_variable_parts_terminates value offsets : list_variable_parts value offsets ≠ OutOfFuel.
Proof.
  induction offsets as [|o offsets IH]; [done|]. cbn [list_variable_parts]. unfold slice.
  destruct (_ && _); [|done]. cbn [mbind res_bind]. by destruct (list_variable_parts value offsets).
Qed.

Lemma list_fixed_parts_zero fuel value pos : pos ≤ zlen value → list_fixed_parts fuel value 0 pos = OutOfFuel.
Proof.
  intros Hpos. revert pos Hpos. induction fuel as [|fuel IH]; intros pos Hpos; cbn [list_fixed_parts];
    rewrite (proj2 (Z.leb_le _ _)) by lia; [done|].
  rewrite slice_ok by lia. cbn [mbind res_bind]. by rewrite IH by lia.
Qed.

Lemma vector_variable_parts_fixed value parts :
  None ∉ item_typ <$> parts → vector_variable_parts value (cleared <$> parts) (offsets_from 0 parts) = Ok parts.
Proof.
  induction parts as [|[b|b] parts IH]; intros Hn; [done|..]; cbn in *.
  - rewrite IH; [done|]. intros Hin. apply Hn. by right.
  - destruct Hn. left.
Qed.

(** A message that is shorter than the fixed parts of a struct makes the
    derived [decode] panic (a slice out of range): no truncated message is
    answered with an error. *)
Theorem truncated_input_panics {A T} (fs : Fields T) (to : A → T) (from : T → A) (value : Bytes) :
  Forall (λ typ, 0 ≤ typ_len typ) (fields_types fs) → zlen value < typs_len (fields_types fs) →
  ssz_decode (ssz_struct fs to from) value = Panic.
Proof.
  intros Ht Hlen. unfold ssz_struct, decode_vector. cbn [ssz_decode].
  rewrite vector_fixed_parts_short; [done|done| |lia]. pose proof (zlen_nonneg value). lia.
Qed.

(** The derived [decode] of a struct of fixed-sized fields ignores whatever
    follows the encoding: two different messages decode to one value. *)
Theorem trailing_bytes_ignored {A T} (fs : Fields T) (to : A → T) (from : T → A) valid n (x : A) (rest : Bytes) :
  FieldsLaws fs valid → (∀ y, from (to y) = y) → fields_codec_size fs = Some n → valid (to x) →
  ssz_decode (ssz_struct fs to from) (ssz_encode (ssz_struct fs to from) x ++ rest) = Ok x.
Proof.
  intros Hfs Hto Hn Hx. pose proof (fields_types_fixed fs n Hn) as Hfix.
  unfold ssz_struct, decode_vector. cbn [ssz_decode ssz_encode]. rewrite <- (fields_typ (to x) Hx) in *.
  set (parts := fields_series fs (to x)) in *. unfold series_encode. rewrite <- app_assoc.
  pose proof (vector_fixed_parts_ok [] (encode_variable_parts parts ++ rest) (fixed_parts_size parts) parts) as Hv.
  change (zlen []) with 0 in Hv. cbn [app] in Hv. rewrite Hv; [|rewrite <- (encode_fixed_parts_len 0); apply zlen_nonneg|done].
  cbn [mbind res_bind].
  assert (∀ o, offsets_from o parts = offsets_from 0 parts) as ->.
  { clear -Hfix. induction parts as [|[b|b] parts IH]; intros o; [done|..]; cbn in *.
    - apply IH. intros Hin. apply Hfix. by right.
    - destruct Hfix. left. }
  rewrite vector_variable_parts_fixed by done. cbn [mbind res_bind].
  pose proof (fields_decode (to x) [] Hx) as Hd. change (zlen []) with 0 in Hd. cbn [app] in Hd.
  unfold parts. rewrite Hd. cbn. by rewrite Hto.
Qed.

(** [Series::decode_list] ends on every input unless the elements have size
    zero.  With fixed-sized elements it never fails: the items are the
    consecutive blocks of that size, and up to [fixed_len - 1] bytes at the end
    are dropped.  With elements of size zero the loop never ends. *)
Theorem decode_list_terminates (value : Bytes) (n : Z) :
  0 < n →
  (∃ bs rest, value = concat bs ++ rest ∧ Forall (λ b, zlen b = n) bs ∧ zlen rest < n ∧
    decode_series_list value (Some n) = Ok (FixedItem <$> bs)) ∧
  decode_series_list value None ≠ OutOfFuel ∧ (∀ fuel, list_fixed_parts fuel value 0 0 = OutOfFuel).
Proof.
  intros Hn. split; [|split].
  - destruct (chunks n value Hn) as (bs & rest & -> & Hbs & Hrest). exists bs, rest.
    do 3 (split; [done|]). by apply decode_list_fixed.
  - unfold decode_series_list. pose proof (list_offsets_terminates (decode_list_fuel value) value None 0) as Hoff.
    destruct (list_offsets _ _ _ _) as [offsets| | |]; cbn; try done; [apply list_variable_parts_terminates|].
    destruct Hoff; [lia|unfold decode_list_fuel, zlen; lia|done].
  - intros fuel. apply list_fixed_parts_zero, zlen_nonneg.
Qed.

(** ** Witnesses: a struct of a [u64] and a [u8] *)

Definition toy_fields : Fields (Z * Z) := more_fields (plain ssz_u64) (one_field (plain ssz_u8)).

Lemma truncated_input_panics_witness : ssz_decode (ssz_struct toy_fields id id) [1; 2; 3] = Panic.
Proof. apply (truncated_input_panics toy_fields id id [1; 2; 3]); [by repeat constructor|done]. Defined.

Lemma trailing_bytes_ignored_witness :
  ssz_decode (ssz_struct toy_fields id id) (ssz_encode (ssz_struct toy_fields id id) (258, 7) ++ [9; 9]) = Ok (258, 7).
Proof.
  apply (trailing_bytes_ignored toy_fields id id (pair_valid (is_uint 8) (is_uint 1)) 9 (258, 7) [9; 9]);
    [apply _|done|done|by split].
Defined.

Lemma decode_list_terminates_witness :
  ∃ bs rest, [1; 2; 3; 4; 5] = concat bs ++ rest ∧ Forall (λ b, zlen b = 2) bs ∧ zlen rest < 2 ∧
    decode_series_list [1; 2; 3; 4; 5] (Some 2) = Ok (FixedItem <$> bs).
Proof. apply (decode_list_terminates [1; 2; 3; 4; 5] 2). done. Defined.
