(* ===== verification/SszTypes.v ===== *)
(** * SSZ encodings of the beacon chain's types

    [#[derive(Codec, Encode, Decode)]] on the structs of
    [beacon/src/types/misc.rs], [operation.rs], [block.rs] and on [BeaconState]
    of [beacon/src/executive/mod.rs]: for every struct the derived
    implementation, with the fields in the order of the source and the
    [#[bm(compact)]] ones marked, the values of the Rust type, and its laws.
    Blocks and states decode to what was encoded. *)
From stdpp Require Import base numbers list.
From Stdlib Require Import ZArith Lia.
From S2P Require Import Prelude Config Types Utils State Ssz.

#[local] Open Scope Z_scope.

Notation "'fields' [ x ; .. ; y ; z ]" :=
  (more_fields x .. (more_fields y (one_field z)) ..) (at level 0, x, y, z at level 99).

#[global] Instance ssz_u64_laws : SszLaws ssz_u64 is_u64.
Proof. exact (ssz_uint_laws 7). Qed.
#[global] Instance ssz_ValidatorId_laws : SszLaws ssz_ValidatorId (bytes_of_len 48).
Proof. exact (ssz_fixed_hash_laws 47). Qed.
#[global] Instance ssz_Signature_laws : SszLaws ssz_Signature (bytes_of_len 96).
Proof. exact (ssz_fixed_hash_laws 95). Qed.
#[global] Instance ssz_Version_laws : SszLaws ssz_Version (bytes_of_len 4).
Proof. exact (ssz_fixed_hash_laws 3). Qed.

(** The two forms of the struct law: without and with variable parts. *)
Lemma fixed_struct_laws {A T} (fs : Fields T) (to : A → T) (from : T → A) valid :
  FieldsLaws fs valid → (∀ x, from (to x) = x) →
  is_fixed (fields_ty_size fs) = true → fields_ty_size fs = fields_codec_size fs →
  SszLaws (ssz_struct fs to from) (λ x, valid (to x)).
Proof.
  intros Hfs Hto Hfix Hsize.
  assert (∀ x, valid (to x) → struct_valid fs to valid x) as Hvalid.
  { intros x Hx. split; [done|]. intros Hn. by rewrite Hn in Hfix. }
  destruct (ssz_struct_laws fs to from valid Hfs Hto (or_intror Hsize)) as [H1 H2 H3 H4]. split; auto.
Qed.

Lemma variable_struct_laws {A T} (fs : Fields T) (to : A → T) (from : T → A) valid :
  FieldsLaws fs valid → (∀ x, from (to x) = x) → fields_ty_size fs = None →
  SszLaws (ssz_struct fs to from) (λ x, valid (to x) ∧ zlen (ssz_encode (ssz_struct fs to from) x) < 2 ^ 32).
Proof.
  intros Hfs Hto Hn.
  destruct (ssz_struct_laws fs to from valid Hfs Hto (or_introl Hn)) as [H1 H2 H3 H4].
  split; [intros x [? ?]; by apply H1|intros x n _ Hs; cbn in Hs; congruence|intros x [? ?]; by apply H3|exact H4].
Qed.

Ltac derive_laws :=
  match goal with |- SszLaws ?c _ => unfold c end;
  match goal with
  | |- SszLaws (ssz_struct ?fs ?to ?from) _ =>
      let H := fresh in
      eassert (FieldsLaws fs _) as H by apply _;
      first
        [ exact (fixed_struct_laws fs to from _ H ltac:(by intros []) eq_refl eq_refl)
        | exact (variable_struct_laws fs to from _ H ltac:(by intros []) eq_refl) ]
  end.

(** A bit list of at most [ML] bits *)
Definition bitlist_valid (ML : Z) (bits : list bool) : Prop := is_u64 (zlen bits) ∧ zlen bits ≤ ML.

Section Structs.
Context `{C : Config} `{!ConfigOk C} `{ArithMode}.

#[local] Instance SlotsPerHistoricalRoot_length : PosLength SlotsPerHistoricalRoot.
Proof. apply historical_root_pos. Qed.
#[local] Instance EpochsPerHistoricalVector_length : PosLength EpochsPerHistoricalVector.
Proof. apply historical_vector_pos. Qed.
#[local] Instance EpochsPerSlashingsVector_length : PosLength EpochsPerSlashingsVector.
Proof. apply slashings_vector_pos. Qed.
#[local] Instance deposit_proof_length : PosLength (DEPOSIT_CONTRACT_TREE_DEPTH + 1).
Proof. done. Qed.
#[local] Instance justification_bits_length : PosLength (Z.of_nat JustificationBitsLength).
Proof. done. Qed.

Definition ssz_Fork : SszType Fork := ssz_struct
  (fields [ plain ssz_Version;
     plain ssz_Version;
     plain ssz_u64 ])
  (λ x, (fork_previous_version x, (fork_current_version x, fork_epoch x)))
  (λ '(a, (b, c)), mkFork a b c).
Definition Fork_valid (x : Fork) : Prop :=
  bytes_of_len 4 (fork_previous_version x) ∧
  bytes_of_len 4 (fork_current_version x) ∧
  is_u64 (fork_epoch x).
#[global] Instance Fork_laws : SszLaws ssz_Fork Fork_valid.
Proof. derive_laws. Qed.

Definition ssz_Checkpoint : SszType Checkpoint := ssz_struct
  (fields [ plain ssz_u64;
     plain ssz_H256 ])
  (λ x, (cp_epoch x, cp_root x))
  (λ '(a, b), mkCheckpoint a b).
Definition Checkpoint_valid (x : Checkpoint) : Prop :=
  is_u64 (cp_epoch x) ∧
  bytes_of_len 32 (cp_root x).
#[global] Instance Checkpoint_laws : SszLaws ssz_Checkpoint Checkpoint_valid.
Proof. derive_laws. Qed.

Definition ssz_Validator : SszType Validator := ssz_struct
  (fields [ plain ssz_ValidatorId;
     plain ssz_H256;
     plain ssz_u64;
     plain ssz_bool;
     plain ssz_u64;
     plain ssz_u64;
     plain ssz_u64;
     plain ssz_u64 ])
  (λ x, (v_pubkey x, (v_withdrawal_credentials x, (v_effective_balance x, (v_slashed x,
    (v_activation_eligibility_epoch x, (v_activation_epoch x, (v_exit_epoch x, v_withdrawable_epoch x))))))))
  (λ '(a, (b, (c, (d, (e, (f, (g, h))))))), mkValidator a b c d e f g h).
Definition Validator_valid (x : Validator) : Prop :=
  bytes_of_len 48 (v_pubkey x) ∧
  bytes_of_len 32 (v_withdrawal_credentials x) ∧
  is_u64 (v_effective_balance x) ∧
  True ∧
  is_u64 (v_activation_eligibility_epoch x) ∧
  is_u64 (v_activation_epoch x) ∧
  is_u64 (v_exit_epoch x) ∧
  is_u64 (v_withdrawable_epoch x).
#[global] Instance Validator_laws : SszLaws ssz_Validator Validator_valid.
Proof. derive_laws. Qed.

Definition ssz_AttestationData : SszType AttestationData := ssz_struct
  (fields [ plain ssz_u64;
     plain ssz_u64;
     plain ssz_H256;
     plain ssz_Checkpoint;
     plain ssz_Checkpoint ])
  (λ x, (ad_slot x, (ad_index x, (ad_beacon_block_root x, (ad_source x, ad_target x)))))
  (λ '(a, (b, (c, (d, e)))), mkAttestationData a b c d e).
Definition AttestationData_valid (x : AttestationData) : Prop :=
  is_u64 (ad_slot x) ∧
  is_u64 (ad_index x) ∧
  bytes_of_len 32 (ad_beacon_block_root x) ∧
  Checkpoint_valid (ad_source x) ∧
  Checkpoint_valid (ad_target x).
#[global] Instance AttestationData_laws : SszLaws ssz_AttestationData AttestationData_valid.
Proof. derive_laws. Qed.

Definition ssz_AttestationDataAndCustodyBit : SszType AttestationDataAndCustodyBit := ssz_struct
  (fields [ plain ssz_AttestationData;
     plain ssz_bool ])
  (λ x, (adc_data x, adc_custody_bit x))
  (λ '(a, b), mkAttestationDataAndCustodyBit a b).
Definition AttestationDataAndCustodyBit_valid (x : AttestationDataAndCustodyBit) : Prop :=
  AttestationData_valid (adc_data x) ∧
  True.
#[global] Instance AttestationDataAndCustodyBit_laws : SszLaws ssz_AttestationDataAndCustodyBit
  AttestationDataAndCustodyBit_valid.
Proof. derive_laws. Qed.

Definition ssz_IndexedAttestation : SszType IndexedAttestation := ssz_struct
  (fields [ compact (ssz_maxvec ssz_u64 MaxValidatorsPerCommittee) (ssz_compact_uint_maxvec 8
    MaxValidatorsPerCommittee);
     compact (ssz_maxvec ssz_u64 MaxValidatorsPerCommittee) (ssz_compact_uint_maxvec 8 MaxValidatorsPerCommittee);
     plain ssz_AttestationData;
     plain ssz_Signature ])
  (λ x, (ia_custody_bit_0_indices x, (ia_custody_bit_1_indices x, (ia_data x, ia_signature x))))
  (λ '(a, (b, (c, d))), mkIndexedAttestation a b c d).
Definition IndexedAttestation_valid (x : IndexedAttestation) : Prop :=
  (maxvec_valid ssz_u64 is_u64 MaxValidatorsPerCommittee (ia_custody_bit_0_indices x) ∧
   maxvec_valid ssz_u64 is_u64 MaxValidatorsPerCommittee (ia_custody_bit_1_indices x) ∧
   AttestationData_valid (ia_data x) ∧
   bytes_of_len 96 (ia_signature x)) ∧
  zlen (ssz_encode ssz_IndexedAttestation x) < 2 ^ 32.
#[global] Instance IndexedAttestation_laws : SszLaws ssz_IndexedAttestation IndexedAttestation_valid.
Proof. derive_laws. Qed.

Definition ssz_SigningIndexedAttestation : SszType SigningIndexedAttestation := ssz_struct
  (fields [ compact (ssz_maxvec ssz_u64 MaxValidatorsPerCommittee) (ssz_compact_uint_maxvec 8
    MaxValidatorsPerCommittee);
     compact (ssz_maxvec ssz_u64 MaxValidatorsPerCommittee) (ssz_compact_uint_maxvec 8 MaxValidatorsPerCommittee);
     plain ssz_AttestationData ])
  (λ x, (sia_custody_bit_0_indices x, (sia_custody_bit_1_indices x, sia_data x)))
  (λ '(a, (b, c)), mkSigningIndexedAttestation a b c).
Definition SigningIndexedAttestation_valid (x : SigningIndexedAttestation) : Prop :=
  (maxvec_valid ssz_u64 is_u64 MaxValidatorsPerCommittee (sia_custody_bit_0_indices x) ∧
   maxvec_valid ssz_u64 is_u64 MaxValidatorsPerCommittee (sia_custody_bit_1_indices x) ∧
   AttestationData_valid (sia_data x)) ∧
  zlen (ssz_encode ssz_SigningIndexedAttestation x) < 2 ^ 32.
#[global] Instance SigningIndexedAttestation_laws : SszLaws ssz_SigningIndexedAttestation
  SigningIndexedAttestation_valid.
Proof. derive_laws. Qed.

Definition ssz_PendingAttestation : SszType PendingAttestation := ssz_struct
  (fields [ compact (ssz_maxvec ssz_bool MaxValidatorsPerCommittee) (ssz_bitlist_maxvec MaxValidatorsPerCommittee);
     plain ssz_AttestationData;
     plain ssz_u64;
     plain ssz_u64 ])
  (λ x, (pa_aggregation_bits x, (pa_data x, (pa_inclusion_delay x, pa_proposer_index x))))
  (λ '(a, (b, (c, d))), mkPendingAttestation a b c d).
Definition PendingAttestation_valid (x : PendingAttestation) : Prop :=
  (bitlist_valid MaxValidatorsPerCommittee (pa_aggregation_bits x) ∧
   AttestationData_valid (pa_data x) ∧
   is_u64 (pa_inclusion_delay x) ∧
   is_u64 (pa_proposer_index x)) ∧
  zlen (ssz_encode ssz_PendingAttestation x) < 2 ^ 32.
#[global] Instance PendingAttestation_laws : SszLaws ssz_PendingAttestation PendingAttestation_valid.
Proof. derive_laws. Qed.

Definition ssz_Eth1Data : SszType Eth1Data := ssz_struct
  (fields [ plain ssz_H256;
     plain ssz_u64;
     plain ssz_H256 ])
  (λ x, (e1_deposit_root x, (e1_deposit_count x, e1_block_hash x)))
  (λ '(a, (b, c)), mkEth1Data a b c).
Definition Eth1Data_valid (x : Eth1Data) : Prop :=
  bytes_of_len 32 (e1_deposit_root x) ∧
  is_u64 (e1_deposit_count x) ∧
  bytes_of_len 32 (e1_block_hash x).
#[global] Instance Eth1Data_laws : SszLaws ssz_Eth1Data Eth1Data_valid.
Proof. derive_laws. Qed.

Definition ssz_HistoricalBatch : SszType HistoricalBatch := ssz_struct
  (fields [ plain (ssz_vec_array ssz_H256 SlotsPerHistoricalRoot);
     plain (ssz_vec_array ssz_H256 SlotsPerHistoricalRoot) ])
  (λ x, (hb_block_roots x, hb_state_roots x))
  (λ '(a, b), mkHistoricalBatch a b).
Definition HistoricalBatch_valid (x : HistoricalBatch) : Prop :=
  array_valid ssz_H256 (bytes_of_len 32) SlotsPerHistoricalRoot (hb_block_roots x) ∧
  array_valid ssz_H256 (bytes_of_len 32) SlotsPerHistoricalRoot (hb_state_roots x).
#[global] Instance HistoricalBatch_laws : SszLaws ssz_HistoricalBatch HistoricalBatch_valid.
Proof. derive_laws. Qed.

Definition ssz_DepositData : SszType DepositData := ssz_struct
  (fields [ plain ssz_ValidatorId;
     plain ssz_H256;
     plain ssz_u64;
     plain ssz_Signature ])
  (λ x, (dd_pubkey x, (dd_withdrawal_credentials x, (dd_amount x, dd_signature x))))
  (λ '(a, (b, (c, d))), mkDepositData a b c d).
Definition DepositData_valid (x : DepositData) : Prop :=
  bytes_of_len 48 (dd_pubkey x) ∧
  bytes_of_len 32 (dd_withdrawal_credentials x) ∧
  is_u64 (dd_amount x) ∧
  bytes_of_len 96 (dd_signature x).
#[global] Instance DepositData_laws : SszLaws ssz_DepositData DepositData_valid.
Proof. derive_laws. Qed.

Definition ssz_SigningDepositData : SszType SigningDepositData := ssz_struct
  (fields [ plain ssz_ValidatorId;
     plain ssz_H256;
     plain ssz_u64 ])
  (λ x, (sdd_pubkey x, (sdd_withdrawal_credentials x, sdd_amount x)))
  (λ '(a, (b, c)), mkSigningDepositData a b c).
Definition SigningDepositData_valid (x : SigningDepositData) : Prop :=
  bytes_of_len 48 (sdd_pubkey x) ∧
  bytes_of_len 32 (sdd_withdrawal_credentials x) ∧
  is_u64 (sdd_amount x).
#[global] Instance SigningDepositData_laws : SszLaws ssz_SigningDepositData SigningDepositData_valid.
Proof. derive_laws. Qed.

Definition ssz_BeaconBlockHeader : SszType BeaconBlockHeader := ssz_struct
  (fields [ plain ssz_u64;
     plain ssz_H256;
     plain ssz_H256;
     plain ssz_H256;
     plain ssz_Signature ])
  (λ x, (bh_slot x, (bh_parent_root x, (bh_state_root x, (bh_body_root x, bh_signature x)))))
  (λ '(a, (b, (c, (d, e)))), mkBeaconBlockHeader a b c d e).
Definition BeaconBlockHeader_valid (x : BeaconBlockHeader) : Prop :=
  is_u64 (bh_slot x) ∧
  bytes_of_len 32 (bh_parent_root x) ∧
  bytes_of_len 32 (bh_state_root x) ∧
  bytes_of_len 32 (bh_body_root x) ∧
  bytes_of_len 96 (bh_signature x).
#[global] Instance BeaconBlockHeader_laws : SszLaws ssz_BeaconBlockHeader BeaconBlockHeader_valid.
Proof. derive_laws. Qed.

Definition ssz_SigningBeaconBlockHeader : SszType SigningBeaconBlockHeader := ssz_struct
  (fields [ plain ssz_u64;
     plain ssz_H256;
     plain ssz_H256;
     plain ssz_H256 ])
  (λ x, (sbh_slot x, (sbh_parent_root x, (sbh_state_root x, sbh_body_root x))))
  (λ '(a, (b, (c, d))), mkSigningBeaconBlockHeader a b c d).
Definition SigningBeaconBlockHeader_valid (x : SigningBeaconBlockHeader) : Prop :=
  is_u64 (sbh_slot x) ∧
  bytes_of_len 32 (sbh_parent_root x) ∧
  bytes_of_len 32 (sbh_state_root x) ∧
  bytes_of_len 32 (sbh_body_root x).
#[global] Instance SigningBeaconBlockHeader_laws : SszLaws ssz_SigningBeaconBlockHeader
  SigningBeaconBlockHeader_valid.
Proof. derive_laws. Qed.

Definition ssz_ProposerSlashing : SszType ProposerSlashing := ssz_struct
  (fields [ plain ssz_u64;
     plain ssz_BeaconBlockHeader;
     plain ssz_BeaconBlockHeader ])
  (λ x, (ps_proposer_index x, (ps_header_1 x, ps_header_2 x)))
  (λ '(a, (b, c)), mkProposerSlashing a b c).
Definition ProposerSlashing_valid (x : ProposerSlashing) : Prop :=
  is_u64 (ps_proposer_index x) ∧
  BeaconBlockHeader_valid (ps_header_1 x) ∧
  BeaconBlockHeader_valid (ps_header_2 x).
#[global] Instance ProposerSlashing_laws : SszLaws ssz_ProposerSlashing ProposerSlashing_valid.
Proof. derive_laws. Qed.

Definition ssz_AttesterSlashing : SszType AttesterSlashing := ssz_struct
  (fields [ plain ssz_IndexedAttestation;
     plain ssz_IndexedAttestation ])
  (λ x, (as_attestation_1 x, as_attestation_2 x))
  (λ '(a, b), mkAttesterSlashing a b).
Definition AttesterSlashing_valid (x : AttesterSlashing) : Prop :=
  (IndexedAttestation_valid (as_attestation_1 x) ∧
   IndexedAttestation_valid (as_attestation_2 x)) ∧
  zlen (ssz_encode ssz_AttesterSlashing x) < 2 ^ 32.
#[global] Instance AttesterSlashing_laws : SszLaws ssz_AttesterSlashing AttesterSlashing_valid.
Proof. derive_laws. Qed.

Definition ssz_Attestation : SszType Attestation := ssz_struct
  (fields [ compact (ssz_maxvec ssz_bool MaxValidatorsPerCommittee) (ssz_bitlist_maxvec MaxValidatorsPerCommittee);
     plain ssz_AttestationData;
     compact (ssz_maxvec ssz_bool MaxValidatorsPerCommittee) (ssz_bitlist_maxvec MaxValidatorsPerCommittee);
     plain ssz_Signature ])
  (λ x, (at_aggregation_bits x, (at_data x, (at_custody_bits x, at_signature x))))
  (λ '(a, (b, (c, d))), mkAttestation a b c d).
Definition Attestation_valid (x : Attestation) : Prop :=
  (bitlist_valid MaxValidatorsPerCommittee (at_aggregation_bits x) ∧
   AttestationData_valid (at_data x) ∧
   bitlist_valid MaxValidatorsPerCommittee (at_custody_bits x) ∧
   bytes_of_len 96 (at_signature x)) ∧
  zlen (ssz_encode ssz_Attestation x) < 2 ^ 32.
#[global] Instance Attestation_laws : SszLaws ssz_Attestation Attestation_valid.
Proof. derive_laws. Qed.

Definition ssz_SigningAttestation : SszType SigningAttestation := ssz_struct
  (fields [ compact (ssz_maxvec ssz_bool MaxValidatorsPerCommittee) (ssz_bitlist_maxvec MaxValidatorsPerCommittee);
     plain ssz_AttestationData;
     compact (ssz_maxvec ssz_bool MaxValidatorsPerCommittee) (ssz_bitlist_maxvec MaxValidatorsPerCommittee) ])
  (λ x, (sat_aggregation_bits x, (sat_data x, sat_custody_bits x)))
  (λ '(a, (b, c)), mkSigningAttestation a b c).
Definition SigningAttestation_valid (x : SigningAttestation) : Prop :=
  (bitlist_valid MaxValidatorsPerCommittee (sat_aggregation_bits x) ∧
   AttestationData_valid (sat_data x) ∧
   bitlist_valid MaxValidatorsPerCommittee (sat_custody_bits x)) ∧
  zlen (ssz_encode ssz_SigningAttestation x) < 2 ^ 32.
#[global] Instance SigningAttestation_laws : SszLaws ssz_SigningAttestation SigningAttestation_valid.
Proof. derive_laws. Qed.

Definition ssz_Deposit : SszType Deposit := ssz_struct
  (fields [ plain (ssz_vec_array ssz_H256 (DEPOSIT_CONTRACT_TREE_DEPTH + 1));
     plain ssz_DepositData ])
  (λ x, (dep_proof x, dep_data x))
  (λ '(a, b), mkDeposit a b).
Definition Deposit_valid (x : Deposit) : Prop :=
  array_valid ssz_H256 (bytes_of_len 32) (DEPOSIT_CONTRACT_TREE_DEPTH + 1) (dep_proof x) ∧
  DepositData_valid (dep_data x).
#[global] Instance Deposit_laws : SszLaws ssz_Deposit Deposit_valid.
Proof. derive_laws. Qed.

Definition ssz_VoluntaryExit : SszType VoluntaryExit := ssz_struct
  (fields [ plain ssz_u64;
     plain ssz_u64;
     plain ssz_Signature ])
  (λ x, (ve_epoch x, (ve_validator_index x, ve_signature x)))
  (λ '(a, (b, c)), mkVoluntaryExit a b c).
Definition VoluntaryExit_valid (x : VoluntaryExit) : Prop :=
  is_u64 (ve_epoch x) ∧
  is_u64 (ve_validator_index x) ∧
  bytes_of_len 96 (ve_signature x).
#[global] Instance VoluntaryExit_laws : SszLaws ssz_VoluntaryExit VoluntaryExit_valid.
Proof. derive_laws. Qed.

Definition ssz_SigningVoluntaryExit : SszType SigningVoluntaryExit := ssz_struct
  (fields [ plain ssz_u64;
     plain ssz_u64 ])
  (λ x, (sve_epoch x, sve_validator_index x))
  (λ '(a, b), mkSigningVoluntaryExit a b).
Definition SigningVoluntaryExit_valid (x : SigningVoluntaryExit) : Prop :=
  is_u64 (sve_epoch x) ∧
  is_u64 (sve_validator_index x).
#[global] Instance SigningVoluntaryExit_laws : SszLaws ssz_SigningVoluntaryExit SigningVoluntaryExit_valid.
Proof. derive_laws. Qed.

Definition ssz_BeaconBlockBody : SszType BeaconBlockBody := ssz_struct
  (fields [ plain ssz_Signature;
     plain ssz_Eth1Data;
     plain ssz_H256;
     plain (ssz_maxvec ssz_ProposerSlashing MaxProposerSlashings);
     plain (ssz_maxvec ssz_AttesterSlashing MaxAttesterSlashings);
     plain (ssz_maxvec ssz_Attestation MaxAttestations);
     plain (ssz_maxvec ssz_Deposit MaxDeposits);
     plain (ssz_maxvec ssz_VoluntaryExit MaxVoluntaryExits) ])
  (λ x, (body_randao_reveal x, (body_eth1_data x, (body_graffiti x, (body_proposer_slashings x,
    (body_attester_slashings x, (body_attestations x, (body_deposits x, body_voluntary_exits x))))))))
  (λ '(a, (b, (c, (d, (e, (f, (g, h))))))), mkBeaconBlockBody a b c d e f g h).
Definition BeaconBlockBody_valid (x : BeaconBlockBody) : Prop :=
  (bytes_of_len 96 (body_randao_reveal x) ∧
   Eth1Data_valid (body_eth1_data x) ∧
   bytes_of_len 32 (body_graffiti x) ∧
   maxvec_valid ssz_ProposerSlashing ProposerSlashing_valid MaxProposerSlashings (body_proposer_slashings x) ∧
   maxvec_valid ssz_AttesterSlashing AttesterSlashing_valid MaxAttesterSlashings (body_attester_slashings x) ∧
   maxvec_valid ssz_Attestation Attestation_valid MaxAttestations (body_attestations x) ∧
   maxvec_valid ssz_Deposit Deposit_valid MaxDeposits (body_deposits x) ∧
   maxvec_valid ssz_VoluntaryExit VoluntaryExit_valid MaxVoluntaryExits (body_voluntary_exits x)) ∧
  zlen (ssz_encode ssz_BeaconBlockBody x) < 2 ^ 32.
#[global] Instance BeaconBlockBody_laws : SszLaws ssz_BeaconBlockBody BeaconBlockBody_valid.
Proof. derive_laws. Qed.

Definition ssz_BeaconBlock : SszType BeaconBlock := ssz_struct
  (fields [ plain ssz_u64;
     plain ssz_H256;
     plain ssz_H256;
     plain ssz_BeaconBlockBody;
     plain ssz_Signature ])
  (λ x, (blk_slot x, (blk_parent_root x, (blk_state_root x, (blk_body x, blk_signature x)))))
  (λ '(a, (b, (c, (d, e)))), mkBeaconBlock a b c d e).
Definition BeaconBlock_valid (x : BeaconBlock) : Prop :=
  (is_u64 (blk_slot x) ∧
   bytes_of_len 32 (blk_parent_root x) ∧
   bytes_of_len 32 (blk_state_root x) ∧
   BeaconBlockBody_valid (blk_body x) ∧
   bytes_of_len 96 (blk_signature x)) ∧
  zlen (ssz_encode ssz_BeaconBlock x) < 2 ^ 32.
#[global] Instance BeaconBlock_laws : SszLaws ssz_BeaconBlock BeaconBlock_valid.
Proof. derive_laws. Qed.

Definition ssz_UnsealedBeaconBlock : SszType UnsealedBeaconBlock := ssz_struct
  (fields [ plain ssz_u64;
     plain ssz_H256;
     plain ssz_H256;
     plain ssz_BeaconBlockBody ])
  (λ x, (ub_slot x, (ub_parent_root x, (ub_state_root x, ub_body x))))
  (λ '(a, (b, (c, d))), mkUnsealedBeaconBlock a b c d).
Definition UnsealedBeaconBlock_valid (x : UnsealedBeaconBlock) : Prop :=
  (is_u64 (ub_slot x) ∧
   bytes_of_len 32 (ub_parent_root x) ∧
   bytes_of_len 32 (ub_state_root x) ∧
   BeaconBlockBody_valid (ub_body x)) ∧
  zlen (ssz_encode ssz_UnsealedBeaconBlock x) < 2 ^ 32.
#[global] Instance UnsealedBeaconBlock_laws : SszLaws ssz_UnsealedBeaconBlock UnsealedBeaconBlock_valid.
Proof. derive_laws. Qed.

Definition ssz_BeaconState : SszType BeaconState := ssz_struct
  (fields [ plain ssz_u64;
     plain ssz_u64;
     plain ssz_Fork;
     plain ssz_BeaconBlockHeader;
     plain (ssz_vec_array ssz_H256 SlotsPerHistoricalRoot);
     plain (ssz_vec_array ssz_H256 SlotsPerHistoricalRoot);
     plain (ssz_maxvec ssz_H256 HistoricalRootsLimit);
     plain ssz_Eth1Data;
     plain (ssz_maxvec ssz_Eth1Data SlotsPerEth1VotingPeriod);
     plain ssz_u64;
     plain (ssz_maxvec ssz_Validator ValidatorRegistryLimit);
     compact (ssz_maxvec ssz_u64 ValidatorRegistryLimit) (ssz_compact_uint_maxvec 8 ValidatorRegistryLimit);
     plain (ssz_vec_array ssz_H256 EpochsPerHistoricalVector);
     compact (ssz_vec_array ssz_u64 EpochsPerSlashingsVector) (ssz_compact_uint_array 8 EpochsPerSlashingsVector);
     plain (ssz_maxvec ssz_PendingAttestation MaxAttestationsPerEpoch);
     plain (ssz_maxvec ssz_PendingAttestation MaxAttestationsPerEpoch);
     compact (ssz_vec_array ssz_bool (Z.of_nat JustificationBitsLength)) (ssz_bitvector (Z.of_nat
       JustificationBitsLength));
     plain ssz_Checkpoint;
     plain ssz_Checkpoint;
     plain ssz_Checkpoint ])
  (λ x, (genesis_time x, (slot x, (fork x, (latest_block_header x, (block_roots x, (state_roots x,
    (historical_roots x, (eth1_data x, (eth1_data_votes x, (eth1_deposit_index x, (validators x, (balances x,
    (randao_mixes x, (slashings x, (previous_epoch_attestations x, (current_epoch_attestations x,
    (justification_bits x, (previous_justified_checkpoint x, (current_justified_checkpoint x, finalized_checkpoint
    x))))))))))))))))))))
  (λ '(a, (b, (c, (d, (e, (f, (g, (h, (i, (j, (k, (l, (m, (n, (o, (p, (q, (r, (s, t))))))))))))))))))),
    mkBeaconState a b c d e f g h i j k l m n o p q r s t).
Definition BeaconState_valid (x : BeaconState) : Prop :=
  (is_u64 (genesis_time x) ∧
   is_u64 (slot x) ∧
   Fork_valid (fork x) ∧
   BeaconBlockHeader_valid (latest_block_header x) ∧
   array_valid ssz_H256 (bytes_of_len 32) SlotsPerHistoricalRoot (block_roots x) ∧
   array_valid ssz_H256 (bytes_of_len 32) SlotsPerHistoricalRoot (state_roots x) ∧
   maxvec_valid ssz_H256 (bytes_of_len 32) HistoricalRootsLimit (historical_roots x) ∧
   Eth1Data_valid (eth1_data x) ∧
   maxvec_valid ssz_Eth1Data Eth1Data_valid SlotsPerEth1VotingPeriod (eth1_data_votes x) ∧
   is_u64 (eth1_deposit_index x) ∧
   maxvec_valid ssz_Validator Validator_valid ValidatorRegistryLimit (validators x) ∧
   maxvec_valid ssz_u64 is_u64 ValidatorRegistryLimit (balances x) ∧
   array_valid ssz_H256 (bytes_of_len 32) EpochsPerHistoricalVector (randao_mixes x) ∧
   array_valid ssz_u64 is_u64 EpochsPerSlashingsVector (slashings x) ∧
   maxvec_valid ssz_PendingAttestation PendingAttestation_valid MaxAttestationsPerEpoch
     (previous_epoch_attestations x) ∧
   maxvec_valid ssz_PendingAttestation PendingAttestation_valid MaxAttestationsPerEpoch
     (current_epoch_attestations x) ∧
   zlen (justification_bits x) = (Z.of_nat JustificationBitsLength) ∧
   Checkpoint_valid (previous_justified_checkpoint x) ∧
   Checkpoint_valid (current_justified_checkpoint x) ∧
   Checkpoint_valid (finalized_checkpoint x)) ∧
  zlen (ssz_encode ssz_BeaconState x) < 2 ^ 32.
#[global] Instance BeaconState_laws : SszLaws ssz_BeaconState BeaconState_valid.
Proof. derive_laws. Qed.

(** ** Blocks and states *)

(** An implementation that obeys the laws encodes different values
    differently. *)
Lemma ssz_encode_inj {A} (c : SszType A) valid `{!SszLaws c valid} x y :
  valid x → valid y → ssz_encode c x = ssz_encode c y → x = y.
Proof.
  intros Hx Hy Heq. pose proof (ssz_decode_encode x Hx) as H1. pose proof (ssz_decode_encode y Hy) as H2.
  rewrite Heq in H1. congruence.
Qed.

(** C13: a beacon block whose integers, hashes and lists are in range, and which
    takes less than 4 GiB, decodes to itself, and no other block has its
    encoding.  Likewise a beacon state. *)
Theorem block_and_state_roundtrip :
  (∀ block, BeaconBlock_valid block →
     ssz_decode ssz_BeaconBlock (ssz_encode ssz_BeaconBlock block) = Ok block ∧
     ∀ other, BeaconBlock_valid other →
       ssz_encode ssz_BeaconBlock other = ssz_encode ssz_BeaconBlock block → other = block) ∧
  (∀ state, BeaconState_valid state →
     ssz_decode ssz_BeaconState (ssz_encode ssz_BeaconState state) = Ok state ∧
     ∀ other, BeaconState_valid other →
       ssz_encode ssz_BeaconState other = ssz_encode ssz_BeaconState state → other = state).
Proof.
  split; (intros x Hx; split; [by apply ssz_decode_encode|]; intros y Hy; by apply (ssz_encode_inj _ _ y x)).
Qed.

(** C35: the sizes of the structs of the chain.  The encodings of the fifteen
    structs without a list are byte strings of exactly this many bytes, that of
    a historical batch depending on the configuration; every other struct is of
    variable size and is encoded behind an offset. *)
Theorem encoded_sizes :
  let encodes {A} (c : SszType A) (valid : A → Prop) (n : Z) :=
    ssz_size c = Some n ∧ ∀ x, valid x → Forall is_u8 (ssz_encode c x) ∧ zlen (ssz_encode c x) = n in
  (encodes ssz_Fork Fork_valid 16 ∧ encodes ssz_Checkpoint Checkpoint_valid 40 ∧
   encodes ssz_Validator Validator_valid 121 ∧ encodes ssz_AttestationData AttestationData_valid 128 ∧
   encodes ssz_AttestationDataAndCustodyBit AttestationDataAndCustodyBit_valid 129 ∧
   encodes ssz_Eth1Data Eth1Data_valid 72 ∧
   encodes ssz_HistoricalBatch HistoricalBatch_valid (64 * SlotsPerHistoricalRoot) ∧
   encodes ssz_DepositData DepositData_valid 184 ∧ encodes ssz_SigningDepositData SigningDepositData_valid 88 ∧
   encodes ssz_BeaconBlockHeader BeaconBlockHeader_valid 200 ∧
   encodes ssz_SigningBeaconBlockHeader SigningBeaconBlockHeader_valid 104 ∧
   encodes ssz_ProposerSlashing ProposerSlashing_valid 408 ∧ encodes ssz_Deposit Deposit_valid 1240 ∧
   encodes ssz_VoluntaryExit VoluntaryExit_valid 112 ∧
   encodes ssz_SigningVoluntaryExit SigningVoluntaryExit_valid 16) ∧
  ssz_size ssz_IndexedAttestation = None ∧ ssz_size ssz_SigningIndexedAttestation = None ∧
  ssz_size ssz_PendingAttestation = None ∧ ssz_size ssz_AttesterSlashing = None ∧
  ssz_size ssz_Attestation = None ∧ ssz_size ssz_SigningAttestation = None ∧
  ssz_size ssz_BeaconBlockBody = None ∧ ssz_size ssz_BeaconBlock = None ∧
  ssz_size ssz_UnsealedBeaconBlock = None ∧ ssz_size ssz_BeaconState = None.
Proof.
  intros encodes.
  assert (ssz_size ssz_HistoricalBatch = Some (64 * SlotsPerHistoricalRoot)) as Hbatch by (cbn; f_equal; lia).
  repeat split; try done; solve [by apply ssz_encode_bytes|by apply ssz_encode_size].
Qed.
End Structs.

(** The derived [Codec] adds up the sizes of the field types also where the
    field is encoded in its compact form.  A struct of one bit vector of length
    eight declares eight bytes and is encoded in one, so that a list of two of
    them is decoded, without an error, as the empty list. *)
Theorem compact_size_mismatch (bits1 bits2 : list bool) :
  let c := ssz_struct (one_field (compact (ssz_vec_array ssz_bool 8) (ssz_bitvector 8))) id id in
  zlen bits1 = 8 → zlen bits2 = 8 →
  ssz_size c = Some 8 ∧ zlen (ssz_encode c bits1) = 1 ∧ ssz_decode c (ssz_encode c bits1) = Ok bits1 ∧
  ssz_decode (ssz_vec c) (ssz_encode (ssz_vec c) [bits1; bits2]) = Ok [].
Proof.
  intros c H1 H2. split; [done|].
  assert (∀ bits, zlen bits = 8 → ∃ b, ssz_encode c bits = [b]) as Henc.
  { intros bits Hbits. pose proof (ssz_encode_size (c:=ssz_bitvector 8) bits 1 Hbits eq_refl) as Hlen.
    assert (ssz_encode c bits = ssz_encode (ssz_bitvector 8) bits) as ->.
    { unfold c, ssz_struct, series_encode. cbn -[ssz_bitvector]. by rewrite !app_nil_r. }
    destruct (ssz_encode (ssz_bitvector 8) bits) as [|b [|]]; [done|by exists b|unfold zlen in Hlen; cbn in Hlen; lia]. }
  destruct (Henc bits1 H1) as [b1 E1], (Henc bits2 H2) as [b2 E2].
  split; [by rewrite E1|]. split.
  - apply (struct_decode_encode _ id id (λ bits, zlen bits = 8)); [apply _|done|by split].
  - unfold ssz_vec, encode_list. cbn [ssz_encode ssz_decode fmap list_fmap]. rewrite E1, E2. done.
Qed.

(** ** Witnesses *)

(** Values are checked one field at a time; only closed terms are evaluated. *)
Ltac solve_bytes :=
  match goal with
  | |- bytes_of_len ?n ?b =>
      let b' := eval vm_compute in b in
      change (bytes_of_len n b'); split; [reflexivity|repeat first [apply Forall_nil_2|apply Forall_cons_2]; done]
  end.
Ltac solve_valid :=
  lazymatch goal with
  | |- bytes_of_len _ _ => solve_bytes
  | |- is_u64 _ => split; vm_compute; done
  | |- bitlist_valid _ _ => split; [split|]; vm_compute; done
  | |- zlen _ < _ => vm_compute; reflexivity
  | |- zlen _ ≤ _ => vm_compute; done
  | |- zlen _ = _ => vm_compute; reflexivity
  | |- True => exact I
  | |- _ ∧ _ => split; solve_valid
  | |- _ → _ => intros _; solve_valid
  | |- maxvec_valid _ _ _ _ => split; solve_valid
  | |- array_valid _ _ _ _ => split; solve_valid
  | |- list_valid _ _ _ => split; solve_valid
  | |- Forall ?P ?l =>
      let l' := eval hnf in l in
      change (Forall P l');
      lazymatch l' with
      | [] => apply Forall_nil_2
      | _ :: _ => apply Forall_cons_2; [solve_valid|solve_valid]
      end
  | |- _ => progress hnf; solve_valid
  end.

Section Witnesses.
#[local] Existing Instances toy_config toy_config_ok toy_mode.

Definition toy_data : AttestationData :=
  mkAttestationData 3 0 (replicate 32 7) (mkCheckpoint 0 H256_default) (mkCheckpoint 1 (replicate 32 9)).
Definition toy_body : BeaconBlockBody := {|
  body_randao_reveal := replicate 96 1;
  body_eth1_data := mkEth1Data H256_default 5 H256_default;
  body_graffiti := H256_default;
  body_proposer_slashings := [];
  body_attester_slashings := [];
  body_attestations :=
    [mkAttestation [true; false; true] toy_data [false; false; false] H768_default;
     mkAttestation [true; true; true; true; true; true; true; true; false] toy_data [] H768_default];
  body_deposits := [];
  body_voluntary_exits := [mkVoluntaryExit 1 4 (replicate 96 2)];
|}.
Definition toy_block : BeaconBlock := mkBeaconBlock 4 (replicate 32 3) (replicate 32 4) toy_body H768_default.

Lemma toy_block_valid : BeaconBlock_valid toy_block.
Proof. solve_valid. Qed.

Lemma block_and_state_roundtrip_witness :
  BeaconBlock_valid toy_block ∧ ssz_decode ssz_BeaconBlock (ssz_encode ssz_BeaconBlock toy_block) = Ok toy_block.
Proof.
  split; [exact toy_block_valid|]. exact (proj1 (proj1 block_and_state_roundtrip toy_block toy_block_valid)).
Defined.

Lemma encoded_sizes_witness :
  zlen (ssz_encode ssz_AttestationData toy_data) = 128.
Proof.
  assert (AttestationData_valid toy_data) as Hv by solve_valid.
  destruct encoded_sizes as [(_ & _ & _ & [_ Hdata] & _) _]. exact (proj2 (Hdata toy_data Hv)).
Defined.

Lemma compact_size_mismatch_witness :
  let bits := replicate 8 true in
  let c := ssz_struct (one_field (compact (ssz_vec_array ssz_bool 8) (ssz_bitvector 8))) id id in
  ssz_decode (ssz_vec c) (ssz_encode (ssz_vec c) [bits; bits]) = Ok [].
Proof. apply (compact_size_mismatch (replicate 8 true) (replicate 8 true)); done. Defined.
End Witnesses.
