(* ===== verification/Typing.v ===== *)
(** * The beacon state keeps the types of its fields

    In Rust the fields of [BeaconState] are unsigned 64-bit integers, hashes of
    fixed lengths, and vectors of fixed or variable length.  The model has
    integers and byte lists, and what the types guarantee is the predicate
    [typed_state] here, written with the predicates of [SszTypes] for the structs
    inside the state.  [state_transition] keeps it, whatever becomes of the
    block, when the values of the block and the results of the hash functions
    have their types too. *)
From stdpp Require Import base numbers list.
From Stdlib Require Import ZArith Lia.
From S2P Require Import Prelude Config Types Utils State Accessors Mutators Justification Reward Epoch Block Transition Lifecycle ChainRoots.
From S2P Require Import Ssz SszTypes.

#[local] Open Scope Z_scope.

Lemma zero_bytes n : bytes_of_len n (replicate n 0).
Proof. split; [apply length_replicate|]. by apply Forall_replicate. Qed.

(** The tree hashes that enter the state are hashes. *)
Class TreeRootOk `{TreeRoot} : Prop := {
  root_state_len : ∀ s, bytes_of_len 32 (tree_root_state s);
  root_header_len : ∀ h, bytes_of_len 32 (tree_root_signing_header h);
  root_body_len : ∀ b, bytes_of_len 32 (tree_root_body b);
  root_batch_len : ∀ b, bytes_of_len 32 (tree_root_historical_batch b);
}.

(** The key and the credentials of a validator *)
Definition key_of (v : Validator) : ValidatorId * H256 := (v_pubkey v, v_withdrawal_credentials v).
Definition key_typed (k : ValidatorId * H256) : Prop := bytes_of_len 48 k.1 ∧ bytes_of_len 32 k.2.

(** A pending attestation in a registry of [n] validators *)
Record pending_typed (n : nat) (a : PendingAttestation) : Prop := {
  pending_data : AttestationData_valid (pa_data a);
  pending_delay : is_u64 (pa_inclusion_delay a);
  pending_proposer : 0 ≤ pa_proposer_index a < Z.of_nat n;
}.

(** The fields that [wf_state] does not speak of *)
Record typed_fields (s : BeaconState) : Prop := {
  ty_genesis_time : is_u64 (genesis_time s);
  ty_fork : Fork_valid (fork s);
  ty_header : BeaconBlockHeader_valid (latest_block_header s);
  ty_block_roots : Forall (bytes_of_len 32) (block_roots s);
  ty_state_roots : Forall (bytes_of_len 32) (state_roots s);
  ty_historical_roots : Forall (bytes_of_len 32) (historical_roots s);
  ty_eth1_data : Eth1Data_valid (eth1_data s);
  ty_eth1_data_votes : Forall Eth1Data_valid (eth1_data_votes s);
  ty_keys : Forall key_typed (key_of <$> validators s);
  ty_randao_mixes : Forall (bytes_of_len 32) (randao_mixes s);
  ty_previous_attestations : Forall (pending_typed (length (key_of <$> validators s))) (previous_epoch_attestations s);
  ty_current_attestations : Forall (pending_typed (length (key_of <$> validators s))) (current_epoch_attestations s);
  ty_previous_justified : Checkpoint_valid (previous_justified_checkpoint s);
  ty_current_justified : Checkpoint_valid (current_justified_checkpoint s);
  ty_finalized : Checkpoint_valid (finalized_checkpoint s);
}.

(** Every field of the state has its type. *)
Definition typed_state `{Config} (s : BeaconState) : Prop := wf_state s ∧ typed_fields s.

(** The values of a block that enter the state have their types; the check of
    the header compares the others with the state. *)
Record typed_body (b : BeaconBlockBody) : Prop := {
  body_eth1_typed : Eth1Data_valid (body_eth1_data b);
  body_attestations_typed : Forall (λ a, AttestationData_valid (at_data a)) (body_attestations b);
  body_deposits_typed : Forall (λ d, DepositData_valid (dep_data d)) (body_deposits b);
}.

Lemma typed_body_wf b : typed_body b → wf_body b.
Proof. intros [_ _ Hd]. eapply Forall_impl; [exact Hd|]. by intros d (_ & _ & Ha & _). Qed.

(** What SSZ decodes has its types. *)
Lemma valid_block_typed `{C : Config} `{!ConfigOk C} `{ArithMode} (b : BeaconBlock) : BeaconBlock_valid b → typed_body (blk_body b).
Proof.
  intros [(_ & _ & _ & Hbody & _) _]. destruct Hbody as [(_ & He & _ & _ & _ & Ha & Hd & _) _].
  split; [done|..].
  - destruct Ha as [[Ha _] _]. eapply Forall_impl; [exact Ha|]. by intros a ((_ & ? & _) & _).
  - destruct Hd as [[Hd _] _]. eapply Forall_impl; [exact Hd|]. by intros d (_ & ?).
Qed.

(** ** Commands on the registry *)

Section Keys.
Context `{Cfg : Config} `{AM : ArithMode} `{F : Fuel}.

Definition keys (s : BeaconState) := key_of <$> validators s.

Lemma typed_fields_same s s' : registry_frame s' = registry_frame s → keys s' = keys s → typed_fields s → typed_fields s'.
Proof.
  unfold keys. intros Hf Hk [].
  assert (∀ {T} (f : BeaconState → T), (∀ t, f (registry_frame t) = f t) → f s' = f s) as Hget
    by (intros T f Hfr; by rewrite <- (Hfr s'), Hf, Hfr).
  split; rewrite ?Hk; try done;
    match goal with |- context [?f s'] => by rewrite (Hget _ f (λ _, eq_refl)) end.
Qed.

Lemma registry_typed {A} (m : Exec A) :
  steps (same registry_frame) m → steps (same keys) m → steps (keeps typed_fields) m.
Proof. intros H1 H2 s. exact (typed_fields_same s (m s).2 (H1 s) (H2 s)). Qed.

Lemma modify_validator_keys i f :
  (∀ v, key_of (f v) = key_of v) → steps (same keys) (modify_validator i f).
Proof.
  intros Hf. unfold modify_validator. step_tac. apply vec_index_Ok in H. apply vec_set_Ok in H0 as [_ ->].
  unfold same, keys. cbn. rewrite list_fmap_insert, Hf. apply list_insert_id. by rewrite list_lookup_fmap, H.
Qed.

Lemma balance_keys {A} (m : Exec A) : steps (same validators) m → steps (same keys) m.
Proof. intros Hm s. unfold same, keys. by rewrite (Hm s : validators _ = _). Qed.

Lemma initiate_validator_exit_keys i : steps (same keys) (initiate_validator_exit i).
Proof. unfold initiate_validator_exit. step_tac; by apply modify_validator_keys. Qed.

Lemma slash_validator_keys i w : steps (same keys) (slash_validator i w).
Proof.
  unfold slash_validator. step_tac; try done; try (by apply modify_validator_keys);
    try apply initiate_validator_exit_keys; apply balance_keys;
    first [apply increase_balance_validators|apply decrease_balance_validators].
Qed.

Lemma modify_validator_typed i f : (∀ v, key_of (f v) = key_of v) → steps (keeps typed_fields) (modify_validator i f).
Proof. intros Hf. apply registry_typed; [apply modify_validator_frame|by apply modify_validator_keys]. Qed.

Lemma increase_balance_typed i d : steps (keeps typed_fields) (increase_balance i d).
Proof. apply registry_typed; [apply increase_balance_frame|apply balance_keys, increase_balance_validators]. Qed.

Lemma decrease_balance_typed i d : steps (keeps typed_fields) (decrease_balance i d).
Proof. apply registry_typed; [apply decrease_balance_frame|apply balance_keys, decrease_balance_validators]. Qed.

Lemma initiate_validator_exit_typed i : steps (keeps typed_fields) (initiate_validator_exit i).
Proof. apply registry_typed; [apply initiate_validator_exit_frame|apply initiate_validator_exit_keys]. Qed.

Lemma slash_validator_typed i w : steps (keeps typed_fields) (slash_validator i w).
Proof. apply registry_typed; [apply slash_validator_frame|apply slash_validator_keys]. Qed.

(** A command that keeps both parts keeps the types. *)
Lemma typed_steps {A} (m : Exec A) :
  steps (keeps wf_state) m → steps (keeps typed_fields) m → steps (keeps typed_state) m.
Proof. intros H1 H2 s [Hwf Hty]. split; [by apply H1|by apply H2]. Qed.

(** The proposer is in the registry. *)
Lemma proposer_in_registry s p : beacon_proposer_index s = Ok p → 0 ≤ p < Z.of_nat (length (validators s)).
Proof.
  unfold beacon_proposer_index. intros (e & _ & (sd & _ & Hl)%bind_Ok)%bind_Ok. revert Hl. generalize 0 at 1 as i.
  generalize proposer_fuel as n. intros n. induction n as [|n IH]; intros i; cbn [proposer_loop]; [done|].
  intros ([c ok] & Hc & Hl)%bind_Ok. cbn [fst snd] in Hl. destruct ok; [|apply bind_Ok in Hl as (j & _ & Hl); by eapply IH].
  injection Hl as <-. unfold proposer_candidate in Hc. res_inv.
  match goal with Hx : vec_index (active_validator_indices s e) _ = Ok ?x |- _ =>
    apply vec_index_Ok, list_elem_of_lookup_2, elem_of_active in Hx as (? & v & Hv & _) end.
  apply lookup_lt_Some in Hv. lia.
Qed.
End Keys.

(** ** The transition *)

Section Transition.
Context `{Cfg : Config} `{AM : ArithMode} `{BLS : BLSConfig} `{TR : TreeRoot} `{MT : MerkleTree} `{F : Fuel}.
Context `{COk : !ConfigOk Cfg} `{TOk : !TreeRootOk}.

Lemma process_slot_typed : steps (keeps typed_fields) process_slot.
Proof using TOk.
  unfold process_slot. step_tac; intros []; split; try done; cbn.
  all: try (eapply vec_set_Forall; [done|done|]; first [apply root_state_len|apply root_header_len]).
  destruct ty_header0 as (? & ? & _ & ? & ?). by split_and!; try apply root_state_len.
Qed.

Lemma current_epoch_u64 s e : is_u64 (slot s) → current_epoch s = Ok e → is_u64 e.
Proof using COk.
  intros Hs He. eapply u64_div_range; [exact Hs| |exact He]. pose proof slots_per_epoch_pos. unfold slots_per_epoch, is_u64. lia.
Qed.

Lemma previous_epoch_u64 s e : is_u64 (slot s) → previous_epoch s = Ok e → is_u64 e.
Proof using COk.
  unfold previous_epoch. intros Hs (c & Hc & He)%bind_Ok. apply current_epoch_u64 in Hc; [|done]. injection He as <-.
  pose proof genesis_epoch_zero. unfold saturating_sub. destruct (_ =? _); u64_lia.
Qed.

(** The checkpoints of the justifier are those of the state and the two made
    from epochs of the state and recorded roots. *)
Lemma process_justification_typed : steps (keeps typed_state) process_justification_and_finalization.
Proof using COk.
  intros s [Hwf Hty]. split; [by apply process_justification_wf|].
  assert (∀ pe pr ce cr j, previous_epoch s = Ok pe → block_root s pe = Ok pr →
    current_epoch s = Ok ce → block_root s ce = Ok cr →
    j = (process (mkCheckpoint pe pr) (mkCheckpoint ce cr) s (mkJustifier (justification_bits s)
      (current_justified_checkpoint s) (previous_justified_checkpoint s) (finalized_checkpoint s))).2 →
    checkpoints_in Checkpoint_valid j) as Hout.
  { intros pe pr ce cr j Hpe Hpr Hce Hcr ->. apply process_in.
    - split; [by eapply previous_epoch_u64; [apply Hwf|]|]. by eapply (block_root_in _ _ _ _ Hpr), Hty.
    - split; [by eapply current_epoch_u64; [apply Hwf|]|]. by eapply (block_root_in _ _ _ _ Hcr), Hty.
    - by destruct Hty. }
  generalize Hty. fold (keeps typed_fields s (process_justification_and_finalization s).2).
  unfold process_justification_and_finalization. step_tac.
  all: edestruct Hout as (Hc1 & Hc2 & Hc3); [eassumption..|reflexivity|]; intros []; by split.
Qed.

Lemma process_registry_updates_typed : steps (keeps typed_fields) process_registry_updates.
Proof using Type.
  unfold process_registry_updates, registry_update, activate.
  step_tac; first [by apply modify_validator_typed|apply initiate_validator_exit_typed].
Qed.

Lemma process_final_updates_typed : steps (keeps typed_fields) process_final_updates.
Proof using TOk.
  unfold process_final_updates, update_effective_balance, randao_mix. step_tac.
  all: try (by apply modify_validator_typed).
  all: intros []; split; try done; cbn.
  - res_inv. eapply vec_set_Forall; [done|done|]. by eapply vec_index_Forall.
  - apply Forall_app. split; [done|]. by apply Forall_singleton, root_batch_len.
Qed.

Lemma process_epoch_typed : steps (keeps typed_state) process_epoch.
Proof using COk TOk.
  unfold process_epoch. step_tac; [apply process_justification_typed|apply typed_steps..].
  - apply process_rewards_wf.
  - unfold process_rewards_and_penalties. step_tac; [apply increase_balance_typed|apply decrease_balance_typed].
  - apply process_registry_updates_wf.
  - apply process_registry_updates_typed.
  - apply process_slashings_wf.
  - unfold process_slashings. step_tac.
    match goal with |- context [match ?o with Some _ => _ | None => _ end] => destruct o end;
      [apply decrease_balance_typed|apply steps_ret; apply _].
  - apply process_final_updates_wf.
  - apply process_final_updates_typed.
Qed.

Lemma process_slots_typed t : steps (keeps typed_state) (process_slots t).
Proof using COk TOk.
  unfold process_slots. step_tac. apply steps_while; [apply _|]. unfold advance_slot. step_tac.
  - apply typed_steps; [apply process_slot_wf|apply process_slot_typed].
  - apply process_epoch_typed.
  - intros [Hwf Hty]. split; [by apply wf_with_slot; [eapply u64_add_range|]|]. by destruct Hty.
Qed.

(** ** Blocks *)

Lemma process_block_header_typed {B} `{Block B} (b : B) : steps (keeps typed_state) (process_block_header b).
Proof using COk TOk.
  intros s [Hwf Hty]. split; [by apply process_block_header_wf|]. generalize Hty.
  fold (keeps typed_fields s (process_block_header b s).2). unfold process_block_header. step_tac.
  - rename select (block_slot b =? _ = true) into Hs. rename select (bytes_eqb _ _ = true) into Hp.
    apply Z.eqb_eq in Hs. apply bool_decide_eq_true in Hp.
    intros []. split; try done. cbn. split_and!; [rewrite Hs; apply Hwf|rewrite Hp; apply root_header_len|apply zero_bytes|apply root_body_len|apply zero_bytes].
  - destruct (block_signature b); step_tac.
Qed.

Lemma H256_xor_typed a b : bytes_of_len 32 a → bytes_of_len 32 b → bytes_of_len 32 (H256_xor a b).
Proof using Type.
  intros [La Fa] [Lb Fb]. split; [unfold H256_xor; rewrite length_zip_with; lia|].
  clear La Lb. unfold H256_xor. revert b Fb. induction Fa as [|x a Hx _ IH]; intros b Fb; [constructor|].
  destruct Fb as [|y b Hy Fb]; [constructor|]. cbn. constructor; [|by apply IH].
  unfold is_u8 in *. assert (0 ≤ Z.lxor x y) as Hn by (apply Z.lxor_nonneg; lia). split; [done|].
  destruct (decide (Z.lxor x y = 0)) as [->|Hz]; [done|]. apply (Z.log2_lt_pow2 _ 8); [lia|].
  pose proof (Z.log2_lxor x y ltac:(lia) ltac:(lia)). pose proof (Z.log2_le_mono x 255 ltac:(lia)).
  pose proof (Z.log2_le_mono y 255 ltac:(lia)). change (Z.log2 255) with 7 in *. lia.
Qed.

Lemma process_randao_typed b : steps (keeps typed_fields) (process_randao b).
Proof using COk.
  unfold process_randao, randao_mix. step_tac. intros []. split; try done. cbn. res_inv.
  eapply vec_set_Forall; [done|done|]. apply H256_xor_typed; [by eapply vec_index_Forall|apply digest_len].
Qed.

Lemma process_eth1_data_typed b : typed_body b → steps (keeps typed_fields) (process_eth1_data b).
Proof using Type.
  intros [He _ _]. unfold process_eth1_data. step_tac; intros []; split; try done. cbn.
  apply Forall_app. split; [done|by apply Forall_singleton].
Qed.

Lemma slash_all_typed l b : steps (keeps typed_fields) (slash_all l b).
Proof using Type.
  revert b. induction l as [|i l IH]; intros b; cbn; [apply steps_ret; apply _|].
  step_tac; [apply slash_validator_typed|apply IH..].
Qed.

Lemma process_attestation_typed a : AttestationData_valid (at_data a) → steps (keeps typed_fields) (process_attestation a).
Proof using Type.
  intros Ha. unfold process_attestation. step_tac.
  all: rename select (u64_sub _ _ = _) into Hd; rename select (beacon_proposer_index _ = _) into Hp.
  all: apply u64_sub_range in Hd; apply proposer_in_registry in Hp.
  all: intros []; split; try done; cbn; apply Forall_app; split; [done|]; apply Forall_singleton.
  all: split; cbn; [done..|]; by rewrite length_fmap.
Qed.

Lemma push_validator_typed v a : key_typed (key_of v) → steps (keeps typed_fields) (push_validator v a).
Proof using Type.
  intros Hv s. unfold keeps. cbn. intros [].
  assert (∀ l, Forall (pending_typed (length (key_of <$> validators s))) l →
    Forall (pending_typed (length (key_of <$> (validators s ++ [v])))) l) as Hl.
  { intros l Hl. eapply Forall_impl; [exact Hl|]. intros x []. split; [done..|]. rewrite fmap_app, length_app. lia. }
  split; try done; [|by apply Hl..]. change (Forall key_typed (key_of <$> (validators s ++ [v]))). rewrite fmap_app.
  apply Forall_app. split; [done|by apply Forall_singleton].
Qed.

Lemma process_deposit_typed d : DepositData_valid (dep_data d) → steps (keeps typed_fields) (process_deposit d).
Proof using Type.
  intros (Hk & Hw & _ & _). unfold process_deposit. step_tac.
  - intros []. by split.
  - by apply push_validator_typed.
  - apply increase_balance_typed.
Qed.

Lemma process_operations_typed b : typed_body b → steps (keeps typed_fields) (process_operations b).
Proof using Type.
  intros [_ Ha Hd]. unfold process_operations, process_proposer_slashing, process_attester_slashing, process_voluntary_exit.
  step_tac.
  - apply check_slashed_header_steps. apply _.
  - apply slash_validator_typed.
  - apply slash_all_typed.
  - apply process_attestation_typed. by eapply Forall_forall in Ha.
  - apply process_deposit_typed. by eapply Forall_forall in Hd.
  - apply initiate_validator_exit_typed.
Qed.

Lemma process_block_typed {B} `{Block B} (b : B) : typed_body (block_body b) → steps (keeps typed_state) (process_block b).
Proof using COk TOk.
  intros Hb. unfold process_block. step_tac; [apply process_block_header_typed|apply typed_steps..].
  - apply process_randao_wf.
  - apply process_randao_typed.
  - apply process_eth1_data_wf.
  - by apply process_eth1_data_typed.
  - by apply process_operations_wf, typed_body_wf.
  - by apply process_operations_typed.
Qed.
End Transition.

(** ** Genesis *)

Section Genesis.
Context `{Cfg : Config} `{AM : ArithMode} `{BLS : BLSConfig} `{TR : TreeRoot} `{MT : MerkleTree}.
Context `{COk : !ConfigOk Cfg} `{TOk : !TreeRootOk}.

Lemma genesis_initial_typed t d : is_u64 t → Eth1Data_valid d → typed_fields (genesis_initial t d).
Proof using TOk.
  intros Ht Hd. assert (Checkpoint_valid Checkpoint_default) as Hcp by (split; [done|apply zero_bytes]).
  split; cbn; try done; try (by constructor).
  - split_and!; [apply zero_bytes..|done].
  - split_and!; [done|apply zero_bytes|apply zero_bytes|apply root_body_len|apply zero_bytes].
  - apply Forall_replicate, zero_bytes.
  - apply Forall_replicate, zero_bytes.
  - apply Forall_fmap, Forall_replicate. apply Hd.
Qed.

Lemma genesis_typed deposits t d s :
  Forall (λ x, DepositData_valid (dep_data x)) deposits → is_u64 t → Eth1Data_valid d →
  genesis_beacon_state deposits t d = Ok s → typed_state s.
Proof using COk TOk.
  intros Hds Ht Hd Hs. split.
  - eapply (genesis_invariants deposits t d s); [|done]. eapply Forall_impl; [exact Hds|]. by intros x (_ & _ & ? & _).
  - apply genesis_run in Hs as (s0 & Hrun & ->). rewrite Forall_forall in Hds.
    assert (typed_fields s0) as Hty.
    { eapply genesis_deposits, Hrun; [intros x Hx; by apply process_deposit_typed, Hds|by apply genesis_initial_typed]. }
    assert (keys (with_validators (genesis_activate <$> validators s0) s0) = keys s0) as Hk.
    { unfold keys. cbn. rewrite <- list_fmap_compose. apply list_fmap_ext. intros i v _. cbn.
      unfold genesis_activate, key_of. by destruct (_ <=? _). }
    by apply (typed_fields_same s0).
Qed.
End Genesis.

(** ** Theorem *)

(** C3: every field of the beacon state keeps its type.  When the hash functions
    return 32 bytes, a genesis state from typed deposits is typed, and, for a
    block whose eth1 data, attestation data and deposits have their types, the
    state after [state_transition] is, whether the block is accepted, refused
    or panics: every integer is a [u64], every hash, key and root has its
    length, every fixed vector its length, there is a balance for every
    validator, and every pending attestation names a proposer in the registry. *)
Theorem state_transition_well_typed `{Config} `{ArithMode} `{BLSConfig} `{TreeRoot} `{MerkleTree}
  `{Fuel} `{!ConfigOk _} `{!TreeRootOk} :
  (∀ deposits t d s, Forall (λ x, DepositData_valid (dep_data x)) deposits → is_u64 t → Eth1Data_valid d →
     genesis_beacon_state deposits t d = Ok s → typed_state s) ∧
  (∀ {B} `{Block B} (b : B) s, typed_body (block_body b) → typed_state s → typed_state (state_transition b s).2).
Proof.
  split; [exact genesis_typed|]. intros B HB b s Hb.
  change (keeps typed_state s (state_transition b s).2). revert s. change (steps (keeps typed_state) (state_transition b)).
  unfold state_transition. step_tac; [apply process_slots_typed|by apply process_block_typed].
Qed.

(** ** Witness: a block on a state of sixteen validators *)

Section Witnesses.
#[local] Existing Instances toy_config toy_config_ok toy_mode toy_fuel toy_tree toy_merkle toy_bls.

#[local] Instance toy_tree_ok : TreeRootOk.
Proof. split; intros; (split; [reflexivity|]; by apply Forall_replicate). Qed.

Lemma toy_deposit_typed i : is_u8 i → DepositData_valid (dep_data (toy_deposit i)).
Proof.
  intros Hi. split_and!; [split; [reflexivity|by apply Forall_replicate]|apply zero_bytes|done|apply zero_bytes].
Qed.

Definition toy_eth1 : Eth1Data := mkEth1Data toy_root 9 toy_root.
Definition toy_genesis : BeaconState :=
  match genesis_beacon_state (toy_deposit <$> zrange 1 10) 10 toy_eth1 with Ok s => s | _ => BeaconState_default end.

Lemma toy_genesis_created : genesis_beacon_state (toy_deposit <$> zrange 1 10) 10 toy_eth1 = Ok toy_genesis.
Proof.
  unfold toy_genesis. assert (is_ok (genesis_beacon_state (toy_deposit <$> zrange 1 10) 10 toy_eth1) = true) as Hok
    by (vm_compute; reflexivity).
  by destruct (genesis_beacon_state _ _ _).
Qed.

Lemma state_transition_well_typed_witness :
  (state_transition (Transition.toy_block 1) toy_genesis).1 = Ok tt ∧
  typed_state toy_genesis ∧ typed_state (state_transition (Transition.toy_block 1) toy_genesis).2.
Proof.
  split; [vm_compute; reflexivity|].
  assert (bytes_of_len 32 toy_root) as Hr by (split; [reflexivity|by apply Forall_replicate]).
  assert (typed_state toy_genesis) as Hs.
  { apply (proj1 state_transition_well_typed (toy_deposit <$> zrange 1 10) 10 toy_eth1); [|done|by split_and!|exact toy_genesis_created].
    apply Forall_fmap, Forall_forall. intros i Hi%elem_of_zrange. apply toy_deposit_typed. unfold is_u8. lia. }
  split; [exact Hs|]. apply (proj2 state_transition_well_typed); [|exact Hs]. split; [split_and!; [apply zero_bytes|done|apply zero_bytes]|constructor|constructor].
Defined.
End Witnesses.
