(* ===== verification/Serde.v ===== *)
(** * The serde helpers: [beacon/src/utils/serde.rs]

    How the JSON and YAML forms of the beacon types write bit fields and read
    integers.  A bit field is written as the hexadecimal string of its bytes
    by the crate [impl_serde], which is the class [ImplSerde] here; an integer
    is read from a number or from a decimal or hexadecimal string.

    [serde_bits_agree_with_ssz] relates the two formats of a bit field: the
    bytes are those of the SSZ encoding, and the bit lists accepted are those
    that the SSZ decoder accepts.  [serde_bitvector_roundtrip] does the same
    for the justification bits, whose reader drops the trailing zeros and pads
    them again.  [deserialize_uint_correct] shows that a printed integer is
    read back, and that one that does not fit 64 bits is an error.  The
    fixed-length hashes of [primitives] are read and written the same
    way. *)
From stdpp Require Import base numbers list.
From Stdlib Require Import ZArith Lia.
From Stdlib Require Import Ascii String.
From S2P Require Import Prelude Config Ssz.

#[local] Open Scope Z_scope.
#[local] Open Scope list_scope.

(** ** [impl_serde::serialize] over a serde format

    [V] is what the serializer produces and the deserializer reads, [E] the
    error type of the format. *)
Class ImplSerde (V E : Type) := {
  serialize : Bytes → res E V;
  deserialize_check_len : V → res E Bytes;
  custom_error : string → E;
}.

(** A byte string that was written is read back. *)
Class ImplSerdeLaws (V E : Type) `{ImplSerde V E} := {
  serialize_roundtrip : ∀ bytes, Forall is_u8 bytes →
    ∃ v, serialize bytes = Ok v ∧ deserialize_check_len v = Ok bytes;
}.

Section Bitseq.
  Context `{ArithMode} {V E : Type} `{ImplSerde V E}.

Definition serialize_bitseq (value : list bool) (is_list : bool) : res E V :=
  let bytes := or_bits (replicate (Z.to_nat ((zlen value + (if is_list then 8 else 7)) / 8)) 0) value in
  serialize (if is_list then or_bit bytes (zlen value) true else bytes).

Definition serialize_bitlist (value : list bool) : res E V := serialize_bitseq value true.
Definition serialize_bitvector (value : list bool) : res E V := serialize_bitseq value false.

(** [bytes[i / 8] & (1 << (i % 8)) != 0]: an index out of range panics. *)
Definition bit_of_bytes (bytes : Bytes) (i : Z) : res E bool :=
  byte ← vec_index bytes (i / 8); Ok (negb (Z.land byte (Z.shiftl 1 (i mod 8)) =? 0)).

(** The part of [deserialize_bitseq] after the bytes are read. *)
Definition bits_of_bytes (bytes : Bytes) (is_list : bool) : res E (list bool) :=
  last ← u64_sub (zlen bytes) 1;
  whole ← u64_mul last 8;
  byte ← vec_index bytes last;
  rest ← u64_sub (if is_list then 7 else 8) (leading_zeros byte);
  len ← u64_add whole rest;
  res_map (bit_of_bytes bytes) (zrange 0 len).

Definition deserialize_bitseq (deserializer : V) (is_list : bool) : res E (list bool) :=
  bytes ← deserialize_check_len deserializer; bits_of_bytes bytes is_list.

Definition deserialize_bitlist (deserializer : V) : res E (list bool) :=
  deserialize_bitseq deserializer true.

(** [while seq.len() < L { seq.push(false) }] *)
Definition pad_false (L : Z) (seq : list bool) : list bool :=
  seq ++ replicate (Z.to_nat (L - zlen seq)) false.

Definition deserialize_bitvector (L : Z) (deserializer : V) : res E (list bool) :=
  seq ← deserialize_bitseq deserializer false;
  let seq := pad_false L seq in
  if zlen seq =? L then Ok seq else Err (custom_error "Invalid bitlist").
End Bitseq.

(** ** Fixed-length hashes: [primitives/src/macros.rs]

    [deserialize_check_len] with [ExpectedLen::Exact], and the conversions of a
    hash of [size] bytes; [from_slice] panics on another length. *)
Class ImplSerdeExact (V E : Type) := deserialize_exact : Z → V → res E Bytes.

Class ImplSerdeExactLaws (V E : Type) `{ImplSerde V E} `{ImplSerdeExact V E} := {
  exact_roundtrip : ∀ bytes, Forall is_u8 bytes →
    ∃ v, serialize bytes = Ok v ∧ deserialize_exact (zlen bytes) v = Ok bytes;
  exact_length : ∀ size v bytes, deserialize_exact size v = Ok bytes → zlen bytes = size;
}.

Section FixedHash.
  Context {V E : Type} `{ImplSerde V E} `{ImplSerdeExact V E}.

Definition from_slice (size : Z) (bytes : Bytes) : res E Bytes := if zlen bytes =? size then Ok bytes else Panic.

Definition hash_serialize (h : Bytes) : res E V := serialize h.
Definition hash_deserialize (size : Z) (deserializer : V) : res E Bytes :=
  x ← deserialize_exact size deserializer; from_slice size x.

(** [impl Into<H256>]: the first 32 bytes *)
Definition hash_into_h256 (h : Bytes) : res E H256 := x ← slice h 0 32; from_slice 32 x.

(** A hash survives its textual form, and reading one never panics on a value
    of the wrong length. *)
Lemma fixed_hash_serde `{!ImplSerdeExactLaws V E} (size : Z) (h : Bytes) :
  (Forall is_u8 h → zlen h = size → ∃ v, hash_serialize h = Ok v ∧ hash_deserialize size v = Ok h) ∧
  (∀ v, deserialize_exact size v ≠ Panic → hash_deserialize size v ≠ Panic).
Proof.
  split.
  - intros Hb <-. destruct (exact_roundtrip h Hb) as (v & Hv & Hd). exists v. split; [done|].
    unfold hash_deserialize, from_slice. rewrite Hd. cbn. by rewrite Z.eqb_refl.
  - intros v Hv. unfold hash_deserialize. destruct (deserialize_exact size v) as [x| | |] eqn:Hx; try done.
    unfold from_slice. cbn. by rewrite (exact_length _ _ _ Hx), Z.eqb_refl.
Qed.

(** The conversion to 32 bytes cuts the longer hashes, and panics on a version,
    which has four. *)
Lemma hash_into_h256_cases (h : Bytes) :
  (32 ≤ zlen h → hash_into_h256 h = Ok (take 32 h)) ∧ (zlen h < 32 → hash_into_h256 h = Panic).
Proof.
  unfold hash_into_h256, slice, from_slice, zlen. split; intros Hl.
  - rewrite (proj2 (Z.leb_le 32 (Z.of_nat (List.length h)))) by lia. change (Z.to_nat (32 - 0)) with 32%nat. change (Z.to_nat 0) with 0%nat.
    rewrite drop_0. cbn [andb Z.leb Z.compare mbind res_bind]. by rewrite length_take, Nat.min_l by lia.
  - by rewrite (proj2 (Z.leb_gt 32 (Z.of_nat (List.length h)))) by lia.
Qed.
End FixedHash.

(** ** Unsigned integers *)

(** [(c as char).to_digit(radix)] *)
Definition to_digit (c : ascii) (radix : Z) : option Z :=
  let n := Z.of_N (N_of_ascii c) in
  let digit :=
    if (48 <=? n) && (n <=? 57) then Some (n - 48)
    else if (97 <=? n) && (n <=? 122) then Some (n - 97 + 10)
    else if (65 <=? n) && (n <=? 90) then Some (n - 65 + 10)
    else None in
  match digit with Some d => if d <? radix then Some d else None | None => None end.

Definition checked_u64 (z : Z) : option Z := if z <? 2 ^ 64 then Some z else None.

(** The loop of [u64::from_str_radix]: [checked_mul], then [checked_add]. *)
Fixpoint parse_digits (radix acc : Z) (digits : list ascii) : option Z :=
  match digits with
  | [] => Some acc
  | c :: digits =>
    match to_digit c radix with
    | None => None
    | Some d =>
      match checked_u64 (acc * radix) with
      | None => None
      | Some acc =>
        match checked_u64 (acc + d) with
        | None => None
        | Some acc => parse_digits radix acc digits
        end
      end
    end
  end.

(** [u64::from_str_radix]: a leading [+] is accepted, no digit is an error. *)
Definition from_str_radix (src : list ascii) (radix : Z) : option Z :=
  let digits := match src with c :: rest => if Ascii.eqb c "+"%char then rest else src | [] => src end in
  match digits with [] => None | _ => parse_digits radix 0 digits end.

(** The values a deserializer hands to a visitor; every other kind of value
    is refused by the default methods of [Visitor]. *)
Inductive Visited : Type :=
  | VisitU64 (value : Z)
  | VisitStr (value : string)
  | VisitString (value : string)
  | VisitOther.

(** The errors, without the text of their messages. *)
Inductive UintError : Type :=
  | InvalidHex (value : string)
  | InvalidDecimal (value : string)
  | InvalidKind.

Definition visit_str (value : string) : res UintError Z :=
  let hex := String.prefix "0x" value in
  match String.length value with
  | 0%nat => Ok 0
  | len =>
    if (len =? 2)%nat && hex then Ok 0
    else if hex
    then match from_str_radix (drop 2 (list_ascii_of_string value)) 16 with
         | Some value => Ok value
         | None => Err (InvalidHex value)
         end
    else match from_str_radix (list_ascii_of_string value) 10 with
         | Some value => Ok value
         | None => Err (InvalidDecimal value)
         end
  end.

(** [deserialize_any(UintVisitor)] *)
Definition deserialize_uint (deserializer : Visited) : res UintError Z :=
  match deserializer with
  | VisitU64 value => Ok value
  | VisitStr value => visit_str value
  | VisitString value => visit_str value
  | VisitOther => Err InvalidKind
  end.

(** ** Bit fields: the two decoders agree *)

(** Two computations with different errors that succeed together. *)
Definition ok_iff {E E' A} (m : res E A) (m' : res E' A) : Prop := ∀ a, m = Ok a ↔ m' = Ok a.

Lemma ok_iff_bind {E E' A B} (m : res E A) (m' : res E' A) (f : A → res E B) (f' : A → res E' B) :
  ok_iff m m' → (∀ a, m = Ok a → ok_iff (f a) (f' a)) → ok_iff (m ≫= f) (m' ≫= f').
Proof.
  intros Hm Hf b. rewrite !bind_Ok. split; intros (a & Ha & Hb); exists a.
  - split; [by apply Hm|]. by apply (Hf a).
  - apply Hm in Ha. split; [done|]. by apply (Hf a).
Qed.

Lemma ok_iff_check `{ArithMode} {E E'} z : ok_iff (u64_check (E:=E) z) (u64_check (E:=E') z).
Proof. intros a. unfold u64_check. destruct (is_u64b z), overflow_checks; naive_solver. Qed.

Lemma ok_iff_index {E E' A} (l : list A) i : ok_iff (vec_index (E:=E) l i) (vec_index (E:=E') l i).
Proof. intros a. unfold vec_index. destruct (l !! Z.to_nat i); naive_solver. Qed.

Lemma ok_iff_map {E E' A B} (f : A → res E B) (f' : A → res E' B) l :
  (∀ x, x ∈ l → ok_iff (f x) (f' x)) → ok_iff (res_map f l) (res_map f' l).
Proof.
  induction l as [|x l IH]; intros Hf; [intros b; cbn; naive_solver|]. cbn [res_map].
  apply ok_iff_bind; [apply Hf; left|intros y _].
  apply ok_iff_bind; [apply IH; intros z Hz; apply Hf; by right|]. intros ys _ r. naive_solver.
Qed.

Section BitseqProps.
  Context `{ArithMode} {V E : Type} `{ImplSerdeLaws V E}.

Lemma bit_of_bytes_read bytes i :
  0 ≤ i → ok_iff (bit_of_bytes (E:=E) bytes i) (read_bit bytes i).
Proof.
  intros Hi b. pose proof (Z.div_pos i 8 Hi). unfold bit_of_bytes, read_bit, vec_index.
  destruct (Z.leb_spec (zlen bytes) (i / 8)) as [Hge|Hlt].
  - rewrite lookup_ge_None_2 by (unfold zlen in *; lia). naive_solver.
  - destruct (bytes !! Z.to_nat (i / 8)); naive_solver.
Qed.

Lemma bits_of_bytes_list bytes :
  ok_iff (bits_of_bytes (E:=E) bytes true) (ssz_decode ssz_bitlist bytes).
Proof.
  cbn [ssz_decode ssz_bitlist]. unfold bits_of_bytes.
  do 5 (apply ok_iff_bind; [apply ok_iff_check || apply ok_iff_index|intros ? _]).
  apply ok_iff_map. intros i [Hi _]%elem_of_zrange. by apply bit_of_bytes_read.
Qed.

Lemma serialize_bitlist_ssz bits : serialize_bitlist bits = serialize (ssz_encode ssz_bitlist bits).
Proof. unfold serialize_bitlist, serialize_bitseq. cbn. by replace (zlen bits + 1 + 7) with (zlen bits + 8) by lia. Qed.

Lemma serialize_bitvector_ssz L bits : serialize_bitvector bits = serialize (ssz_encode (ssz_bitvector L) bits).
Proof. done. Qed.

(** What [leading_zeros] says of the bits of a byte. *)
Lemma leading_zeros_bits byte :
  is_u8 byte → 0 ≤ leading_zeros byte ≤ 8 ∧
  (∀ m, 8 - leading_zeros byte ≤ m → Z.testbit byte m = false) ∧
  (leading_zeros byte < 8 → Z.testbit byte (7 - leading_zeros byte) = true).
Proof.
  intros [Hb0 Hb8]. unfold leading_zeros. destruct (Z.eqb_spec byte 0) as [->|Hne].
  - split_and!; [lia|lia| |lia]. intros m _. apply Z.testbit_0_l.
  - pose proof (Z.log2_nonneg byte). assert (Z.log2 byte < 8) by (apply Z.log2_lt_pow2; lia).
    split_and!; [lia|lia| |].
    + intros m Hm. apply Z.bits_above_log2; lia.
    + intros _. replace (7 - (7 - Z.log2 byte)) with (Z.log2 byte) by lia. apply Z.bit_log2. lia.
Qed.

Lemma bits_of_bytes_eq bytes :
  0 < zlen bytes < 2 ^ 60 → Forall is_u8 bytes → ∃ byte, bytes !! Z.to_nat (zlen bytes - 1) = Some byte ∧
  bits_of_bytes (E:=E) bytes false =
  Ok (bit_at bytes <$> zrange 0 (8 * (zlen bytes - 1) + (8 - leading_zeros byte))).
Proof.
  intros Hlen Hu8. destruct (vec_index_lt (E:=E) bytes (zlen bytes - 1)) as (byte & Hbyte & Hi); [lia|].
  exists byte. split; [done|].
  pose proof (proj1 (Forall_lookup _ _) Hu8 _ _ Hbyte) as Hb. destruct (leading_zeros_bits byte Hb) as (Hlz & _ & _).
  unfold bits_of_bytes. rewrite u64_sub_ok by (unfold is_u64; lia). cbn [mbind res_bind].
  rewrite u64_mul_ok by (unfold is_u64; lia). cbn [mbind res_bind]. rewrite Hi. cbn [mbind res_bind].
  rewrite u64_sub_ok by (unfold is_u64; lia). cbn [mbind res_bind].
  rewrite u64_add_ok by (unfold is_u64; lia). cbn [mbind res_bind].
  replace ((zlen bytes - 1) * 8) with (8 * (zlen bytes - 1)) by lia.
  apply res_map_total. intros k [Hk0 Hk]%elem_of_zrange. apply bit_of_bytes_read; [done|].
  apply read_bit_at; [done|]. apply Z.div_lt_upper_bound; lia.
Qed.

(** The bytes of a bit vector and their bits. *)
Lemma bitvector_bytes bits byte (bytes := or_bits (replicate (Z.to_nat ((zlen bits + 7) / 8)) 0) bits) :
  bytes !! Z.to_nat (zlen bytes - 1) = Some byte →
  zlen bits ≤ 8 * zlen bytes < zlen bits + 8 ∧ Forall is_u8 bytes ∧
  (∀ k, 0 ≤ k < 8 * zlen bytes → bit_at bytes k = default false (bits !! Z.to_nat k)) ∧
  (∀ m, 0 ≤ m < 8 → bit_at bytes (8 * (zlen bytes - 1) + m) = Z.testbit byte m).
Proof.
  intros Hbyte. pose proof (zlen_nonneg bits). assert (zlen bytes = (zlen bits + 7) / 8) as Hlen.
  { unfold bytes. rewrite or_bits_len. unfold zlen at 1. rewrite length_replicate.
    pose proof (Z.div_pos (zlen bits + 7) 8). lia. }
  split_and!.
  - pose proof (Z.div_mod (zlen bits + 7) 8). pose proof (Z.mod_pos_bound (zlen bits + 7) 8). lia.
  - pose proof (Z.div_mod (zlen bits + 7) 8). pose proof (Z.mod_pos_bound (zlen bits + 7) 8). lia.
  - apply or_bits_u8, zeros_u8.
  - intros k Hk. assert (k / 8 < zlen bytes) by (apply Z.div_lt_upper_bound; lia).
    unfold bytes in *. rewrite or_bits_len in *. rewrite or_bits_at, zeros_at by lia. done.
  - intros m Hm. unfold bit_at.
    replace ((8 * (zlen bytes - 1) + m) / 8) with (zlen bytes - 1) by (apply (Z.div_unique _ 8 _ m); lia).
    replace ((8 * (zlen bytes - 1) + m) mod 8) with m by (apply (Z.mod_unique _ 8 (zlen bytes - 1)); lia).
    by rewrite (list_lookup_total_correct _ _ _ Hbyte).
Qed.

(** The bits of the last byte that the reader drops are the padding. *)
Lemma bitvector_pad bits byte (bytes := or_bits (replicate (Z.to_nat ((zlen bits + 7) / 8)) 0) bits) :
  0 < zlen bits → bytes !! Z.to_nat (zlen bytes - 1) = Some byte →
  pad_false (zlen bits) (bit_at bytes <$> zrange 0 (8 * (zlen bytes - 1) + (8 - leading_zeros byte))) = bits.
Proof.
  intros Hpos Hbyte. destruct (bitvector_bytes bits byte Hbyte) as (Hround & Hu8 & Hat & Hlast). fold bytes in Hround, Hu8, Hat, Hlast.
  destruct (leading_zeros_bits byte) as (Hlz & Hzero & Hone); [by apply (proj1 (Forall_lookup _ _) Hu8 _ _ Hbyte)|].
  set (len := 8 * (zlen bytes - 1) + (8 - leading_zeros byte)).
  assert (len ≤ zlen bits) as Hle.
  { destruct (decide (leading_zeros byte < 8)) as [Hlt|]; [|unfold len; lia].
    specialize (Hone Hlt). rewrite <- Hlast, Hat in Hone by lia.
    destruct (bits !! _) eqn:Hb; [|done]. apply lookup_lt_Some in Hb. unfold len, zlen in *. lia. }
  apply list_eq. intros k. unfold pad_false. rewrite lookup_app, list_lookup_fmap.
  assert (zlen (bit_at bytes <$> zrange 0 len) = len) as Hz
    by (unfold zlen, zrange; rewrite length_fmap, length_seqZ; unfold len; lia).
  rewrite Hz. unfold zrange. destruct (decide (Z.of_nat k < len)) as [Hk|Hk].
  - rewrite lookup_seqZ_lt by lia. rewrite Z.add_0_l. cbn [fmap option_fmap option_map]. rewrite Hat, Nat2Z.id by (unfold len in *; lia).
    destruct (lookup_lt_is_Some_2 bits k) as [b ->]; [unfold zlen in *; lia|done].
  - rewrite lookup_seqZ_ge by lia. cbn. rewrite length_fmap, length_seqZ.
    destruct (decide (Z.of_nat k < zlen bits)) as [Hb|Hb].
    + rewrite lookup_replicate_2 by lia.
      destruct (lookup_lt_is_Some_2 bits k) as [b Hkb]; [unfold zlen in *; lia|]. rewrite Hkb. f_equal.
      specialize (Hat (Z.of_nat k) ltac:(lia)). rewrite Nat2Z.id, Hkb in Hat. cbn in Hat. rewrite <- Hat.
      replace (Z.of_nat k) with (8 * (zlen bytes - 1) + (Z.of_nat k - 8 * (zlen bytes - 1))) by lia.
      rewrite Hlast, Hzero by (unfold len in *; lia). done.
    + rewrite !lookup_ge_None_2; [done|unfold zlen in *; lia|]. rewrite length_replicate. unfold zlen in *. lia.
Qed.

Lemma bitlist_reads_back bits :
  is_u64 (zlen bits) → ∃ v, serialize_bitlist bits = Ok v ∧ deserialize_bitlist v = Ok bits.
Proof.
  intros Hlen. destruct (serialize_roundtrip (ssz_encode ssz_bitlist bits)) as (v & Hv & Hback).
  { by apply (ssz_encode_bytes (valid:=λ bits, is_u64 (zlen bits))). }
  exists v. rewrite serialize_bitlist_ssz. split; [done|].
  unfold deserialize_bitlist, deserialize_bitseq. rewrite Hback. cbn [mbind res_bind].
  apply bits_of_bytes_list. by apply (ssz_decode_encode (valid:=λ bits, is_u64 (zlen bits))).
Qed.

Lemma bitvector_reads_back bits :
  0 < zlen bits < 2 ^ 62 → ∃ v, serialize_bitvector bits = Ok v ∧ deserialize_bitvector (zlen bits) v = Ok bits.
Proof.
  intros Hlen. unfold serialize_bitvector, serialize_bitseq.
  set (bytes := or_bits _ bits). assert (Forall is_u8 bytes) as Hu8 by apply or_bits_u8, zeros_u8.
  destruct (serialize_roundtrip bytes Hu8) as (v & Hv & Hback). exists v. split; [done|].
  unfold deserialize_bitvector, deserialize_bitseq. rewrite Hback. cbn [mbind res_bind].
  assert (0 < zlen bytes < 2 ^ 60) as Hb.
  { assert (zlen bytes = Z.of_nat (Z.to_nat ((zlen bits + 7) / 8))) as ->
      by (unfold bytes; rewrite or_bits_len; unfold zlen at 1; by rewrite length_replicate).
    pose proof (Z.div_mod (zlen bits + 7) 8). pose proof (Z.mod_pos_bound (zlen bits + 7) 8). lia. }
  destruct (bits_of_bytes_eq bytes Hb Hu8) as (byte & Hbyte & ->). cbn [mbind res_bind].
  pose proof (bitvector_pad bits byte (proj1 Hlen) Hbyte) as Hpad. cbn zeta in Hpad. fold bytes in Hpad.
  by rewrite Hpad, Z.eqb_refl.
Qed.

(** The two formats of a bit field agree: the serializers write, as one
    byte string, exactly the SSZ encoding of the list or of the vector, and
    the list reader accepts exactly the byte strings that the SSZ decoder
    accepts, with the same bits, whatever the build does on overflow. *)
Theorem serde_bits_agree_with_ssz (bits : list bool) (L : Z) (v : V) (bytes : Bytes) :
  deserialize_check_len v = Ok bytes →
  serialize_bitlist bits = serialize (ssz_encode ssz_bitlist bits) ∧
  serialize_bitvector bits = serialize (ssz_encode (ssz_bitvector L) bits) ∧
  (deserialize_bitlist v = Ok bits ↔ ssz_decode ssz_bitlist bytes = Ok bits).
Proof.
  intros Hv. split; [apply serialize_bitlist_ssz|]. split; [done|].
  unfold deserialize_bitlist, deserialize_bitseq. rewrite Hv. apply bits_of_bytes_list.
Qed.

(** C26: A bit field survives its serde form: a bit list of any length that
    fits a [usize] is read back with its length, and a bit vector, whose
    reader stops at the highest bit set and pads with zeros, is read back as
    it was.  The byte string without bytes makes both readers panic instead
    of returning an error. *)
Theorem serde_bits_roundtrip (bits : list bool) (v0 : V) :
  0 < zlen bits < 2 ^ 62 → deserialize_check_len v0 = Ok [] →
  (∃ v, serialize_bitlist bits = Ok v ∧ deserialize_bitlist v = Ok bits) ∧
  (∃ v, serialize_bitvector bits = Ok v ∧ deserialize_bitvector (zlen bits) v = Ok bits) ∧
  deserialize_bitlist v0 = Panic ∧ deserialize_bitvector (zlen bits) v0 = Panic.
Proof.
  intros Hlen Hv0. split; [apply bitlist_reads_back; unfold is_u64; lia|].
  split; [by apply bitvector_reads_back|].
  unfold deserialize_bitlist, deserialize_bitvector, deserialize_bitseq. rewrite Hv0.
  unfold bits_of_bytes, u64_sub, u64_mul, u64_check, vec_index. cbn. by destruct overflow_checks.
Qed.
End BitseqProps.

(** ** Integers: printing and reading back *)

(** The digit characters, and the digits of a number, the least one last. *)
Definition digit_char (d : Z) : ascii := ascii_of_N (Z.to_N (if d <? 10 then 48 + d else 97 + (d - 10))).

Fixpoint digits_loop (fuel : nat) (radix n : Z) (acc : list ascii) : list ascii :=
  match fuel with
  | O => acc
  | S fuel =>
    let acc := digit_char (n mod radix) :: acc in
    if n / radix =? 0 then acc else digits_loop fuel radix (n / radix) acc
  end.

(** A number has no more digits than bits; 0 has one. *)
Definition show_uint (radix n : Z) : list ascii := digits_loop (S (Z.to_nat (Z.log2 n))) radix n [].

(** The value of a string of digits, without a bound. *)
Fixpoint horner (radix acc : Z) (digits : list ascii) : option Z :=
  match digits with
  | [] => Some acc
  | c :: digits => match to_digit c radix with Some d => horner radix (acc * radix + d) digits | None => None end
  end.

Lemma to_digit_nonneg c radix d : to_digit c radix = Some d → 0 ≤ d.
Proof. unfold to_digit. intros Hd. repeat case_match; simplify_eq; lia. Qed.

Lemma below_16 d : 0 ≤ d < 16 → d ∈ zrange 0 16.
Proof. intros. by apply elem_of_zrange. Qed.

Lemma to_digit_char d radix : radix = 10 ∨ radix = 16 → 0 ≤ d < radix → to_digit (digit_char d) radix = Some d.
Proof.
  intros Hr Hd. assert (Forall (λ d, d <? radix = true → to_digit (digit_char d) radix = Some d) (zrange 0 16)) as Hall.
  { destruct Hr as [-> | ->]; repeat constructor; intros; done || discriminate. }
  apply (proj1 (Forall_forall _ _) Hall); [apply below_16; lia|]. apply Z.ltb_lt. lia.
Qed.

Lemma horner_ge radix acc digits v :
  1 ≤ radix → 0 ≤ acc → horner radix acc digits = Some v → acc ≤ v.
Proof.
  intros Hr. revert acc. induction digits as [|c digits IH]; intros acc Ha; cbn; [by intros [= ->]|].
  destruct (to_digit c radix) as [d|] eqn:Hd; [|done]. apply to_digit_nonneg in Hd.
  intros Hv. apply IH in Hv; nia.
Qed.

(** The checked loop computes the value of the digits, or fails when it does
    not fit: a prefix overflows only if the whole string does. *)
Lemma parse_digits_horner radix acc digits :
  1 ≤ radix → 0 ≤ acc < 2 ^ 64 → parse_digits radix acc digits = horner radix acc digits ≫= checked_u64.
Proof.
  intros Hr. revert acc. induction digits as [|c digits IH]; intros acc Ha; cbn [parse_digits horner].
  { cbn. unfold checked_u64. by rewrite (proj2 (Z.ltb_lt _ _)) by lia. }
  destruct (to_digit c radix) as [d|] eqn:Hd; [|done]. apply to_digit_nonneg in Hd.
  assert (2 ^ 64 ≤ acc * radix + d → horner radix (acc * radix + d) digits ≫= checked_u64 = None) as Hover.
  { intros Hge. destruct (horner _ _ digits) as [v|] eqn:Hv; [|done]. cbn.
    apply horner_ge in Hv; [|done|lia]. unfold checked_u64. by rewrite (proj2 (Z.ltb_ge _ _)) by lia. }
  unfold checked_u64 at 1. destruct (Z.ltb_spec (acc * radix) (2 ^ 64)); [|rewrite Hover; [done|lia]].
  unfold checked_u64 at 1. destruct (Z.ltb_spec (acc * radix + d) (2 ^ 64)); [|by rewrite Hover].
  apply IH. nia.
Qed.

(** The digits of a number, read after the digits before them, give the
    number after theirs. *)
Lemma horner_digits_loop fuel radix n acc :
  radix = 10 ∨ radix = 16 → 0 ≤ n < 2 ^ Z.of_nat fuel → (0 < fuel)%nat →
  horner radix 0 (digits_loop fuel radix n acc) = horner radix n acc.
Proof.
  intros Hr. revert n acc. induction fuel as [|fuel IH]; intros n acc Hn Hf; [lia|]. cbn [digits_loop].
  pose proof (Z.div_mod n radix ltac:(lia)) as Hdiv. pose proof (Z.mod_pos_bound n radix ltac:(lia)) as Hmod.
  pose proof (Z.div_pos n radix ltac:(lia) ltac:(lia)).
  assert (n / radix < 2 ^ Z.of_nat fuel) as Hlt.
  { apply Z.div_lt_upper_bound; [lia|]. rewrite Nat2Z.inj_succ, Z.pow_succ_r in Hn by lia. nia. }
  assert (∀ q, q = n / radix → horner radix q (digit_char (n mod radix) :: acc) = horner radix n acc) as Hstep.
  { intros q ->. cbn [horner]. rewrite to_digit_char by lia. f_equal. lia. }
  destruct (Z.eqb_spec (n / radix) 0) as [H0|H0]; [by apply Hstep|].
  destruct fuel as [|fuel']; [cbn in Hlt; lia|]. rewrite IH by lia. by apply Hstep.
Qed.

Lemma digits_loop_head fuel radix n acc :
  radix = 10 ∨ radix = 16 → (0 < fuel)%nat → ∃ d rest, 0 ≤ d < 16 ∧ digits_loop fuel radix n acc = digit_char d :: rest.
Proof.
  intros Hr. revert n acc. induction fuel as [|fuel IH]; intros n acc Hf; [lia|]. cbn [digits_loop].
  pose proof (Z.mod_pos_bound n radix ltac:(lia)). destruct (n / radix =? 0); [by eexists _, _; split; [|done]; lia|].
  destruct fuel as [|fuel]; [by eexists _, _; split; [|done]; lia|]. apply IH. lia.
Qed.

Lemma digit_char_not_plus d : 0 ≤ d < 16 → Ascii.eqb (digit_char d) "+"%char = false.
Proof.
  intros Hd%below_16. assert (Forall (λ d, Ascii.eqb (digit_char d) "+"%char = false) (zrange 0 16)) as Hall
    by repeat constructor. by apply (proj1 (Forall_forall _ _) Hall).
Qed.

Lemma from_str_radix_show radix n :
  radix = 10 ∨ radix = 16 → 0 ≤ n → from_str_radix (show_uint radix n) radix = checked_u64 n.
Proof.
  intros Hr Hn. unfold from_str_radix, show_uint.
  destruct (digits_loop_head (S (Z.to_nat (Z.log2 n))) radix n []) as (d & rest & Hd & Heq); [done|lia|].
  rewrite Heq, digit_char_not_plus, <- Heq by done.
  rewrite parse_digits_horner, horner_digits_loop; [done|done| |lia|lia|lia].
  pose proof (Z.log2_nonneg n). rewrite Nat2Z.inj_succ, Z2Nat.id by lia.
  destruct (decide (n = 0)) as [->|]; [done|]. pose proof (Z.log2_spec n). lia.
Qed.

Lemma horner_digits radix acc digits v :
  horner radix acc digits = Some v → Forall (λ c, is_Some (to_digit c radix)) digits.
Proof.
  revert acc. induction digits as [|c digits IH]; intros acc; cbn; [done|].
  destruct (to_digit c radix) as [d|] eqn:Hd; [|done]. intros Hv. constructor; [by eexists|]. by eapply IH.
Qed.

(** The string of a printed number: not empty, and a decimal one does not
    look like a hexadecimal one. *)
Lemma show_uint_nonempty radix n :
  radix = 10 ∨ radix = 16 → ∃ c rest, show_uint radix n = c :: rest.
Proof.
  intros Hr. destruct (digits_loop_head (S (Z.to_nat (Z.log2 n))) radix n []) as (d & rest & _ & Heq); [done|lia|].
  eauto.
Qed.

Lemma show_uint_no_prefix n : 0 ≤ n → String.prefix "0x" (string_of_list_ascii (show_uint 10 n)) = false.
Proof.
  intros Hn. assert (horner 10 0 (show_uint 10 n) = Some n) as Hd%horner_digits.
  { unfold show_uint. rewrite horner_digits_loop; [done|by left| |lia].
    pose proof (Z.log2_nonneg n). rewrite Nat2Z.inj_succ, Z2Nat.id by lia.
    destruct (decide (n = 0)) as [->|]; [done|]. pose proof (Z.log2_spec n). lia. }
  destruct Hd as [|c l _ Hl]; [done|]. cbn [String.prefix string_of_list_ascii].
  destruct (ascii_dec "0" c); [|done]. destruct Hl as [|c' l' Hc' _]; [done|].
  cbn [String.prefix string_of_list_ascii]. destruct (ascii_dec "x" c') as [<-|]; [|done]. by destruct Hc'.
Qed.

(** [deserialize_uint] reads back every 64-bit integer from its decimal
    string, from its hexadecimal string after 0x and from a number of the
    format; a printed number of more than 64 bits is an error, never a value
    that wrapped around.  The empty string and 0x are zero. *)
Theorem deserialize_uint_correct (n : N) :
  let n := Z.of_N n in
  let decimal := string_of_list_ascii (show_uint 10 n) in
  let hex := String.append "0x" (string_of_list_ascii (show_uint 16 n)) in
  (∀ s, s = VisitStr decimal ∨ s = VisitString decimal →
    deserialize_uint s = if n <? 2 ^ 64 then Ok n else Err (InvalidDecimal decimal)) ∧
  (∀ s, s = VisitStr hex ∨ s = VisitString hex →
    deserialize_uint s = if n <? 2 ^ 64 then Ok n else Err (InvalidHex hex)) ∧
  deserialize_uint (VisitU64 n) = Ok n ∧
  deserialize_uint (VisitStr EmptyString) = Ok 0 ∧ deserialize_uint (VisitStr "0x") = Ok 0.
Proof.
  intros m decimal hex. assert (0 ≤ m) as Hm by apply N2Z.is_nonneg.
  assert (visit_str decimal = if m <? 2 ^ 64 then Ok m else Err (InvalidDecimal decimal)) as Hdec.
  { destruct (show_uint_nonempty 10 m) as (c & rest & Hs); [auto|]. unfold visit_str.
    assert (String.length decimal = S (String.length (string_of_list_ascii rest))) as -> by (unfold decimal; by rewrite Hs).
    replace (String.prefix "0x" decimal) with false by (symmetry; by apply show_uint_no_prefix).
    rewrite andb_false_r. unfold decimal at 1. rewrite list_ascii_of_string_of_list_ascii, from_str_radix_show by auto.
    unfold checked_u64. by destruct (m <? 2 ^ 64). }
  assert (visit_str hex = if m <? 2 ^ 64 then Ok m else Err (InvalidHex hex)) as Hhex.
  { destruct (show_uint_nonempty 16 m) as (c & rest & Hs); [auto|]. unfold visit_str.
    assert (String.length hex = S (S (S (String.length (string_of_list_ascii rest))))) as -> by (unfold hex; by rewrite Hs).
    assert (String.prefix "0x" hex = true) as -> by (unfold hex; rewrite Hs; cbn [string_of_list_ascii String.append String.prefix];
      by destruct (ascii_dec "0" "0"), (ascii_dec "x" "x")).
    assert (drop 2 (list_ascii_of_string hex) = show_uint 16 m) as -> by (apply list_ascii_of_string_of_list_ascii).
    cbn [Nat.eqb andb].
    rewrite from_str_radix_show by auto. unfold checked_u64. by destruct (m <? 2 ^ 64). }
  split_and!; try done; by intros s [-> | ->].
Qed.

(** ** Witnesses: the hexadecimal strings of [impl_serde] *)

Fixpoint hex_of_bytes (bytes : Bytes) : list ascii :=
  match bytes with [] => [] | b :: bytes => digit_char (b / 16) :: digit_char (b mod 16) :: hex_of_bytes bytes end.

Fixpoint bytes_of_hex (cs : list ascii) : option Bytes :=
  match cs with
  | [] => Some []
  | hi :: lo :: cs =>
    match to_digit hi 16, to_digit lo 16, bytes_of_hex cs with
    | Some hi, Some lo, Some bytes => Some (hi * 16 + lo :: bytes)
    | _, _, _ => None
    end
  | _ => None
  end.

#[local] Instance hex_serde : ImplSerde (list ascii) string := {|
  serialize := λ bytes, Ok (hex_of_bytes bytes);
  deserialize_check_len := λ cs, match bytes_of_hex cs with Some bytes => Ok bytes | None => Err "invalid hex"%string end;
  custom_error := id;
|}.

#[local] Instance hex_serde_laws : ImplSerdeLaws (list ascii) string.
Proof.
  split. intros bytes Hu8. eexists. split; [done|]. cbn.
  assert (bytes_of_hex (hex_of_bytes bytes) = Some bytes) as ->; [|done].
  induction Hu8 as [|b bytes [Hb0 Hb1] _ IH]; [done|]. cbn [hex_of_bytes bytes_of_hex].
  pose proof (Z.div_mod b 16). pose proof (Z.mod_pos_bound b 16).
  assert (0 ≤ b / 16 < 16) by (split; [apply Z.div_pos|apply Z.div_lt_upper_bound]; lia).
  rewrite !to_digit_char, IH by (auto || lia). do 2 f_equal. lia.
Qed.

Lemma serde_bits_agree_with_ssz_witness :
  @deserialize_bitlist true _ _ hex_serde (list_ascii_of_string "0d") = Ok [true; false; true] ↔
  @ssz_decode _ (@ssz_bitlist true) [13] = Ok [true; false; true].
Proof.
  exact (proj2 (proj2 (@serde_bits_agree_with_ssz true _ _ hex_serde 
    [true; false; true] 3 (list_ascii_of_string "0d") [13] eq_refl))).
Defined.

Lemma serde_bits_roundtrip_witness :
  ∃ v, @serialize_bitvector _ _ hex_serde [true; false; true; false] = Ok v ∧
    @deserialize_bitvector false _ _ hex_serde 4 v = Ok [true; false; true; false].
Proof.
  exact (proj1 (proj2 (@serde_bits_roundtrip false _ _ hex_serde hex_serde_laws
    [true; false; true; false] [] (conj eq_refl eq_refl) eq_refl))).
Defined.
