(* ===== verification/RocksStore.v ===== *)
(** * The RocksDB store: the crate [blockchain/common/rocksdb]

    [utils.rs] (rows and their readers), [settlement.rs] (the changes of one
    operation, collected and then written as one batch) and [backend.rs]
    (queries, commit, opening).  Three libraries are parameters: RocksDB
    ([RocksApi]), parity-codec ([Codec]) and the [blockchain] crate, whose
    [Operation::settle] is known only as the sequence of [ChainSettlement]
    calls it makes after querying the backend ([OperationApi]).

    The abstract store is a record of finite maps; [represents] relates it to
    the database, and a commit is shown to refine the calls of its operation.
    In memory the store keeps the head behind a lock; that the lock is not
    poisoned is assumed. *)
From stdpp Require Import base numbers list gmap strings.
From Stdlib Require Import ZArith Lia.
From S2P Require Import Prelude Config.

#[local] Open Scope Z_scope.

(** ** Libraries *)

(** parity-codec: [Encode] and [Decode] *)
Class Codec (A : Type) := {
  encode : A → Bytes;
  decode : Bytes → option A;
}.
Class CodecOk (A : Type) `{Codec A} : Prop := decode_encode : ∀ a : A, decode (encode a) = Some a.

(** RocksDB: column families, reads, and a batch of writes ([Some] is a
    [put_cf], [None] a [delete_cf]) that is applied as a whole or not at all. *)
Class RocksApi := {
  DB : Type;
  ColumnFamily : Type;
  RocksError : Type;
  cf_handle : DB → string → option ColumnFamily;
  get_cf : DB → ColumnFamily → Bytes → res RocksError (option Bytes);
  db_write : DB → list (ColumnFamily * Bytes * option Bytes) → res RocksError DB;
}.

(** The value the last entry of a batch gives to a key *)
Definition batch_value {Cf} `{EqDecision Cf} (batch : list (Cf * Bytes * option Bytes)) (cf : Cf) (key : Bytes)
  : option (option Bytes) :=
  last ((λ e, e.2) <$> filter (λ e, e.1 = (cf, key)) batch).

(** What the store relies on: different names are different column families, a
    write leaves the families alone, and reads return what was written. *)
Class RocksOk (R : RocksApi) `{EqDecision ColumnFamily} : Prop := {
  cf_handle_inj : ∀ db a b cf, cf_handle db a = Some cf → cf_handle db b = Some cf → a = b;
  write_cf_handle : ∀ db batch db' name, db_write db batch = Ok db' → cf_handle db' name = cf_handle db name;
  write_get : ∀ db batch db' name cf key, db_write db batch = Ok db' → cf_handle db name = Some cf →
    get_cf db' cf key =
      match batch_value batch cf key with Some value => Ok value | None => get_cf db cf key end;
}.

(** ** Rows: [utils.rs] *)
Definition COLUMN_BLOCKS : string := "blocks".
Definition COLUMN_CANON_DEPTH_MAPPINGS : string := "canon_depth_mappings".
Definition COLUMN_AUXILIARIES : string := "auxiliaries".
Definition COLUMN_INFO : string := "info".
Definition KEY_HEAD : string := "head".
Definition KEY_GENESIS : string := "genesis".

Record BlockData (Id Block Raw : Type) := mkBlockData {
  bd_block : Block;
  bd_state : Raw;
  bd_depth : Z;
  bd_children : list Id;
  bd_is_canon : bool;
}.
Arguments mkBlockData {Id Block Raw} _ _ _ _ _.
Arguments bd_block {Id Block Raw} _.
Arguments bd_state {Id Block Raw} _.
Arguments bd_depth {Id Block Raw} _.
Arguments bd_children {Id Block Raw} _.
Arguments bd_is_canon {Id Block Raw} _.

Inductive StoreError `{RocksApi} : Type :=
  | InvalidOperation
  | IsGenesis
  | NotExist
  | Corrupted
  | Rocks (error : RocksError).

(** Why a settlement makes no further changes: an error it keeps, or a panic of
    the database while a row was read, which ends the call of the operation. *)
Inductive Stopped `{RocksApi} : Type := Failed (error : StoreError) | Panicked | Exhausted.

Section Store.
Context `{R : RocksApi} {Id Block State Raw Aux AuxKey : Type}.
Context `{Codec Id} `{Codec (BlockData Id Block Raw)} `{Codec Aux} `{Codec AuxKey} `{Codec Z} `{Codec string}.
(** [Block::id], [Block::parent_id], [RocksState::into_raw] and
    [RocksState::from_raw] *)
Context (id_of : Block → Id) (parent_of : Block → option Id) (into_raw : State → Raw) (from_raw : Raw → DB → State).

Notation Data := (BlockData Id Block Raw).
Notation Res := (res StoreError).

(** [A::decode(..).ok_or(Error::Corrupted)?] on the value of a key *)
Definition decoded {A} `{Codec A} (raw : option Bytes) : Res (option A) :=
  match raw with
  | Some raw => value ← ok_or (decode raw) Corrupted; Ok (Some value)
  | None => Ok None
  end.

(** Read and decode the value of a key in a column. *)
Definition fetch_raw (db : DB) (column : string) (key : Bytes) : Res (option Bytes) :=
  cf ← ok_or (cf_handle db column) Corrupted;
  res_map_err Rocks (get_cf db cf key).
Definition fetch {A} `{Codec A} (db : DB) (column : string) (key : Bytes) : Res (option A) :=
  raw ← fetch_raw db column key; decoded raw.

Definition fetch_block_data (db : DB) (id : Id) : Res (option Data) := fetch db COLUMN_BLOCKS (encode id).
Definition fetch_head (db : DB) : Res (option Id) := fetch db COLUMN_INFO (encode KEY_HEAD).
Definition fetch_genesis (db : DB) : Res (option Id) := fetch db COLUMN_INFO (encode KEY_GENESIS).

(** ** Queries: [backend.rs] *)
Record RocksBackend := mkRocksBackend {
  rb_db : DB;
  rb_head : Id;
  rb_genesis : Id;
}.

Definition contains_block (b : RocksBackend) (id : Id) : Res bool :=
  data ← fetch_block_data (rb_db b) id;
  Ok (match data with Some _ => true | None => false end).

(** [fetch_block_data(..)?.ok_or(Error::NotExist)?] *)
Definition block_data (b : RocksBackend) (id : Id) : Res Data :=
  data ← fetch_block_data (rb_db b) id; ok_or data NotExist.

Definition is_canon (b : RocksBackend) (id : Id) : Res bool := data ← block_data b id; Ok (bd_is_canon data).
Definition children_at (b : RocksBackend) (id : Id) : Res (list Id) := data ← block_data b id; Ok (bd_children data).
Definition depth_at (b : RocksBackend) (id : Id) : Res Z := data ← block_data b id; Ok (bd_depth data).
Definition block_at (b : RocksBackend) (id : Id) : Res Block := data ← block_data b id; Ok (bd_block data).
Definition state_at (b : RocksBackend) (id : Id) : Res State :=
  data ← block_data b id; Ok (from_raw (bd_state data) (rb_db b)).

Definition lookup_canon_depth (b : RocksBackend) (depth : Z) : Res (option Id) :=
  fetch (rb_db b) COLUMN_CANON_DEPTH_MAPPINGS (encode depth).
Definition auxiliary (b : RocksBackend) (key : AuxKey) : Res (option Aux) :=
  fetch (rb_db b) COLUMN_AUXILIARIES (encode key).

(** ** The settlement: [settlement.rs] *)

Record RocksSettlement := mkRocksSettlement {
  rs_backend : RocksBackend;
  rs_changes : gmap (string * Bytes) (option Bytes);
  rs_new_head : option Id;
  rs_last_error : option Stopped;
}.

Definition settlement_new (b : RocksBackend) : RocksSettlement := mkRocksSettlement b ∅ None None.

(** [impl ChainQuery for RocksSettlement]: the pending changes are not looked at. *)
Definition settlement_genesis (s : RocksSettlement) : Id := rb_genesis (rs_backend s).
Definition settlement_head (s : RocksSettlement) : Id := rb_head (rs_backend s).
Definition settlement_contains (s : RocksSettlement) : Id → Res bool := contains_block (rs_backend s).
Definition settlement_is_canon (s : RocksSettlement) : Id → Res bool := is_canon (rs_backend s).
Definition settlement_lookup_canon_depth (s : RocksSettlement) : Z → Res (option Id) :=
  lookup_canon_depth (rs_backend s).
Definition settlement_auxiliary (s : RocksSettlement) : AuxKey → Res (option Aux) := auxiliary (rs_backend s).
Definition settlement_depth_at (s : RocksSettlement) : Id → Res Z := depth_at (rs_backend s).
Definition settlement_children_at (s : RocksSettlement) : Id → Res (list Id) := children_at (rs_backend s).
Definition settlement_state_at (s : RocksSettlement) : Id → Res State := state_at (rs_backend s).
Definition settlement_block_at (s : RocksSettlement) : Id → Res Block := block_at (rs_backend s).

(** [self.changes.insert(..)] *)
Definition change (column : string) (key : Bytes) (value : option Bytes) (s : RocksSettlement) : RocksSettlement :=
  mkRocksSettlement (rs_backend s) (<[(column, key) := value]> (rs_changes s)) (rs_new_head s) (rs_last_error s).
Definition stop (e : Stopped) (s : RocksSettlement) : RocksSettlement :=
  mkRocksSettlement (rs_backend s) (rs_changes s) (rs_new_head s) (Some e).
(** [if self.last_error.is_some() { return }] *)
Definition unless_failed (f : RocksSettlement → RocksSettlement) (s : RocksSettlement) : RocksSettlement :=
  match rs_last_error s with Some _ => s | None => f s end.

Definition insert_block (id : Id) (block : Block) (state : State) (depth : Z) (children : list Id) (canon : bool)
  : RocksSettlement → RocksSettlement :=
  unless_failed (change COLUMN_BLOCKS (encode id)
    (Some (encode (mkBlockData block (into_raw state) depth children canon)))).

(** Read the row of a block from the database, and write it changed. *)
Definition update_block (id : Id) (f : Data → Data) (s : RocksSettlement) : RocksSettlement :=
  match fetch_block_data (rb_db (rs_backend s)) id with
  | Ok (Some data) => change COLUMN_BLOCKS (encode id) (Some (encode (f data))) s
  | Ok None => stop (Failed Corrupted) s
  | Err error => stop (Failed error) s
  | Panic => stop Panicked s
  | OutOfFuel => stop Exhausted s
  end.

Definition add_child (child : Id) (data : Data) : Data :=
  mkBlockData (bd_block data) (bd_state data) (bd_depth data) (bd_children data ++ [child]) (bd_is_canon data).
Definition with_canon (canon : bool) (data : Data) : Data :=
  mkBlockData (bd_block data) (bd_state data) (bd_depth data) (bd_children data) canon.

Definition push_child (id child : Id) : RocksSettlement → RocksSettlement :=
  unless_failed (update_block id (add_child child)).
Definition set_canon (id : Id) (canon : bool) : RocksSettlement → RocksSettlement :=
  unless_failed (update_block id (with_canon canon)).

Definition insert_canon_depth_mapping (depth : Z) (id : Id) : RocksSettlement → RocksSettlement :=
  unless_failed (change COLUMN_CANON_DEPTH_MAPPINGS (encode depth) (Some (encode id))).
Definition remove_canon_depth_mapping (depth : Z) : RocksSettlement → RocksSettlement :=
  unless_failed (change COLUMN_CANON_DEPTH_MAPPINGS (encode depth) None).
Definition insert_auxiliary (key : AuxKey) (value : Aux) : RocksSettlement → RocksSettlement :=
  unless_failed (change COLUMN_AUXILIARIES (encode key) (Some (encode value))).
Definition remove_auxiliary (key : AuxKey) : RocksSettlement → RocksSettlement :=
  unless_failed (change COLUMN_AUXILIARIES (encode key) None).

Definition set_new_head (head : Id) (s : RocksSettlement) : RocksSettlement :=
  mkRocksSettlement (rs_backend s) (rs_changes s) (Some head) (rs_last_error s).
Definition set_head (head : Id) : RocksSettlement → RocksSettlement :=
  unless_failed (λ s, change COLUMN_INFO (encode KEY_HEAD) (Some (encode head)) (set_new_head head s)).
Definition set_genesis (genesis : Id) : RocksSettlement → RocksSettlement :=
  unless_failed (change COLUMN_INFO (encode KEY_GENESIS) (Some (encode genesis))).

(** [RocksSettlement::commit]: one batch; the order of its entries, that of a
    hash map, does not matter because every key occurs once.  Returns the new
    head and the database after the write. *)
Definition batch_entry (db : DB) (e : string * Bytes * option Bytes) : Res (ColumnFamily * Bytes * option Bytes) :=
  cf ← ok_or (cf_handle db e.1.1) Corrupted; Ok (cf, e.1.2, e.2).

Definition settlement_commit (s : RocksSettlement) : Res (option Id * DB) :=
  match rs_last_error s with
  | Some (Failed error) => Err error
  | Some Panicked => Panic
  | Some Exhausted => OutOfFuel
  | None =>
      let db := rb_db (rs_backend s) in
      batch ← res_map (batch_entry db) (map_to_list (rs_changes s));
      db' ← res_map_err Rocks (db_write db batch);
      Ok (rs_new_head s, db')
  end.

(** ** Commit and open *)

(** The calls of the trait [ChainSettlement] *)
Inductive SettlementCall : Type :=
  | InsertBlock (id : Id) (block : Block) (state : State) (depth : Z) (children : list Id) (canon : bool)
  | PushChild (id child : Id)
  | SetCanon (id : Id) (canon : bool)
  | InsertCanonDepthMapping (depth : Z) (id : Id)
  | RemoveCanonDepthMapping (depth : Z)
  | InsertAuxiliary (key : AuxKey) (value : Aux)
  | RemoveAuxiliary (key : AuxKey)
  | SetHead (head : Id).

Definition run_call (call : SettlementCall) : RocksSettlement → RocksSettlement :=
  match call with
  | InsertBlock id block state depth children canon => insert_block id block state depth children canon
  | PushChild id child => push_child id child
  | SetCanon id canon => set_canon id canon
  | InsertCanonDepthMapping depth id => insert_canon_depth_mapping depth id
  | RemoveCanonDepthMapping depth => remove_canon_depth_mapping depth
  | InsertAuxiliary key value => insert_auxiliary key value
  | RemoveAuxiliary key => remove_auxiliary key
  | SetHead head => set_head head
  end.
Definition run_calls (calls : list SettlementCall) (s : RocksSettlement) : RocksSettlement :=
  foldl (λ s call, run_call call s) s calls.

(** [Operation::settle] of the [blockchain] crate: from what the backend
    answers to its queries, the calls it makes and whether it succeeds. *)
Definition Operation : Type := RocksBackend → list SettlementCall * Res unit.

(** The end of [settle]: a panic comes before its result. *)
Definition settle_result (s : RocksSettlement) (settled : Res unit) : Res unit :=
  match rs_last_error s with
  | Some Panicked => Panic
  | Some Exhausted => OutOfFuel
  | _ => settled
  end.

(** [RocksBackend::commit] *)
Definition commit (operation : Operation) : M RocksBackend StoreError unit :=
  b ← get;
  let '(calls, settled) := operation b in
  let settlement := run_calls calls (settlement_new b) in
  _ ← lift (settle_result settlement settled);
  '(new_head, db) ← lift (settlement_commit settlement);
  put (mkRocksBackend db (default (rb_head b) new_head) (rb_genesis b)).

(** The settlement of a new store *)
Definition genesis_settlement (db : DB) (block : Block) (state : State) : RocksSettlement :=
  let genesis := id_of block in
  let backend := mkRocksBackend db genesis genesis in
  set_head genesis (set_genesis genesis (insert_canon_depth_mapping 0 genesis
    (insert_block genesis block state 0 [] true (settlement_new backend)))).

(** [RocksBackend::open_or_create], on the outcome of [DB::open_cf]; also
    whether the closure [f] was called. *)
Definition open_with (opened : res RocksError DB) (f : DB → Res (Block * State)) : Res (bool * RocksBackend) :=
  db ← res_map_err Rocks opened;
  head ← fetch_head db;
  genesis ← fetch_genesis db;
  match head, genesis with
  | Some head, Some genesis => Ok (false, mkRocksBackend db head genesis)
  | None, None =>
      '(block, state) ← f db;
      match parent_of block with
      | Some _ => Panic
      | None =>
          '(_, db') ← settlement_commit (genesis_settlement db block state);
          Ok (true, mkRocksBackend db' (id_of block) (id_of block))
      end
  | _, _ => Err Corrupted
  end.
Definition open_or_create (opened : res RocksError DB) (f : DB → Res (Block * State)) : Res RocksBackend :=
  snd <$> open_with opened f.

(** [RocksBackend::new_with_genesis]: the closure records that it was called. *)
Definition new_with_genesis (opened : res RocksError DB) (block : Block) (state : State) : Res RocksBackend :=
  '(created, backend) ← open_with opened (λ _, Ok (block, state));
  if created : bool then Ok backend else Err Corrupted.

(** [RocksBackend::from_existing] *)
Definition from_existing (opened : res RocksError DB) : Res RocksBackend :=
  open_or_create opened (λ _, Err Corrupted).

(** ** Reading through the changes of a settlement *)

Context `{!EqDecision ColumnFamily} `{!RocksOk R}.
Context `{!CodecOk Id} `{!CodecOk Data} `{!CodecOk Aux} `{!CodecOk AuxKey} `{!CodecOk Z} `{!CodecOk string}.

Lemma encode_inj {A} `{Codec A} `{!CodecOk A} (x y : A) : encode x = encode y → x = y.
Proof. intros Heq. pose proof (decode_encode x) as Hx. rewrite Heq, decode_encode in Hx. congruence. Qed.

(** What a reader would see if the changes were written. *)
Definition overlay (s : RocksSettlement) (column : string) (key : Bytes) : Res (option Bytes) :=
  match rs_changes s !! (column, key) with
  | Some value => Ok value
  | None => fetch_raw (rb_db (rs_backend s)) column key
  end.

Lemma batch_value_cons (e : ColumnFamily * Bytes * option Bytes) batch cf key :
  batch_value (e :: batch) cf key =
    match batch_value batch cf key with
    | Some value => Some value
    | None => if decide (e.1 = (cf, key)) then Some e.2 else None
    end.
Proof.
  unfold batch_value. rewrite filter_cons. destruct (decide (e.1 = (cf, key))) as [He|He]; cbn [fmap list_fmap].
  - rewrite last_cons. by destruct (last _).
  - by destruct (last _).
Qed.

Lemma batch_value_spec (changes : list (string * Bytes * option Bytes)) batch db column cf key :
  NoDup changes.*1 → res_map (batch_entry db) changes = Ok batch → cf_handle db column = Some cf →
  batch_value batch cf key = (list_to_map changes : gmap (string * Bytes) (option Bytes)) !! (column, key).
Proof.
  intros Hnd Hb Hcf. revert batch Hb. induction changes as [|[[c k] v] changes IH]; intros batch Hb.
  { injection Hb as <-. done. }
  cbn [fmap list_fmap fst] in Hnd. apply NoDup_cons in Hnd as [Hnot Hnd].
  cbn [res_map] in Hb. res_inv. rename select (batch_entry _ _ = _) into He.
  unfold batch_entry in He. cbn [fst snd] in He. res_inv.
  rename select (ok_or _ _ = _) into Hc. destruct (cf_handle db c) as [cf'|] eqn:Hc'; [|done]. injection Hc as ->.
  rewrite batch_value_cons, (IH Hnd) by done. cbn [list_to_map foldr fst snd]. rewrite lookup_insert.
  destruct (decide ((c, k) = (column, key))) as [[= -> ->]|Hne].
  - rewrite not_elem_of_list_to_map_1 by done.
    rewrite Hcf in Hc'. injection Hc' as ->. by rewrite decide_True.
  - destruct (list_to_map changes !! (column, key)) as [value|]; [done|].
    rewrite decide_False; [done|]. intros [= -> ->]. apply Hne.
    by rewrite (cf_handle_inj db c column cf).
Qed.

(** A successful commit writes what the settlement shows. *)
Lemma settlement_commit_ok s new_head db' :
  settlement_commit s = Ok (new_head, db') →
  rs_last_error s = None ∧ new_head = rs_new_head s ∧
  (∀ column, cf_handle db' column = cf_handle (rb_db (rs_backend s)) column) ∧
  (∀ column key, is_Some (cf_handle (rb_db (rs_backend s)) column) → fetch_raw db' column key = overlay s column key).
Proof.
  unfold settlement_commit. intros Hc. destruct (rs_last_error s) as [[]|]; [done..|]. res_inv.
  rename select (res_map _ _ = _) into Hbatch. rename select (res_map_err _ _ = _) into Hw.
  destruct (db_write _ _) as [db''| | |] eqn:Hwrite; try done. injection Hw as ->.
  split; [done|]. split; [done|]. split; [intros column; by eapply write_cf_handle|].
  intros column key [cf Hcf]. unfold fetch_raw, overlay.
  rewrite (write_cf_handle _ _ _ column Hwrite), Hcf. cbn [ok_or mbind res_bind].
  rewrite (write_get _ _ _ column cf key Hwrite Hcf).
  rewrite (batch_value_spec _ _ _ column cf key (NoDup_fst_map_to_list _) Hbatch Hcf), list_to_map_to_list.
  destruct (rs_changes s !! (column, key)); [done|]. unfold fetch_raw. by rewrite Hcf.
Qed.

Lemma overlay_change s c k v column key :
  overlay (change c k v s) column key = if decide ((c, k) = (column, key)) then Ok v else overlay s column key.
Proof. unfold overlay, change. cbn. rewrite lookup_insert. by destruct (decide _). Qed.

Lemma overlay_new_head s h column key : overlay (set_new_head h s) column key = overlay s column key.
Proof. done. Qed.

Lemma decoded_encode {A} `{Codec A} `{!CodecOk A} (x : A) : decoded (Some (encode x)) = Ok (Some x).
Proof. unfold decoded. by rewrite decode_encode. Qed.

(** ** The abstract store *)

Context `{!EqDecision Id} `{!Countable Id} `{!EqDecision AuxKey} `{!Countable AuxKey}.

Record Chain := mkChain {
  ch_blocks : gmap Id Data;
  ch_canon : gmap Z Id;
  ch_auxiliaries : gmap AuxKey Aux;
  ch_head : Id;
  ch_genesis : Id;
}.

(** The meaning of a call; a child or a flag of an unknown block is an error. *)
Definition spec_blocks (f : gmap Id Data → gmap Id Data) (ch : Chain) : Chain :=
  mkChain (f (ch_blocks ch)) (ch_canon ch) (ch_auxiliaries ch) (ch_head ch) (ch_genesis ch).
Definition spec_canon (f : gmap Z Id → gmap Z Id) (ch : Chain) : Chain :=
  mkChain (ch_blocks ch) (f (ch_canon ch)) (ch_auxiliaries ch) (ch_head ch) (ch_genesis ch).
Definition spec_auxiliaries (f : gmap AuxKey Aux → gmap AuxKey Aux) (ch : Chain) : Chain :=
  mkChain (ch_blocks ch) (ch_canon ch) (f (ch_auxiliaries ch)) (ch_head ch) (ch_genesis ch).
Definition spec_call (ch : Chain) (call : SettlementCall) : option Chain :=
  match call with
  | InsertBlock id block state depth children canon =>
      Some (spec_blocks <[id := mkBlockData block (into_raw state) depth children canon]> ch)
  | PushChild id child => data ← ch_blocks ch !! id; Some (spec_blocks <[id := add_child child data]> ch)
  | SetCanon id canon => data ← ch_blocks ch !! id; Some (spec_blocks <[id := with_canon canon data]> ch)
  | InsertCanonDepthMapping depth id => Some (spec_canon <[depth := id]> ch)
  | RemoveCanonDepthMapping depth => Some (spec_canon (delete depth) ch)
  | InsertAuxiliary key value => Some (spec_auxiliaries <[key := value]> ch)
  | RemoveAuxiliary key => Some (spec_auxiliaries (delete key) ch)
  | SetHead head => Some (mkChain (ch_blocks ch) (ch_canon ch) (ch_auxiliaries ch) head (ch_genesis ch))
  end.
Fixpoint spec_calls (ch : Chain) (calls : list SettlementCall) : option Chain :=
  match calls with
  | [] => Some ch
  | call :: calls' => ch' ← spec_call ch call; spec_calls ch' calls'
  end.

(** A reader of raw values shows a chain. *)
Definition reads {A} `{Codec A} (look : string → Bytes → Res (option Bytes)) (column : string) (key : Bytes)
  : Res (option A) := raw ← look column key; decoded raw.
Record shows (look : string → Bytes → Res (option Bytes)) (ch : Chain) : Prop := {
  shows_blocks : ∀ id, reads look COLUMN_BLOCKS (encode id) = Ok (ch_blocks ch !! id);
  shows_canon : ∀ depth : Z, reads look COLUMN_CANON_DEPTH_MAPPINGS (encode depth) = Ok (ch_canon ch !! depth);
  shows_auxiliaries : ∀ key, reads look COLUMN_AUXILIARIES (encode key) = Ok (ch_auxiliaries ch !! key);
  shows_head : reads look COLUMN_INFO (encode KEY_HEAD) = Ok (Some (ch_head ch));
  shows_genesis : reads look COLUMN_INFO (encode KEY_GENESIS) = Ok (Some (ch_genesis ch));
}.

(** The column families that [open_or_create] asks for exist. *)
Definition columns : list string := [COLUMN_BLOCKS; COLUMN_CANON_DEPTH_MAPPINGS; COLUMN_AUXILIARIES; COLUMN_INFO].
Ltac solve_column := unfold columns; rewrite !elem_of_cons; auto 6.
Definition has_columns (db : DB) : Prop := Forall (λ column, is_Some (cf_handle db column)) columns.

(** The backend holds the chain, in the database and in memory. *)
Definition represents (b : RocksBackend) (ch : Chain) : Prop :=
  has_columns (rb_db b) ∧ shows (fetch_raw (rb_db b)) ch ∧ rb_head b = ch_head ch ∧ rb_genesis b = ch_genesis ch.

(** No call changes the row of a block that an earlier one wrote. *)
Fixpoint separate (seen : list Id) (calls : list SettlementCall) : Prop :=
  match calls with
  | [] => True
  | InsertBlock id _ _ _ _ _ :: calls' => separate (id :: seen) calls'
  | PushChild id _ :: calls' | SetCanon id _ :: calls' => id ∉ seen ∧ separate (id :: seen) calls'
  | _ :: calls' => separate seen calls'
  end.

(** A settlement on the way: its changes show the chain reached so far, and
    touch the rows of the seen blocks only. *)
Record settling (b : RocksBackend) (seen : list Id) (s : RocksSettlement) (ch : Chain) : Prop := {
  settling_backend : rs_backend s = b;
  settling_ok : rs_last_error s = None;
  settling_shows : shows (overlay s) ch;
  settling_head : default (rb_head b) (rs_new_head s) = ch_head ch;
  settling_seen : ∀ id, id ∉ seen → rs_changes s !! (COLUMN_BLOCKS, encode id) = None;
}.

Lemma reads_change {A} `{Codec A} s c k v column key :
  reads (A:=A) (overlay (change c k v s)) column key =
    if decide ((c, k) = (column, key)) then decoded v else reads (overlay s) column key.
Proof. unfold reads. rewrite overlay_change. by destruct (decide _). Qed.

(** A change of one column leaves the others alone. *)
Lemma change_ne (c c' : string) (k k' : Bytes) : c ≠ c' → (c, k) ≠ (c', k').
Proof. congruence. Qed.
Lemma change_key_ne {A} `{Codec A} `{!CodecOk A} (c : string) (x y : A) : x ≠ y → (c, encode x) ≠ (c, encode y).
Proof. intros Hne [= Heq]. by apply Hne, encode_inj. Qed.

Ltac shows_tac :=
  intros; rewrite reads_change;
  first [ rewrite decide_False by (apply change_ne; discriminate); done
        | idtac ].

Lemma shows_change_block s ch id data :
  shows (overlay s) ch →
  shows (overlay (change COLUMN_BLOCKS (encode id) (Some (encode data)) s)) (spec_blocks <[id := data]> ch).
Proof.
  intros [Hb Hc Ha Hh Hg]. split; cbn; shows_tac. destruct (decide (id = id0)) as [<-|Hne].
  - by rewrite decide_True, lookup_insert_eq, decoded_encode.
  - rewrite decide_False by by apply change_key_ne. by rewrite lookup_insert_ne.
Qed.

Lemma shows_change_canon s ch depth (value : option Id) :
  shows (overlay s) ch →
  shows (overlay (change COLUMN_CANON_DEPTH_MAPPINGS (encode depth) (encode <$> value) s))
    (spec_canon (partial_alter (λ _, value) depth) ch).
Proof.
  intros [Hb Hc Ha Hh Hg]. split; cbn; shows_tac. rename depth0 into d. destruct (decide (depth = d)) as [<-|Hne].
  - rewrite decide_True, lookup_partial_alter_eq by done. destruct value; [apply decoded_encode|done].
  - rewrite decide_False by by apply change_key_ne. by rewrite lookup_partial_alter_ne.
Qed.

Lemma shows_change_auxiliary s ch key (value : option Aux) :
  shows (overlay s) ch →
  shows (overlay (change COLUMN_AUXILIARIES (encode key) (encode <$> value) s))
    (spec_auxiliaries (partial_alter (λ _, value) key) ch).
Proof.
  intros [Hb Hc Ha Hh Hg]. split; cbn; shows_tac. rename key0 into k. destruct (decide (key = k)) as [<-|Hne].
  - rewrite decide_True, lookup_partial_alter_eq by done. destruct value; [apply decoded_encode|done].
  - rewrite decide_False by by apply change_key_ne. by rewrite lookup_partial_alter_ne.
Qed.

Lemma shows_change_head s ch head :
  shows (overlay s) ch →
  shows (overlay (change COLUMN_INFO (encode KEY_HEAD) (Some (encode head)) (set_new_head head s)))
    (mkChain (ch_blocks ch) (ch_canon ch) (ch_auxiliaries ch) head (ch_genesis ch)).
Proof.
  intros [Hb Hc Ha Hh Hg]. split; cbn; shows_tac.
  - by rewrite decide_True, decoded_encode.
  - rewrite decide_False by by apply change_key_ne. done.
Qed.

Lemma settling_change_block b seen s ch id data :
  settling b seen s ch →
  settling b (id :: seen) (change COLUMN_BLOCKS (encode id) (Some (encode data)) s) (spec_blocks <[id := data]> ch).
Proof.
  intros [Hb Hok Hs Hh Hseen]. split; [done|done|by apply shows_change_block|done|].
  intros id' [Hne Hnot]%not_elem_of_cons. cbn. rewrite lookup_insert_ne; [by apply Hseen|].
  by apply change_key_ne.
Qed.

Lemma settling_update_block b seen s ch id data f :
  settling b seen s ch → id ∉ seen → ch_blocks ch !! id = Some data →
  settling b (id :: seen) (update_block id f s) (spec_blocks <[id := f data]> ch).
Proof.
  intros Hs Hnot Hd. unfold update_block.
  assert (fetch_block_data (rb_db (rs_backend s)) id = Ok (Some data)) as ->; [|by apply settling_change_block].
  pose proof (shows_blocks _ _ (settling_shows _ _ _ _ Hs) id) as Hr. unfold reads, overlay in Hr.
  rewrite (settling_seen _ _ _ _ Hs id Hnot), Hd in Hr. exact Hr.
Qed.

(** A change of another column keeps the rows of blocks. *)
Lemma settling_change_other b seen s ch c k v ch' :
  settling b seen s ch → c ≠ COLUMN_BLOCKS → shows (overlay (change c k v s)) ch' → ch_head ch' = ch_head ch →
  settling b seen (change c k v s) ch'.
Proof.
  intros [Hb Hok Hs Hh Hseen] Hc Hs' Hh'. split; [done|done|done|by rewrite Hh'|].
  intros id Hnot. cbn. rewrite lookup_insert_ne; [by apply Hseen|]. by apply change_ne.
Qed.

Lemma run_call_settling b seen s ch call calls ch' :
  settling b seen s ch → separate seen (call :: calls) → spec_call ch call = Some ch' →
  ∃ seen', settling b seen' (run_call call s) ch' ∧ separate seen' calls.
Proof.
  intros Hs Hsep Hspec. pose proof (settling_ok _ _ _ _ Hs) as Hok. pose proof (settling_shows _ _ _ _ Hs) as Hshows.
  assert (∀ f, unless_failed f s = f s) as Hrun by (intros f; unfold unless_failed; by rewrite Hok).
  destruct call as [id block state depth children canon|id child|id canon|depth id|depth|key value|key|head];
    cbn in Hsep, Hspec; simplify_option_eq; cbn [run_call].
  - exists (id :: seen). split; [|done]. unfold insert_block. rewrite Hrun. by apply settling_change_block.
  - exists (id :: seen). destruct Hsep as [Hnot Hsep]. split; [|done]. unfold push_child. rewrite Hrun.
    by apply settling_update_block.
  - exists (id :: seen). destruct Hsep as [Hnot Hsep]. split; [|done]. unfold set_canon. rewrite Hrun.
    by apply settling_update_block.
  - exists seen. split; [|done]. unfold insert_canon_depth_mapping. rewrite Hrun.
    eapply settling_change_other; [done|done|by apply (shows_change_canon s ch depth (Some id))|done].
  - exists seen. split; [|done]. unfold remove_canon_depth_mapping. rewrite Hrun.
    eapply settling_change_other; [done|done|by apply (shows_change_canon s ch depth None)|done].
  - exists seen. split; [|done]. unfold insert_auxiliary. rewrite Hrun.
    eapply settling_change_other; [done|done|by apply (shows_change_auxiliary s ch key (Some value))|done].
  - exists seen. split; [|done]. unfold remove_auxiliary. rewrite Hrun.
    eapply settling_change_other; [done|done|by apply (shows_change_auxiliary s ch key None)|done].
  - exists seen. split; [|done]. unfold set_head. rewrite Hrun. destruct Hs as [Hb _ _ Hh Hseen].
    split; [done|done|by apply shows_change_head|done|]. intros id Hnot. cbn.
    rewrite lookup_insert_ne; [by apply Hseen|]. by apply change_ne.
Qed.

Lemma run_calls_settling b calls seen s ch ch' :
  settling b seen s ch → separate seen calls → spec_calls ch calls = Some ch' →
  ∃ seen', settling b seen' (run_calls calls s) ch'.
Proof.
  revert seen s ch. induction calls as [|call calls IH]; intros seen s ch Hs Hsep Hspec; cbn in Hspec.
  { injection Hspec as <-. by exists seen. }
  destruct (spec_call ch call) as [ch1|] eqn:Hcall; [|done].
  destruct (run_call_settling b seen s ch call calls ch1 Hs Hsep Hcall) as (seen1 & Hs1 & Hsep1).
  by apply (IH seen1 (run_call call s) ch1).
Qed.

(** The calls change rows of the four columns only. *)
Definition in_columns (s : RocksSettlement) : Prop := map_Forall (λ ck _, ck.1 ∈ columns) (rs_changes s).

Lemma change_in_columns c k v s : c ∈ columns → in_columns s → in_columns (change c k v s).
Proof. intros Hc Hs. by apply map_Forall_insert_2. Qed.

Lemma run_call_in_columns call s :
  in_columns s → in_columns (run_call call s) ∧ rs_backend (run_call call s) = rs_backend s.
Proof.
  intros Hs. destruct call; cbn [run_call]; unfold insert_block, push_child, set_canon, insert_canon_depth_mapping,
    remove_canon_depth_mapping, insert_auxiliary, remove_auxiliary, set_head, unless_failed, update_block;
    destruct (rs_last_error s); try done; repeat case_match; try done;
    split; try done; apply change_in_columns; try done; solve_column.
Qed.

Lemma run_calls_in_columns calls s :
  in_columns s → in_columns (run_calls calls s) ∧ rs_backend (run_calls calls s) = rs_backend s.
Proof.
  revert s. induction calls as [|call calls IH]; intros s Hs; [done|].
  destruct (run_call_in_columns call s Hs) as [Hs' Hb]. cbn. rewrite <- Hb. by apply IH.
Qed.

(** When the rows can be read, no call panics. *)
Definition unbroken (s : RocksSettlement) : Prop := rs_last_error s ≠ Some Panicked ∧ rs_last_error s ≠ Some Exhausted.

Lemma run_calls_unbroken calls s :
  (∀ id, definite (fetch_block_data (rb_db (rs_backend s)) id)) → in_columns s → unbroken s → unbroken (run_calls calls s).
Proof.
  revert s. induction calls as [|call calls IH]; intros s Hread Hin Hs; [done|].
  destruct (run_call_in_columns call s Hin) as [Hin' Hb]. cbn. apply IH; [by rewrite Hb|done|]. clear IH.
  destruct call; cbn [run_call]; unfold insert_block, push_child, set_canon, insert_canon_depth_mapping,
    remove_canon_depth_mapping, insert_auxiliary, remove_auxiliary, set_head, unless_failed, update_block;
    destruct (rs_last_error s) eqn:He; try done;
    try (specialize (Hread id); destruct (fetch_block_data _ id) as [[]| | |]; try done).
  all: unfold unbroken; cbn; rewrite ?He; done.
Qed.

(** Without an error, a commit is one write. *)
Lemma settlement_commit_write s :
  rs_last_error s = None → in_columns s → has_columns (rb_db (rs_backend s)) →
  ∃ batch, settlement_commit s =
    (db' ← res_map_err Rocks (db_write (rb_db (rs_backend s)) batch); Ok (rs_new_head s, db')).
Proof.
  intros Hok Hin Hcols. unfold settlement_commit. rewrite Hok.
  assert (∃ batch, res_map (batch_entry (rb_db (rs_backend s))) (map_to_list (rs_changes s)) = Ok batch) as [batch ->];
    [|by exists batch].
  assert (Forall (λ e, ∃ x, batch_entry (rb_db (rs_backend s)) e = Ok x) (map_to_list (rs_changes s))) as Hall.
  { apply Forall_forall. intros [[c k] v] He%elem_of_map_to_list. apply Hin in He. cbn in He.
    destruct (proj1 (Forall_forall _ _) Hcols c He) as [cf Hcf]. unfold batch_entry. cbn. rewrite Hcf. by eexists. }
  induction Hall as [|e l [x He] _ [batch IH]]; [by eexists|]. cbn. rewrite He. cbn. rewrite IH. by eexists.
Qed.

Lemma spec_calls_genesis ch calls ch' : spec_calls ch calls = Some ch' → ch_genesis ch' = ch_genesis ch.
Proof.
  revert ch. induction calls as [|call calls IH]; intros ch Hspec; cbn in Hspec; [by injection Hspec as ->|].
  destruct (spec_call ch call) as [ch1|] eqn:Hcall; [|done]. rewrite (IH ch1 Hspec).
  destruct call; cbn in Hcall; by simplify_option_eq.
Qed.

(** Opening the database again gives the same backend. *)
Definition reopens (b : RocksBackend) : Prop :=
  has_columns (rb_db b) ∧ from_existing (Ok (rb_db b)) = Ok b.

Lemma reopens_iff b :
  has_columns (rb_db b) →
  reopens b ↔ fetch_head (rb_db b) = Ok (Some (rb_head b)) ∧ fetch_genesis (rb_db b) = Ok (Some (rb_genesis b)).
Proof.
  intros Hcols. unfold reopens, from_existing, open_or_create, open_with. cbn [res_map_err mbind res_bind].
  split; [|intros [-> ->]; by destruct b]. intros [_ Ho].
  destruct (fetch_head (rb_db b)) as [[h|]| | |]; try done; cbn in Ho;
    destruct (fetch_genesis (rb_db b)) as [[g|]| | |]; try done. cbn in Ho. by injection Ho as <-.
Qed.

(** The information rows of a settlement agree with its new head. *)
Definition info_ok (s : RocksSettlement) : Prop :=
  reads (overlay s) COLUMN_INFO (encode KEY_HEAD) = Ok (Some (default (rb_head (rs_backend s)) (rs_new_head s))) ∧
  reads (overlay s) COLUMN_INFO (encode KEY_GENESIS) = Ok (Some (rb_genesis (rs_backend s))).

Lemma info_ok_change c k v s : c ≠ COLUMN_INFO → info_ok s → info_ok (change c k v s).
Proof. intros Hc Hs. unfold info_ok. by rewrite !reads_change, !decide_False by by apply change_ne. Qed.

Lemma run_calls_info calls s : info_ok s → info_ok (run_calls calls s).
Proof.
  revert s. induction calls as [|call calls IH]; intros s Hs; [done|]. apply IH. clear IH.
  destruct call; cbn [run_call]; unfold insert_block, push_child, set_canon, insert_canon_depth_mapping,
    remove_canon_depth_mapping, insert_auxiliary, remove_auxiliary, set_head, unless_failed, update_block;
    destruct (rs_last_error s); try done; repeat case_match; try done; try (by apply info_ok_change).
  destruct Hs as [Hh Hg]. split; rewrite reads_change.
  - by rewrite decide_True, decoded_encode.
  - rewrite decide_False by by apply change_key_ne. exact Hg.
Qed.

Lemma commit_cases operation b r b' :
  commit operation b = (r, b') →
  r ≠ Ok tt ∧ b' = b ∨
  r = Ok tt ∧ ∃ calls new_head db', operation b = (calls, Ok tt) ∧
    settlement_commit (run_calls calls (settlement_new b)) = Ok (new_head, db') ∧
    b' = mkRocksBackend db' (default (rb_head b) new_head) (rb_genesis b).
Proof.
  unfold commit. rewrite Mbind_get. destruct (operation b) as [calls settled]. rewrite Mbind_lift_case.
  destruct (settle_result _ settled) as [[]| | |] eqn:Hs; [|intros [= <- <-]; by left..].
  rewrite Mbind_lift_case.
  destruct (settlement_commit _) as [[h db']| | |] eqn:Hc; [|intros [= <- <-]; by left..].
  destruct (settlement_commit_ok _ _ _ Hc) as [Hn _]. unfold settle_result in Hs. rewrite Hn in Hs. subst settled.
  intros [= <- <-]. right. split; [done|]. by exists calls, h, db'.
Qed.

(** The chain of a new store *)
Definition genesis_chain (block : Block) (state : State) : Chain :=
  let genesis := id_of block in
  mkChain {[genesis := mkBlockData block (into_raw state) 0 [] true]} {[0 := genesis]} ∅ genesis genesis.

Lemma genesis_settlement_changes db block state :
  let genesis := id_of block in
  genesis_settlement db block state =
    change COLUMN_INFO (encode KEY_HEAD) (Some (encode genesis)) (set_new_head genesis
      (change COLUMN_INFO (encode KEY_GENESIS) (Some (encode genesis))
        (change COLUMN_CANON_DEPTH_MAPPINGS (encode 0) (Some (encode genesis))
          (change COLUMN_BLOCKS (encode genesis) (Some (encode (mkBlockData block (into_raw state) 0 [] true)))
            (settlement_new (mkRocksBackend db genesis genesis)))))).
Proof. done. Qed.

Lemma reads_new_head {A} `{Codec A} h s c k : reads (A:=A) (overlay (set_new_head h s)) c k = reads (overlay s) c k.
Proof. done. Qed.

Ltac reads_genesis :=
  rewrite genesis_settlement_changes, ?reads_change, ?reads_new_head, ?reads_change;
  repeat (first [rewrite decide_True by done | rewrite decide_False by (first [by apply change_ne | by apply change_key_ne])]);
  rewrite ?decoded_encode.

Lemma genesis_settlement_reads db block state :
  let s := genesis_settlement db block state in
  info_ok s ∧ rs_new_head s = Some (id_of block) ∧
  reads (overlay s) COLUMN_BLOCKS (encode (id_of block)) =
    Ok (Some (mkBlockData block (into_raw state) 0 [] true)) ∧
  reads (overlay s) COLUMN_CANON_DEPTH_MAPPINGS (encode 0) = Ok (Some (id_of block)).
Proof. split; [split|split; [done|split]]; reads_genesis; done. Qed.

(** On an empty database the settlement shows that chain. *)
Lemma genesis_settlement_shows db block state :
  (∀ c k, c ∈ columns → fetch_raw db c k = Ok None) →
  shows (overlay (genesis_settlement db block state)) (genesis_chain block state).
Proof.
  intros Hempty. destruct (genesis_settlement_reads db block state) as ([Hh Hg] & Hn & Hblock & Hcanon).
  assert (∀ {A} `{Codec A} b c k, c ∈ columns → rb_db b = db →
    reads (A:=A) (overlay (settlement_new b)) c k = Ok None) as Hnone.
  { intros A HA b c k Hc Hb. unfold reads, overlay, settlement_new. cbn. by rewrite Hb, Hempty. }
  split; cbn [genesis_chain ch_blocks ch_canon ch_auxiliaries ch_head ch_genesis].
  - intros id. destruct (decide (id_of block = id)) as [<-|Hne]; [by rewrite lookup_singleton_eq|].
    rewrite lookup_singleton_ne by done. reads_genesis. apply Hnone; [solve_column|done].
  - intros d. destruct (decide (0 = d)) as [<-|Hne]; [by rewrite lookup_singleton_eq|].
    rewrite lookup_singleton_ne by done. reads_genesis. apply Hnone; [solve_column|done].
  - intros key. rewrite lookup_empty. reads_genesis. apply Hnone; [solve_column|done].
  - by rewrite Hh, Hn.
  - exact Hg.
Qed.

Lemma new_with_genesis_ok db block state b :
  has_columns db → new_with_genesis (Ok db) block state = Ok b →
  reopens b ∧ rb_head b = id_of block ∧ rb_genesis b = id_of block ∧
  block_at b (id_of block) = Ok block ∧ lookup_canon_depth b 0 = Ok (Some (id_of block)) ∧
  ((∀ c k, c ∈ columns → fetch_raw db c k = Ok None) → represents b (genesis_chain block state)).
Proof.
  intros Hcols Hnew. unfold new_with_genesis, open_with in Hnew. cbn [res_map_err mbind res_bind] in Hnew.
  destruct (fetch_head db) as [[h|]| | |]; try done; cbn [mbind res_bind] in Hnew;
    destruct (fetch_genesis db) as [[g|]| | |]; try done. cbn [mbind res_bind] in Hnew.
  destruct (parent_of block); [done|].
  destruct (genesis_settlement_reads db block state) as ([Hh Hg] & Hn & Hblock & Hcanon).
  pose proof (genesis_settlement_shows db block state) as Hshows.
  assert (rs_backend (genesis_settlement db block state) = mkRocksBackend db (id_of block) (id_of block)) as Hb by done.
  set (s := genesis_settlement db block state) in *. clearbody s.
  destruct (settlement_commit s) as [[h db']| | |] eqn:Hc; try done. cbn in Hnew. injection Hnew as <-.
  destruct (settlement_commit_ok _ _ _ Hc) as (_ & _ & Hcf & Hraw). rewrite Hb in *. cbn in *.
  assert (∀ {A} `{Codec A} c k, c ∈ columns → fetch (A:=A) db' c k = reads (overlay s) c k) as Hreads.
  { intros A HA c k Hin. unfold fetch, reads. by rewrite Hraw by by apply (proj1 (Forall_forall _ _) Hcols). }
  assert (has_columns db') as Hcols' by (eapply Forall_impl; [exact Hcols|]; intros c Hc'; cbn; by rewrite Hcf).
  split.
  { apply reopens_iff; [done|].
    unfold fetch_head, fetch_genesis. cbn. rewrite !Hreads by (solve_column). by rewrite Hh, Hg, Hn. }
  do 2 (split; [done|]).
  unfold block_at, block_data, fetch_block_data, lookup_canon_depth. cbn.
  rewrite !Hreads by (solve_column). rewrite Hblock. do 2 (split; [done|]).
  intros Hempty. specialize (Hshows Hempty). split; [done|]. split; [|done].
  destruct Hshows as [S1 S2 S3 S4 S5]. unfold fetch in Hreads.
  split; intros; unfold reads at 1; cbn; rewrite Hreads; try done; solve_column.
Qed.

(** The settlement of an operation whose calls have a meaning *)
Lemma calls_settled b ch calls ch' :
  represents b ch → separate [] calls → spec_calls ch calls = Some ch' →
  let s := run_calls calls (settlement_new b) in
  rs_backend s = b ∧ in_columns s ∧ ∃ seen, settling b seen s ch'.
Proof.
  intros (Hcols & Hshows & Hhead & Hgen) Hsep Hspec.
  assert (settling b [] (settlement_new b) ch) as Hnew by (split; [done|done|exact Hshows|done|done]).
  destruct (run_calls_settling b calls [] (settlement_new b) ch ch' Hnew Hsep Hspec) as [seen Hs].
  destruct (run_calls_in_columns calls (settlement_new b)) as [Hin Hb]; [apply map_Forall_empty|]. eauto.
Qed.

(** A commit that succeeds holds the chain that its calls describe. *)
Lemma commit_ok_represents (operation : Operation) (b b' : RocksBackend) (calls : list SettlementCall) (ch ch' : Chain) :
  represents b ch → operation b = (calls, Ok tt) → separate [] calls → spec_calls ch calls = Some ch' →
  commit operation b = (Ok tt, b') → represents b' ch'.
Proof.
  intros Hrep Hop Hsep Hspec Hcommit. destruct (calls_settled b ch calls ch' Hrep Hsep Hspec) as (Hb & _ & seen & Hs).
  destruct (commit_cases _ _ _ _ Hcommit) as [[? _]|(_ & calls' & h & db' & Hop' & Hc & ->)]; [done|].
  rewrite Hop in Hop'. injection Hop' as <-. set (s := run_calls calls (settlement_new b)) in *.
  destruct Hrep as (Hcols & _ & _ & Hgen).
  destruct (settlement_commit_ok s _ _ Hc) as (_ & -> & Hcf & Hraw). rewrite Hb in Hcf, Hraw.
  assert (has_columns db') as Hcols' by (eapply Forall_impl; [exact Hcols|]; intros c Hc'; cbn; by rewrite Hcf).
  destruct (settling_shows _ _ _ _ Hs) as [S1 S2 S3 S4 S5].
  assert (∀ {A} `{Codec A} c k, c ∈ columns → reads (A:=A) (fetch_raw db') c k = reads (overlay s) c k) as Hreads.
  { intros A HA c k Hin'. unfold reads. by rewrite Hraw by by apply (proj1 (Forall_forall _ _) Hcols). }
  split; [done|]. split; [|split; [by eapply settling_head|]].
  - split; intros; rewrite Hreads; try done; solve_column.
  - cbn. rewrite Hgen. symmetry. by eapply spec_calls_genesis.
Qed.

(** ** Theorems *)

(** C17: a commit refines the calls of its operation.  When the backend holds a
    chain, the operation settles, its calls have a meaning and none changes a
    row an earlier one wrote, the commit is one write to the database: if that
    succeeds the backend holds the chain the calls describe, head in memory
    included, and if it fails the backend is what it was. *)
Theorem commit_refines (operation : Operation) (b : RocksBackend) (calls : list SettlementCall) (ch ch' : Chain) :
  represents b ch → operation b = (calls, Ok tt) → separate [] calls → spec_calls ch calls = Some ch' →
  ∃ batch,
    (∀ db', db_write (rb_db b) batch = Ok db' →
       ∃ b', commit operation b = (Ok tt, b') ∧ rb_db b' = db' ∧ represents b' ch') ∧
    (∀ e, db_write (rb_db b) batch = Err e → commit operation b = (Err (Rocks e), b)).
Proof.
  intros Hrep Hop Hsep Hspec. destruct (calls_settled b ch calls ch' Hrep Hsep Hspec) as (Hb & Hin & seen & Hs).
  assert (∀ b', commit operation b = (Ok tt, b') → represents b' ch') as Hok
    by (intros b' Hc; by eapply commit_ok_represents).
  unfold commit in *. rewrite Mbind_get, Hop in *. set (s := run_calls calls (settlement_new b)) in *.
  destruct (settlement_commit_write s) as [batch Hcommit];
    [by eapply settling_ok|done|rewrite Hb; apply Hrep|]. rewrite Hb in Hcommit. exists batch.
  assert (settle_result s (Ok tt) = Ok tt) as Hres
    by (unfold settle_result; by rewrite (settling_ok _ _ _ _ Hs)).
  rewrite Hres, Mbind_lift_Ok in *. split; [intros db' Hw|intros e Hw]; rewrite Hcommit, Hw in *; [|done].
  eexists. split; [done|]. split; [done|]. by apply Hok.
Qed.

(** C31: what was committed survives a restart.  A store that [new_with_genesis]
    creates, on a database whose columns exist, opens again with the same head
    and genesis, and holds the genesis block at depth 0; on an empty database it
    holds nothing else.  Every commit keeps
    this, whatever the operation does, and one that does not succeed leaves the
    database and the head as they were. *)
Theorem store_durable :
  (∀ db block state b, has_columns db → new_with_genesis (Ok db) block state = Ok b →
     reopens b ∧ rb_head b = id_of block ∧ rb_genesis b = id_of block ∧
     block_at b (id_of block) = Ok block ∧ lookup_canon_depth b 0 = Ok (Some (id_of block)) ∧
     ((∀ c k, c ∈ columns → fetch_raw db c k = Ok None) → represents b (genesis_chain block state))) ∧
  (∀ operation b r b', reopens b → commit operation b = (r, b') → reopens b' ∧ (r ≠ Ok tt → b' = b)).
Proof.
  split.
  - exact new_with_genesis_ok.
  - intros operation b r b' Hopen Hcommit. pose proof (proj1 Hopen) as Hcols.
    destruct (commit_cases operation b r b' Hcommit) as [[Hr ->]|(-> & calls & h & db' & Hop & Hc & ->)]; [done|].
    split; [|done]. apply reopens_iff in Hopen as Hinfo; [|done].
    assert (info_ok (run_calls calls (settlement_new b))) as [Hh Hg] by by apply run_calls_info.
    destruct (run_calls_in_columns calls (settlement_new b)) as [_ Hb]; [apply map_Forall_empty|].
    destruct (settlement_commit_ok _ _ _ Hc) as (_ & -> & Hcf & Hraw). rewrite Hb in *. cbn [rs_backend settlement_new] in *.
    assert (is_Some (cf_handle (rb_db b) COLUMN_INFO)) as Hi
      by (apply (proj1 (Forall_forall _ _) Hcols); solve_column).
    apply reopens_iff; [eapply Forall_impl; [exact Hcols|]; intros c Hc'; cbn; by rewrite Hcf|].
    unfold fetch_head, fetch_genesis, fetch. cbn. by rewrite !Hraw.
Qed.

(** A settlement reads rows from the database and not from its own changes.
    An operation that inserts a block and then gives it a child fails with
    [Corrupted]; of two children pushed to one block in one operation only the
    second is stored. *)
Theorem pending_rows_not_read (b : RocksBackend) (id child1 child2 : Id) (operation : Operation) :
  has_columns (rb_db b) →
  (∀ block state depth children canon,
     fetch_block_data (rb_db b) id = Ok None →
     operation b = ([InsertBlock id block state depth children canon; PushChild id child1], Ok tt) →
     commit operation b = (Err Corrupted, b)) ∧
  (∀ data b',
     fetch_block_data (rb_db b) id = Ok (Some data) →
     operation b = ([PushChild id child1; PushChild id child2], Ok tt) →
     commit operation b = (Ok tt, b') → children_at b' id = Ok (bd_children data ++ [child2])).
Proof.
  intros Hcols. split.
  - intros block state depth children canon Hnone Hop. unfold commit. rewrite Mbind_get, Hop.
    unfold run_calls, run_call, push_child, insert_block, unless_failed, update_block. cbn. by rewrite Hnone.
  - intros data b' Hdata Hop Hcommit.
    destruct (commit_cases _ _ _ _ Hcommit) as [[Hr _]|(_ & calls & h & db' & Hop' & Hc & ->)]; [done|].
    rewrite Hop in Hop'. injection Hop' as <-.
    set (s := run_calls _ _) in Hc.
    assert (reads (overlay s) COLUMN_BLOCKS (encode id) = Ok (Some (add_child child2 data)) ∧
      rb_db (rs_backend s) = rb_db b) as [Hread Hb].
    { unfold s, run_calls, run_call, push_child, unless_failed, update_block. cbn. rewrite Hdata. cbn. rewrite Hdata.
      by rewrite reads_change, decide_True, decoded_encode. }
    clearbody s. destruct (settlement_commit_ok _ _ _ Hc) as (_ & _ & _ & Hraw). rewrite Hb in Hraw.
    unfold children_at, block_data, fetch_block_data, fetch. cbn.
    rewrite Hraw by (apply (proj1 (Forall_forall _ _) Hcols); solve_column).
    unfold reads in Hread. by rewrite Hread.
Qed.
End Store.

(** ** Witnesses: a database of maps, blocks that are numbers *)

Section Witnesses.
Definition toy_write (db : gmap string (gmap Bytes Bytes)) (batch : list (string * Bytes * option Bytes)) :=
  foldl (λ db e, alter (partial_alter (λ _, e.2) e.1.2) e.1.1 db) db batch.
#[local] Instance toy_rocks : RocksApi := {|
  DB := gmap string (gmap Bytes Bytes);
  ColumnFamily := string;
  RocksError := unit;
  cf_handle := λ db name, db !! name ≫= λ _, Some name;
  get_cf := λ db cf key, Ok (db !! cf ≫= λ m, m !! key);
  db_write := λ db batch, Ok (toy_write db batch);
|}.
#[local] Instance toy_cf_eq : EqDecision (@ColumnFamily toy_rocks) := (_ : EqDecision string).

Lemma toy_write_lookup (batch : list (string * Bytes * option Bytes)) (db : gmap string (gmap Bytes Bytes)) cf key :
  is_Some (db !! cf) →
  is_Some (toy_write db batch !! cf) ∧
  toy_write db batch !! cf ≫= (λ m, m !! key) =
    match batch_value batch cf key with Some value => value | None => db !! cf ≫= λ m, m !! key end.
Proof.
  induction batch as [|e batch IH] using rev_ind; intros Hcf; [done|].
  destruct (IH Hcf) as [[m Hm] Heq]. unfold toy_write in *. rewrite foldl_app. cbn.
  assert (batch_value (batch ++ [e]) cf key =
    if decide (e.1 = (cf, key)) then Some e.2 else batch_value batch cf key) as ->.
  { unfold batch_value. rewrite filter_app, filter_cons, filter_nil.
    rewrite fmap_app. destruct (decide (e.1 = (cf, key))); [apply last_snoc|]. by rewrite app_nil_r. }
  rewrite Hm in Heq. destruct e as [[cf' key'] v]; cbn in *.
  destruct (decide (cf' = cf)) as [->|Hne].
  - rewrite lookup_alter_eq, Hm. split; [by eexists|]. cbn.
    destruct (decide ((cf, key') = (cf, key))) as [[= ->]|Hk]; [by rewrite lookup_partial_alter_eq|].
    rewrite lookup_partial_alter_ne by congruence. exact Heq.
  - rewrite lookup_alter_ne by done. rewrite Hm, decide_False by congruence. by split; [eexists|].
Qed.

#[local] Instance toy_rocks_ok : RocksOk toy_rocks.
Proof.
  split; cbn.
  - intros db a b cf Ha Hb. by simplify_option_eq.
  - intros db batch db' name [= <-]. destruct (db !! name) as [m|] eqn:Hm.
    + destruct (toy_write_lookup batch db name [] ltac:(by eexists)) as [[m' Hm'] _].
      by rewrite Hm'.
    + enough (toy_write db batch !! name = None) as -> by done.
      revert db Hm. induction batch as [|e batch IH]; intros db Hm; [done|]. apply IH.
      rewrite lookup_alter. destruct (decide (e.1.1 = name)) as [->|]; [by rewrite Hm|done].
  - intros db batch db' name cf key [= <-] Hcf. 
    destruct (db !! name) as [m|] eqn:Hm; [|done]. injection Hcf as <-.
    destruct (toy_write_lookup batch db name key ltac:(by eexists)) as [_ ->].
    by destruct (batch_value batch name key).
Qed.

#[local] Instance toy_codec_Z : Codec Z := {|
  encode := λ z, [z]; decode := λ b, match b with [z] => Some z | _ => None end |}.
#[local] Instance toy_codec_data : Codec (BlockData Z Z Z) := {|
  encode := λ d, bd_block d :: bd_state d :: bd_depth d :: (if bd_is_canon d then 1 else 0) :: bd_children d;
  decode := λ b,
    match b with
    | block :: state :: depth :: canon :: children => Some (mkBlockData block state depth children (canon =? 1))
    | _ => None
    end |}.
#[local] Instance toy_codec_string : Codec string := {|
  encode := λ s, (λ c, Z.of_N (Ascii.N_of_ascii c)) <$> String.list_ascii_of_string s;
  decode := λ b, Some (String.string_of_list_ascii ((λ z, Ascii.ascii_of_N (Z.to_N z)) <$> b)) |}.
#[local] Instance toy_codec_Z_ok : CodecOk Z.
Proof. done. Qed.
#[local] Instance toy_codec_data_ok : CodecOk (BlockData Z Z Z).
Proof. by intros [? ? ? ? []]. Qed.
#[local] Instance toy_codec_string_ok : CodecOk string.
Proof.
  intros s. cbn. rewrite <- list_fmap_compose. f_equal.
  rewrite <- (String.string_of_list_ascii_of_string s) at 2. f_equal.
  rewrite <- (list_fmap_id (String.list_ascii_of_string s)) at 2. apply list_fmap_ext. intros i c _. cbn.
  by rewrite N2Z.id, Ascii.ascii_N_embedding.
Qed.

Definition toy_empty : gmap string (gmap Bytes Bytes) :=
  {["blocks" := ∅]} ∪ {["canon_depth_mappings" := ∅]} ∪ {["auxiliaries" := ∅]} ∪ {["info" := ∅]}.

Definition toy_parent (block : Z) : option Z := if block =? 0 then None else Some 0.
Notation toy_Chain := (Chain (Id:=Z) (Block:=Z) (Raw:=Z) (Aux:=Z) (AuxKey:=Z)).
Definition toy_genesis : toy_Chain := genesis_chain id id 0 100.
Definition toy_store : RocksBackend (Id:=Z) :=
  match new_with_genesis id toy_parent id (Ok toy_empty) 0 100 with
  | Ok b => b
  | _ => mkRocksBackend toy_empty 0 0
  end.

Lemma toy_columns : has_columns toy_empty.
Proof. repeat (apply Forall_cons_2; [eexists; reflexivity|]). apply Forall_nil_2. Qed.

Lemma toy_store_created : new_with_genesis id toy_parent id (Ok toy_empty) 0 100 = Ok toy_store.
Proof. vm_compute. reflexivity. Qed.

Lemma toy_empty_reads c k : c ∈ columns → fetch_raw toy_empty c k = Ok None.
Proof.
  intros Hc. unfold columns in Hc. repeat (apply elem_of_cons in Hc as [->|Hc]; [reflexivity|]).
  by apply elem_of_nil in Hc.
Qed.

Lemma store_durable_witness :
  reopens (Block:=Z) (State:=Z) (Raw:=Z) id toy_parent id toy_store ∧ represents toy_store toy_genesis.
Proof.
  destruct (proj1 (store_durable (R:=toy_rocks) (Aux:=Z) (AuxKey:=Z) id toy_parent id)
    toy_empty 0 100 toy_store toy_columns toy_store_created) as (Hopen & _ & _ & _ & _ & Hrep).
  exact (conj Hopen (Hrep toy_empty_reads)).
Defined.

(** Block 1, a child of the genesis block, becomes the head. *)
Definition toy_calls : list SettlementCall :=
  [InsertBlock 1 1 101 1 [] true; PushChild 0 1; InsertCanonDepthMapping 1 1; InsertAuxiliary 7 8;
   RemoveAuxiliary 9; SetHead 1].
Definition toy_chain : toy_Chain := default toy_genesis (spec_calls id toy_genesis toy_calls).

Lemma toy_represents : represents toy_store toy_genesis.
Proof.
  destruct (new_with_genesis_ok (R:=toy_rocks) (Aux:=Z) (AuxKey:=Z) id toy_parent id
    toy_empty 0 100 toy_store toy_columns toy_store_created) as (_ & _ & _ & _ & _ & Hrep).
  exact (Hrep toy_empty_reads).
Qed.

Lemma commit_refines_witness :
  spec_calls id toy_genesis toy_calls = Some toy_chain ∧
  ∃ b', commit id (λ _, (toy_calls, Ok tt)) toy_store = (Ok tt, b') ∧ represents b' toy_chain ∧ rb_head b' = 1.
Proof.
  assert (spec_calls id toy_genesis toy_calls = Some toy_chain) as Hspec by (vm_compute; reflexivity).
  split; [exact Hspec|].
  assert (separate [] toy_calls) as Hsep by (split; [set_solver|done]).
  destruct (commit_refines (R:=toy_rocks) id (λ _, (toy_calls, Ok tt)) toy_store toy_calls toy_genesis toy_chain
    toy_represents eq_refl Hsep Hspec) as (batch & Hw & _).
  destruct (Hw (toy_write (rb_db toy_store) batch) eq_refl) as (b' & Hrun & _ & Hrep).
  exists b'. split; [exact Hrun|]. split; [exact Hrep|]. exact (proj1 (proj2 (proj2 Hrep))).
Defined.

Notation toy_SettlementCall := (SettlementCall (Id:=Z) (Block:=Z) (State:=Z) (Aux:=Z) (AuxKey:=Z)).
Definition toy_nested : list toy_SettlementCall := [InsertBlock 1 1 101 1 [] true; PushChild 1 2].

Lemma pending_rows_not_read_witness :
  commit id (λ _, (toy_nested, Ok tt)) toy_store = (Err Corrupted, toy_store).
Proof.
  assert (fetch_block_data (Block:=Z) (Raw:=Z) (rb_db toy_store) 1 = Ok None) as Hnone by (vm_compute; reflexivity).
  exact (proj1 (pending_rows_not_read (R:=toy_rocks) (Aux:=Z) (AuxKey:=Z) id toy_store 1 2 3
    (λ _, (toy_nested, Ok tt)) (proj1 toy_represents)) 1 101 1 [] true Hnone eq_refl).
Defined.
End Witnesses.
