(* ===== verification/GhostStore.v ===== *)
(** * The fork choice over the database: [blockchain/src/backend.rs]

    [ShasperBackend] is the store the node runs on: it hands every query to
    the backend inside it and adds [ancestor_at], by the walk over the parents.
    Here the backend inside is [RocksBackend] of [RocksStore], and the result
    is an instance of the interface [ChainQuery] that the fork choice of
    [LmdGhost] asks for.

    [tree_ok] states that the rows of the blocks form a tree.  It holds of a
    new store, every import of a block and every new head keeps it, and it is what the laws
    [ChainOk] of the fork choice need; so the theorems of [LmdGhost] hold over
    the durable store, after any number of imports. *)
From stdpp Require Import base numbers list gmap fin_maps strings.
From Stdlib Require Import ZArith Lia.
From S2P Require Import Prelude LmdGhost RocksStore.

#[local] Open Scope Z_scope.

(** [struct ShasperBackend] *)
Record ShasperBackend (Ba : Type) := mkShasperBackend { inner_backend : Ba }.
Arguments mkShasperBackend {Ba} _.
Arguments inner_backend {Ba} _.

Section Shasper.
Context `{R : RocksApi} {Id Block State Raw Aux AuxKey : Type}.
Context `{Codec Id} `{Codec (BlockData Id Block Raw)} `{Codec Aux} `{Codec AuxKey} `{Codec Z} `{Codec string}.
Context (parent_of : Block → option Id) (into_raw : State → Raw) (from_raw : Raw → DB → State).

Notation Ba := (ShasperBackend (RocksBackend (Id:=Id))).
Notation Res := (res StoreError).

(** [impl ChainQuery for ShasperBackend] *)
Definition shasper_genesis (s : Ba) : Id := rb_genesis (inner_backend s).
Definition shasper_head (s : Ba) : Id := rb_head (inner_backend s).
Definition shasper_contains (s : Ba) (hash : Id) : Res bool := contains_block (Block:=Block) (Raw:=Raw) (inner_backend s) hash.
Definition shasper_is_canon (s : Ba) (hash : Id) : Res bool := is_canon (Block:=Block) (Raw:=Raw) (inner_backend s) hash.
Definition shasper_lookup_canon_depth (s : Ba) (depth : Z) : Res (option Id) := lookup_canon_depth (inner_backend s) depth.
Definition shasper_auxiliary (s : Ba) (key : AuxKey) : Res (option Aux) := auxiliary (inner_backend s) key.
Definition shasper_depth_at (s : Ba) (hash : Id) : Res Z :=
  RocksStore.depth_at (Block:=Block) (Raw:=Raw) (inner_backend s) hash.
Definition shasper_children_at (s : Ba) (hash : Id) : Res (list Id) :=
  RocksStore.children_at (Block:=Block) (Raw:=Raw) (inner_backend s) hash.
Definition shasper_state_at (s : Ba) (hash : Id) : Res State :=
  RocksStore.state_at (Block:=Block) from_raw (inner_backend s) hash.
Definition shasper_block_at (s : Ba) (hash : Id) : Res Block := block_at (Raw:=Raw) (inner_backend s) hash.

(** The queries the fork choice makes: [block_at(..)?.parent_id()] is one. *)
#[export] Instance shasper_query : ChainQuery Ba Id StoreError := {|
  LmdGhost.depth_at := shasper_depth_at;
  LmdGhost.parent_at := λ s hash, block ← shasper_block_at s hash; Ok (parent_of block);
  LmdGhost.children_at := shasper_children_at;
|}.

(** [impl AncestorQuery for ShasperBackend] *)
Definition shasper_ancestor_at (s : Ba) (id : Id) (depth : Z) : Res Id := ancestor_at s id depth.

(** [impl SharedCommittable for ShasperBackend] *)
Definition shasper_commit (operation : Operation (Id:=Id) (Block:=Block) (State:=State) (Aux:=Aux) (AuxKey:=AuxKey)) :
  M Ba StoreError unit := λ s,
  let '(r, b) := commit (Raw:=Raw) into_raw operation (inner_backend s) in (r, mkShasperBackend b).
End Shasper.

(** ** The tree of the rows *)

Section Rows.
Context {Id Block State Raw Aux AuxKey : Type} `{!EqDecision Id} `{!Countable Id} `{!EqDecision AuxKey} `{!Countable AuxKey}.
Context (parent_of : Block → option Id) (into_raw : State → Raw).

Notation Data := (BlockData Id Block Raw).
Notation Store := (RocksStore.Chain (Id:=Id) (Block:=Block) (Raw:=Raw) (Aux:=Aux) (AuxKey:=AuxKey)).
Notation SCall := (SettlementCall (Id:=Id) (Block:=Block) (State:=State) (Aux:=Aux) (AuxKey:=AuxKey)).

(** What the tree depends on in a row: the parent, the depth, the children *)
Definition shape (d : Data) : option Id * Z * list Id := (parent_of (bd_block d), bd_depth d, bd_children d).
Definition row (ch : Store) (x : Id) : option (option Id * Z * list Id) := shape <$> ch_blocks ch !! x.

Record tree_ok (ch : Store) : Prop := {
  tree_parent : ∀ x p d cs, row ch x = Some (Some p, d, cs) → ∃ pp dp cp, row ch p = Some (pp, dp, cp) ∧ d = dp + 1;
  tree_root : ∀ x d cs, row ch x = Some (None, d, cs) → d = 0;
  tree_children : ∀ x p d cs c, row ch x = Some (p, d, cs) → c ∈ cs ↔ ∃ dc cc, row ch c = Some (Some x, dc, cc);
  tree_depth : ∀ x p d cs, row ch x = Some (p, d, cs) → 0 ≤ d;
}.

(** It depends on the rows only. *)
Lemma tree_ok_rows ch ch' : (∀ x, row ch' x = row ch x) → tree_ok ch → tree_ok ch'.
Proof.
  intros Heq [H1 H2 H3 H4]. split.
  - intros x p d cs. rewrite Heq. intros Hx. destruct (H1 x p d cs Hx) as (pp & dp & cp & Hp & Hd).
    exists pp, dp, cp. by rewrite Heq.
  - intros x d cs. rewrite Heq. apply H2.
  - intros x p d cs c. rewrite Heq. setoid_rewrite Heq. apply H3.
  - intros x p d cs. rewrite Heq. apply H4.
Qed.

(** The store of a genesis block is a tree. *)
Lemma genesis_tree (id_of : Block → Id) block state :
  parent_of block = None → tree_ok (genesis_chain id_of into_raw block state).
Proof.
  intros Hp. assert (∀ x r, row (genesis_chain id_of into_raw block state) x = Some r → r = (None, 0, [])) as Hrow.
  { intros x r. unfold row. cbn. destruct (decide (id_of block = x)) as [<-|].
    - rewrite lookup_singleton_eq. cbn. unfold shape. cbn. rewrite Hp. by intros [= <-].
    - by rewrite lookup_singleton_ne. }
  split.
  - by intros x p d cs ?%Hrow.
  - intros x d cs Hx%Hrow. congruence.
  - intros x p d cs c Hx%Hrow. simplify_eq. split; [by intros ?%elem_of_nil|]. by intros (dc & cc & ?%Hrow).
  - intros x p d cs Hx%Hrow. simplify_eq. done.
Qed.

(** A new leaf under a known block *)
Lemma leaf_tree ch ch' id p pp dp cp :
  tree_ok ch → row ch id = None → row ch p = Some (pp, dp, cp) →
  row ch' id = Some (Some p, dp + 1, []) → row ch' p = Some (pp, dp, cp ++ [id]) →
  (∀ x, x ≠ id → x ≠ p → row ch' x = row ch x) → tree_ok ch'.
Proof.
  intros Hok Hid Hp Hid' Hp' Hother. destruct Hok as [H1 H2 H3 H4].
  assert (id ≠ p) as Hne by congruence.
  assert (∀ x q d cs, row ch' x = Some (q, d, cs) →
    (x = id ∧ q = Some p ∧ d = dp + 1 ∧ cs = []) ∨
    (x ≠ id ∧ ∃ cs0, row ch x = Some (q, d, cs0) ∧ cs = if decide (x = p) then cs0 ++ [id] else cs0)) as Hcases.
  { intros x q d cs Hx. destruct (decide (x = id)) as [->|Hx1]; [left; naive_solver|right]. split; [done|].
    destruct (decide (x = p)) as [->|Hx2]; [exists cp; naive_solver|]. exists cs. by rewrite <- Hother. }
  assert (∀ x q d cs, row ch x = Some (q, d, cs) → ∃ cs', row ch' x = Some (q, d, cs')) as Hkept.
  { intros x q d cs Hx. destruct (decide (x = id)) as [->|Hx1]; [congruence|].
    destruct (decide (x = p)) as [->|Hx2]; [exists (cp ++ [id]); congruence|]. exists cs. by rewrite Hother. }
  split.
  - intros x q d cs [(-> & [= ->] & -> & ->)|(Hx & cs0 & Hx0 & _)]%Hcases; [by exists pp, dp, (cp ++ [id])|].
    destruct (H1 _ _ _ _ Hx0) as (qq & dq & cq & Hq & ->). destruct (Hkept _ _ _ _ Hq). by eexists _, _, _.
  - intros x d cs [(_ & [=] & _)|(_ & cs0 & Hx0 & _)]%Hcases. by eapply H2.
  - intros x q d cs c [(-> & -> & -> & ->)|(Hx & cs0 & Hx0 & ->)]%Hcases.
    + split; [by intros ?%elem_of_nil|]. intros (dc & cc & [(-> & [= ->] & _)|(_ & c0 & Hc0 & _)]%Hcases); [done|].
      destruct (H1 _ _ _ _ Hc0) as (? & ? & ? & ? & _). congruence.
    + specialize (H3 x q d cs0 c Hx0). split.
      * intros Hc. assert (c ∈ cs0 ∨ c = id ∧ x = p) as [Hc0|[-> ->]].
        { case_decide; [|by left]. apply elem_of_app in Hc as [?|?%list_elem_of_singleton]; [by left|by right]. }
        -- apply H3 in Hc0 as (dc & cc & Hc0). destruct (Hkept _ _ _ _ Hc0). by eexists _, _.
        -- by eexists _, _.
      * intros (dc & cc & [(-> & [= ->] & _)|(_ & c0 & Hc0 & _)]%Hcases).
        -- rewrite decide_True by done. apply elem_of_app. right. by apply list_elem_of_singleton.
        -- assert (c ∈ cs0) by (apply H3; by eexists _, _). case_decide; [apply elem_of_app; by left|done].
  - intros x q d cs [(_ & _ & -> & _)|(_ & cs0 & Hx0 & _)]%Hcases; [pose proof (H4 _ _ _ _ Hp); lia|by eapply H4].
Qed.

(** ** The calls of an import *)

(** Calls that leave the tree alone *)
Definition quiet (call : SCall) : bool :=
  match call with InsertBlock _ _ _ _ _ _ | PushChild _ _ => false | _ => true end.

(** What a settlement of one imported block does to the rows: the block is
    inserted as a leaf and pushed to the children of its parent, in either
    order; the rest moves the head, the canonical flags and mappings. *)
Inductive import_calls (ch : Store) (id : Id) (block : Block) (state : State) : list SCall → Prop :=
  | insert_first p pp dp cp canon rest :
      parent_of block = Some p → row ch p = Some (pp, dp, cp) → row ch id = None → forallb quiet rest = true →
      import_calls ch id block state (InsertBlock id block state (dp + 1) [] canon :: PushChild p id :: rest)
  | push_first p pp dp cp canon rest :
      parent_of block = Some p → row ch p = Some (pp, dp, cp) → row ch id = None → forallb quiet rest = true →
      import_calls ch id block state (PushChild p id :: InsertBlock id block state (dp + 1) [] canon :: rest).

(** What a row holds besides the canonical flag *)
Definition content (d : Data) : Block * Raw * Z * list Id := (bd_block d, bd_state d, bd_depth d, bd_children d).

Lemma quiet_content (call : SCall) ch ch' x :
  quiet call = true → spec_call into_raw ch call = Some ch' → content <$> ch_blocks ch' !! x = content <$> ch_blocks ch !! x.
Proof.
  destruct call as [| |y canon|d y|d|k v|k|h]; try done; intros _; cbn; try by intros [= <-].
  destruct (ch_blocks ch !! y) as [data|] eqn:Hy; [|done]. intros [= <-]. cbn.
  destruct (decide (y = x)) as [->|]; [by rewrite lookup_insert_eq, Hy|by rewrite lookup_insert_ne].
Qed.

Lemma quiet_calls_content (calls : list SCall) ch ch' x :
  forallb quiet calls = true → spec_calls into_raw ch calls = Some ch' →
  content <$> ch_blocks ch' !! x = content <$> ch_blocks ch !! x.
Proof.
  revert ch. induction calls as [|call calls IH]; intros ch; cbn; [by intros _ [= <-]|].
  intros [Hq Hqs]%andb_true_iff Hspec. destruct (spec_call into_raw ch call) as [ch1|] eqn:H1; [|done].
  rewrite (IH ch1 Hqs Hspec). by eapply quiet_content.
Qed.

Lemma row_content ch x : row ch x = (λ c, (parent_of c.1.1.1, c.1.2, c.2)) <$> (content <$> ch_blocks ch !! x).
Proof. unfold row. by destruct (ch_blocks ch !! x). Qed.

Lemma quiet_calls_rows (calls : list SCall) ch ch' x :
  forallb quiet calls = true → spec_calls into_raw ch calls = Some ch' → row ch' x = row ch x.
Proof. intros Hq Hs. by rewrite !row_content, (quiet_calls_content calls ch ch' x Hq Hs). Qed.

Lemma row_data ch x r : row ch x = Some r → ∃ d, ch_blocks ch !! x = Some d ∧ shape d = r.
Proof. unfold row. intros (d & Hd & ->)%fmap_Some. eauto. Qed.

(** The rows after the two calls that add a leaf *)
Lemma leaf_rows (blocks : gmap Id Data) id p d data :
  id ≠ p → let blocks' := <[p := add_child id data]> (<[id := d]> blocks) in
  blocks' !! id = Some d ∧ blocks' !! p = Some (add_child id data) ∧
  (∀ x, x ≠ id → x ≠ p → blocks' !! x = blocks !! x) ∧
  <[id := d]> (<[p := add_child id data]> blocks) = blocks'.
Proof.
  intros Hne blocks'. unfold blocks'. split; [by rewrite lookup_insert_ne, lookup_insert_eq by done|].
  split; [by rewrite lookup_insert_eq|]. split; [|by apply insert_insert_ne].
  intros x Hx Hp. by rewrite !lookup_insert_ne by done.
Qed.

(** What an import does to the rows: one new leaf, which its parent lists, and
    nothing else. *)
Record leaf_added (ch ch' : Store) (id : Id) (block : Block) (state : State) (p : Id) (data : Data) : Prop := {
  leaf_parent : parent_of block = Some p;
  leaf_new : ch_blocks ch !! id = None;
  leaf_under : ch_blocks ch !! p = Some data;
  leaf_row : content <$> ch_blocks ch' !! id = Some (block, into_raw state, bd_depth data + 1, []);
  leaf_listed : content <$> ch_blocks ch' !! p = Some (content (add_child id data));
  leaf_others : ∀ x, x ≠ id → x ≠ p → content <$> ch_blocks ch' !! x = content <$> ch_blocks ch !! x;
}.

Lemma import_effect ch ch' id block state calls :
  import_calls ch id block state calls → spec_calls into_raw ch calls = Some ch' →
  ∃ p data, leaf_added ch ch' id block state p data.
Proof.
  intros Hcalls Hspec.
  assert (∃ p pp dp cp canon rest data,
    parent_of block = Some p ∧ row ch p = Some (pp, dp, cp) ∧ row ch id = None ∧ forallb quiet rest = true ∧
    id ≠ p ∧ ch_blocks ch !! p = Some data ∧
    spec_calls into_raw (spec_blocks (λ bs, <[p := add_child id data]>
      (<[id := mkBlockData block (into_raw state) (dp + 1) [] canon]> bs)) ch) rest = Some ch')
    as (p & pp & dp & cp & canon & rest & data & Hb & Hp & Hid & Hq & Hne & Hdata & Hrest).
  { destruct Hcalls as [p pp dp cp canon rest Hb Hp Hid Hq|p pp dp cp canon rest Hb Hp Hid Hq];
      assert (id ≠ p) as Hne by congruence; destruct (row_data _ _ _ Hp) as (data & Hdata & _);
      exists p, pp, dp, cp, canon, rest, data; do 6 (split; [done|]);
      cbn in Hspec; rewrite ?lookup_insert_ne, Hdata in Hspec by done; cbn in Hspec; [exact Hspec|].
    unfold spec_blocks in *. cbn in Hspec. by rewrite (insert_insert_ne _ p id) by done. }
  exists p, data.
  destruct (leaf_rows (ch_blocks ch) id p (mkBlockData block (into_raw state) (dp + 1) [] canon) data Hne)
    as (L1 & L2 & L3 & _).
  assert (bd_depth data = dp) as <- by (unfold row in Hp; rewrite Hdata in Hp; cbn in Hp; unfold shape in Hp; congruence).
  split; try done; try (intros x Hx1 Hx2); rewrite ?(quiet_calls_content rest _ ch' _ Hq Hrest); cbn.
  - unfold row in Hid. by apply fmap_None in Hid.
  - by rewrite L1.
  - by rewrite L2.
  - by rewrite L3.
Qed.

(** An import keeps the tree. *)
Lemma leaf_added_tree ch ch' id block state p data : tree_ok ch → leaf_added ch ch' id block state p data → tree_ok ch'.
Proof.
  intros Hok [L1 L2 L3 L4 L5 L6].
  apply (leaf_tree ch ch' id p (parent_of (bd_block data)) (bd_depth data) (bd_children data)); try done; rewrite ?row_content.
  - by rewrite L2.
  - by rewrite L3.
  - rewrite L4. cbn. by rewrite L1.
  - by rewrite L5.
  - intros x Hx1 Hx2. by rewrite !row_content, L6 by done.
Qed.

Lemma import_tree ch ch' id block state calls :
  tree_ok ch → import_calls ch id block state calls → spec_calls into_raw ch calls = Some ch' → tree_ok ch'.
Proof.
  intros Hok Hcalls Hspec. destruct (import_effect ch ch' id block state calls Hcalls Hspec) as (p & data & Hleaf).
  by eapply leaf_added_tree.
Qed.

(** ** The tree as the fork choice sees it *)

Definition height (ch : Store) : Z := foldr Z.max 0 ((λ kv, bd_depth kv.2) <$> map_to_list (ch_blocks ch)).

Definition ghost_chain (ch : Store) : LmdGhost.Chain Id := LmdGhost.mkChain Id
  (λ x, is_Some (row ch x))
  (λ x, from_option (λ r, r.1.2) 0 (row ch x))
  (λ x, row ch x ≫= λ r, r.1.1)
  (λ x, from_option snd [] (row ch x))
  (height ch).

Lemma height_bounds ch x d : ch_blocks ch !! x = Some d → bd_depth d ≤ height ch.
Proof.
  intros Hx%elem_of_map_to_list. unfold height. induction (map_to_list (ch_blocks ch)) as [|kv l IH]; [by apply elem_of_nil in Hx|].
  cbn. apply elem_of_cons in Hx as [<-|Hx]; cbn; [lia|]. specialize (IH Hx). lia.
Qed.
End Rows.

(** * Theorems *)

Section OverStore.
Context `{R : RocksApi} {Id Block State Raw Aux AuxKey : Type}.
Context `{Codec Id} `{Codec (BlockData Id Block Raw)} `{Codec Aux} `{Codec AuxKey} `{Codec Z} `{Codec string}.
Context (id_of : Block → Id) (parent_of : Block → option Id) (into_raw : State → Raw).
Context `{!EqDecision ColumnFamily} `{!RocksOk R}.
Context `{!CodecOk Id} `{!CodecOk (BlockData Id Block Raw)} `{!CodecOk Aux} `{!CodecOk AuxKey} `{!CodecOk Z} `{!CodecOk string}.
Context `{!EqDecision Id} `{!Countable Id} `{!EqDecision AuxKey} `{!Countable AuxKey}.

Notation Store := (RocksStore.Chain (Id:=Id) (Block:=Block) (Raw:=Raw) (Aux:=Aux) (AuxKey:=AuxKey)).
Notation Op := (Operation (Id:=Id) (Block:=Block) (State:=State) (Aux:=Aux) (AuxKey:=AuxKey)).
Notation Ba := (ShasperBackend (RocksBackend (Id:=Id))).
#[local] Existing Instance shasper_query.

Lemma represents_row (b : RocksBackend (Id:=Id)) (ch : Store) x p d cs :
  represents b ch → row parent_of ch x = Some (p, d, cs) →
  ∃ data, block_data b x = Ok data ∧ parent_of (bd_block data) = p ∧ bd_depth data = d ∧ bd_children data = cs.
Proof.
  intros (_ & Hshows & _) Hrow. apply row_data in Hrow as (data & Hdata & Hshape). exists data.
  unfold block_data, fetch_block_data, fetch. pose proof (shows_blocks _ _ Hshows x) as Hx. unfold reads in Hx.
  rewrite Hx, Hdata. unfold shape in Hshape. split; [done|]. naive_solver.
Qed.

(** A backend that holds a tree keeps the promises of the fork choice's
    interface. *)
Lemma store_chain_ok (b : RocksBackend (Id:=Id)) (ch : Store) :
  represents b ch → tree_ok parent_of ch →
  ChainOk (H:=shasper_query parent_of (Raw:=Raw)) (mkShasperBackend b) (ghost_chain parent_of ch).
Proof.
  intros Hrep Hok.
  assert (∀ x, is_Some (row parent_of ch x) → ∃ p d cs, row parent_of ch x = Some (p, d, cs)) as Hknown
    by (intros x [[[p d] cs] Hx]; eauto).
  split.
  - intros x (p & d & cs & Hx)%Hknown. destruct (represents_row _ _ _ _ _ _ Hrep Hx) as (data & Hd & _ & <- & _).
    cbn. rewrite Hx. unfold shasper_depth_at, RocksStore.depth_at. cbn. by rewrite Hd.
  - intros x (p & d & cs & Hx)%Hknown. destruct (represents_row _ _ _ _ _ _ Hrep Hx) as (data & Hd & <- & _).
    cbn. rewrite Hx. unfold shasper_block_at, block_at. cbn. by rewrite Hd.
  - intros x (p & d & cs & Hx)%Hknown. destruct (represents_row _ _ _ _ _ _ Hrep Hx) as (data & Hd & _ & _ & <-).
    cbn. rewrite Hx. unfold shasper_children_at, RocksStore.children_at. cbn. by rewrite Hd.
  - intros x p (q & d & cs & Hx)%Hknown. cbn. rewrite Hx. cbn. intros ->.
    destruct (tree_parent _ _ Hok _ _ _ _ Hx) as (pp & dp & cp & Hp & ->). by rewrite Hp.
  - intros x (q & d & cs & Hx)%Hknown. cbn. rewrite Hx. cbn. intros ->. by eapply tree_root.
  - intros x c (q & d & cs & Hx)%Hknown. cbn. rewrite Hx. cbn. rewrite (tree_children _ _ Hok _ _ _ _ c Hx). split.
    + intros (dc & cc & ->). by split.
    + intros [(qc & dc & cc & Hc)%Hknown Hp]. rewrite Hc in Hp. cbn in Hp. simplify_eq. eauto.
  - intros x (q & d & cs & Hx)%Hknown. cbn. rewrite Hx. cbn. split; [by eapply tree_depth|].
    apply row_data in Hx as (data & Hdata & [= <- <- <-]). by eapply height_bounds.
Qed.

(** The stores the node can reach: a new one over an empty database, and every
    store after the commit of an import or of a new head. *)
Inductive stored : RocksBackend (Id:=Id) → Store → Prop :=
  | stored_new db block state b :
      has_columns db → (∀ c k, c ∈ columns → fetch_raw db c k = Ok None) → parent_of block = None →
      new_with_genesis id_of parent_of into_raw (Ok db) block state = Ok b →
      stored b (genesis_chain id_of into_raw block state)
  | stored_import (operation : Op) b ch calls id block state ch' b' :
      stored b ch → operation b = (calls, Ok tt) → import_calls parent_of ch id block state calls → separate [] calls →
      spec_calls into_raw ch calls = Some ch' → commit (Raw:=Raw) into_raw operation b = (Ok tt, b') → stored b' ch'
  | stored_head (operation : Op) b ch calls ch' b' :
      stored b ch → operation b = (calls, Ok tt) → forallb quiet calls = true → separate [] calls →
      spec_calls into_raw ch calls = Some ch' → commit (Raw:=Raw) into_raw operation b = (Ok tt, b') → stored b' ch'.

Lemma stored_ok b ch : stored b ch → represents b ch ∧ tree_ok parent_of ch.
Proof.
  induction 1 as [db block state b Hcols Hempty Hp Hnew|operation b ch calls id block state ch' b' _ [Hrep Hok] Hop Hcalls Hsep Hspec Hc
    |operation b ch calls ch' b' _ [Hrep Hok] Hop Hq Hsep Hspec Hc].
  - split; [|by apply genesis_tree]. by apply (new_with_genesis_ok id_of parent_of into_raw db block state b Hcols Hnew).
  - split; [by eapply commit_ok_represents|by eapply import_tree].
  - split; [by eapply commit_ok_represents|]. eapply tree_ok_rows; [|exact Hok]. intros x. by eapply quiet_calls_rows.
Qed.

(** C10: The fork choice over the durable store.  In a store that was created
    with a genesis block and grown by imports and new heads, the database holds
    the chain the operations describe and its rows form a tree.  When every vote
    and the justified block are of blocks it holds, the fork choice on the
    node's backend returns, within a bound that is at least the height of the
    tree, a block without children below the justified one, reached along
    children with the most support. *)
Theorem ghost_on_store (b : RocksBackend (Id:=Id)) (ch : Store) (g : ArchiveGhost Id) (fuel : nat) (justified : Id) :
  stored b ch →
  votes_known (ghost_chain parent_of ch) g → is_Some (ch_blocks ch !! justified) → height ch ≤ Z.of_nat fuel →
  represents b ch ∧ tree_ok parent_of ch ∧
  ∃ h, head fuel (H:=shasper_query parent_of (Raw:=Raw)) (mkShasperBackend b) g justified = Ok h ∧
    ghost_walk (CQ:=shasper_query parent_of (Raw:=Raw)) (mkShasperBackend b) (ghost_chain parent_of ch) g justified h ∧
    descends (ghost_chain parent_of ch) h justified ∧
    RocksStore.children_at (Block:=Block) (Raw:=Raw) b h = Ok [].
Proof.
  intros [Hrep Hok]%stored_ok Hg Hj Hf. pose proof (store_chain_ok b ch Hrep Hok) as Hchain.
  destruct (head_correct (ChainOk0:=Hchain) (mkShasperBackend b) (ghost_chain parent_of ch) g fuel justified)
    as (h & Hh & Hw & Hknown & Hleaf & Hd); [done|by apply fmap_is_Some|done|].
  do 2 (split; [done|]). exists h. do 3 (split; [done|]). pose proof (store_children (ChainOk:=Hchain) h Hknown) as Hch. rewrite Hleaf in Hch. exact Hch.
Qed.
End OverStore.

(** ** Witness: block 1 is imported on the genesis block 0 *)

Section Witnesses.
#[local] Existing Instances toy_rocks toy_cf_eq toy_rocks_ok toy_codec_Z toy_codec_data toy_codec_string
  toy_codec_Z_ok toy_codec_data_ok toy_codec_string_ok.

Definition toy_imported : RocksBackend (Id:=Z) := (commit (Raw:=Z) id (λ _, (toy_calls, Ok tt)) toy_store).2.
Definition toy_ghost : ArchiveGhost Z := mkArchiveGhost {[5 := 1]} ∅.

Lemma toy_stored : stored id toy_parent id toy_imported toy_chain.
Proof.
  apply (stored_import _ _ _ (λ _, (toy_calls, Ok tt)) toy_store toy_genesis toy_calls 1 1 101).
  - apply (stored_new (R:=toy_rocks) _ _ _ toy_empty 0 100 toy_store toy_columns toy_empty_reads eq_refl toy_store_created).
  - reflexivity.
  - apply (insert_first toy_parent toy_genesis 1 1 101 0 None 0 [] true); reflexivity.
  - split; [set_solver|done].
  - vm_compute. reflexivity.
  - vm_compute. reflexivity.
Qed.

Lemma ghost_on_store_witness :
  tree_ok toy_parent toy_chain ∧
  ∃ h, head 1 (H:=shasper_query toy_parent (Raw:=Z)) (mkShasperBackend toy_imported) toy_ghost 0 = Ok h ∧
    RocksStore.children_at (Block:=Z) (Raw:=Z) toy_imported h = Ok [].
Proof.
  destruct (ghost_on_store id toy_parent id toy_imported toy_chain toy_ghost 1 0 toy_stored) as (_ & Htree & h & Hh & _ & _ & Hc).
  - split; [apply map_Forall_empty|]. apply map_Forall_singleton. eexists. vm_compute. reflexivity.
  - eexists. vm_compute. reflexivity.
  - vm_compute. discriminate.
  - split; [exact Htree|]. exists h. exact (conj Hh Hc).
Defined.
End Witnesses.
