(* ===== verification/StoreImporter.v ===== *)
(** * The importer over the database

    The node runs [ArchiveGhostImporter] of [LmdGhost] on the [ShasperBackend]
    of [GhostStore].  Here the two are put together: [shasper_import] is the
    committing side of that store, and an import is followed from the block's
    parent in the database to the new head in the database.

    [ImportAction] of the external crate [blockchain], which turns a block or a
    head into the calls of a settlement, is the class [ImportAction] of this
    file; [ActionOk] states what is documented of it: an operation that settles
    a new block adds it as a leaf under its parent, one that settles a head
    changes the canonical flags and mappings and sets that head. *)
From stdpp Require Import base numbers list gmap fin_maps strings.
From Stdlib Require Import ZArith Lia.
From S2P Require Import Prelude LmdGhost RocksStore GhostStore.

#[local] Open Scope Z_scope.

(** ** Votes for blocks that are not in the store *)

Section Unknown.
Context {Ba Id E : Type} `{EqDecision Id} `{CQ : ChainQuery Ba Id E} (ba : Ba) (ch : LmdGhost.Chain Id).
Context `{OK : !ChainOk ba ch} (known_dec : ∀ x, Decision (known ch x)) (missing : E).
Context (unknown_depth : ∀ x, ¬ known ch x → LmdGhost.depth_at ba x = Err missing).

Lemma count_targets_unknown (block : Id) (total : Z) (l : list Id) :
  known ch block → ¬ Forall (known ch) l → count_targets ba block (cdepth ch block) total l = Err missing.
Proof using OK known_dec unknown_depth.
  intros Hb. pose proof (depth_range block Hb). unfold count_targets. revert total.
  induction l as [|t l IH]; intros total Hl; [by destruct Hl|]. cbn [res_fold].
  destruct (decide (known ch t)) as [Ht|Ht].
  - destruct (ancestor_at_total ba ch t (cdepth ch block) Ht ltac:(lia)) as (a & -> & _). rewrite !res_bind_Ok.
    apply IH. intros Hall. apply Hl. by constructor.
  - unfold ancestor_at. by rewrite (unknown_depth t Ht).
Qed.

Lemma vote_count_unknown (g : ArchiveGhost Id) (block : Id) :
  known ch block → ¬ map_Forall (λ _ t, known ch t) (overlayed_votes g) →
  vote_count ba g block (cdepth ch block) = Err missing.
Proof using OK known_dec unknown_depth.
  intros Hb Hg. unfold vote_count. rewrite count_targets_unknown; [done..|]. intros Hall. apply Hg.
  intros v t Hv%elem_of_map_to_list. apply (proj1 (Forall_forall _ _) Hall).
  apply list_elem_of_fmap. by exists (v, t).
Qed.

(** With a vote for an unknown block in the overlay, the head of a block that
    has children is an error. *)
Lemma head_unknown (fuel : nat) (g : ArchiveGhost Id) (justified : Id) :
  known ch justified → cchildren ch justified ≠ [] → (0 < fuel)%nat →
  ¬ map_Forall (λ _ t, known ch t) (overlayed_votes g) → head fuel ba g justified = Err missing.
Proof using OK known_dec unknown_depth.
  intros Hj Hc Hf Hg. unfold head. rewrite store_depth, res_bind_Ok by done.
  destruct fuel as [|fuel]; [lia|]. cbn [head_loop]. rewrite store_children, res_bind_Ok by done.
  destruct (cchildren ch justified) as [|c cs] eqn:Hcs; [done|].
  assert (c ∈ cchildren ch justified) as Hin by (rewrite Hcs; by left).
  apply children_spec in Hin as [Hk Hp]; [|done]. destruct (parent_known c justified Hk Hp) as [_ <-].
  cbn [best_child]. by rewrite vote_count_unknown.
Qed.
End Unknown.

(** ** Stores that answer alike *)

Section Alike.
Context {Ba Id E : Type} `{EqDecision Id} `{CQ : ChainQuery Ba Id E} (b1 b2 : Ba).
Context (same_depth : ∀ x, LmdGhost.depth_at b1 x = LmdGhost.depth_at b2 x).
Context (same_parent : ∀ x, LmdGhost.parent_at b1 x = LmdGhost.parent_at b2 x).
Context (same_children : ∀ x, LmdGhost.children_at b1 x = LmdGhost.children_at b2 x).

Lemma ancestor_at_alike (x : Id) (depth : Z) : ancestor_at b1 x depth = ancestor_at b2 x depth.
Proof using same_depth same_parent.
  unfold ancestor_at. rewrite same_depth. destruct (LmdGhost.depth_at b2 x) as [d| | |]; try done. cbn.
  generalize (Z.to_nat (d - depth)) as n. intros n. revert x. induction n as [|n IH]; intros x; cbn; rewrite same_depth; [done|].
  destruct (LmdGhost.depth_at b2 x) as [dx| | |]; try done. cbn. destruct (depth <? dx); [|done]. rewrite same_parent.
  destruct (LmdGhost.parent_at b2 x) as [[p|]| | |]; try done. apply IH.
Qed.

Lemma vote_count_alike (g : ArchiveGhost Id) (block : Id) (depth : Z) : vote_count b1 g block depth = vote_count b2 g block depth.
Proof using same_depth same_parent.
  unfold vote_count. assert (∀ total l, count_targets b1 block depth total l = count_targets b2 block depth total l) as Hc.
  { intros total l. revert total. induction l as [|t l IH]; intros total; [done|]. unfold count_targets in *. cbn.
    rewrite ancestor_at_alike. destruct (ancestor_at b2 t depth); try done. cbn. apply IH. }
  rewrite Hc. destruct (count_targets b2 block depth 0 _); try done. apply Hc.
Qed.

Lemma head_alike (fuel : nat) (g : ArchiveGhost Id) (justified : Id) : head fuel b1 g justified = head fuel b2 g justified.
Proof using same_depth same_parent same_children.
  assert (∀ l depth best score, best_child b1 g depth best score l = best_child b2 g depth best score l) as Hb.
  { induction l as [|c l IH]; intros depth best score; [done|]. cbn. rewrite vote_count_alike.
    destruct (vote_count b2 g c depth) as [n| | |]; try done. cbn. destruct (score <? n); apply IH. }
  unfold head. rewrite same_depth. destruct (LmdGhost.depth_at b2 justified) as [d| | |]; try done. cbn.
  revert justified d. induction fuel as [|fuel IH]; intros x d; cbn; rewrite same_children; [done|].
  destruct (LmdGhost.children_at b2 x) as [[|c cs]| | |]; try done. cbn [mbind res_bind]. rewrite ?res_bind_Ok, Hb.
  destruct (best_child b2 g (d + 1) c 0 (c :: cs)); try done. apply IH.
Qed.
End Alike.

(** ** The committing side of the store *)

(** [ImportAction] of the external crate: the calls of the settlement of a
    block, and of a new head. *)
Class ImportAction `{R : RocksApi} (Id Block State Aux AuxKey : Type) := {
  action_import : Block → State → Operation (Id:=Id) (Block:=Block) (State:=State) (Aux:=Aux) (AuxKey:=AuxKey);
  action_set_head : Id → Operation (Id:=Id) (Block:=Block) (State:=State) (Aux:=Aux) (AuxKey:=AuxKey);
}.

Section Backend.
Context `{R : RocksApi} {Id Block State Raw Aux AuxKey : Type}.
Context `{Codec Id} `{Codec (BlockData Id Block Raw)} `{Codec Aux} `{Codec AuxKey} `{Codec Z} `{Codec string}.
Context `{!ImportAction Id Block State Aux AuxKey}.
Context (id_of : Block → Id) (parent_of : Block → option Id) (into_raw : State → Raw) (from_raw : Raw → DB → State).

Notation Ba := (ShasperBackend (RocksBackend (Id:=Id))).
Notation Op := (Operation (Id:=Id) (Block:=Block) (State:=State) (Aux:=Aux) (AuxKey:=AuxKey)).

(** [importer.commit()]: the backend after a commit that succeeds; one that
    fails leaves it as it was. *)
Definition action_commit (operation : Op) (s : Ba) : res StoreError Ba :=
  let '(r, s') := shasper_commit (Raw:=Raw) into_raw operation s in _ ← r; Ok s'.

#[export] Instance shasper_import : ImportBackend Ba Block State Id StoreError := {|
  LmdGhost.state_at := shasper_state_at (Block:=Block) from_raw;
  backend_genesis := shasper_genesis;
  commit_import := λ s block state, action_commit (action_import block state) s;
  commit_head := λ s head, action_commit (action_set_head head) s;
|}.

Lemma action_commit_ok (operation : Op) (b : RocksBackend (Id:=Id)) (s : Ba) :
  action_commit operation (mkShasperBackend b) = Ok s → commit (Raw:=Raw) into_raw operation b = (Ok tt, inner_backend s).
Proof.
  unfold action_commit, shasper_commit. cbn. destruct (commit into_raw operation b) as [r b'].
  destruct r as [[]| | |]; try done. by intros [= <-].
Qed.
End Backend.

(** ** A store with one more leaf *)

Section Leaf.
Context {Id Block State Raw Aux AuxKey : Type} `{!EqDecision Id} `{!Countable Id} `{!EqDecision AuxKey} `{!Countable AuxKey}.
Context (parent_of : Block → option Id) (into_raw : State → Raw).

Notation Store := (RocksStore.Chain (Id:=Id) (Block:=Block) (Raw:=Raw) (Aux:=Aux) (AuxKey:=AuxKey)).
Notation ghost := (ghost_chain parent_of).

#[export] Instance known_dec (ch : Store) (x : Id) : Decision (known (ghost ch) x).
Proof. apply _. Defined.

Lemma known_block (ch : Store) (x : Id) : known (ghost ch) x ↔ is_Some (ch_blocks ch !! x).
Proof. apply fmap_is_Some. Qed.

(** A path between different blocks ends in a block that has children. *)
Lemma descends_children (ch : Store) (x y : Id) :
  tree_ok parent_of ch → known (ghost ch) x → descends (ghost ch) x y → x ≠ y → cchildren (ghost ch) y ≠ [].
Proof.
  intros Hok Hx Hd. revert Hx. induction Hd as [x|x p y Hp Hd IH]; intros Hx Hne; [done|].
  destruct Hx as [[[q d] cs] Hx]. cbn in Hp. rewrite Hx in Hp. cbn in Hp. subst q.
  destruct (tree_parent _ _ Hok _ _ _ _ Hx) as (pp & dp & cp & Hrow & _).
  destruct (decide (p = y)) as [->|Hpy]; [|by apply IH; [eexists|]].
  cbn. rewrite Hrow. cbn. intros ->. apply (not_elem_of_nil x). apply (tree_children _ _ Hok _ _ _ _ x Hrow). eauto.
Qed.

(** [ch'] holds every block of [ch], with the same parent, state and depth,
    and has the same genesis block. *)
Record grows (ch ch' : Store) : Prop := {
  grows_blocks : ∀ x d, ch_blocks ch !! x = Some d →
    ∃ d', ch_blocks ch' !! x = Some d' ∧ bd_block d' = bd_block d ∧ bd_state d' = bd_state d ∧ bd_depth d' = bd_depth d;
  grows_genesis : ch_genesis ch' = ch_genesis ch;
}.

Lemma grows_refl (ch : Store) : grows ch ch.
Proof. split; eauto. Qed.

Lemma grows_trans (a b c : Store) : grows a b → grows b c → grows a c.
Proof.
  intros [H1 G1] [H2 G2]. split; [|congruence]. intros x d Hd. destruct (H1 x d Hd) as (d1 & Hd1 & <- & <- & <-).
  destruct (H2 x d1 Hd1) as (d2 & Hd2 & <- & <- & <-). eauto.
Qed.

Lemma grows_known (ch ch' : Store) (x : Id) : grows ch ch' → known (ghost ch) x → known (ghost ch') x.
Proof. rewrite !known_block. intros [Hg _] [d Hd]. destruct (Hg x d Hd) as (d' & Hd' & _). by eexists. Qed.

Lemma grows_descends (ch ch' : Store) (x y : Id) :
  grows ch ch' → descends (ghost ch) x y → descends (ghost ch') x y.
Proof.
  intros [Hg _]. induction 1 as [x|x p y Hp _ IH]; [constructor|]. apply (descends_step _ x p y); [|exact IH].
  cbn in *. unfold row in *. destruct (ch_blocks ch !! x) as [d|] eqn:Hd; [|done].
  destruct (Hg x d Hd) as (d' & -> & Hb & _). cbn in *. unfold shape in *. cbn in *. by rewrite Hb.
Qed.

Lemma content_grows (ch ch' : Store) :
  (∀ x, content <$> ch_blocks ch' !! x = content <$> ch_blocks ch !! x) → ch_genesis ch' = ch_genesis ch → grows ch ch'.
Proof.
  intros Hc Hg. split; [|done]. intros x d Hd. specialize (Hc x). rewrite Hd in Hc. cbn in Hc.
  apply fmap_Some in Hc as (d' & Hd' & Heq). unfold content in Heq. exists d'. naive_solver.
Qed.

Lemma leaf_added_grows (ch ch' : Store) id block state p data :
  leaf_added parent_of into_raw ch ch' id block state p data → ch_genesis ch' = ch_genesis ch → grows ch ch'.
Proof.
  intros [L1 L2 L3 L4 L5 L6] Hgen. split; [|done]. intros x d Hd.
  assert (∃ c, content <$> ch_blocks ch' !! x = Some (bd_block d, bd_state d, bd_depth d, c)) as [c Hc].
  { destruct (decide (x = p)) as [->|Hp]; [assert (data = d) as -> by congruence; by eexists|].
    exists (bd_children d). rewrite L6, Hd; [done|congruence|done]. }
  apply fmap_Some in Hc as (d' & Hd' & Heq). unfold content in Heq. exists d'. naive_solver.
Qed.

Lemma leaf_added_absent (ch ch' : Store) id block state p data (x : Id) :
  leaf_added parent_of into_raw ch ch' id block state p data → ch_blocks ch !! x = None → x ≠ id → ch_blocks ch' !! x = None.
Proof.
  intros [L1 L2 L3 L4 L5 L6] Hx Hne. apply (fmap_None content). rewrite L6; [by rewrite Hx|done|congruence].
Qed.

Lemma height_le (ch : Store) (n : Z) :
  0 ≤ n → (∀ x d, ch_blocks ch !! x = Some d → bd_depth d ≤ n) → height ch ≤ n.
Proof.
  intros Hn Hall. unfold height. assert (Forall (λ kv, bd_depth kv.2 ≤ n) (map_to_list (ch_blocks ch))) as Hf.
  { apply Forall_forall. intros [x d] Hx%elem_of_map_to_list. by apply (Hall x). }
  induction Hf as [|kv l Hkv _ IH]; cbn; lia.
Qed.

(** One leaf raises the tree by one level at most. *)
Lemma leaf_added_height (ch ch' : Store) id block state p data :
  leaf_added parent_of into_raw ch ch' id block state p data → height ch' ≤ height ch + 1.
Proof.
  intros [L1 L2 L3 L4 L5 L6].
  assert (0 ≤ height ch) by (unfold height; induction (map_to_list _); cbn; lia).
  apply height_le; [lia|]. intros x d Hd.
  destruct (decide (x = id)) as [->|Hi]; [|destruct (decide (x = p)) as [->|Hp]].
  - rewrite Hd in L4. cbn in L4. pose proof (height_bounds ch p data L3). injection L4 as _ _ -> _. lia.
  - rewrite Hd in L5. cbn in L5. pose proof (height_bounds ch p data L3). injection L5 as _ _ -> _. lia.
  - specialize (L6 x Hi Hp). rewrite Hd in L6. symmetry in L6. apply fmap_Some in L6 as (d0 & Hd0 & Heq).
    pose proof (height_bounds ch x d0 Hd0). injection Heq as _ _ -> _. lia.
Qed.
End Leaf.

(** ** Imports into the store *)

Section StoreImport.
Context `{R : RocksApi} {Id Block State Raw Aux AuxKey Ee : Type}.
Context `{Codec Id} `{Codec (BlockData Id Block Raw)} `{Codec Aux} `{Codec AuxKey} `{Codec Z} `{Codec string}.
Context `{IA : !ImportAction Id Block State Aux AuxKey} `{JE : !JustifiableExecutor Block State Id Ee}.
Context (id_of : Block → Id) (parent_of : Block → option Id) (into_raw : State → Raw) (from_raw : Raw → DB → State).
Context `{!EqDecision ColumnFamily} `{!RocksOk R}.
Context `{!CodecOk Id} `{!CodecOk (BlockData Id Block Raw)} `{!CodecOk Aux} `{!CodecOk AuxKey} `{!CodecOk Z} `{!CodecOk string}.
Context `{!EqDecision Id} `{!Countable Id} `{!EqDecision AuxKey} `{!Countable AuxKey}.

Notation Store := (RocksStore.Chain (Id:=Id) (Block:=Block) (Raw:=Raw) (Aux:=Aux) (AuxKey:=AuxKey)).
Notation Ba := (ShasperBackend (RocksBackend (Id:=Id))).
Notation Im := (Importer (Ba:=Ba) (Id:=Id)).
Notation ghost := (ghost_chain parent_of).
#[local] Existing Instances shasper_query shasper_import.
#[local] Instance store_query : ChainQuery Ba Id StoreError := shasper_query parent_of (Raw:=Raw).
#[local] Instance store_import : ImportBackend Ba Block State Id StoreError := shasper_import into_raw from_raw.

(** What the crate's [ImportAction] and the database promise: the calls of an
    operation that settles, and that neither panics *)
Class ActionOk : Prop := {
  action_import_settles : ∀ b (ch : Store) block state calls,
    represents b ch → ch_blocks ch !! id_of block = None → action_import block state b = (calls, Ok tt) →
    import_calls parent_of ch (id_of block) block state calls ∧ separate [] calls ∧
    ∃ ch' : Store, spec_calls into_raw ch calls = Some ch' ∧ ch_head ch' = ch_head ch;
  action_head_settles : ∀ b (ch : Store) h calls,
    represents b ch → is_Some (ch_blocks ch !! h) → action_set_head h b = (calls, Ok tt) →
    forallb quiet calls = true ∧ separate [] calls ∧ ∃ ch' : Store, spec_calls into_raw ch calls = Some ch' ∧ ch_head ch' = h;
  action_import_definite : ∀ b block state, definite (action_import block state b).2;
  action_head_definite : ∀ b h, definite (action_set_head h b).2;
  write_definite : ∀ db batch, definite (db_write db batch);
}.

Lemma block_data_represents (b : RocksBackend (Id:=Id)) (ch : Store) (x : Id) :
  represents b ch → block_data b x = from_option Ok (Err NotExist) (ch_blocks ch !! x).
Proof.
  intros (_ & Hshows & _). unfold block_data, fetch_block_data, fetch.
  pose proof (shows_blocks _ _ Hshows x) as Hx. unfold reads in Hx. rewrite Hx. by destruct (ch_blocks ch !! x).
Qed.

(** A store that is closed and opened again is the same store. *)
Lemma reopen_same (b : RocksBackend (Id:=Id)) (ch : Store) f :
  represents b ch → open_or_create id_of parent_of into_raw (Ok (rb_db b)) f = Ok b.
Proof.
  intros (_ & Hshows & Hhead & Hgen). unfold open_or_create, open_with, fetch_head, fetch_genesis, fetch. cbn.
  pose proof (shows_head _ _ Hshows) as Hh. pose proof (shows_genesis _ _ Hshows) as Hg. unfold reads in Hh, Hg.
  rewrite Hh, Hg. cbn. rewrite <- Hhead, <- Hgen. by destruct b.
Qed.

(** Opening an empty database creates the store of the genesis block. *)
Lemma create_empty (db : DB) (block : Block) (state : State) (b : RocksBackend (Id:=Id)) :
  (∀ c k, c ∈ columns → fetch_raw db c k = Ok None) →
  open_or_create id_of parent_of into_raw (Ok db) (λ _, Ok (block, state)) = Ok b →
  new_with_genesis id_of parent_of into_raw (Ok db) block state = Ok b.
Proof.
  intros Hempty. unfold open_or_create, new_with_genesis, open_with, fetch_head, fetch_genesis, fetch. cbn -[settlement_commit genesis_settlement].
  rewrite !Hempty by (unfold columns; rewrite !elem_of_cons; auto 6). cbn -[settlement_commit genesis_settlement]. destruct (parent_of block); [done|].
  match goal with |- context [settlement_commit ?s] => by destruct (settlement_commit s) as [[h db']| | |] end.
Qed.

(** Stores with the same rows answer the queries of the fork choice alike. *)
Lemma rows_alike (b1 b2 : RocksBackend (Id:=Id)) (c1 c2 : Store) (x : Id) :
  represents b1 c1 → represents b2 c2 → row parent_of c1 x = row parent_of c2 x →
  LmdGhost.depth_at (mkShasperBackend b1) x = LmdGhost.depth_at (mkShasperBackend b2) x ∧
  LmdGhost.parent_at (mkShasperBackend b1) x = LmdGhost.parent_at (mkShasperBackend b2) x ∧
  LmdGhost.children_at (mkShasperBackend b1) x = LmdGhost.children_at (mkShasperBackend b2) x.
Proof.
  intros Hr1 Hr2 Hrow. pose proof (block_data_represents b1 c1 x Hr1) as D1. pose proof (block_data_represents b2 c2 x Hr2) as D2.
  unfold row in Hrow. cbn. unfold shasper_depth_at, shasper_block_at, shasper_children_at, RocksStore.depth_at, block_at,
    RocksStore.children_at. cbn [inner_backend]. rewrite D1, D2.
  destruct (ch_blocks c1 !! x) as [d1|], (ch_blocks c2 !! x) as [d2|]; cbn in *; try done. injection Hrow as Hp Hd Hc. by rewrite Hp, Hd, Hc.
Qed.

Lemma store_unknown_depth (b : RocksBackend (Id:=Id)) (ch : Store) (x : Id) :
  represents b ch → ¬ known (ghost ch) x → LmdGhost.depth_at (mkShasperBackend b) x = Err NotExist.
Proof.
  rewrite known_block. intros Hrep Hx. cbn. unfold shasper_depth_at, RocksStore.depth_at. cbn [inner_backend].
  rewrite (block_data_represents b ch x Hrep). destruct (ch_blocks ch !! x) as [d|]; [|done]. by destruct Hx.
Qed.

(** The genesis block is the one root of a store the node can reach. *)
Lemma stored_genesis (b : RocksBackend (Id:=Id)) (ch : Store) :
  stored id_of parent_of into_raw b ch →
  known (ghost ch) (ch_genesis ch) ∧ ∀ x, known (ghost ch) x → descends (ghost ch) x (ch_genesis ch).
Proof.
  induction 1 as [db block state b Hcols Hempty Hp Hnew|operation b ch calls id block state ch' b' Hst [Hk IH] Hop Hcalls Hsep Hspec Hc
    |operation b ch calls ch' b' Hst [Hk IH] Hop Hq Hsep Hspec Hc].
  - cbn. unfold row. cbn. split; [by rewrite lookup_singleton_eq|]. intros x Hx%fmap_is_Some.
    destruct (decide (id_of block = x)) as [<-|]; [constructor|]. rewrite lookup_singleton_ne in Hx by done. by destruct Hx.
  - destruct (import_effect _ _ _ _ _ _ _ _ Hcalls Hspec) as (p & data & Hleaf).
    pose proof (spec_calls_genesis into_raw _ _ _ Hspec) as Hgen. pose proof (leaf_added_grows _ _ _ _ _ _ _ _ _ Hleaf Hgen) as Hg.
    rewrite Hgen. split; [by eapply grows_known|]. intros x Hx. destruct Hleaf as [L1 L2 L3 L4 L5 L6].
    assert (known (ghost ch) p) as Hkp by (apply known_block; by eexists).
    destruct (decide (x = id)) as [->|Hi].
    + apply (descends_step _ id p); [|eapply grows_descends; [exact Hg|]; by apply IH].
      cbn. rewrite row_content, L4. cbn. exact L1.
    + eapply grows_descends; [exact Hg|]. apply IH. destruct (decide (x = p)) as [->|Hxp]; [done|].
      apply known_block in Hx. apply known_block. apply (fmap_is_Some content). rewrite <- L6 by done. by apply fmap_is_Some.
  - pose proof (spec_calls_genesis into_raw _ _ _ Hspec) as Hgen.
    assert (∀ x, content <$> ch_blocks ch' !! x = content <$> ch_blocks ch !! x) as Hcont
      by (intros x; by eapply quiet_calls_content).
    pose proof (content_grows _ _ Hcont Hgen) as Hg. rewrite Hgen. split; [by eapply grows_known|].
    intros x Hx. eapply grows_descends; [exact Hg|]. apply IH. apply known_block in Hx. apply known_block.
    apply (fmap_is_Some content). rewrite <- Hcont. by apply fmap_is_Some.
Qed.

(** ** One import *)

Context `{AO : !ActionOk}.

(** The importer between two imports: the store is one the node can reach, its
    head is one of its blocks, no vote is left in the overlay, every vote is for
    a block of the store. *)
Record importer_ok (im : Im) (ch : Store) : Prop := {
  io_stored : stored id_of parent_of into_raw (inner_backend (im_backend im)) ch;
  io_head : known (ghost ch) (ch_head ch);
  io_overlay : overlayed_votes (im_ghost im) = ∅;
  io_votes : map_Forall (λ _ t, known (ghost ch) t) (votes (im_ghost im));
}.

(** The state of the block names a justified block on the chain of its parent. *)
Definition justified_on_chain (ch : Store) (block : Block) (state : State) : Prop :=
  ∀ j p, executor_justified_block (Ee:=Ee) state = Ok (Some j) → parent_of block = Some p → descends (ghost ch) p j.

Lemma commit_import_leaf (ch : Store) (ba ba' : Ba) (block : Block) (state : State) :
  stored id_of parent_of into_raw (inner_backend ba) ch → ch_blocks ch !! id_of block = None →
  commit_import ba block state = Ok ba' →
  ∃ (ch' : Store) p data, stored id_of parent_of into_raw (inner_backend ba') ch' ∧
    leaf_added parent_of into_raw ch ch' (id_of block) block state p data ∧ ch_head ch' = ch_head ch ∧ grows ch ch'.
Proof.
  destruct ba as [b]. cbn. intros Hst Hnew Hc%action_commit_ok.
  destruct (stored_ok _ _ _ _ _ Hst) as [Hrep _].
  destruct (commit_cases _ _ _ _ _ Hc) as [[[] _]|(_ & calls & h & db' & Hop & _)]; [done|].
  destruct (action_import_settles b ch block state calls Hrep Hnew Hop) as (Hcalls & Hsep & ch' & Hspec & Hhead).
  destruct (import_effect _ _ _ _ _ _ _ _ Hcalls Hspec) as (p & data & Hleaf).
  exists ch', p, data. split; [by eapply stored_import|]. do 2 (split; [done|]).
  eapply leaf_added_grows; [exact Hleaf|]. by eapply spec_calls_genesis.
Qed.

Lemma commit_head_set (ch : Store) (ba ba' : Ba) (h : Id) :
  stored id_of parent_of into_raw (inner_backend ba) ch → known (ghost ch) h →
  commit_head ba h = Ok ba' →
  ∃ ch' : Store, stored id_of parent_of into_raw (inner_backend ba') ch' ∧ ch_head ch' = h ∧ ch_genesis ch' = ch_genesis ch ∧
    ∀ x, content <$> ch_blocks ch' !! x = content <$> ch_blocks ch !! x.
Proof.
  destruct ba as [b]. cbn [inner_backend]. rewrite known_block. intros Hst Hh Hc%action_commit_ok.
  destruct (stored_ok _ _ _ _ _ Hst) as [Hrep _].
  destruct (commit_cases _ _ _ _ _ Hc) as [[[] _]|(_ & calls & h' & db' & Hop & _)]; [done|].
  destruct (action_head_settles b ch h calls Hrep Hh Hop) as (Hq & Hsep & ch' & Hspec & Hhead).
  exists ch'. split; [by eapply stored_head|]. split; [done|]. split; [by eapply spec_calls_genesis|].
  intros x. by eapply quiet_calls_content.
Qed.

(** The justified block is in the store, and the new block is below it. *)
Lemma justified_below (b : RocksBackend (Id:=Id)) (ch ch' : Store) (block : Block) (state : State) (p : Id) data jb :
  stored id_of parent_of into_raw b ch → leaf_added parent_of into_raw ch ch' (id_of block) block state p data → grows ch ch' →
  justified_on_chain ch block state → executor_justified_block (Ee:=Ee) state = Ok jb →
  let j := default (rb_genesis b) jb in
  known (ghost ch) j ∧ descends (ghost ch') (id_of block) j ∧ id_of block ≠ j.
Proof.
  intros Hst [L1 L2 L3 L4 _ _] Hg Hj Hjb j. destruct (stored_genesis b ch Hst) as [Hkg Hdg].
  destruct (stored_ok _ _ _ _ _ Hst) as [Hrep Hok]. pose proof (store_chain_ok parent_of b ch Hrep Hok) as Hchain.
  assert (known (ghost ch) p) as Hkp by (apply known_block; by eexists).
  assert (descends (ghost ch) p j) as Hd.
  { destruct jb as [j0|]; [by apply Hj|]. cbn. destruct Hrep as (_ & _ & _ & ->). by apply Hdg. }
  assert (known (ghost ch) j) as Hk by by eapply (descends_known (mkShasperBackend b) (ghost ch) (OK:=Hchain)).
  split; [done|]. split.
  - apply (descends_step _ _ p); [|by eapply grows_descends]. cbn. rewrite row_content, L4. exact L1.
  - intros Heq. apply known_block in Hk. rewrite <- Heq, L2 in Hk. by destruct Hk.
Qed.

(** The fork choice below a block with children, on votes that may be for
    blocks the store does not hold *)
Lemma store_head_cases (b : RocksBackend (Id:=Id)) (ch : Store) (fuel : nat) (g : ArchiveGhost Id) (j : Id) :
  stored id_of parent_of into_raw b ch → known (ghost ch) j → cchildren (ghost ch) j ≠ [] →
  (0 < fuel)%nat → height ch ≤ Z.of_nat fuel → map_Forall (λ _ t, known (ghost ch) t) (votes g) →
  map_Forall (λ _ t, known (ghost ch) t) (overlayed_votes g) ∧
    (∃ h, head fuel (mkShasperBackend b) g j = Ok h ∧ known (ghost ch) h) ∨
  (∃ v t, overlayed_votes g !! v = Some t ∧ ch_blocks ch !! t = None) ∧ head fuel (mkShasperBackend b) g j = Err NotExist.
Proof.
  intros Hst Hj Hc Hpos Hf Hv. destruct (stored_ok _ _ _ _ _ Hst) as [Hrep Hok].
  pose proof (store_chain_ok parent_of b ch Hrep Hok) as Hchain.
  destruct (decide (map_Forall (λ _ t, known (ghost ch) t) (overlayed_votes g))) as [Ho|Ho]; [left|right].
  - split; [done|]. destruct (head_correct (ChainOk0:=Hchain) (mkShasperBackend b) (ghost ch) g fuel j)
      as (h & Hh & _ & Hk & _); [done..|]. eauto.
  - split.
    + apply map_not_Forall in Ho as (v & t & Ht & Hn); [|apply _]. exists v, t. split; [done|].
      apply eq_None_not_Some. by rewrite <- (known_block parent_of).
    + apply (head_unknown (OK:=Hchain) (mkShasperBackend b) (ghost ch) _ NotExist); try done.
      intros x. by apply store_unknown_depth.
Qed.

(** After the head is committed, the fork choice on the committed votes gives
    the head that is stored. *)
Lemma committed_head (b b' : RocksBackend (Id:=Id)) (ch ch' : Store) (fuel : nat) (g : ArchiveGhost Id) (j h : Id) :
  stored id_of parent_of into_raw b ch → stored id_of parent_of into_raw b' ch' →
  (∀ x, content <$> ch_blocks ch' !! x = content <$> ch_blocks ch !! x) →
  votes_known (ghost ch) g → known (ghost ch) j → height ch ≤ Z.of_nat fuel →
  head fuel (mkShasperBackend b) g j = Ok h → head fuel (mkShasperBackend b') (commit_overlay g) j = Ok h.
Proof.
  intros Hst Hst' Hcont Hg Hj Hf Hh. destruct (stored_ok _ _ _ _ _ Hst) as [Hrep Hok]. destruct (stored_ok _ _ _ _ _ Hst') as [Hrep' _].
  pose proof (store_chain_ok parent_of b ch Hrep Hok) as Hchain.
  assert (∀ x, row parent_of ch' x = row parent_of ch x) as Hrows by (intros x; by rewrite !row_content, Hcont).
  rewrite (head_alike (mkShasperBackend b') (mkShasperBackend b)); [|intros x; by apply (rows_alike b' b ch' ch x)..].
  destruct (commit_overlay_head (ChainOk0:=Hchain) (mkShasperBackend b) (ghost ch) g fuel j Hg Hj Hf) as (_ & _ & Heq). exact (eq_trans Heq Hh).
Qed.

(** The block is in the store: it and its state are read back, and its parent
    lists it as a child. *)
Definition block_stored (ba : Ba) (block : Block) (state : State) : Prop :=
  shasper_block_at (Raw:=Raw) ba (id_of block) = Ok block ∧
  shasper_state_at (Block:=Block) from_raw ba (id_of block) = Ok (from_raw (into_raw state) (rb_db (inner_backend ba))) ∧
  ∃ p children, parent_of block = Some p ∧
    shasper_children_at (Block:=Block) (Raw:=Raw) ba p = Ok children ∧ id_of block ∈ children.

Lemma leaf_block_stored (ch ch1 ch' : Store) (ba : Ba) (block : Block) (state : State) p data :
  leaf_added parent_of into_raw ch ch1 (id_of block) block state p data →
  (∀ x, content <$> ch_blocks ch' !! x = content <$> ch_blocks ch1 !! x) →
  represents (inner_backend ba) ch' → block_stored ba block state.
Proof.
  intros [L1 L2 L3 L4 L5 L6] Hcont Hrep.
  rewrite <- Hcont in L4. apply fmap_Some in L4 as (d & Hd & Heq). unfold content in Heq. injection Heq as Hb Hs _ _.
  rewrite <- Hcont in L5. apply fmap_Some in L5 as (dp & Hdp & Heq). unfold content in Heq. injection Heq as _ _ _ Hcs.
  unfold block_stored, shasper_block_at, shasper_state_at, shasper_children_at, block_at, RocksStore.state_at, RocksStore.children_at.
  rewrite (block_data_represents _ ch' _ Hrep), Hd. cbn. rewrite <- Hb, <- Hs. do 2 (split; [done|]).
  exists p, (bd_children dp). split; [done|].
  rewrite (block_data_represents _ ch' _ Hrep), Hdp. split; [done|]. rewrite <- Hcs. apply elem_of_app. right. by left.
Qed.

(** [ch'] holds the blocks of [ch] and, at most, the imported one with its
    state. *)
Definition adds (ch ch' : Store) (block : Block) (state : State) : Prop :=
  grows ch ch' ∧ ∀ x d, ch_blocks ch' !! x = Some d →
    is_Some (ch_blocks ch !! x) ∨ x = id_of block ∧ bd_block d = block ∧ bd_state d = into_raw state.

Lemma adds_refl (ch : Store) (block : Block) (state : State) : adds ch ch block state.
Proof. split; [apply grows_refl|]. intros x d Hx. left. by eexists. Qed.

Lemma leaf_adds (ch ch1 ch' : Store) (block : Block) (state : State) p data :
  leaf_added parent_of into_raw ch ch1 (id_of block) block state p data → grows ch ch' →
  (∀ x, content <$> ch_blocks ch' !! x = content <$> ch_blocks ch1 !! x) → adds ch ch' block state.
Proof.
  intros [L1 L2 L3 L4 L5 L6] Hg Hcont. split; [done|]. intros x d Hx. specialize (Hcont x). rewrite Hx in Hcont. cbn in Hcont.
  destruct (decide (x = id_of block)) as [->|Hi].
  - right. rewrite L4 in Hcont. injection Hcont as -> -> _ _. done.
  - left. destruct (decide (x = p)) as [->|Hp]; [by eexists|]. rewrite L6 in Hcont by done.
    symmetry in Hcont. apply fmap_Some in Hcont as (d0 & Hd0 & _). by eexists.
Qed.

(** How an import ends: there is an error or a panic before the block is
    stored, and nothing changes; it is stored
    but a vote it carries is for a block the store does not hold; it is stored
    but the write of the head fails; it is stored and the head is the one the
    fork choice gives. *)
Inductive import_outcome (fuel : nat) (im : Im) (ch : Store) (block : Block) (state : State)
  : res (ImportError StoreError Ee) unit → Im → Store → Prop :=
  | block_refused r : r ≠ Ok tt → import_outcome fuel im ch block state r im ch
  | vote_unknown im' ch' vs v t :
      block_stored (im_backend im') block state → executor_votes block state = Ok vs → (v, t) ∈ vs → ch_blocks ch' !! t = None →
      ch_head ch' = ch_head ch → votes (im_ghost im') ⊆ votes (im_ghost im) →
      import_outcome fuel im ch block state (Err (Backend NotExist)) im' ch'
  | head_kept im' ch' h e :
      block_stored (im_backend im') block state → commit_head (im_backend im') h = Err e →
      ch_head ch' = ch_head ch → votes (im_ghost im') ⊆ votes (im_ghost im) →
      import_outcome fuel im ch block state (Ok tt) im' ch'
  | head_moved im' ch' active jb vs :
      block_stored (im_backend im') block state →
      executor_active_validators state = Ok active → executor_justified_block state = Ok jb → executor_votes block state = Ok vs →
      votes (im_ghost im') = latest_votes (update_active (add_votes (im_ghost im) vs) active) →
      head fuel (im_backend im') (im_ghost im') (default (ch_genesis ch) jb) = Ok (ch_head ch') →
      import_outcome fuel im ch block state (Ok tt) im' ch'.

Lemma action_definite (op : Operation (Id:=Id) (Block:=Block) (State:=State) (Aux:=Aux) (AuxKey:=AuxKey)) (ba : Ba) (ch : Store) :
  represents (inner_backend ba) ch → definite (op (inner_backend ba)).2 → definite (action_commit (Raw:=Raw) into_raw op ba).
Proof.
  intros Hrep Hop. unfold action_commit, shasper_commit, commit. rewrite Mbind_get.
  destruct (op (inner_backend ba)) as [calls settled]. set (s := run_calls _ _ _).
  assert (unbroken s) as [Hp Hx].
  { apply run_calls_unbroken; [|apply map_Forall_empty|done]. intros id. cbn. destruct Hrep as (_ & Hshows & _).
    pose proof (shows_blocks _ _ Hshows id) as Hid. unfold reads in Hid. unfold fetch_block_data, fetch. by rewrite Hid. }
  assert (settle_result s settled = settled) as -> by (unfold settle_result; by destruct (rs_last_error s) as [[]|]).
  destruct settled as [[]|e| |]; try done. rewrite Mbind_lift_Ok, Mbind_lift_case.
  assert (definite (settlement_commit s)) as Hdef; [|by destruct (settlement_commit s) as [[h db']| | |]].
  unfold settlement_commit. destruct (rs_last_error s) as [[]|]; [done..|].
  assert (definite (res_map (batch_entry (rb_db (rs_backend s))) (map_to_list (rs_changes s)))) as Hb.
  { induction (map_to_list (rs_changes s)) as [|e l IH]; [done|]. cbn.
    assert (definite (batch_entry (rb_db (rs_backend s)) e)) as He by (unfold batch_entry; by destruct (cf_handle _ _)).
    destruct (batch_entry _ e); try done. cbn. by destruct (res_map _ l). }
  destruct (res_map _ _) as [batch| | |]; try done. cbn.
  pose proof (write_definite (rb_db (rs_backend s)) batch) as Hw. by destruct (db_write _ batch).
Qed.

(** Where the fork choice of an import starts: the justified block is in the
    store, and since the new block is below it, it has children. *)
Lemma import_start (fuel : nat) (im : Im) (ch ch1 : Store) (b : RocksBackend (Id:=Id)) (block : Block) (state : State) p data jb :
  importer_ok im ch → stored id_of parent_of into_raw b ch1 →
  leaf_added parent_of into_raw ch ch1 (id_of block) block state p data → grows ch ch1 →
  justified_on_chain ch block state → height ch < Z.of_nat fuel → executor_justified_block (Ee:=Ee) state = Ok jb →
  let j := default (ch_genesis ch) jb in
  rb_genesis (inner_backend (im_backend im)) = ch_genesis ch ∧
  known (ghost ch1) j ∧ cchildren (ghost ch1) j ≠ [] ∧ (0 < fuel)%nat ∧ height ch1 ≤ Z.of_nat fuel.
Proof.
  intros [Hst _ Ho Hv] Hst1 Hleaf Hg Hj Hf Hjb.
  destruct (justified_below _ _ _ _ _ _ _ _ Hst Hleaf Hg Hj Hjb) as (Hkj & Hdj & Hne).
  destruct (stored_ok _ _ _ _ _ Hst) as [Hrep _]. destruct (stored_ok _ _ _ _ _ Hst1) as [Hrep1 Hok1].
  assert (rb_genesis (inner_backend (im_backend im)) = ch_genesis ch) as Hgen by apply Hrep. rewrite Hgen in *.
  assert (known (ghost ch1) (id_of block)) as Hkb.
  { apply known_block. apply (fmap_is_Some content). destruct Hleaf as [_ _ _ -> _ _]. by eexists. }
  pose proof (leaf_added_height _ _ _ _ _ _ _ _ _ Hleaf) as Hh. split; [done|].
  split; [by apply (grows_known parent_of ch ch1)|]. split; [by apply (descends_children parent_of ch1 _ _ Hok1 Hkb Hdj)|].
  assert (0 ≤ height ch) by (unfold height; induction (map_to_list _); cbn; lia). lia.
Qed.

(** The end of an import *)
Lemma import_tail_outcome (fuel : nat) (im : Im) (ch ch1 : Store) (ba : Ba) (block : Block) (state : State) p data active jb vs :
  importer_ok im ch → stored id_of parent_of into_raw (inner_backend ba) ch1 →
  leaf_added parent_of into_raw ch ch1 (id_of block) block state p data → ch_head ch1 = ch_head ch → grows ch ch1 →
  justified_on_chain ch block state → height ch < Z.of_nat fuel →
  executor_active_validators state = Ok active → executor_justified_block state = Ok jb → executor_votes block state = Ok vs →
  ∃ r im' (ch' : Store),
    import_tail (Ee:=Ee) fuel ba (update_active (add_votes (im_ghost im) vs) active)
      (default (rb_genesis (inner_backend (im_backend im))) jb) = (r, im') ∧
    importer_ok im' ch' ∧ adds ch ch' block state ∧ import_outcome fuel im ch block state r im' ch' ∧ definite r.
Proof.
  intros Hok Hst1 Hleaf Hhead Hg Hj Hf Ha Hjb Hvs.
  destruct (import_start _ _ _ _ _ _ _ _ _ _ Hok Hst1 Hleaf Hg Hj Hf Hjb) as (-> & Hkj1 & Hcs & Hpos & Hf1).
  destruct Hok as [Hst Hkh0 Ho Hv]. destruct (stored_ok _ _ _ _ _ Hst1) as [Hrep1 Hok1].
  assert (known (ghost ch1) (ch_head ch1)) as Hkh1 by (rewrite Hhead; by eapply grows_known).
  set (g := update_active _ active). set (j := default (ch_genesis ch) jb) in *.
  pose proof (leaf_block_stored ch ch1 ch1 ba block state p data Hleaf (λ _, eq_refl) Hrep1) as Hb.
  assert (votes g ⊆ votes (im_ghost im)) as Hsub by (cbn; rewrite add_votes_votes; apply map_filter_subseteq).
  assert (map_Forall (λ _ t, known (ghost ch1) t) (votes g)) as Hv1.
  { intros v t Ht. eapply grows_known; [exact Hg|]. eapply (Hv v). by eapply lookup_weaken. }
  unfold import_tail. destruct ba as [b].
  destruct (store_head_cases b ch1 fuel g j Hst1 Hkj1 Hcs) as [[Hov (h & Hhd & Hkh)]|[(v & t & Ht & Hn) Hhd]];
    [done..| |]; change (store_query) with (shasper_query parent_of (Raw:=Raw)) in *; rewrite Hhd.
  2: { exists (Err (Backend NotExist)), (mkImporter (mkShasperBackend b) (reset_overlay g)), ch1. split; [done|].
       split; [by split|]. split; [by eapply leaf_adds|]. split; [|done]. apply (vote_unknown fuel im ch block state _ _ vs v t); try done.
       destruct (add_votes_lookup (im_ghost im) vs v t) as [?|Hl]; [|done|].
       - unfold latest_votes. by apply lookup_union_Some_l.
       - exfalso. unfold latest_votes in Hl. rewrite Ho, map_empty_union in Hl. apply Hv in Hl.
         apply (grows_known parent_of _ _ _ Hg), known_block in Hl. rewrite Hn in Hl. by destruct Hl. }
  pose proof (action_definite (action_set_head h) (mkShasperBackend b) ch1 Hrep1 (action_head_definite b h)) as Hdef.
  destruct (commit_head (mkShasperBackend b) h) as [ba2|e| |] eqn:Hc; cbn in Hc; rewrite Hc in Hdef; try done.
  - destruct (commit_head_set ch1 (mkShasperBackend b) ba2 h Hst1 Hkh Hc) as (ch2 & Hst2 & Hh2 & Hgen2 & Hcont).
    assert (grows ch1 ch2) as Hg2 by by apply content_grows.
    exists (Ok tt), (mkImporter ba2 (commit_overlay g)), ch2. split; [done|]. split; [split; [done|by rewrite Hh2; eapply grows_known|done|]|].
    { cbn [im_ghost]. rewrite commit_overlay_votes. intros v t Hl%lookup_union_Some_raw. eapply grows_known; [exact Hg2|].
      destruct Hl as [Hl|[_ Hl]]; [exact (Hov _ _ Hl)|exact (Hv1 _ _ Hl)]. }
    split; [eapply leaf_adds; [exact Hleaf|by eapply grows_trans|exact Hcont]|]. split; [|done]. apply (head_moved fuel im ch block state _ _ active jb vs); try done.
    + eapply leaf_block_stored; [exact Hleaf|exact Hcont|]. by apply (stored_ok id_of parent_of into_raw).
    + apply commit_overlay_votes.
    + rewrite Hh2. destruct ba2 as [b2]. by eapply (committed_head b b2 ch1 ch2); [..|lia|].
  - exists (Ok tt), (mkImporter (mkShasperBackend b) (reset_overlay g)), ch1. split; [done|]. split; [by split|]. split; [by eapply leaf_adds|].
    split; [|done]. by apply (head_kept fuel im ch block state _ _ h e).
Qed.

(** ** Whole imports *)

(** [Block::parent_id] is the one the store uses. *)
Context (parent_agrees : ∀ block, block_parent (Ee:=Ee) (St:=State) block = parent_of block).

(** What the executor has to provide for a block: in the state it leads to,
    the justified block is on the chain of the parent. *)
Definition executor_ready (ba : Ba) (ch : Store) (block : Block) : Prop :=
  ∀ p s state, parent_of block = Some p → shasper_state_at (Block:=Block) from_raw ba p = Ok s →
    run_block (Ee:=Ee) block s = Ok state → justified_on_chain ch block state.

(** The queries an import makes of a state before it stores the block *)
Definition queries_definite (block : Block) (state : State) : Prop :=
  definite (executor_active_validators (Ee:=Ee) state) ∧ definite (executor_justified_block (Ee:=Ee) state) ∧
  definite (executor_votes (Ee:=Ee) block state).

(** The executor does not panic on the block. *)
Definition executor_definite (ba : Ba) (block : Block) : Prop :=
  ∀ p s, parent_of block = Some p → shasper_state_at (Block:=Block) from_raw ba p = Ok s →
    definite (run_block (Ee:=Ee) block s) ∧ ∀ state, run_block (Ee:=Ee) block s = Ok state → queries_definite block state.

(** A block the store does not hold, or that the [ImportAction] of the external
    crate refuses to settle; what a settlement of a block that is held already
    does to its row is decided there. *)
Definition importable (ba : Ba) (block : Block) : Prop :=
  shasper_contains (Block:=Block) (Raw:=Raw) ba (id_of block) = Ok false ∨
  ∀ state, (action_import block state (inner_backend ba)).2 ≠ Ok tt.

Lemma contains_absent (ba : Ba) (ch : Store) (x : Id) :
  represents (inner_backend ba) ch → shasper_contains (Block:=Block) (Raw:=Raw) ba x = Ok false ↔ ch_blocks ch !! x = None.
Proof.
  intros (_ & Hshows & _). unfold shasper_contains, contains_block, fetch_block_data, fetch.
  pose proof (shows_blocks _ _ Hshows x) as Hx. unfold reads in Hx. rewrite Hx. by destruct (ch_blocks ch !! x).
Qed.

(** What is settled was not held. *)
Lemma importable_absent (ba ba' : Ba) (ch : Store) (block : Block) (state : State) :
  represents (inner_backend ba) ch → importable ba block → commit_import ba block state = Ok ba' →
  ch_blocks ch !! id_of block = None.
Proof.
  destruct ba as [b]. intros Hrep [Hnew|Hrefused] Hc; [by apply (contains_absent _ ch) in Hnew|].
  cbn in Hc. apply action_commit_ok in Hc. destruct (commit_cases _ _ _ _ _ Hc) as [[[] _]|(_ & calls & h & db' & Hop & _)]; [done|].
  destruct (Hrefused state). cbn [inner_backend]. by rewrite Hop.
Qed.

Lemma import_raw_outcome (fuel : nat) (im : Im) (ch : Store) (block : Block) (state : State) :
  importer_ok im ch → importable (im_backend im) block → height ch < Z.of_nat fuel → justified_on_chain ch block state →
  ∃ r im' (ch' : Store), import_raw fuel block state im = (r, im') ∧ importer_ok im' ch' ∧ adds ch ch' block state ∧
    import_outcome fuel im ch block state r im' ch' ∧ (queries_definite block state → definite r).
Proof.
  intros Hok Hnew Hf Hj. destruct (stored_ok _ _ _ _ _ (io_stored _ _ Hok)) as [Hrep _].
  destruct (import_raw_cases fuel block state im) as [(r & Hrun & Hr & Hdef)|(active & jb & vs & ba & Ha & Hjb & Hvs & Hc & Hrun)].
  - exists r, im, ch. split; [done|]. split; [done|]. split; [apply adds_refl|]. split; [constructor; intros ->; apply Hr; eauto|].
    intros (D1 & D2 & D3). apply (Hdef D1 D2 D3).
    apply (action_definite (action_import block state) (im_backend im) ch Hrep). apply action_import_definite.
  - destruct (commit_import_leaf ch (im_backend im) ba block state (io_stored _ _ Hok)
      (importable_absent _ _ _ _ _ Hrep Hnew Hc) Hc) as (ch1 & p & data & Hst1 & Hleaf & Hhead & Hg).
    rewrite Hrun. destruct (import_tail_outcome fuel im ch ch1 ba block state p data active jb vs)
      as (r & im' & ch' & H1' & H2' & H3' & H4' & H5'); [done..|]. by exists r, im', ch'.
Qed.

Lemma import_block_outcome (fuel : nat) (im : Im) (ch : Store) (block : Block) :
  importer_ok im ch → importable (im_backend im) block → height ch < Z.of_nat fuel →
  executor_ready (im_backend im) ch block →
  ∃ r im' (ch' : Store), LmdGhost.import_block fuel block im = (r, im') ∧ importer_ok im' ch' ∧
    (executor_definite (im_backend im) block → definite r) ∧
    (r ≠ Ok tt ∧ im' = im ∧ ch' = ch ∨
     ∃ p s state, parent_of block = Some p ∧ shasper_state_at (Block:=Block) from_raw (im_backend im) p = Ok s ∧
       run_block block s = Ok state ∧ adds ch ch' block state ∧ import_outcome fuel im ch block state r im' ch').
Proof.
  intros Hok Hnew Hf Hready. unfold LmdGhost.import_block. rewrite Mbind_get, Mbind_lift_case, parent_agrees.
  destruct (parent_of block) as [p|] eqn:Hp; cbn [ok_or]; [|eexists _, im, ch; split; [done|]; split; [done|]; split; [done|by left]].
  rewrite Mbind_lift_case. destruct (stored_ok _ _ _ _ _ (io_stored _ _ Hok)) as [Hrep _].
  assert (definite (LmdGhost.state_at (im_backend im) p)) as Hdef.
  { cbn. unfold shasper_state_at, RocksStore.state_at. rewrite (block_data_represents _ ch p Hrep). by destruct (ch_blocks ch !! p). }
  destruct (LmdGhost.state_at (im_backend im) p) as [s|e| |] eqn:Hs; cbn [res_map_err]; try done; [|eexists _, im, ch; split; [done|]; split; [done|]; split; [done|by left]].
  rewrite Mbind_lift_case. destruct (run_block block s) as [state|e| |] eqn:Hrun; cbn [res_map_err].
  - destruct (import_raw_outcome fuel im ch block state Hok Hnew Hf (Hready p s state Hp Hs Hrun))
      as (r & im' & ch' & H1' & H2' & H3' & H4' & H5').
    exists r, im', ch'. do 2 (split; [done|]). split; [|right; eauto 9]. intros Hd. apply H5'. exact (proj2 (Hd p s Hp Hs) state Hrun).
  - eexists _, im, ch; split; [done|]; split; [done|]; split; [done|by left].
  - eexists _, im, ch. split; [done|]. split; [done|]. split; [|by left]. intros Hd. destruct (Hd p s Hp Hs) as [Hx _]. by rewrite Hrun in Hx.
  - eexists _, im, ch. split; [done|]. split; [done|]. split; [|by left]. intros Hd. destruct (Hd p s Hp Hs) as [Hx _]. by rewrite Hrun in Hx.
Qed.

Lemma new_importer_ok (b : RocksBackend (Id:=Id)) (ch : Store) :
  stored id_of parent_of into_raw b ch → known (ghost ch) (ch_head ch) →
  importer_ok (mkImporter (mkShasperBackend b) ghost_new) ch.
Proof. by split. Qed.

(** The importers the node can reach: a new one over a store it can reach, and
    every importer after [import_block] of an importable block, whatever the
    result. *)
Inductive reached : Im → Prop :=
  | reached_new b (ch : Store) :
      stored id_of parent_of into_raw b ch → known (ghost ch) (ch_head ch) → reached (mkImporter (mkShasperBackend b) ghost_new)
  | reached_import fuel block im r im' :
      reached im → importable (im_backend im) block →
      (∀ ch : Store, represents (inner_backend (im_backend im)) ch →
         height ch < Z.of_nat fuel ∧ executor_ready (im_backend im) ch block) →
      LmdGhost.import_block fuel block im = (r, im') → reached im'.

Lemma reached_ok (im : Im) : reached im → ∃ ch, importer_ok im ch.
Proof.
  induction 1 as [b ch Hst Hh|fuel block im r im' _ [ch Hok] Hnew Hready Hrun]; [exists ch; by apply new_importer_ok|].
  destruct (stored_ok _ _ _ _ _ (io_stored _ _ Hok)) as [Hrep _]. destruct (Hready ch Hrep) as [Hf Hex].
  destruct (import_block_outcome fuel im ch block Hok Hnew Hf Hex) as (r1 & im1 & ch1 & Hrun1 & Hok1 & _).
  rewrite Hrun in Hrun1. injection Hrun1 as _ ->. by exists ch1.
Qed.

(** After any sequence of imports into the durable store, successful or
    not, no vote is left in the overlay, every vote is for a block of the
    store, and from every block it holds the fork choice ends, without an
    error, in a block without children below it. *)
Theorem importer_invariant (im : Im) :
  reached im →
  ∃ ch : Store, represents (inner_backend (im_backend im)) ch ∧ tree_ok parent_of ch ∧
    overlayed_votes (im_ghost im) = ∅ ∧ votes_known (ghost ch) (im_ghost im) ∧
    ∀ fuel justified, is_Some (ch_blocks ch !! justified) → height ch ≤ Z.of_nat fuel →
      ∃ h, head fuel (im_backend im) (im_ghost im) justified = Ok h ∧ descends (ghost ch) h justified ∧
        shasper_children_at (Block:=Block) (Raw:=Raw) (im_backend im) h = Ok [].
Proof.
  intros [ch [Hst _ Ho Hv]]%reached_ok. destruct (stored_ok _ _ _ _ _ Hst) as [Hrep Hok]. exists ch. do 3 (split; [done|]).
  assert (votes_known (ghost ch) (im_ghost im)) as Hg by (split; [rewrite Ho; apply map_Forall_empty|done]).
  split; [done|]. intros fuel j Hj%(known_block parent_of) Hf. destruct (im_backend im) as [b].
  pose proof (store_chain_ok parent_of b ch Hrep Hok) as Hchain.
  destruct (head_correct (ChainOk0:=Hchain) (mkShasperBackend b) (ghost ch) (im_ghost im) fuel j Hg Hj Hf)
    as (h & Hh & _ & Hk & Hleaf & Hd).
  exists h. do 2 (split; [done|]). pose proof (store_children (ChainOk:=Hchain) h Hk) as Hc. rewrite Hleaf in Hc. exact Hc.
Qed.

(** C37: A block is stored even when its import fails over a vote.  When the
    last vote of a validator in the block is for a block the store does not
    hold, the block and its state are committed, and the import then returns
    the error of the missing block, drops the votes of the block and leaves the
    head where it was. *)
Theorem unknown_vote_blocks_head (fuel : nat) (im : Im) (ch : Store) (block : Block) (state : State) ba active jb l1 v t l2 :
  importer_ok im ch → ch_blocks ch !! id_of block = None → height ch < Z.of_nat fuel → justified_on_chain ch block state →
  executor_active_validators (Ee:=Ee) state = Ok active → executor_justified_block (Ee:=Ee) state = Ok jb →
  executor_votes (Ee:=Ee) block state = Ok (l1 ++ (v, t) :: l2) → v ∉ l2.*1 →
  ch_blocks ch !! t = None → t ≠ id_of block → commit_import (im_backend im) block state = Ok ba →
  import_raw fuel block state im = (Err (Backend NotExist), mkImporter ba
    (reset_overlay (update_active (im_ghost im) active))) ∧
  block_stored ba block state ∧ shasper_head ba = shasper_head (im_backend im).
Proof.
  intros Hok Hnew Hf Hj Ha Hjb Hvs Hlast Ht Hne Hc. rewrite (import_raw_stores fuel block state im active jb _ ba Ha Hjb Hvs Hc).
  destruct (commit_import_leaf ch (im_backend im) ba block state (io_stored _ _ Hok) Hnew Hc) as (ch1 & p & data & Hst1 & Hleaf & Hhead & Hg).
  destruct (import_start _ _ _ _ _ _ _ _ _ _ Hok Hst1 Hleaf Hg Hj Hf Hjb) as (Hgen & Hkj & Hcs & Hpos & Hf1).
  destruct (stored_ok _ _ _ _ _ (io_stored _ _ Hok)) as [Hrep _]. destruct (stored_ok _ _ _ _ _ Hst1) as [Hrep1 _].
  assert (ch_blocks ch1 !! t = None) as Ht1 by by eapply leaf_added_absent.
  unfold import_tail. cbn [backend_genesis store_import shasper_import]. unfold shasper_genesis. rewrite Hgen. destruct ba as [b].
  destruct (store_head_cases b ch1 fuel (update_active (add_votes (im_ghost im) (l1 ++ (v, t) :: l2)) active) _ Hst1 Hkj Hcs Hpos Hf1)
    as [[Hov _]|[_ Hhd]].
  - intros w x Hx%(lookup_weaken _ (votes (im_ghost im))); [|cbn; rewrite add_votes_votes; apply map_filter_subseteq].
    eapply grows_known; [exact Hg|]. exact (io_votes _ _ Hok w x Hx).
  - exfalso. specialize (Hov v t (add_votes_last (im_ghost im) l1 v t l2 Hlast)). apply known_block in Hov. rewrite Ht1 in Hov. by destruct Hov.
  - change store_query with (shasper_query parent_of (Raw:=Raw)) in *. rewrite Hhd. split; [|split].
    + unfold reset_overlay, update_active. cbn [votes overlayed_votes]. by rewrite add_votes_votes.
    + by eapply (leaf_block_stored ch ch1 ch1).
    + unfold shasper_head. destruct Hrep as (_ & _ & -> & _), Hrep1 as (_ & _ & -> & _). done.
Qed.
End StoreImport.

(** ** A concrete [ImportAction]

    An action that inserts a block under its parent and makes it a child, unless
    the store holds it already, and one that only sets the head: the promises
    can be kept. *)

Section SimpleAction.
Context `{R : RocksApi} {Id Block State Raw Aux AuxKey : Type}.
Context `{Codec Id} `{Codec (BlockData Id Block Raw)} `{Codec Aux} `{Codec AuxKey} `{Codec Z} `{Codec string}.
Context (id_of : Block → Id) (parent_of : Block → option Id) (into_raw : State → Raw).
Context `{!EqDecision Id} `{!Countable Id} `{!EqDecision AuxKey} `{!Countable AuxKey}.

Definition simple_action : ImportAction Id Block State Aux AuxKey := {|
  action_import := λ block state b,
    match parent_of block with
    | None => ([], Err RocksStore.IsGenesis)
    | Some p =>
        match contains_block (Block:=Block) (Raw:=Raw) b (id_of block), RocksStore.depth_at (Block:=Block) (Raw:=Raw) b p with
        | Ok false, Ok d => ([InsertBlock (id_of block) block state (d + 1) [] false; PushChild p (id_of block)], Ok tt)
        | _, _ => ([], Err InvalidOperation)
        end
    end;
  action_set_head := λ h _, ([SetHead h], Ok tt);
|}.

Lemma simple_action_ok :
  (∀ db batch, definite (db_write db batch)) → ActionOk (IA:=simple_action) (Raw:=Raw) id_of parent_of into_raw.
Proof.
  intros Hw. split; cbn; try done.
  - intros b ch block state calls Hrep Hnew Hop. destruct (parent_of block) as [p|] eqn:Hp; [|done].
    destruct (contains_block b (id_of block)) as [[]| | |]; try done.
    unfold RocksStore.depth_at in Hop. rewrite (block_data_represents b ch p Hrep) in Hop.
    destruct (ch_blocks ch !! p) as [data|] eqn:Hd; [|done]. cbn in Hop. injection Hop as <-.
    assert (id_of block ≠ p) as Hne by congruence. split; [|split].
    + apply (insert_first _ _ _ _ _ p (parent_of (bd_block data)) (bd_depth data) (bd_children data) false []); try done.
      * unfold row. by rewrite Hd.
      * unfold row. by rewrite Hnew.
    + split; [|done]. intros Hin%list_elem_of_singleton. by apply Hne.
    + eexists. cbn. rewrite lookup_insert_ne, Hd by done. done.
  - intros b ch h calls Hrep _ [= <-]. split; [done|]. split; [done|]. by eexists.
  - intros b block state. destruct (parent_of block) as [p|]; [|done].
    destruct (contains_block b (id_of block)) as [[]| | |]; try done. by destruct (RocksStore.depth_at b p).
Qed.

(** Every block can be imported with it: one that is held is refused. *)
Lemma simple_action_importable (ba : ShasperBackend (RocksBackend (Id:=Id))) (block : Block) :
  importable (IA:=simple_action) (Raw:=Raw) id_of ba block.
Proof.
  unfold importable, shasper_contains. cbn. destruct (contains_block (inner_backend ba) (id_of block)) as [[]| | |]; [|by left|..].
  all: right; intros state; by destruct (parent_of block).
Qed.
End SimpleAction.

(** ** Witnesses: blocks 1 and 2 on the genesis block 0; the vote in block 2 is
    for a block the store does not hold *)

Section Witnesses.
#[local] Existing Instances toy_rocks toy_cf_eq toy_rocks_ok toy_codec_Z toy_codec_data toy_codec_string
  toy_codec_Z_ok toy_codec_data_ok toy_codec_string_ok.

#[local] Instance toy_action : ImportAction Z Z Z Z Z := simple_action (Raw:=Z) id toy_parent.

#[local] Instance toy_voter : JustifiableExecutor Z Z Z unit := {|
  block_parent := toy_parent;
  run_block := λ block s, Ok (s + block);
  executor_active_validators := λ _, Ok [5];
  executor_justified_block := λ _, Ok None;
  executor_votes := λ block _, Ok [(5, if block =? 2 then 9 else 0)];
|}.

Lemma toy_action_ok : ActionOk (Raw:=Z) id toy_parent id.
Proof. by apply simple_action_ok. Qed.

Notation toy_im := (mkImporter (mkShasperBackend toy_store) ghost_new).
Notation toy_run block := (LmdGhost.import_block (H0:=toy_voter) (H:=shasper_query toy_parent (Raw:=Z))
  (H1:=shasper_import (Raw:=Z) id (λ raw _, raw)) 1%nat block toy_im).

Lemma toy_store_new : stored (Aux:=Z) (AuxKey:=Z) id toy_parent id toy_store toy_genesis.
Proof. apply (stored_new (R:=toy_rocks) _ _ _ toy_empty 0 100 toy_store toy_columns toy_empty_reads eq_refl toy_store_created). Qed.

Lemma toy_head_known : known (ghost_chain toy_parent toy_genesis) (ch_head toy_genesis).
Proof. eexists. vm_compute. reflexivity. Qed.

Definition toy_from_raw (raw : Z) (_ : DB) : Z := raw.

Lemma toy_reached_new : reached (Ee:=unit) (Aux:=Z) (AuxKey:=Z) (Raw:=Z) id toy_parent id toy_from_raw toy_im.
Proof. exact (reached_new id toy_parent id toy_from_raw toy_store toy_genesis toy_store_new toy_head_known). Qed.

(** The store of the genesis block has height 0, and the executor is ready for
    every block on it. *)
Lemma toy_ready (block : Z) :
  ∀ ch : RocksStore.Chain (Id:=Z) (Block:=Z) (Raw:=Z) (Aux:=Z) (AuxKey:=Z), represents toy_store ch →
    height ch < Z.of_nat 1 ∧
    executor_ready (Ee:=unit) toy_parent toy_from_raw (mkShasperBackend toy_store) ch block.
Proof.
  intros ch (_ & Hshows & _). split; [|by intros p s state _ _ _ j q [=]].
  assert (ch_blocks ch = ch_blocks toy_genesis) as Heq; [|unfold height; rewrite Heq; vm_compute; reflexivity].
  apply map_eq. intros x. pose proof (shows_blocks _ _ Hshows x) as Hx.
  pose proof (shows_blocks _ _ (proj1 (proj2 toy_represents)) x) as Hy. rewrite Hx in Hy. by injection Hy.
Qed.

Lemma importer_invariant_witness :
  (toy_run 1).1 = Ok tt ∧ overlayed_votes (im_ghost (toy_run 1).2) = ∅.
Proof.
  split; [vm_compute; reflexivity|].
  destruct (importer_invariant (Ee:=unit) (Aux:=Z) (AuxKey:=Z) (Raw:=Z) (JE:=toy_voter) (AO:=toy_action_ok) id toy_parent id toy_from_raw
    (λ _, eq_refl) (toy_run 1).2) as (ch & _ & _ & Ho & _); [|exact Ho].
  apply (reached_import id toy_parent id toy_from_raw 1 1 toy_im (toy_run 1).1 (toy_run 1).2 toy_reached_new).
  - left. vm_compute. reflexivity.
  - exact (toy_ready 1).
  - reflexivity.
Defined.

Definition toy_after_two : ShasperBackend (RocksBackend (Id:=Z)) :=
  match commit_import (ImportBackend:=shasper_import (Raw:=Z) (State:=Z) id toy_from_raw) (mkShasperBackend toy_store) 2 102 with
  | Ok ba => ba
  | _ => mkShasperBackend toy_store
  end.

Lemma unknown_vote_blocks_head_witness :
  import_raw (H0:=toy_voter) (H:=shasper_query toy_parent (Raw:=Z)) (H1:=shasper_import (Raw:=Z) id toy_from_raw) 1 2 102 toy_im =
    (Err (Backend NotExist), mkImporter toy_after_two (reset_overlay (update_active ghost_new [5]))) ∧
  shasper_contains (Block:=Z) (Raw:=Z) toy_after_two 2 = Ok true ∧ shasper_head toy_after_two = 0.
Proof.
  destruct (unknown_vote_blocks_head (Ee:=unit) (Aux:=Z) (AuxKey:=Z) (Raw:=Z) (JE:=toy_voter) (AO:=toy_action_ok) id toy_parent id toy_from_raw
    1 toy_im toy_genesis 2 102 toy_after_two [5] None [] 5 9 []) as (Hrun & _ & Hhead).
  - exact (new_importer_ok id toy_parent id toy_store toy_genesis toy_store_new toy_head_known).
  - vm_compute. reflexivity.
  - vm_compute. reflexivity.
  - by intros j p [=].
  - reflexivity.
  - reflexivity.
  - reflexivity.
  - apply not_elem_of_nil.
  - vm_compute. reflexivity.
  - discriminate.
  - vm_compute. reflexivity.
  - split; [exact Hrun|]. split; [vm_compute; reflexivity|]. rewrite Hhead. vm_compute. reflexivity.
Defined.
End Witnesses.
