(* ===== verification/BeaconStore.v ===== *)
(** * The node's chain: beacon states in the database

    The importer of [StoreImporter] with the beacon executor behind
    [RocksState] ([Externalities]), on a store that was created with a
    generated genesis state.  [states_ok] ties the two together: the state
    stored under a block has that block as its tip, and every root in it names
    a block of its own chain ([ChainRoots]).  Imports keep it, so what
    [StoreImporter] asks of an executor is proved here of the beacon chain: the
    justified block of an imported block is one of its ancestors. *)
From stdpp Require Import base numbers list gmap fin_maps strings.
From Stdlib Require Import ZArith Lia.
From S2P Require Import Prelude Config Types Utils State Accessors Transition Lifecycle LmdGhost Node Externalities ChainRoots RocksStore GhostStore StoreImporter.

#[local] Open Scope Z_scope.

Section BeaconStore.
Context `{Cfg : Config} `{AM : ArithMode} `{BLS : BLSConfig} `{TR : TreeRoot} `{MT : MerkleTree} `{F : Fuel}.
Context `{R : RocksApi} {Aux AuxKey : Type}.
Context `{Codec H256} `{Codec (BlockData H256 BeaconBlock BeaconState)} `{Codec Aux} `{Codec AuxKey} `{Codec Z} `{Codec string}.
Context `{IA : !ImportAction H256 BeaconBlock RocksState Aux AuxKey}.
Context `{!EqDecision ColumnFamily} `{!RocksOk R}.
Context `{!CodecOk H256} `{!CodecOk (BlockData H256 BeaconBlock BeaconState)} `{!CodecOk Aux} `{!CodecOk AuxKey} `{!CodecOk Z} `{!CodecOk string}.
Context `{!EqDecision AuxKey} `{!Countable AuxKey}.

Notation Store := (RocksStore.Chain (Id:=H256) (Block:=BeaconBlock) (Raw:=BeaconState) (Aux:=Aux) (AuxKey:=AuxKey)).
Notation Ba := (ShasperBackend (RocksBackend (Id:=H256))).
Notation Im := (Importer (Ba:=Ba) (Id:=H256)).
Notation ghost := (ghost_chain parent_id).
Notation state_of := (shasper_state_at (Block:=BeaconBlock) (Raw:=BeaconState) rocks_from_raw).
#[local] Instance node_query : ChainQuery Ba H256 StoreError := shasper_query parent_id (Raw:=BeaconState).
#[local] Instance node_committer : ImportBackend Ba BeaconBlock RocksState H256 StoreError := shasper_import (Raw:=BeaconState) rocks_into_raw rocks_from_raw.
#[local] Instance node_executor : JustifiableExecutor BeaconBlock RocksState H256 NodeError := external_executor.
Context `{AO : !ActionOk (Raw:=BeaconState) block_id parent_id rocks_into_raw}.

(** The state stored under [x]: its last block is [x], and the roots it records
    are blocks of the chain of [x], or the zero hash where nothing is recorded. *)
Record state_ok (ch : Store) (x : H256) (s : BeaconState) : Prop := {
  state_tip : tip_root s = x;
  state_root : tree_root_state s ≠ H256_default;
  state_roots_in : roots_in (λ r, r = H256_default ∨ descends (ghost ch) x r) s;
}.
Definition states_ok (ch : Store) : Prop := ∀ x d, ch_blocks ch !! x = Some d → state_ok ch x (bd_state d).

Lemma state_ok_grows (ch ch' : Store) x s : grows ch ch' → state_ok ch x s → state_ok ch' x s.
Proof.
  intros Hg [H1' H2' H3']. split; [done..|]. eapply roots_in_impl; [|exact H3'].
  intros r [->|Hd]; [by left|right]. by eapply grows_descends.
Qed.

Lemma state_of_stored (ba : Ba) (ch : Store) x s :
  represents (inner_backend ba) ch → state_of ba x = Ok s → ∃ d, ch_blocks ch !! x = Some d ∧ rocks_into_beacon s = bd_state d.
Proof.
  intros Hrep. unfold shasper_state_at, RocksStore.state_at. rewrite (block_data_represents _ ch x Hrep).
  destruct (ch_blocks ch !! x) as [d|]; [|done]. intros [= <-]. by exists d.
Qed.

(** A block executed on the state of its parent: the roots of the new state are
    blocks of the parent's chain. *)
Lemma executed_roots (ch : Store) (p : H256) (c : BeaconBlock) (s s' : RocksState) :
  state_ok ch p (rocks_into_beacon s) → run_block c s = Ok s' →
  roots_in (λ r, r = H256_default ∨ descends (ghost ch) p r) (rocks_into_beacon s') ∧
  tip_root (rocks_into_beacon s') = block_id c ∧ tree_root_state (rocks_into_beacon s') = blk_state_root c.
Proof.
  intros [Htip Hroot Hin] Hrun%external_execute_Ok. cbn in Hrun. split; [|by eapply state_transition_tip].
  eapply state_transition_roots; [exact Hrun|done| |done]. rewrite Htip. right. constructor.
Qed.

Lemma executed_on_chain (ch : Store) (ba : Ba) (p : H256) (c : BeaconBlock) (s s' : RocksState) :
  represents (inner_backend ba) ch → states_ok ch → parent_id c = Some p → state_of ba p = Ok s → run_block c s = Ok s' →
  justified_on_chain (Ee:=NodeError) parent_id ch c s'.
Proof.
  intros Hrep Hok Hp Hs Hrun j q Hj Hq. rewrite Hp in Hq. injection Hq as <-.
  destruct (state_of_stored ba ch p s Hrep Hs) as (d & Hd & Heq). specialize (Hok p d Hd). rewrite <- Heq in Hok.
  destruct (executed_roots ch p c s s' Hok Hrun) as ([_ Hcur _ _] & _). cbn in Hj. unfold justified_block_id, bytes_eqb in Hj.
  case_bool_decide; [done|]. injection Hj as <-. by destruct Hcur.
Qed.

(** An import keeps [states_ok]. *)
Lemma adds_states_ok (ch ch' : Store) (ba ba' : Ba) (p : H256) (c : BeaconBlock) (s s' : RocksState) :
  represents (inner_backend ba) ch → represents (inner_backend ba') ch' → states_ok ch → parent_id c = Some p →
  state_of ba p = Ok s → run_block c s = Ok s' → blk_state_root c ≠ H256_default →
  adds block_id rocks_into_raw ch ch' c s' → states_ok ch'.
Proof.
  intros Hrep Hrep' Hok Hp Hs Hrun Hne [Hg Hnew] x d' Hx.
  destruct (Hnew x d' Hx) as [[d Hd]|(-> & Hb & Hst)].
  - destruct (grows_blocks _ _ Hg x d Hd) as (d1 & Hd1 & _ & Hs1 & _). rewrite Hd1 in Hx. injection Hx as <-.
    rewrite Hs1. eapply state_ok_grows; [exact Hg|]. by apply Hok.
  - destruct (state_of_stored ba ch p s Hrep Hs) as (d & Hd & Heq). pose proof (Hok p d Hd) as Hokp. rewrite <- Heq in Hokp.
    destruct (executed_roots ch p c s s' Hokp Hrun) as (Hin & Htip & Hroot). rewrite Hst. unfold rocks_into_raw.
    split; [done|by rewrite Hroot|]. eapply roots_in_impl; [|exact Hin]. intros r [->|Hr]; [by left|right].
    apply (descends_step _ _ p); [|by eapply grows_descends]. cbn. unfold row. rewrite Hx. cbn. unfold shape. cbn. by rewrite Hb.
Qed.

(** ** The importers a node can reach *)

(** The executor and the votes of a block do not panic on the state of its
    parent. *)
Definition executes (im : Im) (block : BeaconBlock) : Prop :=
  ∀ p s, parent_id block = Some p → state_of (im_backend im) p = Ok s →
    definite (run_block block s) ∧ ∀ s', run_block block s = Ok s' → definite (executor_votes (Ee:=NodeError) block s').

(** The genesis block of a state, as the node's startup makes it *)
Definition genesis_block_of (s : BeaconState) : BeaconBlock :=
  mkBeaconBlock 0 H256_default (tree_root_state s) BeaconBlockBody_default H768_default.

(** The node's imports *)
Notation node_importable := (importable (Raw:=BeaconState) block_id).

(** A new database with a generated genesis state, imports, whatever their
    result, and restarts, which open the database again and forget the votes.
    An imported block is one the store does not hold, or one that the external
    [ImportAction] refuses.  The roots of states are not the zero hash, which
    the code takes for a root that is still to be filled in. *)
Inductive node_reached : Im → Prop :=
  | node_new db deposits time eth1 s b :
      has_columns db → (∀ c k, c ∈ columns → fetch_raw db c k = Ok None) →
      genesis_beacon_state deposits time eth1 = Ok s → tree_root_state s ≠ H256_default →
      new_with_genesis block_id parent_id rocks_into_raw (Ok db) (genesis_block_of s) (rocks_from_beacon s) = Ok b →
      node_reached (mkImporter (mkShasperBackend b) ghost_new)
  | node_imports fuel block im r im' :
      node_reached im →
      node_importable (im_backend im) block → blk_state_root block ≠ H256_default →
      (∀ ch : Store, represents (inner_backend (im_backend im)) ch → height ch < Z.of_nat fuel) →
      LmdGhost.import_block fuel block im = (r, im') → node_reached im'
  | node_restarts im f b :
      node_reached im →
      open_or_create block_id parent_id rocks_into_raw (Ok (rb_db (inner_backend (im_backend im)))) f = Ok b →
      node_reached (mkImporter (mkShasperBackend b) ghost_new).

Lemma genesis_store_ok deposits time eth1 (s : BeaconState) :
  genesis_beacon_state deposits time eth1 = Ok s → tree_root_state s ≠ H256_default →
  states_ok (genesis_chain block_id rocks_into_raw (genesis_block_of s) (rocks_from_beacon s)).
Proof.
  intros [Hin Htip]%genesis_roots Hroot x d. cbn. intros [<- <-]%lookup_singleton_Some. cbn.
  split; [done|done|]. eapply roots_in_impl; [|exact Hin]. by left.
Qed.

Lemma node_ready (im : Im) (ch : Store) (block : BeaconBlock) :
  represents (inner_backend (im_backend im)) ch → states_ok ch →
  executor_ready (Ee:=NodeError) parent_id rocks_from_raw (im_backend im) ch block.
Proof. intros Hrep Hok p s s' Hp Hs Hrun. by eapply executed_on_chain. Qed.

Lemma node_definite (im : Im) (block : BeaconBlock) :
  executes im block → executor_definite (Ee:=NodeError) parent_id rocks_from_raw (im_backend im) block.
Proof.
  intros Hex p s Hp Hs. destruct (Hex p s Hp Hs) as [Hdef Hvotes]. split; [done|]. intros s' Hrun.
  do 2 (split; [done|]). by apply Hvotes.
Qed.

(** One import, from what is known of the store *)
Lemma node_import_step (fuel : nat) (im : Im) (ch : Store) (block : BeaconBlock) :
  importer_ok block_id parent_id rocks_into_raw im ch → states_ok ch →
  node_importable (im_backend im) block → blk_state_root block ≠ H256_default → height ch < Z.of_nat fuel →
  ∃ r im' (ch' : Store), LmdGhost.import_block fuel block im = (r, im') ∧
    importer_ok block_id parent_id rocks_into_raw im' ch' ∧ states_ok ch' ∧ (executes im block → definite r) ∧
    (r ≠ Ok tt ∧ im' = im ∧ ch' = ch ∨
     ∃ p s s', parent_id block = Some p ∧ state_of (im_backend im) p = Ok s ∧ run_block block s = Ok s' ∧
       adds block_id rocks_into_raw ch ch' block s' ∧
       import_outcome block_id parent_id rocks_into_raw rocks_from_raw fuel im ch block s' r im' ch').
Proof.
  intros Hok Hst Hnew Hroot Hf. destruct (stored_ok _ _ _ _ _ (io_stored _ _ _ _ _ Hok)) as [Hrep _].
  destruct (import_block_outcome (JE:=node_executor) (AO:=AO) block_id parent_id rocks_into_raw rocks_from_raw (λ _, eq_refl) fuel im ch block Hok Hnew Hf)
    as (r & im' & ch' & Hrun & Hok' & Hdef & Hout); [by apply node_ready|].
  exists r, im', ch'. do 2 (split; [done|]). split; [|split; [intros Hex; by apply Hdef, node_definite|done]].
  destruct Hout as [(_ & _ & ->)|(p & s & s' & Hp & Hs & Hx & Hadds & _)]; [done|].
  destruct (stored_ok _ _ _ _ _ (io_stored _ _ _ _ _ Hok')) as [Hrep' _].
  eapply (adds_states_ok ch ch' (im_backend im) (im_backend im') p block s s'); done.
Qed.

Lemma node_reached_ok (im : Im) :
  node_reached im → ∃ ch : Store, importer_ok block_id parent_id rocks_into_raw im ch ∧ states_ok ch.
Proof.
  induction 1 as [db deposits time eth1 s b Hcols Hempty Hgen Hroot Hnew|fuel block im r im' _ (ch & Hok & Hst) Hnew Hroot Hf Hrun
    |im f b _ (ch & Hok & Hst) Hopen].
  - eexists. split; [|by eapply genesis_store_ok]. apply new_importer_ok; [by eapply stored_new|].
    apply known_block. cbn. by rewrite lookup_singleton_eq.
  - destruct (stored_ok _ _ _ _ _ (io_stored _ _ _ _ _ Hok)) as [Hrep _].
    destruct (node_import_step fuel im ch block Hok Hst Hnew Hroot (Hf ch Hrep)) as (r1 & im1 & ch1 & Hrun1 & Hok1 & Hst1 & _).
    rewrite Hrun in Hrun1. injection Hrun1 as _ ->. by exists ch1.
  - destruct Hok as [Hst0 Hh _ _]. destruct (stored_ok _ _ _ _ _ Hst0) as [Hrep _].
    rewrite (reopen_same block_id parent_id rocks_into_raw _ ch f Hrep) in Hopen. injection Hopen as <-. exists ch.
    split; [by apply new_importer_ok|done].
Qed.

(** ** Theorems *)

(** C6: The checkpoints of every state a node holds are on the chain of that
    state.  After any sequence of restarts and of imports, successful, failed or
    ended by a panic, on a generated genesis, where the imported blocks are new
    to the store or refused by the external [ImportAction] and no state root is
    the zero hash, the state stored under a block leads back to that block; its justified and finalized
    roots are ancestors of it, or the zero hash before the first justification;
    and from its justified block the fork choice ends in a leaf below it. *)
Theorem node_checkpoints_on_chain (im : Im) :
  node_reached im →
  ∃ ch : Store, represents (inner_backend (im_backend im)) ch ∧
    ∀ x s, state_of (im_backend im) x = Ok s →
      tip_root (ext_state s) = x ∧
      (∀ r, r = cp_root (current_justified_checkpoint (ext_state s)) ∨ r = cp_root (previous_justified_checkpoint (ext_state s)) ∨
            r = cp_root (finalized_checkpoint (ext_state s)) → r = H256_default ∨ descends (ghost ch) x r) ∧
      ∃ jb, justified_block_id (ext_state s) = Ok jb ∧
        let j := default (shasper_genesis (im_backend im)) jb in
        descends (ghost ch) x j ∧
        ∀ fuel, height ch ≤ Z.of_nat fuel →
          ∃ h, head fuel (im_backend im) (im_ghost im) j = Ok h ∧ descends (ghost ch) h j ∧
            shasper_children_at (Block:=BeaconBlock) (Raw:=BeaconState) (im_backend im) h = Ok [].
Proof.
  intros (ch & [Hst _ Ho Hv] & Hok)%node_reached_ok. destruct (stored_ok _ _ _ _ _ Hst) as [Hrep Htree]. exists ch. split; [done|].
  intros x s Hs. destruct (state_of_stored _ _ _ _ Hrep Hs) as (d & Hd & Heq). destruct (Hok x d Hd) as [Htip _ [_ Hc Hp Hf]].
  cbn [ext_state RocksExternalities]. rewrite Heq. split; [done|]. split; [by intros r [->|[->| ->]]|].
  eexists. split; [reflexivity|]. cbv zeta. set (j := default _ _).
  assert (known (ghost ch) x) as Hkx by (apply known_block; by eexists).
  destruct (stored_genesis block_id parent_id rocks_into_raw _ ch Hst) as [_ Hdg].
  assert (descends (ghost ch) x j) as Hd'.
  { unfold j, bytes_eqb. case_bool_decide as Hz; cbn; [|by destruct Hc].
    unfold shasper_genesis. destruct Hrep as (_ & _ & _ & ->). by apply Hdg. }
  split; [done|]. intros fuel Hfuel. destruct (im_backend im) as [b].
  pose proof (store_chain_ok parent_id b ch Hrep Htree) as Hchain.
  destruct (descends_known (mkShasperBackend b) (ghost ch) (OK:=Hchain) x j Hd' Hkx) as [Hkj _].
  destruct (head_correct (ChainOk0:=Hchain) (mkShasperBackend b) (ghost ch) (im_ghost im) fuel j)
    as (h & Hh & _ & Hk & Hleaf & Hdh); [split; [rewrite Ho; apply map_Forall_empty|done]|done..|].
  exists h. do 2 (split; [done|]). pose proof (store_children (ChainOk:=Hchain) h Hk) as Hcs. rewrite Hleaf in Hcs. exact Hcs.
Qed.

(** C7: An import of the node, whole.  For a block the store does not hold, or
    that the external [ImportAction] refuses, and whose state root is not the
    zero hash, either the import has no success, an error or a panic of the
    execution, and nothing changes; or the block is stored, with the state its
    execution gives, and the import ends in an error over a vote for an unknown
    block, in a silent failure to write the head, or with the head of the fork
    choice from the justified block of that state.  When the executor does not
    panic on the block, the import does not.  The node stays in a state it can
    be in. *)
Theorem node_import (fuel : nat) (im : Im) (block : BeaconBlock) :
  node_reached im → node_importable (im_backend im) block → blk_state_root block ≠ H256_default →
  (∀ ch : Store, represents (inner_backend (im_backend im)) ch → height ch < Z.of_nat fuel) →
  ∃ r im' (ch ch' : Store), LmdGhost.import_block fuel block im = (r, im') ∧ node_reached im' ∧
    represents (inner_backend (im_backend im)) ch ∧ represents (inner_backend (im_backend im')) ch' ∧
    (executes im block → definite r) ∧
    (r ≠ Ok tt ∧ im' = im ∨
     ∃ p s s', parent_id block = Some p ∧ state_of (im_backend im) p = Ok s ∧
       state_transition block (ext_state s) = (Ok tt, ext_state s') ∧
       adds block_id rocks_into_raw ch ch' block s' ∧
       import_outcome block_id parent_id rocks_into_raw rocks_from_raw fuel im ch block s' r im' ch').
Proof.
  intros Hreach Hnew Hroot Hf. destruct (node_reached_ok im Hreach) as (ch & Hok & Hst).
  destruct (stored_ok _ _ _ _ _ (io_stored _ _ _ _ _ Hok)) as [Hrep _].
  destruct (node_import_step fuel im ch block Hok Hst Hnew Hroot (Hf ch Hrep)) as (r & im' & ch' & Hrun & Hok' & _ & Hdef & Hout).
  destruct (stored_ok _ _ _ _ _ (io_stored _ _ _ _ _ Hok')) as [Hrep' _].
  exists r, im', ch, ch'. split; [done|]. split; [by eapply node_imports|]. do 3 (split; [done|]).
  destruct Hout as [(He & -> & _)|(p & s & s' & Hp & Hs & Hx%external_execute_Ok & Hrest)]; [by left|right]. by exists p, s, s'.
Qed.
End BeaconStore.

(** ** Witnesses: a node that imports the block of slot 1

    The values are written to the toy database by a self-delimiting codec. *)

Section Witnesses.
#[local] Existing Instances toy_config toy_config_ok toy_mode toy_fuel toy_merkle toy_bls
  toy_rocks toy_cf_eq toy_rocks_ok toy_codec_Z toy_codec_string toy_codec_Z_ok toy_codec_string_ok.

Class Pickle (A : Type) := {
  pickle : A → list Z;
  unpickle : list Z → option (A * list Z);
  unpickle_pickle : ∀ a rest, unpickle (pickle a ++ rest) = Some (a, rest);
}.

#[local] Program Instance pickle_Z : Pickle Z := {|
  pickle z := [z]; unpickle l := match l with z :: rest => Some (z, rest) | [] => None end |}.
Next Obligation. done. Qed.

Definition pickle_iso {A B} `{Pickle B} (f : A → B) (g : B → A) (Hgf : ∀ a, g (f a) = a) : Pickle A.
Proof.
  refine {| pickle a := pickle (f a); unpickle l := '(b, rest) ← unpickle l; Some (g b, rest) |}.
  intros a rest. rewrite unpickle_pickle. cbn. by rewrite Hgf.
Defined.

#[local] Instance pickle_bool : Pickle bool.
Proof. refine (pickle_iso (λ b : bool, if b then 1 else 0) (λ z, z =? 1) _). by intros []. Defined.

#[local] Instance pickle_pair {A B} `{Pickle A} `{Pickle B} : Pickle (A * B).
Proof.
  refine {| pickle p := pickle p.1 ++ pickle p.2;
    unpickle l := '(a, l1) ← unpickle l; '(b, l2) ← unpickle l1; Some ((a, b), l2) |}.
  intros [a b] rest. cbn. by rewrite <- app_assoc, unpickle_pickle; cbn; rewrite unpickle_pickle.
Defined.

Fixpoint unpickle_n {A} `{Pickle A} (n : nat) (l : list Z) : option (list A * list Z) :=
  match n with
  | O => Some ([], l)
  | S n' => '(a, l1) ← unpickle l; '(x, l2) ← unpickle_n n' l1; Some (a :: x, l2)
  end.
#[local] Instance pickle_list {A} `{Pickle A} : Pickle (list A).
Proof.
  refine {| pickle x := Z.of_nat (length x) :: concat (pickle <$> x);
    unpickle l := match l with n :: l1 => unpickle_n (Z.to_nat n) l1 | [] => None end |}.
  intros x rest. cbn. rewrite Nat2Z.id. induction x as [|a x IH]; [done|]. cbn.
  rewrite <- app_assoc, unpickle_pickle. cbn. by rewrite IH.
Defined.

#[local] Instance pickle_Fork : Pickle Fork.
Proof. refine (pickle_iso (λ '(mkFork a b c), (a, b, c)) (λ '(a, b, c), mkFork a b c) _). by intros []. Defined.
#[local] Instance pickle_Checkpoint : Pickle Checkpoint.
Proof. refine (pickle_iso (λ '(mkCheckpoint a b), (a, b)) (λ '(a, b), mkCheckpoint a b) _). by intros []. Defined.
#[local] Instance pickle_Validator : Pickle Validator.
Proof.
  refine (pickle_iso (λ '(mkValidator a b c d e f g h), (a, b, c, d, e, f, g, h))
    (λ '(a, b, c, d, e, f, g, h), mkValidator a b c d e f g h) _). by intros [].
Defined.
#[local] Instance pickle_AttestationData : Pickle AttestationData.
Proof. refine (pickle_iso (λ '(mkAttestationData a b c d e), (a, b, c, d, e)) (λ '(a, b, c, d, e), mkAttestationData a b c d e) _). by intros []. Defined.
#[local] Instance pickle_IndexedAttestation : Pickle IndexedAttestation.
Proof. refine (pickle_iso (λ '(mkIndexedAttestation a b c d), (a, b, c, d)) (λ '(a, b, c, d), mkIndexedAttestation a b c d) _). by intros []. Defined.
#[local] Instance pickle_PendingAttestation : Pickle PendingAttestation.
Proof. refine (pickle_iso (λ '(mkPendingAttestation a b c d), (a, b, c, d)) (λ '(a, b, c, d), mkPendingAttestation a b c d) _). by intros []. Defined.
#[local] Instance pickle_Eth1Data : Pickle Eth1Data.
Proof. refine (pickle_iso (λ '(mkEth1Data a b c), (a, b, c)) (λ '(a, b, c), mkEth1Data a b c) _). by intros []. Defined.
#[local] Instance pickle_DepositData : Pickle DepositData.
Proof. refine (pickle_iso (λ '(mkDepositData a b c d), (a, b, c, d)) (λ '(a, b, c, d), mkDepositData a b c d) _). by intros []. Defined.
#[local] Instance pickle_BeaconBlockHeader : Pickle BeaconBlockHeader.
Proof. refine (pickle_iso (λ '(mkBeaconBlockHeader a b c d e), (a, b, c, d, e)) (λ '(a, b, c, d, e), mkBeaconBlockHeader a b c d e) _). by intros []. Defined.
#[local] Instance pickle_ProposerSlashing : Pickle ProposerSlashing.
Proof. refine (pickle_iso (λ '(mkProposerSlashing a b c), (a, b, c)) (λ '(a, b, c), mkProposerSlashing a b c) _). by intros []. Defined.
#[local] Instance pickle_AttesterSlashing : Pickle AttesterSlashing.
Proof. refine (pickle_iso (λ '(mkAttesterSlashing a b), (a, b)) (λ '(a, b), mkAttesterSlashing a b) _). by intros []. Defined.
#[local] Instance pickle_Attestation : Pickle Attestation.
Proof. refine (pickle_iso (λ '(mkAttestation a b c d), (a, b, c, d)) (λ '(a, b, c, d), mkAttestation a b c d) _). by intros []. Defined.
#[local] Instance pickle_Deposit : Pickle Deposit.
Proof. refine (pickle_iso (λ '(mkDeposit a b), (a, b)) (λ '(a, b), mkDeposit a b) _). by intros []. Defined.
#[local] Instance pickle_VoluntaryExit : Pickle VoluntaryExit.
Proof. refine (pickle_iso (λ '(mkVoluntaryExit a b c), (a, b, c)) (λ '(a, b, c), mkVoluntaryExit a b c) _). by intros []. Defined.
#[local] Instance pickle_BeaconBlockBody : Pickle BeaconBlockBody.
Proof.
  refine (pickle_iso (λ '(mkBeaconBlockBody a b c d e f g h), (a, b, c, d, e, f, g, h))
    (λ '(a, b, c, d, e, f, g, h), mkBeaconBlockBody a b c d e f g h) _). by intros [].
Defined.
#[local] Instance pickle_BeaconBlock : Pickle BeaconBlock.
Proof. refine (pickle_iso (λ '(mkBeaconBlock a b c d e), (a, b, c, d, e)) (λ '(a, b, c, d, e), mkBeaconBlock a b c d e) _). by intros []. Defined.
#[local] Instance pickle_BeaconState : Pickle BeaconState.
Proof.
  refine (pickle_iso (λ '(mkBeaconState a b c d e f g h i j k l m n o p q r s t), (a, b, c, d, e, f, g, h, i, j, k, l, m, n, o, p, q, r, s, t))
    (λ '(a, b, c, d, e, f, g, h, i, j, k, l, m, n, o, p, q, r, s, t), mkBeaconState a b c d e f g h i j k l m n o p q r s t) _).
  by intros [].
Defined.
#[local] Instance pickle_BlockData : Pickle (BlockData H256 BeaconBlock BeaconState).
Proof. refine (pickle_iso (λ '(mkBlockData a b c d e), (a, b, c, d, e)) (λ '(a, b, c, d, e), mkBlockData a b c d e) _). by intros []. Defined.

#[local] Instance codec_H256 : Codec H256 := {| encode := id; decode := Some |}.
#[local] Instance codec_H256_ok : CodecOk H256.
Proof. done. Qed.
#[local] Instance codec_data : Codec (BlockData H256 BeaconBlock BeaconState) := {|
  encode := pickle; decode := λ l, fst <$> unpickle l |}.
#[local] Instance codec_data_ok : CodecOk (BlockData H256 BeaconBlock BeaconState).
Proof. intros d. change (fst <$> unpickle (pickle d) = Some d). by rewrite <- (app_nil_r (pickle d)), unpickle_pickle. Qed.

(** Headers are told apart by their slot. *)
#[local] Instance slot_tree : TreeRoot := {|
  tree_root_state := λ _, toy_root;
  tree_root_signing_header := λ h, (1 + sbh_slot h) :: replicate 31 1;
  tree_root_body := λ _, toy_root;
  tree_root_unsealed_block := λ _, toy_root;
  tree_root_uint := λ _, toy_root;
  tree_root_historical_batch := λ _, toy_root;
  tree_root_attestation_data := λ _, toy_root;
  tree_root_deposit_data := λ _, toy_root;
  tree_root_signing_deposit_data := λ _, toy_root;
  tree_root_signing_voluntary_exit := λ _, toy_root;
|}.

Definition node_deposits : list Deposit := toy_deposit <$> zrange 1 10.
Definition node_eth1 : Eth1Data := mkEth1Data toy_root 9 toy_root.
Definition node_genesis : BeaconState :=
  match genesis_beacon_state node_deposits 10 node_eth1 with Ok s => s | _ => BeaconState_default end.
Definition node_store : RocksBackend (Id:=H256) :=
  match new_with_genesis block_id parent_id rocks_into_raw (Ok toy_empty) (genesis_block_of node_genesis) (rocks_from_beacon node_genesis) with
  | Ok b => b
  | _ => mkRocksBackend toy_empty [] []
  end.
(** The block of slot 1 on the genesis block *)
Definition node_block : BeaconBlock := mkBeaconBlock 1 (tip_root node_genesis) toy_root BeaconBlockBody_default H768_default.

#[local] Instance node_action : ImportAction H256 BeaconBlock RocksState Z Z :=
  simple_action (Raw:=BeaconState) block_id parent_id.
Lemma node_action_ok : ActionOk (Raw:=BeaconState) block_id parent_id rocks_into_raw.
Proof. by apply simple_action_ok. Qed.

Notation node_im := (mkImporter (mkShasperBackend node_store) ghost_new).
Definition node_import_block := LmdGhost.import_block (Ee:=NodeError) (H0:=external_executor)
  (H:=shasper_query parent_id (Raw:=BeaconState)) (H1:=shasper_import (Raw:=BeaconState) rocks_into_raw rocks_from_raw) 1.
Definition node_run := node_import_block node_block node_im.

Lemma is_ok_match {E A} (r : res E A) (a : A) : is_ok r = true → r = Ok (match r with Ok x => x | _ => a end).
Proof. by destruct r. Qed.

Lemma node_genesis_created : genesis_beacon_state node_deposits 10 node_eth1 = Ok node_genesis.
Proof. apply is_ok_match. vm_compute. reflexivity. Qed.

Lemma node_store_created :
  new_with_genesis block_id parent_id rocks_into_raw (Ok toy_empty) (genesis_block_of node_genesis) (rocks_from_beacon node_genesis)
  = Ok node_store.
Proof. apply is_ok_match. vm_compute. reflexivity. Qed.

Lemma toy_root_filled : toy_root ≠ H256_default.
Proof. done. Qed.

Lemma node_im_reached : node_reached (R:=toy_rocks) (Aux:=Z) (AuxKey:=Z) node_im.
Proof.
  exact (node_new (R:=toy_rocks) toy_empty node_deposits 10 node_eth1 node_genesis node_store toy_columns toy_empty_reads
    node_genesis_created toy_root_filled node_store_created).
Qed.

#[local] Opaque node_genesis node_store.

Notation node_Chain := (RocksStore.Chain (Id:=H256) (Block:=BeaconBlock) (Raw:=BeaconState) (Aux:=Z) (AuxKey:=Z)).

Lemma node_height (ch : node_Chain) : represents node_store ch → height ch < Z.of_nat 1.
Proof.
  intros (_ & Hshows & _). set (gen := genesis_chain block_id rocks_into_raw (genesis_block_of node_genesis) (rocks_from_beacon node_genesis) : node_Chain).
  assert (represents node_store gen) as (_ & Hgen & _).
  { destruct (new_with_genesis_ok (R:=toy_rocks) (Aux:=Z) (AuxKey:=Z) block_id parent_id rocks_into_raw
      toy_empty (genesis_block_of node_genesis) (rocks_from_beacon node_genesis) node_store toy_columns node_store_created) as (_ & _ & _ & _ & _ & Hr).
    exact (Hr toy_empty_reads). }
  assert (ch_blocks ch = ch_blocks gen) as Heq.
  { apply map_eq. intros x. pose proof (shows_blocks _ _ Hshows x) as Hx. rewrite (shows_blocks _ _ Hgen x) in Hx. by injection Hx. }
  unfold height. rewrite Heq. unfold gen. cbn [ch_blocks genesis_chain]. rewrite map_to_list_singleton. done.
Qed.

Lemma node_block_importable ba : importable (Raw:=BeaconState) block_id ba node_block.
Proof. apply simple_action_importable. Qed.

Lemma node_run_reached : node_reached (R:=toy_rocks) (Aux:=Z) (AuxKey:=Z) node_run.2.
Proof.
  exact (node_imports (R:=toy_rocks) (Aux:=Z) (AuxKey:=Z) 1 node_block node_im node_run.1 node_run.2 node_im_reached
    (node_block_importable _) toy_root_filled node_height (surjective_pairing node_run)).
Qed.

Lemma node_checkpoints_on_chain_witness :
  node_run.1 = Ok tt ∧ rb_head (inner_backend (im_backend node_run.2)) = block_id node_block ∧
  ∃ ch : node_Chain, represents (inner_backend (im_backend node_run.2)) ch.
Proof.
  split; [vm_compute; reflexivity|]. split; [vm_compute; reflexivity|].
  destruct (node_checkpoints_on_chain (R:=toy_rocks) (Aux:=Z) (AuxKey:=Z) (AO:=node_action_ok) node_run.2 node_run_reached) as (ch & Hrep & _).
  exists ch. exact Hrep.
Defined.

(** The first import stores the block; a second one, of the block the store now
    holds, is refused. *)
Lemma node_import_witness :
  is_ok node_run.1 = true ∧ is_ok (node_import_block node_block node_run.2).1 = false ∧
  ∃ r im', node_run = (r, im') ∧ node_reached (R:=toy_rocks) (Aux:=Z) (AuxKey:=Z) im'.
Proof.
  split; [vm_compute; reflexivity|]. split; [vm_compute; reflexivity|].
  destruct (node_import (R:=toy_rocks) (Aux:=Z) (AuxKey:=Z) (AO:=node_action_ok) 1 node_im node_block node_im_reached
    (node_block_importable _) toy_root_filled node_height) as (r & im' & _ & _ & Hrun & Hreach & _).
  exists r, im'. exact (conj Hrun Hreach).
Defined.
End Witnesses.
