(* ===== verification/Messages.v ===== *)
(** * Network messages: the crate [blockchain/network/messages]

    [items.rs] (the requests and their SSZ encodings), [codec.rs] (the framing
    of requests and responses on a stream) and [lib.rs] (message types and the
    gossip topics), with the gossip handlers of
    [blockchain/network/src/behaviour.rs].  The length-prefixed framing of the
    crate [unsigned_varint] is a parameter ([UviCodec]); a decoder owns its
    state and the buffer, which it consumes. *)
From stdpp Require Import base numbers list strings.
From Stdlib Require Import ZArith Lia.
From S2P Require Import Prelude Config Types Utils State Ssz SszTypes.

#[local] Open Scope Z_scope.

(** ** Items *)

(** The HELLO request/response handshake message. *)
Record HelloMessage := mkHelloMessage {
  hello_fork_version : Version;
  hello_finalized_root : H256;
  hello_finalized_epoch : Epoch;
  hello_head_root : H256;
  hello_head_slot : Slot;
}.

#[global] Instance HelloMessage_eq_dec : EqDecision HelloMessage.
Proof. solve_decision. Defined.

Definition ssz_HelloMessage : SszType HelloMessage := ssz_struct
  (fields [ plain ssz_Version; plain ssz_H256; plain ssz_u64; plain ssz_H256; plain ssz_u64 ])
  (λ x, (hello_fork_version x, (hello_finalized_root x, (hello_finalized_epoch x, (hello_head_root x,
    hello_head_slot x)))))
  (λ '(a, (b, (c, (d, e)))), mkHelloMessage a b c d e).
Definition HelloMessage_valid (x : HelloMessage) : Prop :=
  bytes_of_len 4 (hello_fork_version x) ∧ bytes_of_len 32 (hello_finalized_root x) ∧
  is_u64 (hello_finalized_epoch x) ∧ bytes_of_len 32 (hello_head_root x) ∧ is_u64 (hello_head_slot x).
#[global] Instance HelloMessage_laws : SszLaws ssz_HelloMessage HelloMessage_valid.
Proof. derive_laws. Qed.

(** [Ord for HelloMessage]: by the slot of the head only. *)
Definition hello_cmp (a b : HelloMessage) : comparison := Z.compare (hello_head_slot a) (hello_head_slot b).

(** The reason given for a [Goodbye] message. *)
Inductive GoodbyeReason : Type :=
  | ClientShutdown
  | IrrelevantNetwork
  | Fault
  | UnknownReason.

Definition goodbye_from_u64 (id : Z) : GoodbyeReason :=
  if id =? 1 then ClientShutdown else if id =? 2 then IrrelevantNetwork else if id =? 3 then Fault
  else UnknownReason.
Definition goodbye_into_u64 (reason : GoodbyeReason) : Z :=
  match reason with ClientShutdown => 1 | IrrelevantNetwork => 2 | Fault => 3 | UnknownReason => 0 end.

Definition ssz_GoodbyeReason : SszType GoodbyeReason := {|
  ssz_size := ssz_size ssz_u64;
  ssz_encode := λ reason, ssz_encode ssz_u64 (goodbye_into_u64 reason);
  ssz_decode := λ value, goodbye_from_u64 <$> ssz_decode ssz_u64 value;
|}.
#[global] Instance GoodbyeReason_laws : SszLaws ssz_GoodbyeReason (λ _, True).
Proof.
  split; [by intros []|by intros [] n _ [= <-]|intros [] _; apply to_le_bytes_u8|by intros n [= <-]].
Qed.

(** Request a number of beacon block roots from a peer. *)
Record BeaconBlocksRequest := mkBeaconBlocksRequest {
  req_head_block_root : H256;
  req_start_slot : Slot;
  req_count : Z;
  req_step : Z;
}.

#[global] Instance BeaconBlocksRequest_eq_dec : EqDecision BeaconBlocksRequest.
Proof. solve_decision. Defined.

Definition ssz_BeaconBlocksRequest : SszType BeaconBlocksRequest := ssz_struct
  (fields [ plain ssz_H256; plain ssz_u64; plain ssz_u64; plain ssz_u64 ])
  (λ x, (req_head_block_root x, (req_start_slot x, (req_count x, req_step x))))
  (λ '(a, (b, (c, d))), mkBeaconBlocksRequest a b c d).
Definition BeaconBlocksRequest_valid (x : BeaconBlocksRequest) : Prop :=
  bytes_of_len 32 (req_head_block_root x) ∧ is_u64 (req_start_slot x) ∧ is_u64 (req_count x) ∧ is_u64 (req_step x).
#[global] Instance BeaconBlocksRequest_laws : SszLaws ssz_BeaconBlocksRequest BeaconBlocksRequest_valid.
Proof. derive_laws. Qed.

(** Request a number of beacon block bodies from a peer. *)
Record RecentBeaconBlocksRequest := mkRecentBeaconBlocksRequest {
  req_block_roots : list H256;
}.

Definition ssz_RecentBeaconBlocksRequest : SszType RecentBeaconBlocksRequest := ssz_struct
  (one_field (plain (ssz_vec ssz_H256))) (λ x, req_block_roots x) (λ a, mkRecentBeaconBlocksRequest a).
Definition RecentBeaconBlocksRequest_valid (x : RecentBeaconBlocksRequest) : Prop :=
  list_valid ssz_H256 (bytes_of_len 32) (req_block_roots x) ∧
  zlen (ssz_encode ssz_RecentBeaconBlocksRequest x) < 2 ^ 32.
#[global] Instance RecentBeaconBlocksRequest_laws :
  SszLaws ssz_RecentBeaconBlocksRequest RecentBeaconBlocksRequest_valid.
Proof. derive_laws. Qed.

(** ** Requests and responses *)

Inductive RPCType : Type := TypeHello | TypeGoodbye | TypeBeaconBlocks | TypeRecentBeaconBlocks.

#[global] Instance RPCType_eq_dec : EqDecision RPCType.
Proof. solve_decision. Defined.

(** [ProtocolName::protocol_name] *)
Definition rpc_type_all : list RPCType := [TypeHello; TypeGoodbye; TypeBeaconBlocks; TypeRecentBeaconBlocks].

Definition protocol_name (typ : RPCType) : string :=
  match typ with
  | TypeHello => "/eth2/beacon_chain/req/status/1/ssz"
  | TypeGoodbye => "/eth2/beacon_chain/req/goodbye/1/ssz"
  | TypeBeaconBlocks => "/eth2/beacon_chain/req/beacon_blocks_by_range/1/ssz"
  | TypeRecentBeaconBlocks => "/eth2/beacon_chain/req/beacon_blocks_by_root/1/ssz"
  end.

Inductive RPCRequest : Type :=
  | RequestHello (item : HelloMessage)
  | RequestGoodbye (item : GoodbyeReason)
  | RequestBeaconBlocks (item : BeaconBlocksRequest)
  | RequestRecentBeaconBlocks (item : RecentBeaconBlocksRequest).

Definition is_goodbye (request : RPCRequest) : bool :=
  match request with RequestGoodbye _ => true | _ => false end.
Definition expect_response (request : RPCRequest) : bool :=
  match request with RequestGoodbye _ => false | _ => true end.
Definition request_typ (request : RPCRequest) : RPCType :=
  match request with
  | RequestHello _ => TypeHello
  | RequestGoodbye _ => TypeGoodbye
  | RequestBeaconBlocks _ => TypeBeaconBlocks
  | RequestRecentBeaconBlocks _ => TypeRecentBeaconBlocks
  end.

Inductive RPCResponse : Type :=
  | ResponseHello (item : HelloMessage)
  | ResponseBeaconBlocks (items : list BeaconBlock)
  | ResponseRecentBeaconBlocks (items : list BeaconBlock)
  | ResponseUnknown (code : Z) (value : Bytes).

(** ** Framing *)

(** [UviBytes]: a frame is a length and that many bytes.  The decoder may keep
    a part of a frame in its state. *)
Class UviCodec := {
  Uvi : Type;
  uvi_default : Uvi;
  uvi_encode : Bytes → res SszError Bytes;
  uvi_decode : Uvi → Bytes → res SszError (option Bytes) * (Uvi * Bytes);
}.

(** What the codecs rely on: a frame is read back and the rest is left, no
    input is no frame, and the buffer does not grow. *)
Class UviOk (U : UviCodec) : Prop := {
  uvi_roundtrip : ∀ payload frame rest, uvi_encode payload = Ok frame →
    uvi_decode uvi_default (frame ++ rest) = (Ok (Some payload), (uvi_default, rest));
  uvi_empty : uvi_decode uvi_default [] = (Ok None, (uvi_default, []));
  uvi_shrinks : ∀ uvi src, (length (uvi_decode uvi src).2.2 ≤ length src)%nat;
}.

Section Codecs.
Context `{Config} `{ArithMode} `{U : UviCodec}.

(** [self.uvi.decode(src)] *)
Definition next_frame : M (Uvi * Bytes) SszError (option Bytes) := λ s, uvi_decode s.1 s.2.

(** [src.split_to(1)[0]]; the callers have seen that [src] is not empty. *)
Definition split_byte : M (Uvi * Bytes) SszError Z := λ s,
  match s.2 with [] => (Panic, s) | byte :: src => (Ok byte, (s.1, src)) end.

(** [Encoder for InboundCodec]: the response of a server, appended to [dst] *)
Definition response_code (item : RPCResponse) : Z := match item with ResponseUnknown id _ => id | _ => 0 end.
Definition response_bytes (item : RPCResponse) : Bytes :=
  match item with
  | ResponseHello item => ssz_encode ssz_HelloMessage item
  | ResponseBeaconBlocks items => ssz_encode (ssz_vec ssz_BeaconBlock) items
  | ResponseRecentBeaconBlocks items => ssz_encode (ssz_vec ssz_BeaconBlock) items
  | ResponseUnknown _ value => value
  end.
Definition inbound_encode (item : RPCResponse) (dst : Bytes) : res SszError Bytes :=
  frame ← uvi_encode (response_bytes item); Ok (dst ++ [response_code item] ++ frame).

(** [Decoder for InboundCodec]: the request a server receives *)
Definition decode_request (typ : RPCType) (bytes : Bytes) : res SszError RPCRequest :=
  match typ with
  | TypeHello => RequestHello <$> ssz_decode ssz_HelloMessage bytes
  | TypeGoodbye => RequestGoodbye <$> ssz_decode ssz_GoodbyeReason bytes
  | TypeBeaconBlocks => RequestBeaconBlocks <$> ssz_decode ssz_BeaconBlocksRequest bytes
  | TypeRecentBeaconBlocks => RequestRecentBeaconBlocks <$> ssz_decode ssz_RecentBeaconBlocksRequest bytes
  end.
Definition inbound_decode (typ : RPCType) : M (Uvi * Bytes) SszError (option RPCRequest) :=
  frame ← next_frame;
  match frame with
  | Some bytes => request ← lift (decode_request typ bytes); mret (Some request)
  | None => mret None
  end.

(** [Encoder for OutboundCodec]: the request of a client *)
Definition request_bytes (typ : RPCType) (item : RPCRequest) : res SszError Bytes :=
  match typ, item with
  | TypeHello, RequestHello item => Ok (ssz_encode ssz_HelloMessage item)
  | TypeGoodbye, RequestGoodbye item => Ok (ssz_encode ssz_GoodbyeReason item)
  | TypeBeaconBlocks, RequestBeaconBlocks item => Ok (ssz_encode ssz_BeaconBlocksRequest item)
  | TypeRecentBeaconBlocks, RequestRecentBeaconBlocks item => Ok (ssz_encode ssz_RecentBeaconBlocksRequest item)
  | _, _ => Err (OtherError "outbound codec invalid type")
  end.
Definition outbound_encode (typ : RPCType) (item : RPCRequest) (dst : Bytes) : res SszError Bytes :=
  bytes ← request_bytes typ item; frame ← uvi_encode bytes; Ok (dst ++ frame).

(** [Decoder for OutboundCodec]: the response a client receives.  The loop that
    collects blocks reads a code byte in every iteration. *)
Fixpoint collect_blocks (fuel : nat) (result : list BeaconBlock) : M (Uvi * Bytes) SszError (list BeaconBlock) :=
  s ← get;
  match s.2 with
  | [] => mret result
  | _ :: _ =>
      match fuel with
      | O => lift OutOfFuel
      | S fuel' =>
          code ← split_byte;
          if negb (code =? 0) then mret result else
          frame ← next_frame;
          match frame with
          | Some bytes => block ← lift (ssz_decode ssz_BeaconBlock bytes); collect_blocks fuel' (result ++ [block])
          | None => mret result
          end
      end
  end.

Definition outbound_decode (typ : RPCType) : M (Uvi * Bytes) SszError (option RPCResponse) :=
  s ← get;
  match s.2 with
  | [] => mret None
  | src =>
      match typ with
      | TypeHello =>
          code ← split_byte;
          frame ← next_frame;
          match frame with
          | Some bytes =>
              if code =? 0 then
                item ← lift (ssz_decode ssz_HelloMessage bytes); mret (Some (ResponseHello item))
              else mret (Some (ResponseUnknown code bytes))
          | None => mret None
          end
      | TypeGoodbye =>
          code ← split_byte;
          frame ← next_frame;
          match frame with
          | Some bytes => mret (Some (ResponseUnknown code bytes))
          | None => mret None
          end
      | TypeBeaconBlocks =>
          result ← collect_blocks (S (length src)) []; mret (Some (ResponseBeaconBlocks result))
      | TypeRecentBeaconBlocks =>
          result ← collect_blocks (S (length src)) []; mret (Some (ResponseRecentBeaconBlocks result))
      end
  end.
End Codecs.

(** ** Gossip *)

Inductive PubsubType : Type := PubsubBlock | PubsubAttestation | PubsubVoluntaryExit | PubsubProposerSlashing
  | PubsubAttesterSlashing.

Definition gossipsub_topic (typ : PubsubType) : string :=
  match typ with
  | PubsubBlock => "/eth2/beacon_block/ssz"
  | PubsubAttestation => "/eth2/beacon_attestation/ssz"
  | PubsubVoluntaryExit => "/eth2/voluntary_exit/ssz"
  | PubsubProposerSlashing => "/eth2/proposer_slashing/ssz"
  | PubsubAttesterSlashing => "/eth2/attester_slashing/ssz"
  end.

Definition from_gossipsub_topic_hash (topic : string) : option PubsubType :=
  if bool_decide (topic = "/eth2/beacon_block/ssz") then Some PubsubBlock
  else if bool_decide (topic = "/eth2/beacon_attestation/ssz") then Some PubsubAttestation
  else if bool_decide (topic = "/eth2/voluntary_exit/ssz") then Some PubsubVoluntaryExit
  else if bool_decide (topic = "/eth2/proposer_slashing/ssz") then Some PubsubProposerSlashing
  else if bool_decide (topic = "/eth2/attester_slashing/ssz") then Some PubsubAttesterSlashing
  else None.

Inductive PubsubMessage : Type :=
  | MessageBlock (item : BeaconBlock)
  | MessageAttestation (item : Attestation)
  | MessageVoluntaryExit (item : VoluntaryExit)
  | MessageProposerSlashing (item : ProposerSlashing)
  | MessageAttesterSlashing (item : AttesterSlashing).

Definition message_typ (message : PubsubMessage) : PubsubType :=
  match message with
  | MessageBlock _ => PubsubBlock
  | MessageAttestation _ => PubsubAttestation
  | MessageVoluntaryExit _ => PubsubVoluntaryExit
  | MessageProposerSlashing _ => PubsubProposerSlashing
  | MessageAttesterSlashing _ => PubsubAttesterSlashing
  end.

Section Gossip.
Context `{C : Config} `{ArithMode}.

Definition ssz_data (message : PubsubMessage) : Bytes :=
  match message with
  | MessageBlock item => ssz_encode ssz_BeaconBlock item
  | MessageAttestation item => ssz_encode ssz_Attestation item
  | MessageVoluntaryExit item => ssz_encode ssz_VoluntaryExit item
  | MessageProposerSlashing item => ssz_encode ssz_ProposerSlashing item
  | MessageAttesterSlashing item => ssz_encode ssz_AttesterSlashing item
  end.

Definition from_ssz_data (typ : PubsubType) (data : Bytes) : res SszError PubsubMessage :=
  match typ with
  | PubsubBlock => MessageBlock <$> ssz_decode ssz_BeaconBlock data
  | PubsubAttestation => MessageAttestation <$> ssz_decode ssz_Attestation data
  | PubsubVoluntaryExit => MessageVoluntaryExit <$> ssz_decode ssz_VoluntaryExit data
  | PubsubProposerSlashing => MessageProposerSlashing <$> ssz_decode ssz_ProposerSlashing data
  | PubsubAttesterSlashing => MessageAttesterSlashing <$> ssz_decode ssz_AttesterSlashing data
  end.

(** [Behaviour::publish]: the topic and the data handed to gossipsub *)
Definition publish (message : PubsubMessage) : string * Bytes :=
  (gossipsub_topic (message_typ message), ssz_data message).

(** [inject_event(GossipsubEvent::Message)]: the event pushed, if any.  Unknown
    topics and messages that do not decode are dropped. *)
Definition gossip_received (topics : list string) (data : Bytes) : res SszError (option PubsubMessage) :=
  match head (omap from_gossipsub_topic_hash topics) with
  | None => Ok None
  | Some typ =>
      match from_ssz_data typ data with
      | Ok message => Ok (Some message)
      | Err _ => Ok None
      | Panic => Panic
      | OutOfFuel => OutOfFuel
      end
  end.
End Gossip.

(** ** Theorems *)

Definition RPCRequest_valid (request : RPCRequest) : Prop :=
  match request with
  | RequestHello item => HelloMessage_valid item
  | RequestGoodbye _ => True
  | RequestBeaconBlocks item => BeaconBlocksRequest_valid item
  | RequestRecentBeaconBlocks item => RecentBeaconBlocksRequest_valid item
  end.

Definition PubsubMessage_valid `{Config} `{ArithMode} (message : PubsubMessage) : Prop :=
  match message with
  | MessageBlock item => BeaconBlock_valid item
  | MessageAttestation item => Attestation_valid item
  | MessageVoluntaryExit item => VoluntaryExit_valid item
  | MessageProposerSlashing item => ProposerSlashing_valid item
  | MessageAttesterSlashing item => AttesterSlashing_valid item
  end.

Section Roundtrip.
Context `{C : Config} `{!ConfigOk C} `{ArithMode} `{U : UviCodec} `{!UviOk U}.

Lemma Ok_inj {E A} (x y : A) : Ok (E:=E) x = Ok y → x = y.
Proof. congruence. Qed.

Lemma decode_request_ok request bytes :
  RPCRequest_valid request → request_bytes (request_typ request) request = Ok bytes →
  decode_request (request_typ request) bytes = Ok request.
Proof.
  destruct request; cbn [RPCRequest_valid request_typ request_bytes decode_request];
    intros Hv <-%Ok_inj; by rewrite ssz_decode_encode.
Qed.

Lemma next_frame_ok {B} payload frame rest (f : option Bytes → M (Uvi * Bytes) SszError B) :
  uvi_encode payload = Ok frame →
  (next_frame ≫= f) (uvi_default, frame ++ rest) = f (Some payload) (uvi_default, rest).
Proof. intros He. unfold next_frame, mbind, M_bind. cbn. by rewrite (uvi_roundtrip payload frame rest He). Qed.

Lemma split_byte_ok {B} uvi byte src (f : Z → M (Uvi * Bytes) SszError B) :
  (split_byte ≫= f) (uvi, byte :: src) = f byte (uvi, src).
Proof. done. Qed.

Lemma request_received request frame rest :
  RPCRequest_valid request → outbound_encode (request_typ request) request [] = Ok frame →
  inbound_decode (request_typ request) (uvi_default, frame ++ rest) = (Ok (Some request), (uvi_default, rest)).
Proof.
  intros Hv He. unfold outbound_encode in He. res_inv. cbn [app]. unfold inbound_decode.
  erewrite next_frame_ok by done. erewrite decode_request_ok by done. done.
Qed.

(** The loop over the blocks stops at a code that is not zero. *)
Lemma collect_blocks_stops {B} fuel result uvi code src (f : list BeaconBlock → M (Uvi * Bytes) SszError B) :
  code ≠ 0 → (collect_blocks (S fuel) result ≫= f) (uvi, code :: src) = f result (uvi, src).
Proof.
  intros Hc%Z.eqb_neq. unfold mbind at 1, M_bind. cbn [collect_blocks]. rewrite Mbind_get. cbn [snd].
  by rewrite split_byte_ok, Hc.
Qed.

(** C33: on the wire, a request of any type with values in range reaches the
    server as it was sent, and what follows it is left in the buffer.  So does,
    on the client, the hello response, and a response with an error code to a
    hello or a goodbye request.  An error code in answer to a request for blocks
    is lost: the client takes it for an empty list of blocks, and its message is
    left in the buffer. *)
Theorem rpc_roundtrip :
  (∀ request frame rest, RPCRequest_valid request →
     outbound_encode (request_typ request) request [] = Ok frame →
     inbound_decode (request_typ request) (uvi_default, frame ++ rest) = (Ok (Some request), (uvi_default, rest))) ∧
  (∀ hello frame rest, HelloMessage_valid hello → inbound_encode (ResponseHello hello) [] = Ok frame →
     outbound_decode TypeHello (uvi_default, frame ++ rest) = (Ok (Some (ResponseHello hello)), (uvi_default, rest))) ∧
  (∀ code value frame rest, code ≠ 0 → inbound_encode (ResponseUnknown code value) [] = Ok frame →
     outbound_decode TypeHello (uvi_default, frame ++ rest) =
       (Ok (Some (ResponseUnknown code value)), (uvi_default, rest)) ∧
     outbound_decode TypeGoodbye (uvi_default, frame ++ rest) =
       (Ok (Some (ResponseUnknown code value)), (uvi_default, rest)) ∧
     outbound_decode TypeBeaconBlocks (uvi_default, frame ++ rest) =
       (Ok (Some (ResponseBeaconBlocks [])), (uvi_default, drop 1 frame ++ rest)) ∧
     outbound_decode TypeRecentBeaconBlocks (uvi_default, frame ++ rest) =
       (Ok (Some (ResponseRecentBeaconBlocks [])), (uvi_default, drop 1 frame ++ rest))).
Proof.
  split; [|split].
  - exact request_received.
  - intros hello frame rest Hv He. unfold inbound_encode in He. res_inv. cbn [app response_code].
    unfold outbound_decode. rewrite Mbind_get. cbn [snd app]. rewrite split_byte_ok.
    erewrite next_frame_ok by done. cbn [response_bytes Z.eqb]. by rewrite ssz_decode_encode.
  - intros code value frame rest Hc He. unfold inbound_encode in He. res_inv. cbn [app response_code].
    unfold outbound_decode. rewrite !Mbind_get. cbn [snd app]. rewrite !split_byte_ok, !collect_blocks_stops by done.
    erewrite !next_frame_ok by done. by rewrite (proj2 (Z.eqb_neq _ _)).
Qed.

Lemma from_ssz_data_ok message :
  PubsubMessage_valid message → from_ssz_data (message_typ message) (ssz_data message) = Ok message.
Proof.
  destruct message; cbn [PubsubMessage_valid message_typ ssz_data from_ssz_data]; intros Hv;
    by rewrite ssz_decode_encode.
Qed.

(** What is published on a gossip topic is received as it was sent. *)
Theorem gossip_roundtrip (message : PubsubMessage) (topics : list string) :
  PubsubMessage_valid message → omap from_gossipsub_topic_hash topics = [] →
  gossip_received (topics ++ [(publish message).1]) (publish message).2 = Ok (Some message).
Proof.
  intros Hv Ht. unfold gossip_received, publish. cbn [fst snd]. rewrite omap_app, Ht. cbn [app].
  assert (omap from_gossipsub_topic_hash [gossipsub_topic (message_typ message)] = [message_typ message]) as ->
    by by destruct message.
  cbn [head]. by rewrite from_ssz_data_ok.
Qed.

(** The first field of a struct comes from the first bytes. *)
Lemma struct_first_field {A B} (f : Field A) (fs : Fields B) m n value p :
  field_ty_size f = Some m → ssz_size (field_codec f) = Some n →
  (series ← decode_vector value (fields_types (more_fields f fs)); decode_fields (more_fields f fs) series 0) = Ok p →
  ∃ bytes, slice (E:=SszError) value 0 n = Ok bytes ∧ ssz_decode (field_codec f) bytes = Ok p.1.
Proof.
  intros Hm Hn Hd. res_inv. rename select (decode_vector _ _ = _) into Hv.
  unfold decode_vector in Hv. cbn [fields_types vector_fixed_parts] in Hv. rewrite Hn in Hv.
  cbn [vector_fixed_parts] in Hv. rewrite Z.add_0_l in Hv.
  destruct (slice value 0 n) as [bytes| | |]; try done. cbn [mbind res_bind] in Hv.
  destruct (vector_fixed_parts value (fields_types fs) n) as [[items offsets]| | |]; try done.
  cbn [mbind res_bind vector_variable_parts] in Hv.
  destruct (vector_variable_parts value items offsets) as [parts| | |]; try done. cbn in Hv. injection Hv as <-.
  exists bytes. split; [done|]. cbn [decode_fields] in Hd.
  assert (decode_field f (FixedItem bytes :: parts) 0 = ssz_decode (field_codec f) bytes) as Heq.
  { unfold decode_field, vec_index. cbn. by rewrite Hm. }
  rewrite Heq in Hd. destruct (ssz_decode (field_codec f) bytes) as [x| | |]; try done. cbn [mbind res_bind] in Hd.
  destruct (decode_fields fs _ _); try done. cbn in Hd. by injection Hd as <-.
Qed.

Lemma block_slot_bytes bytes block :
  ssz_decode ssz_BeaconBlock bytes = Ok block → blk_slot block = from_le_bytes (take 8 bytes).
Proof.
  intros Hd. unfold ssz_BeaconBlock, ssz_struct in Hd. cbn [ssz_decode] in Hd.
  apply bind_Ok in Hd as (series & Hv & Hd). apply bind_Ok in Hd as (p & Hf & Hd).
  destruct p as [a [b [c [d e]]]]. injection Hd as <-. cbn [blk_slot].
  destruct (struct_first_field (plain ssz_u64) (fields [plain ssz_H256; plain ssz_H256; plain ssz_BeaconBlockBody;
    plain ssz_Signature]) 8 8 bytes (a, (b, (c, (d, e))))) as (first & Hs & Hu); [done|done| |].
  { rewrite Hv. exact Hf. }
  apply slice_Ok in Hs as [_ ->]. cbn [plain field_codec ssz_u64 ssz_uint ssz_decode fst] in Hu.
  destruct (negb _); [done|]. injection Hu as <-. done.
Qed.

(** A list of one block starts with its offset and then the block's slot. *)
Lemma one_block_prefix block :
  take 8 (ssz_encode (ssz_vec ssz_BeaconBlock) [block]) = to_le_bytes 4 4 ++ to_le_bytes 4 (blk_slot block).
Proof.
  unfold ssz_vec, encode_list. cbn [ssz_encode fmap list_fmap].
  change (series_item (ssz_size ssz_BeaconBlock) (ssz_encode ssz_BeaconBlock block))
    with (VariableItem (ssz_encode ssz_BeaconBlock block)).
  unfold series_encode at 1. cbn [encode_fixed_parts encode_variable_parts].
  change (ssz_encode LengthOffset (as_u32 (fixed_parts_size _))) with (to_le_bytes 4 4).
  rewrite !app_nil_r. change (ssz_encode ssz_BeaconBlock block) with
    (to_le_bytes 8 (blk_slot block) ++ drop 8 (ssz_encode ssz_BeaconBlock block)).
  set (rest := drop 8 _). clearbody rest. cbn. done.
Qed.

(** C36: a server writes the blocks of a response as one SSZ list in one frame,
    while the client reads every frame as one block.  Whatever the blocks, the
    client does not get them; on the empty response it panics.  And a response
    that arrives in two pieces, the code byte first, loses its code: the client
    drops the byte and starts over. *)
Theorem responses_not_received :
  (∀ blocks frame, Forall (λ block, 0 ≤ blk_slot block < 2 ^ 32) blocks →
     inbound_encode (ResponseBeaconBlocks blocks) [] = Ok frame →
     (outbound_decode TypeBeaconBlocks (uvi_default, frame)).1 ≠ Ok (Some (ResponseBeaconBlocks blocks)) ∧
     (blocks = [] → (outbound_decode TypeBeaconBlocks (uvi_default, frame)).1 = Panic)) ∧
  (∀ typ code, typ = TypeHello ∨ typ = TypeGoodbye →
     outbound_decode typ (uvi_default, [code]) = (Ok None, (uvi_default, []))).
Proof.
  split.
  - intros blocks frame Hslots He. unfold inbound_encode in He. res_inv.
    rename select (uvi_encode _ = _) into Hf. rename a into frame. cbn [app response_code].
    assert (outbound_decode TypeBeaconBlocks (uvi_default, 0 :: frame) =
      match ssz_decode ssz_BeaconBlock (response_bytes (ResponseBeaconBlocks blocks)) with
      | Ok block => (Ok (Some (ResponseBeaconBlocks [block])), (uvi_default, []))
      | Err e => (Err e, (uvi_default, []))
      | Panic => (Panic, (uvi_default, []))
      | OutOfFuel => (OutOfFuel, (uvi_default, []))
      end) as ->.
    { unfold outbound_decode. rewrite Mbind_get. cbn [snd]. unfold mbind at 1, M_bind at 1.
      assert (∀ fuel, collect_blocks (S fuel) [] (uvi_default, 0 :: frame) =
        (block ← lift (ssz_decode ssz_BeaconBlock (response_bytes (ResponseBeaconBlocks blocks)));
         collect_blocks fuel [block]) (uvi_default, [])) as ->.
      { intros fuel. cbn [collect_blocks]. rewrite Mbind_get. cbn [snd]. rewrite split_byte_ok. cbn [Z.eqb negb].
        rewrite <- (app_nil_r frame) at 1. by rewrite (next_frame_ok _ _ _ _ Hf). }
      rewrite Mbind_lift_case. by destruct (ssz_decode _ _). }
    split.
    + destruct (ssz_decode ssz_BeaconBlock _) as [block| | |] eqn:Hd; cbn [fst]; try done.
      intros [= <-]. apply block_slot_bytes in Hd. cbn [response_bytes] in Hd. rewrite one_block_prefix in Hd.
      inversion_clear Hslots as [|? ? Hs _].
      pose proof (from_to_le_bytes 4 (blk_slot block)) as Hle. rewrite Z.mod_small in Hle by exact Hs.
      assert (∀ l, from_le_bytes (to_le_bytes 4 4 ++ l) = 4 + 2 ^ 32 * from_le_bytes l) as Happ.
      { intros l. change (to_le_bytes 4 4) with [4; 0; 0; 0]. cbn [app from_le_bytes]. lia. }
      rewrite Happ, Hle in Hd. lia.
    + intros ->. done.
  - intros typ code Htyp. unfold outbound_decode. rewrite Mbind_get. cbn [snd].
    destruct Htyp as [->| ->]; rewrite split_byte_ok; unfold next_frame, mbind, M_bind; cbn; by rewrite uvi_empty.
Qed.
End Roundtrip.

(** ** Witnesses: frames of at most 127 bytes, with a length byte *)

Section Witnesses.
#[local] Existing Instances toy_config toy_config_ok toy_mode.
#[local] Instance toy_uvi : UviCodec := {|
  Uvi := unit;
  uvi_default := tt;
  uvi_encode := λ payload,
    if zlen payload <? 128 then Ok (zlen payload :: payload) else Err (OtherError "too long");
  uvi_decode := λ _ src,
    match src with
    | [] => (Ok None, (tt, []))
    | n :: rest =>
        if n <=? zlen rest then (Ok (Some (take (Z.to_nat n) rest)), (tt, drop (Z.to_nat n) rest))
        else (Ok None, (tt, src))
    end;
|}.
#[local] Instance toy_uvi_ok : UviOk toy_uvi.
Proof.
  split; cbn.
  - intros payload frame rest. destruct (zlen payload <? 128); [|done]. intros [= <-]. cbn.
    rewrite (proj2 (Z.leb_le _ _)) by (rewrite zlen_app; pose proof (zlen_nonneg rest); lia).
    unfold zlen. by rewrite Nat2Z.id, take_app_length, drop_app_length.
  - done.
  - intros _ [|n src]; [done|]. destruct (n <=? zlen src); cbn [snd]; [rewrite length_drop; cbn; lia|done].
Qed.

Definition toy_hello : HelloMessage := mkHelloMessage (replicate 4 1) (replicate 32 2) 3 (replicate 32 4) 5.
Definition toy_request : RPCRequest := RequestBeaconBlocks (mkBeaconBlocksRequest (replicate 32 7) 9 50 1).

Lemma toy_request_valid : RPCRequest_valid toy_request.
Proof. solve_valid. Qed.
Lemma toy_hello_valid : HelloMessage_valid toy_hello.
Proof. solve_valid. Qed.

Definition ok_bytes (r : res SszError Bytes) : Bytes := match r with Ok b => b | _ => [] end.

Lemma rpc_roundtrip_witness :
  let frame := ok_bytes (outbound_encode TypeBeaconBlocks toy_request []) in
  let response := ok_bytes (inbound_encode (ResponseHello toy_hello) []) in
  let failure := ok_bytes (inbound_encode (ResponseUnknown 3 [7; 8]) []) in
  length frame = 57%nat ∧ length response = 86%nat ∧
  inbound_decode TypeBeaconBlocks (uvi_default, frame ++ [1; 2]) = (Ok (Some toy_request), (uvi_default, [1; 2])) ∧
  outbound_decode TypeHello (uvi_default, response ++ []) = (Ok (Some (ResponseHello toy_hello)), (uvi_default, [])) ∧
  outbound_decode TypeGoodbye (uvi_default, failure ++ []) = (Ok (Some (ResponseUnknown 3 [7; 8])), (uvi_default, [])).
Proof.
  intros frame response failure.
  assert (inbound_encode (ResponseUnknown 3 [7; 8]) [] = Ok failure) as He by (vm_compute; reflexivity).
  assert (outbound_encode TypeBeaconBlocks toy_request [] = Ok frame) as Hf by (vm_compute; reflexivity).
  assert (inbound_encode (ResponseHello toy_hello) [] = Ok response) as Hr by (vm_compute; reflexivity).
  split; [vm_compute; reflexivity|]. split; [vm_compute; reflexivity|].
  clearbody frame response failure. split; [|split].
  - exact (proj1 rpc_roundtrip toy_request frame [1; 2] toy_request_valid Hf).
  - exact (proj1 (proj2 rpc_roundtrip) toy_hello response [] toy_hello_valid Hr).
  - exact (proj1 (proj2 (proj2 (proj2 rpc_roundtrip) 3 [7; 8] failure [] ltac:(done) He))).
Defined.

Lemma toy_message_valid : PubsubMessage_valid (MessageBlock toy_block).
Proof. exact toy_block_valid. Qed.

Lemma gossip_roundtrip_witness :
  gossip_received (["/unknown"; "/eth2/beacon_block/ssz"]) (ssz_data (MessageBlock toy_block)) =
    Ok (Some (MessageBlock toy_block)).
Proof. exact (gossip_roundtrip (MessageBlock toy_block) ["/unknown"] toy_message_valid eq_refl). Defined.

Lemma responses_not_received_witness :
  (outbound_decode TypeBeaconBlocks (uvi_default, [0; 0])).1 = Panic ∧
  outbound_decode TypeHello (uvi_default, [0]) = (Ok None, (uvi_default, [])).
Proof.
  assert (inbound_encode (ResponseBeaconBlocks []) [] = Ok [0; 0]) as He by (vm_compute; reflexivity).
  split.
  - exact (proj2 (proj1 responses_not_received [] [0; 0] (Forall_nil_2 _) He) eq_refl).
  - exact (proj2 responses_not_received TypeHello 0 (or_introl eq_refl)).
Defined.
End Witnesses.
