(* ===== verification/Handler.v ===== *)
(** * Answering peers: [blockchain/network/src/handler.rs] and [lib.rs]

    [Handler] reads the block store to answer status and block requests, and
    [start_network_simple_sync] turns every event of the network and of the
    sync component into calls and messages.  The store is a record of its
    queries, [Backend]; [CanonView] says which canonical chain it holds.  The
    sync component and the swarm are external: their calls are the values of
    [Action]. *)
From stdpp Require Import base numbers list.
From Stdlib Require Import ZArith Lia.
From S2P Require Import Prelude Config Types Utils State Node Ssz SszTypes Messages.

#[local] Open Scope Z_scope.

(** The queries of [ChainQuery] the handler makes. *)
Record Backend (E : Type) := mkBackend {
  q_head : H256;
  q_contains : H256 → res E bool;
  q_is_canon : H256 → res E bool;
  q_lookup_canon_depth : Z → res E (option H256);
  q_state_at : H256 → res E BeaconState;
  q_block_at : H256 → res E BeaconBlock;
  q_depth_at : H256 → res E Z;
}.
Arguments q_head {E} _.
Arguments q_contains {E} _ _.
Arguments q_is_canon {E} _ _.
Arguments q_lookup_canon_depth {E} _ _.
Arguments q_state_at {E} _ _.
Arguments q_block_at {E} _ _.
Arguments q_depth_at {E} _ _.

(** Events and messages of [start_network_simple_sync] *)
Inductive RPCEvent : Type :=
  | EventRequest (id : Z) (request : RPCRequest)
  | EventResponse (id : Z) (response : RPCResponse)
  | EventError (id : Z).

Inductive Libp2pEvent (Peer : Type) : Type :=
  | RPC (peer : Peer) (event : RPCEvent)
  | PeerDialed (peer : Peer)
  | PeerDisconnected (peer : Peer)
  | Pubsub (peer : Peer) (message : PubsubMessage).
Arguments RPC {Peer} _ _.
Arguments PeerDialed {Peer} _.
Arguments PeerDisconnected {Peer} _.
Arguments Pubsub {Peer} _ _.

Inductive SyncEvent (Peer : Type) : Type :=
  | QueryStatus
  | QueryPeerStatus (peer : Peer)
  | QueryBlocks (peer : Peer).
Arguments QueryStatus {Peer}.
Arguments QueryPeerStatus {Peer} _.
Arguments QueryBlocks {Peer} _.

(** Calls of the sync component and messages to the swarm *)
Inductive Action (Peer : Type) : Type :=
  | NoteConnected (peer : Peer)
  | NoteDisconnected (peer : Peer)
  | NotePeerStatus (peer : Peer) (hello : HelloMessage)
  | NoteBlocks (blocks : list BeaconBlock) (source : Peer)
  | NoteStatus (hello : HelloMessage)
  | SendRpc (peer : Peer) (event : RPCEvent).
Arguments NoteConnected {Peer} _.
Arguments NoteDisconnected {Peer} _.
Arguments NotePeerStatus {Peer} _ _.
Arguments NoteBlocks {Peer} _ _.
Arguments NoteStatus {Peer} _.
Arguments SendRpc {Peer} _ _.

Section Handler.
Context `{ArithMode} {E : Type} (b : Backend E).

(** [Handler::status] *)
Definition status : res E HelloMessage :=
  let head_hash := q_head b in
  head_state ← unwrap_result (q_state_at b head_hash);
  Ok {|
    hello_fork_version := fork_current_version (fork head_state);
    hello_finalized_root := cp_root (finalized_checkpoint head_state);
    hello_finalized_epoch := cp_epoch (finalized_checkpoint head_state);
    hello_head_root := head_hash;
    hello_head_slot := slot head_state;
  |}.

(** [Handler::head_request] *)
Definition head_request (count : Z) : res E BeaconBlocksRequest :=
  let head_hash := q_head b in
  head_state ← unwrap_result (q_state_at b head_hash);
  start_slot ← u64_add (slot head_state) 1;
  Ok (mkBeaconBlocksRequest head_hash start_slot count 1).

(** [Handler::blocks_by_depth_no_lock]: the loop ends at the first depth that is
    not found. *)
Fixpoint blocks_at_depths (depths : list Z) : res E (list BeaconBlock) :=
  match depths with
  | [] => Ok []
  | d :: depths' =>
      match q_lookup_canon_depth b d with
      | Ok (Some hash) =>
          block ← unwrap_result (q_block_at b hash);
          ret ← blocks_at_depths depths';
          Ok (block :: ret)
      | Panic => Panic
      | OutOfFuel => OutOfFuel
      | _ => Ok []
      end
  end.
Definition blocks_by_depth_no_lock (start_depth count : Z) : res E (list BeaconBlock) :=
  end_depth ← u64_add start_depth count;
  blocks_at_depths (zrange start_depth end_depth).

(** [Handler::blocks_by_depth]; the guard of [let _ = lock()] is dropped at
    once, so no lock is held. *)
Definition blocks_by_depth (start_depth count : Z) : res E (list BeaconBlock) :=
  blocks_by_depth_no_lock start_depth count.

(** The loop of [Handler::blocks_by_slot]: back along the parents until the
    state is not after [start_slot].  [None]: a state is missing. *)
Fixpoint seek_slot (fuel : nat) (start_hash : H256) (start_state : BeaconState) (start_slot : Z)
  : res E (option H256) :=
  if start_slot <? slot start_state then
    match fuel with
    | O => OutOfFuel
    | S fuel' =>
        block ← unwrap_result (q_block_at b start_hash);
        match parent_id block with
        | None => Ok (Some start_hash)
        | Some id =>
            match q_state_at b id with
            | Ok state => seek_slot fuel' id state start_slot
            | Err _ => Ok None
            | Panic => Panic
            | OutOfFuel => OutOfFuel
            end
        end
    end
  else Ok (Some start_hash).

(** [Handler::blocks_by_slot] *)
Definition blocks_by_slot (fuel : nat) (start_hash : H256) (start_slot count : Z) : res E (list BeaconBlock) :=
  known ← unwrap_result (q_contains b start_hash);
  if negb known || bytes_eqb start_hash H256_default then blocks_by_depth_no_lock 1 count
  else
    canon ← unwrap_result (q_is_canon b start_hash);
    if negb canon then Ok [] else
    match q_state_at b start_hash with
    | Ok start_state =>
        found ← seek_slot fuel start_hash start_state start_slot;
        match found with
        | None => Ok []
        | Some hash =>
            start_depth ← unwrap_result (q_depth_at b hash);
            blocks_by_depth_no_lock start_depth count
        end
    | Err _ => Ok []
    | Panic => Panic
    | OutOfFuel => OutOfFuel
    end.

(** ** Events: [start_network_simple_sync] *)

(** The match on a message of the swarm; other messages are logged. *)
Definition on_message {Peer} (fuel : nat) (message : Libp2pEvent Peer) : res E (list (Action Peer)) :=
  match message with
  | PeerDialed peer => Ok [NoteConnected peer]
  | PeerDisconnected peer => Ok [NoteDisconnected peer]
  | Pubsub _ _ => Ok []
  | RPC peer (EventRequest request_id (RequestBeaconBlocks request)) =>
      blocks ← blocks_by_slot fuel (req_head_block_root request) (req_start_slot request) 1;
      Ok [SendRpc peer (EventResponse request_id (ResponseBeaconBlocks blocks))]
  | RPC peer (EventRequest request_id (RequestHello hello)) =>
      own ← status;
      Ok [SendRpc peer (EventResponse request_id (ResponseHello own)); NotePeerStatus peer hello]
  | RPC peer (EventResponse _ (ResponseHello hello)) => Ok [NotePeerStatus peer hello]
  | RPC peer (EventResponse _ (ResponseBeaconBlocks blocks)) => Ok [NoteBlocks blocks peer]
  | RPC _ _ => Ok []
  end.

(** The match on an event of the sync component *)
Definition on_sync_event {Peer} (event : SyncEvent Peer) : res E (list (Action Peer)) :=
  match event with
  | QueryStatus => own ← status; Ok [NoteStatus own]
  | QueryPeerStatus peer => own ← status; Ok [SendRpc peer (EventRequest 0 (RequestHello own))]
  | QueryBlocks peer => request ← head_request 50; Ok [SendRpc peer (EventRequest 0 (RequestBeaconBlocks request))]
  end.
End Handler.

(** ** The canonical chain of a store *)

Record Row := mkRow {
  row_hash : H256;
  row_block : BeaconBlock;
  row_state : BeaconState;
}.

(** The store answers every query about its canonical chain, from the genesis
    block on, as it should. *)
Record CanonView {E} (b : Backend E) (canon : list Row) : Prop := {
  view_lookup : ∀ d, 0 ≤ d → q_lookup_canon_depth b d = Ok (row_hash <$> canon !! Z.to_nat d);
  view_contains : ∀ d r, canon !! d = Some r → q_contains b (row_hash r) = Ok true;
  view_canon : ∀ d r, canon !! d = Some r → q_is_canon b (row_hash r) = Ok true;
  view_state : ∀ d r, canon !! d = Some r → q_state_at b (row_hash r) = Ok (row_state r);
  view_block : ∀ d r, canon !! d = Some r → q_block_at b (row_hash r) = Ok (row_block r);
  view_depth : ∀ d r, canon !! d = Some r → q_depth_at b (row_hash r) = Ok (Z.of_nat d);
  view_genesis : ∀ r, canon !! 0%nat = Some r → parent_id (row_block r) = None;
  view_parent : ∀ d r p, canon !! S d = Some r → canon !! d = Some p → parent_id (row_block r) = Some (row_hash p);
}.

Section Proofs.
Context `{ArithMode} {E : Type} (b : Backend E) (canon : list Row) (Hview : CanonView b canon).

Lemma blocks_at_depths_ok d n :
  0 ≤ d → blocks_at_depths b (zrange d (d + Z.of_nat n)) = Ok (row_block <$> take n (drop (Z.to_nat d) canon)).
Proof using Hview.
  revert d. induction n as [|n IH]; intros d Hd; [by rewrite Z.add_0_r, zrange_nil|].
  rewrite zrange_cons by lia. cbn [blocks_at_depths]. rewrite (view_lookup _ _ Hview d Hd).
  destruct (canon !! Z.to_nat d) as [r|] eqn:Hr.
  - cbn [fmap option_fmap option_map]. rewrite (view_block _ _ Hview _ _ Hr). cbn [unwrap_result mbind res_bind].
    replace (d + Z.of_nat (S n)) with (d + 1 + Z.of_nat n) by lia. rewrite IH by lia. cbn [mbind res_bind].
    rewrite (drop_S _ _ _ Hr). cbn [take fmap list_fmap]. by replace (Z.to_nat (d + 1)) with (S (Z.to_nat d)) by lia.
  - cbn. by rewrite drop_ge by by apply lookup_ge_None.
Qed.

Lemma blocks_by_depth_ok d count :
  0 ≤ d → 0 ≤ count → d + count < 2 ^ 64 →
  blocks_by_depth_no_lock b d count = Ok (row_block <$> take (Z.to_nat count) (drop (Z.to_nat d) canon)).
Proof using Hview.
  intros Hd Hc Hlt. unfold blocks_by_depth_no_lock. rewrite u64_add_ok by (unfold is_u64; lia).
  cbn [mbind res_bind]. rewrite <- blocks_at_depths_ok by done. by rewrite Z2Nat.id.
Qed.

(** The block the search stops at. *)
Definition slot_start (start_slot : Z) (k j : nat) : Prop :=
  (j ≤ k)%nat ∧ (∀ i r, (j < i ≤ k)%nat → canon !! i = Some r → start_slot < slot (row_state r)) ∧
  (j = 0%nat ∨ ∃ r, canon !! j = Some r ∧ slot (row_state r) ≤ start_slot).

Lemma seek_slot_ok fuel k r start_slot :
  (k < fuel)%nat → canon !! k = Some r →
  ∃ j rj, seek_slot b fuel (row_hash r) (row_state r) start_slot = Ok (Some (row_hash rj)) ∧
    canon !! j = Some rj ∧ slot_start start_slot k j.
Proof using Hview.
  revert fuel r. induction k as [|k IH]; intros fuel r Hf Hr; (destruct fuel as [|fuel]; [lia|]); cbn [seek_slot];
    destruct (Z.ltb_spec start_slot (slot (row_state r))) as [Hlt|Hle].
  - exists 0%nat, r. rewrite (view_block _ _ Hview _ _ Hr). cbn [unwrap_result mbind res_bind].
    rewrite (view_genesis _ _ Hview r Hr). split; [done|]. split; [done|]. split; [lia|]. split; [lia|by left].
  - exists 0%nat, r. split; [done|]. split; [done|]. split; [lia|]. split; [lia|by left].
  - rewrite (view_block _ _ Hview _ _ Hr). cbn [unwrap_result mbind res_bind].
    destruct (lookup_lt_is_Some_2 canon k) as [p Hp]; [apply lookup_lt_Some in Hr; lia|].
    rewrite (view_parent _ _ Hview k r p Hr Hp), (view_state _ _ Hview k p Hp).
    destruct (IH fuel p ltac:(lia) Hp) as (j & rj & Hs & Hj & Hjk & Hall & Hend).
    exists j, rj. split; [done|]. split; [done|]. split; [lia|]. split; [|done]. intros i ri Hi Hri.
    destruct (decide (i = S k)) as [->|]; [by simplify_eq|]. apply (Hall i ri); [lia|done].
  - exists (S k), r. split; [done|]. split; [done|]. split; [lia|]. split; [lia|]. right. by exists r.
Qed.

Lemma blocks_by_slot_ok fuel k r start_slot count :
  (k < fuel)%nat → canon !! k = Some r → row_hash r ≠ H256_default → 0 ≤ count → Z.of_nat k + count < 2 ^ 64 →
  ∃ j, slot_start start_slot k j ∧
    blocks_by_slot b fuel (row_hash r) start_slot count = Ok (row_block <$> take (Z.to_nat count) (drop j canon)).
Proof using Hview.
  intros Hf Hr Hh Hc Hlt. destruct (seek_slot_ok fuel k r start_slot Hf Hr) as (j & rj & Hseek & Hj & Hstart).
  exists j. split; [done|]. unfold blocks_by_slot. rewrite (view_contains _ _ Hview _ _ Hr). cbn [unwrap_result mbind res_bind negb].
  unfold bytes_eqb. rewrite bool_decide_eq_false_2 by done. cbn [orb].
  rewrite (view_canon _ _ Hview _ _ Hr). cbn [unwrap_result mbind res_bind negb].
  rewrite (view_state _ _ Hview _ _ Hr), Hseek. cbn [mbind res_bind].
  rewrite (view_depth _ _ Hview _ _ Hj). cbn [unwrap_result mbind res_bind]. destruct Hstart as [? _].
  rewrite blocks_by_depth_ok by lia. by rewrite Nat2Z.id.
Qed.
End Proofs.

(** The answer to a request for blocks.  For a canonical block the search
    ends, within as many steps as the block is deep, at the last ancestor not
    after the requested slot, and the answer is the canonical blocks from there
    on, that ancestor included, at most [count] of them; for an unknown block
    it is the blocks after the genesis block. *)
Theorem blocks_by_slot_correct `{ArithMode} {E} (b : Backend E) (canon : list Row) (start_slot count : Z) :
  CanonView b canon → 0 ≤ count → zlen canon + count < 2 ^ 64 →
  (∀ k r fuel, canon !! k = Some r → row_hash r ≠ H256_default → (k < fuel)%nat →
     ∃ j, (j ≤ k)%nat ∧
       (∀ i r, (j < i ≤ k)%nat → canon !! i = Some r → start_slot < slot (row_state r)) ∧
       (j = 0%nat ∨ ∃ r, canon !! j = Some r ∧ slot (row_state r) ≤ start_slot) ∧
       blocks_by_slot b fuel (row_hash r) start_slot count =
         Ok (row_block <$> take (Z.to_nat count) (drop j canon))) ∧
  (∀ hash fuel, q_contains b hash = Ok false → canon ≠ [] →
     blocks_by_slot b fuel hash start_slot count = Ok (row_block <$> take (Z.to_nat count) (drop 1 canon))).
Proof.
  intros Hview Hc Hlt. split.
  - intros k r fuel Hr Hh Hf. pose proof (lookup_lt_Some _ _ _ Hr). unfold zlen in Hlt.
    destruct (blocks_by_slot_ok b canon Hview fuel k r start_slot count) as (j & (Hj & Hall & Hend) & Hrun);
      [done|done|done|done|lia|]. by exists j.
  - intros hash fuel Hno Hne. unfold blocks_by_slot. rewrite Hno. cbn [unwrap_result mbind res_bind negb orb].
    assert (1 ≤ zlen canon) by (destruct canon; [done|unfold zlen; cbn; lia]).
    rewrite (blocks_by_depth_ok b canon Hview) by lia. done.
Qed.

(** A node asks for the blocks after its head with [head_request]; a peer on
    whose canonical chain that head lies answers with one block, the head of
    the asking node itself, whatever follows it. *)
Theorem sync_request_repeats_head `{ArithMode} {E E' Peer} (client : Backend E) (server : Backend E')
  (canon : list Row) (k : nat) (r : Row) (peer asker : Peer) (fuel : nat) :
  q_head client = row_hash r → q_state_at client (q_head client) = Ok (row_state r) →
  0 ≤ slot (row_state r) < 2 ^ 64 - 1 →
  CanonView server canon → canon !! k = Some r → row_hash r ≠ H256_default → (k < fuel)%nat →
  Z.of_nat k + 1 < 2 ^ 64 →
  ∃ request, on_sync_event client (QueryBlocks peer) = Ok [SendRpc peer (EventRequest 0 (RequestBeaconBlocks request))] ∧
    ∀ id, on_message server fuel (RPC asker (EventRequest id (RequestBeaconBlocks request))) =
      Ok [SendRpc asker (EventResponse id (ResponseBeaconBlocks [row_block r]))].
Proof.
  intros Hhead Hstate Hslot Hview Hr Hh Hf Hk.
  exists (mkBeaconBlocksRequest (row_hash r) (slot (row_state r) + 1) 50 1). split.
  - unfold on_sync_event, head_request. rewrite Hstate, Hhead. cbn [unwrap_result mbind res_bind].
    by rewrite u64_add_ok by (unfold is_u64; lia).
  - intros id. cbn [on_message req_head_block_root req_start_slot].
    destruct (blocks_by_slot_ok server canon Hview fuel k r (slot (row_state r) + 1) 1) as (j & (Hj & Hall & _) & Hrun);
      [done|done|done|lia|done|].
    rewrite Hrun. cbn [mbind res_bind]. do 4 f_equal.
    assert (j = k) as ->.
    { destruct (decide (j = k)) as [|Hne]; [done|]. specialize (Hall k r ltac:(lia) Hr). lia. }
    rewrite (drop_S _ _ _ Hr). done.
Qed.

(** ** Witnesses: a chain of three blocks at slots 0, 1 and 5 *)

Section Witnesses.
#[local] Existing Instances toy_config toy_config_ok toy_mode.

Definition toy_hash (n : Z) : H256 := replicate 32 n.
Definition toy_row (n parent s : Z) : Row :=
  mkRow (toy_hash n) (mkBeaconBlock s (toy_hash parent) (toy_hash 0) toy_body H768_default)
    (with_slot s BeaconState_default).
Definition toy_rows : list Row := [toy_row 1 0 0; toy_row 2 1 1; toy_row 3 2 5].

(** A store that holds exactly these rows. *)
Definition toy_find (hash : H256) : option (Z * Row) :=
  (λ i, (i, default (toy_row 0 0 0) (toy_rows !! Z.to_nat i))) <$> position (λ r, bytes_eqb (row_hash r) hash) toy_rows.
Definition toy_query {A} (f : Z * Row → A) (hash : H256) : res unit A := ok_or (f <$> toy_find hash) tt.
Definition toy_backend (head : H256) : Backend unit := {|
  q_head := head;
  q_contains := λ hash, Ok (match toy_find hash with Some _ => true | None => false end);
  q_is_canon := toy_query (λ _, true);
  q_lookup_canon_depth := λ d, Ok (row_hash <$> toy_rows !! Z.to_nat d);
  q_state_at := toy_query (λ x, row_state x.2);
  q_block_at := toy_query (λ x, row_block x.2);
  q_depth_at := toy_query fst;
|}.

Lemma toy_rows_inv d r :
  toy_rows !! d = Some r →
  (d = 0%nat ∧ r = toy_row 1 0 0) ∨ (d = 1%nat ∧ r = toy_row 2 1 1) ∨ (d = 2%nat ∧ r = toy_row 3 2 5).
Proof. destruct d as [|[|[|]]]; intros [= <-]; auto. Qed.

Lemma toy_view head : CanonView (toy_backend head) toy_rows.
Proof.
  split; [done|..]; try (intros d r [[-> ->]|[[-> ->]|[-> ->]]]%toy_rows_inv; vm_compute; reflexivity).
  - intros r [[_ ->]|[[? ->]|[? ->]]]%toy_rows_inv; [vm_compute; reflexivity|done|done].
  - intros d r p [[? ->]|[[? ->]|[? ->]]]%toy_rows_inv [[? ->]|[[? ->]|[? ->]]]%toy_rows_inv;
      try lia; vm_compute; reflexivity.
Qed.

Lemma blocks_by_slot_correct_witness :
  ∃ j, (j ≤ 2)%nat ∧
    (∀ i r, (j < i ≤ 2)%nat → toy_rows !! i = Some r → 3 < slot (row_state r)) ∧
    (j = 0%nat ∨ ∃ r, toy_rows !! j = Some r ∧ slot (row_state r) ≤ 3) ∧
    blocks_by_slot (toy_backend (toy_hash 3)) 10 (toy_hash 3) 3 2 =
      Ok (row_block <$> take (Z.to_nat 2) (drop j toy_rows)).
Proof.
  exact (proj1 (blocks_by_slot_correct (toy_backend (toy_hash 3)) toy_rows 3 2 (toy_view (toy_hash 3))
    ltac:(done) ltac:(vm_compute; reflexivity)) 2%nat (toy_row 3 2 5) 10%nat eq_refl ltac:(discriminate) ltac:(lia)).
Defined.

(** A node at block 2 asks a peer at block 3, and is sent block 2. *)
Lemma sync_request_repeats_head_witness :
  ∃ request, on_sync_event (toy_backend (toy_hash 2)) (QueryBlocks 7) =
      Ok [SendRpc 7 (EventRequest 0 (RequestBeaconBlocks request))] ∧
    ∀ id, on_message (toy_backend (toy_hash 3)) 10 (RPC 8 (EventRequest id (RequestBeaconBlocks request))) =
      Ok [SendRpc 8 (EventResponse id (ResponseBeaconBlocks [row_block (toy_row 2 1 1)]))].
Proof.
  apply (sync_request_repeats_head (toy_backend (toy_hash 2)) (toy_backend (toy_hash 3)) toy_rows 1 (toy_row 2 1 1) 7 8 10).
  - reflexivity.
  - vm_compute. reflexivity.
  - split; vm_compute; [discriminate|reflexivity].
  - apply toy_view.
  - reflexivity.
  - discriminate.
  - lia.
  - lia.
Defined.
End Witnesses.
