(* ===== verification/DepositTree.v ===== *)
(** * The deposit tree of the node: [blockchain/src/main.rs]

    A node started without a genesis state makes its own: it generates
    deposits, builds the Merkle tree of the deposit contract over them, and
    derives the proof of every deposit from the tree.  The tree is stored
    without padding: a layer of odd length is completed with the root of an
    empty subtree of that height, and [deposit_proof] does the same for a
    sibling that is missing.

    The theorems show that every proof is accepted by the check of the beacon
    chain against the root of the tree, for every number of deposits the tree
    has room for, and that the genesis state is then built without an error. *)
From stdpp Require Import base numbers list.
From Stdlib Require Import ZArith Lia.
From S2P Require Import Prelude Config Types Utils State Accessors Mutators Block Transition Lifecycle Operations.

#[local] Open Scope Z_scope.

Section DepositTree.
Context `{Cfg : Config} `{TR : TreeRoot} {E : Type}.

(** The roots of empty subtrees, by height. *)
Definition zerohashes : res E (list H256) :=
  res_fold (λ zs layer,
    z ← vec_index zs (layer - 1);
    Ok (zs ++ [hash [z; z]])) [H256_default] (zrange 1 32).

(** [new_values]: the hashes of the pairs of a layer of even length. *)
Definition hash_pairs (values : list H256) : res E (list H256) :=
  res_map (λ i,
    a ← vec_index values (i * 2);
    b ← vec_index values (i * 2 + 1);
    Ok (hash [a; b])) (zrange 0 (zlen values / 2)).

(** One turn of the loop over the layers. *)
Definition tree_layer (zs : list H256) (vt : list H256 * list (list H256)) (h : Z)
  : res E (list H256 * list (list H256)) :=
  let '(values, tree) := vt in
  values ← (if zlen values mod 2 =? 1 then z ← vec_index zs h; Ok (values ++ [z]) else Ok values);
  new_values ← hash_pairs values;
  Ok (new_values, tree ++ [new_values]).

(** The number of deposits as a hash: eight bytes, padded with zeros. *)
Definition length_hash (n : Z) : H256 := to_le_bytes 8 n ++ replicate 24 0.

Definition deposit_tree (deposits : list DepositData) : res E (list (list H256)) :=
  zs ← zerohashes;
  let values := tree_root_deposit_data <$> deposits in
  let values_len := zlen values in
  '(values, tree) ← res_fold (tree_layer zs) (values, [values]) (zrange 0 DEPOSIT_CONTRACT_TREE_DEPTH);
  if negb (zlen values =? 1) then Panic
  else
    let values := values ++ [length_hash values_len] in
    l ← vec_index tree 32;
    v1 ← vec_index values 1;
    tree ← vec_set tree 32 (l ++ [v1]);
    v0 ← vec_index values 0;
    let tree := tree ++ [[hash [v0; v1]]] in
    if negb (zlen tree =? 34) then Panic else Ok tree.

Definition deposit_root (tree : list (list H256)) : res E H256 :=
  l ← unwrap (last tree); vec_index l 0.

Definition deposit_proof (tree : list (list H256)) (item_index : Z) : res E (list H256) :=
  zs ← zerohashes;
  proof ← res_map (λ i,
    let subindex := Z.lxor (item_index / 2 ^ i) 1 in
    layer ← vec_index tree i;
    if subindex <? zlen layer then vec_index layer subindex else vec_index zs i)
    (zrange 0 DEPOSIT_CONTRACT_TREE_DEPTH);
  layer ← vec_index tree 32;
  v ← vec_index layer 1;
  Ok (proof ++ [v]).

(** The deposits of the generated genesis, each with its proof.  The conversion
    to a vector of [DEPOSIT_CONTRACT_TREE_DEPTH + 1] hashes fails for another
    length. *)
Definition prove_deposits (deposit_datas : list DepositData) (tree : list (list H256)) : res E (list Deposit) :=
  res_map (λ '(i, deposit_data),
    proof ← deposit_proof tree i;
    if zlen proof =? DEPOSIT_CONTRACT_TREE_DEPTH + 1 then Ok (mkDeposit proof deposit_data) else Panic)
    (enumerate deposit_datas).
End DepositTree.

(** The genesis state of a node that generates its own deposits. *)
Definition generated_genesis `{Config} `{ArithMode} `{TreeRoot} `{BLSConfig} `{MerkleTree}
  (deposit_datas : list DepositData) : res Error BeaconState :=
  tree ← deposit_tree deposit_datas;
  deposits ← prove_deposits deposit_datas tree;
  root ← deposit_root tree;
  let eth1_data := mkEth1Data root (zlen deposits) H256_default in
  unwrap_result (genesis_beacon_state deposits 0 eth1_data).

(** ** The tree as a function

    [node leaves h i] is the [i]-th node of height [h] of the infinite tree
    whose leaves are followed by zeros. *)

Section Nodes.
Context `{Cfg : Config}.

Fixpoint zero_node (h : nat) : H256 :=
  match h with O => H256_default | S h' => hash [zero_node h'; zero_node h'] end.

Fixpoint node (leaves : list H256) (h : nat) (i : Z) : H256 :=
  match h with
  | O => default H256_default (leaves !! Z.to_nat i)
  | S h' => hash [node leaves h' (i * 2); node leaves h' (i * 2 + 1)]
  end.

(** The length of a layer, half of the one below, rounded up. *)
Fixpoint layer_len (n : Z) (h : nat) : Z :=
  match h with O => n | S h' => (layer_len n h' + 1) / 2 end.

Definition layer (leaves : list H256) (h : nat) : list H256 :=
  node leaves h <$> zrange 0 (layer_len (zlen leaves) h).

Lemma node_zero leaves h i : layer_len (zlen leaves) h ≤ i → 0 ≤ i → node leaves h i = zero_node h.
Proof using Type.
  revert i. induction h as [|h IH]; intros i Hi Hpos; cbn in *.
  - rewrite lookup_ge_None_2; [done|]. unfold zlen in Hi. lia.
  - assert (layer_len (zlen leaves) h ≤ i * 2).
    { pose proof (Z.div_mod (layer_len (zlen leaves) h + 1) 2 ltac:(lia)).
      pose proof (Z.mod_pos_bound (layer_len (zlen leaves) h + 1) 2 ltac:(lia)). lia. }
    rewrite !IH by lia. done.
Qed.

Lemma layer_len_pos n h : 0 < n → 0 < layer_len n h.
Proof using Type.
  intros Hn. induction h as [|h IH]; [done|]. cbn. apply Z.div_str_pos. lia.
Qed.

Lemma layer_len_le n h (k : Z) : 0 ≤ k → n ≤ k * 2 ^ Z.of_nat h → layer_len n h ≤ k.
Proof using Type.
  revert k. induction h as [|h IH]; intros k Hk Hn; cbn [layer_len]; [change (2 ^ Z.of_nat 0) with 1 in Hn; lia|].
  rewrite Nat2Z.inj_succ, Z.pow_succ_r in Hn by lia.
  assert (layer_len n h ≤ k * 2) by (apply IH; lia).
  apply Z.lt_succ_r, Z.div_lt_upper_bound; lia.
Qed.

Lemma zlen_layer leaves h : zlen (layer leaves h) = Z.max 0 (layer_len (zlen leaves) h).
Proof using Type.
  unfold layer. rewrite zlen_fmap. unfold zlen at 1. rewrite zrange_length. lia.
Qed.
Lemma layer_0 leaves : layer leaves 0 = leaves.
Proof using Type.
  apply list_eq. intros i. unfold layer. rewrite list_lookup_fmap. cbn [layer_len node].
  destruct (leaves !! i) as [x|] eqn:Hx.
  - pose proof (lookup_lt_Some _ _ _ Hx).
    rewrite (proj2 (zrange_lookup 0 (zlen leaves) i (Z.of_nat i))) by (unfold zlen; lia).
    cbn. by rewrite Nat2Z.id, Hx.
  - apply lookup_ge_None in Hx. rewrite lookup_ge_None_2; [done|].
    rewrite zrange_length. unfold zlen. lia.
Qed.
End Nodes.

(** ** What the tree holds *)

Section TreeLemmas.
Context `{Cfg : Config} `{TR : TreeRoot} {E : Type}.

Lemma vec_index_map_zrange {A} (f : Z → A) n i :
  0 ≤ i < n → vec_index (E:=E) (f <$> zrange 0 n) i = Ok (f i).
Proof using Type.
  intros Hi. apply vec_index_Ok. rewrite list_lookup_fmap.
  rewrite (proj2 (zrange_lookup 0 n (Z.to_nat i) i)) by lia. done.
Qed.

(** The zero hashes up to a height. *)
Lemma zerohashes_upto (n : nat) :
  res_fold (λ zs layer, z ← vec_index zs (layer - 1); Ok (E:=E) (zs ++ [hash [z; z]]))
    [H256_default] (zrange 1 (Z.of_nat n + 1)) = Ok (zero_node <$> seq 0 (S n)).
Proof using Type.
  induction n as [|n IH]; [done|].
  rewrite Nat2Z.inj_succ, <- Z.add_1_l, (Z.add_comm 1), zrange_snoc, res_fold_app, IH, res_bind_Ok by lia.
  cbn [res_fold].
  rewrite (proj2 (vec_index_Ok (E:=E) (zero_node <$> seq 0 (S n)) (Z.of_nat n + 1 - 1) (zero_node n))).
  - rewrite !res_bind_Ok. by rewrite (seq_S (S n)), fmap_app.
  - rewrite list_lookup_fmap, lookup_seq_lt by lia. cbn. f_equal. f_equal. lia.
Qed.

Lemma zerohashes_ok : zerohashes (E:=E) = Ok (zero_node <$> seq 0 32).
Proof using Type. exact (zerohashes_upto 31). Qed.

Lemma zerohashes_index h :
  (h < 32)%nat → vec_index (E:=E) (zero_node <$> seq 0 32) (Z.of_nat h) = Ok (zero_node h).
Proof using Type.
  intros Hh. apply vec_index_Ok. rewrite list_lookup_fmap, lookup_seq_lt by lia. cbn. f_equal. f_equal. lia.
Qed.

(** A layer completed to an even length is the layer of twice the parents. *)
Lemma pad_layer leaves h :
  0 < zlen leaves → (h < 32)%nat →
  (if zlen (layer leaves h) mod 2 =? 1
   then z ← vec_index (zero_node <$> seq 0 32) (Z.of_nat h); Ok (E:=E) (layer leaves h ++ [z])
   else Ok (layer leaves h)) =
  Ok (node leaves h <$> zrange 0 (layer_len (zlen leaves) (S h) * 2)).
Proof using Type.
  intros Hpos Hh. pose proof (layer_len_pos _ h Hpos) as Hn. rewrite zlen_layer, Z.max_r by lia.
  unfold layer. cbn [layer_len]. set (n := layer_len (zlen leaves) h) in *.
  pose proof (Z.div_mod n 2 ltac:(lia)). pose proof (Z.mod_pos_bound n 2 ltac:(lia)).
  pose proof (Z.div_mod (n + 1) 2 ltac:(lia)). pose proof (Z.mod_pos_bound (n + 1) 2 ltac:(lia)).
  destruct (Z.eqb_spec (n mod 2) 1).
  - rewrite zerohashes_index, res_bind_Ok by lia.
    replace ((n + 1) / 2 * 2) with (n + 1) by lia.
    rewrite zrange_snoc, fmap_app by lia. cbn. rewrite (node_zero leaves h n) by lia. done.
  - by replace ((n + 1) / 2 * 2) with n by lia.
Qed.

Lemma hash_pairs_ok leaves h :
  0 < zlen leaves →
  hash_pairs (E:=E) (node leaves h <$> zrange 0 (layer_len (zlen leaves) (S h) * 2)) = Ok (layer leaves (S h)).
Proof using Type.
  intros Hpos. pose proof (layer_len_pos _ (S h) Hpos) as Hn.
  unfold hash_pairs, layer. set (n := layer_len (zlen leaves) (S h)) in *.
  rewrite zlen_fmap, zlen_zrange, Z.sub_0_r, Z.div_mul by lia.
  apply res_map_total. intros i Hi%elem_of_zrange.
  rewrite !vec_index_map_zrange by lia. done.
Qed.

Lemma tree_layer_ok leaves tree h :
  0 < zlen leaves → (h < 32)%nat →
  tree_layer (E:=E) (zero_node <$> seq 0 32) (layer leaves h, tree) (Z.of_nat h) =
  Ok (layer leaves (S h), tree ++ [layer leaves (S h)]).
Proof using Type.
  intros Hpos Hh. unfold tree_layer. rewrite pad_layer, res_bind_Ok, hash_pairs_ok by done. done.
Qed.

Lemma tree_layers leaves (n : nat) :
  0 < zlen leaves → (n ≤ 32)%nat →
  res_fold (tree_layer (E:=E) (zero_node <$> seq 0 32)) (leaves, [leaves]) (zrange 0 (Z.of_nat n)) =
  Ok (layer leaves n, layer leaves <$> seq 0 (S n)).
Proof using Type.
  intros Hpos. induction n as [|n IH]; intros Hn.
  { rewrite zrange_nil by lia. cbn [res_fold seq]. by rewrite fmap_cons, fmap_nil, layer_0. }
  rewrite Nat2Z.inj_succ, <- Z.add_1_r, zrange_snoc, res_fold_app, IH, res_bind_Ok by lia.
  cbn [res_fold]. rewrite tree_layer_ok, res_bind_Ok by (done || lia).
  by rewrite (seq_S (S n)), fmap_app.
Qed.

(** The root of the tree, with the number of leaves mixed in. *)
Definition contract_root (leaves : list H256) : H256 :=
  hash [node leaves 32 0; length_hash (zlen leaves)].

(** The stored tree: the layers, the last with the length next to the root. *)
Definition stored_tree (leaves : list H256) : list (list H256) :=
  (layer leaves <$> seq 0 32) ++ [[node leaves 32 0; length_hash (zlen leaves)]; [contract_root leaves]].

Lemma top_layer leaves : 0 < zlen leaves ≤ 2 ^ 32 → layer leaves 32 = [node leaves 32 0].
Proof using Type.
  intros Hl. unfold layer.
  pose proof (layer_len_pos _ 32 (proj1 Hl)) as H1.
  assert (layer_len (zlen leaves) 32 ≤ 1) as H2 by (apply layer_len_le; lia).
  revert H1 H2. generalize (layer_len (zlen leaves) 32). intros k H1 H2.
  assert (k = 1) as -> by lia. reflexivity.
Qed.

(** The end of [deposit_tree], on any list of layers. *)
Lemma seal_tree (low : list (list H256)) (r n : H256) :
  zlen low = 32 →
  (l ← vec_index (low ++ [[r]]) 32;
   v1 ← vec_index [r; n] 1;
   tree ← vec_set (low ++ [[r]]) 32 (l ++ [v1]);
   v0 ← vec_index [r; n] 0;
   let tree := tree ++ [[hash [v0; v1]]] in
   if negb (zlen tree =? 34) then Panic else Ok (E:=E) tree) =
  Ok (low ++ [[r; n]; [hash [r; n]]]).
Proof using Type.
  unfold zlen. intros Hlow. assert (length low = 32%nat) as Hl by lia.
  rewrite (proj2 (vec_index_Ok _ 32 [r])) by (change (Z.to_nat 32) with 32%nat; by rewrite lookup_app_r, Hl by lia).
  cbn [vec_index]. rewrite !res_bind_Ok.
  rewrite (proj2 (vec_index_Ok [r; n] 1 n)), res_bind_Ok by done.
  rewrite vec_set_in, res_bind_Ok by (unfold zlen; rewrite length_app, Hl; cbn; lia).
  rewrite (proj2 (vec_index_Ok [r; n] 0 r)), res_bind_Ok by done.
  change (Z.to_nat 32) with 32%nat. rewrite insert_app_r_alt, Hl by lia.
  cbn [Nat.sub]. rewrite <- app_assoc. cbn [app insert list_insert].
  rewrite length_app, Hl. done.
Qed.

Lemma deposit_tree_ok deposits :
  0 < zlen deposits ≤ 2 ^ 32 →
  deposit_tree (E:=E) deposits = Ok (stored_tree (tree_root_deposit_data <$> deposits)).
Proof using Type.
  intros Hl. set (leaves := tree_root_deposit_data <$> deposits).
  assert (zlen leaves = zlen deposits) as Hlen by apply zlen_fmap.
  unfold deposit_tree. rewrite zerohashes_ok, res_bind_Ok. fold leaves.
  change DEPOSIT_CONTRACT_TREE_DEPTH with (Z.of_nat 32). rewrite tree_layers, res_bind_Ok by lia.
  rewrite (seq_S 32), fmap_app, fmap_cons, fmap_nil. cbn [Nat.add]. rewrite top_layer by lia.
  change (zlen [node leaves 32 0]) with 1. cbn [Z.eqb negb].
  unfold stored_tree, contract_root.
  generalize (node leaves 32 0), (length_hash (zlen leaves)). intros r n.
  apply seal_tree. rewrite zlen_fmap. unfold zlen. by rewrite length_seq.
Qed.

(** Without deposits, or with more than the tree has room for, the assertion on
    the top layer fails. *)
Lemma deposit_tree_empty : deposit_tree (E:=E) [] = Panic.
Proof using Type. unfold deposit_tree. by rewrite zerohashes_ok. Qed.

Lemma deposit_root_ok leaves : deposit_root (E:=E) (stored_tree leaves) = Ok (contract_root leaves).
Proof using Type.
  unfold deposit_root, stored_tree. generalize (contract_root leaves). intros r.
  by rewrite last_app.
Qed.
End TreeLemmas.

(** ** Merkle branches *)

(** The root a branch leads to: at every height the value is hashed with its
    sibling, on the side the bit of the index tells. *)
Fixpoint branch_root `{Config} (value : H256) (proof : list H256) (index : Z) : H256 :=
  match proof with
  | [] => value
  | p :: rest => branch_root (if Z.odd index then hash [p; value] else hash [value; p]) rest (index / 2)
  end.

(** What the Merkle library documents of a compact value from a plain proof. *)
Class MerkleBranch `{Config} `{MerkleTree} : Prop :=
  compact_root_branch leaf proof index depth :
    zlen proof = depth → 0 ≤ index < 2 ^ depth →
    compact_root leaf proof index depth = Some (branch_root leaf proof index).

Lemma lxor_1 a : Z.lxor a 1 = if Z.odd a then a - 1 else a + 1.
Proof.
  assert (∀ b, Z.odd b = false → Z.lxor b 1 = b + 1) as Heven.
  { intros b Hb. symmetry. apply Z.add_nocarry_lxor.
    change 1 with (Z.ones 1). rewrite Z.land_ones by lia.
    pose proof (Zmod_odd b) as Hm. by rewrite Hb in Hm. }
  destruct (Z.odd a) eqn:Ha; [|by apply Heven].
  rewrite <- (Z.sub_add 1 a) at 1. rewrite <- Heven.
  - by rewrite Z.lxor_assoc, Z.lxor_nilpotent, Z.lxor_0_r.
  - by rewrite Z.odd_sub, Ha.
Qed.

Section Branches.
Context `{Cfg : Config} `{TR : TreeRoot} {E : Type}.

(** The sibling of the path to a leaf, at a height. *)
Definition sibling (leaves : list H256) (i : Z) (k : nat) : H256 :=
  node leaves k (Z.lxor (i / 2 ^ Z.of_nat k) 1).

Lemma branch_step leaves k a :
  (if Z.odd a then hash [node leaves k (Z.lxor a 1); node leaves k a]
   else hash [node leaves k a; node leaves k (Z.lxor a 1)]) = node leaves (S k) (a / 2).
Proof using Type.
  rewrite lxor_1. pose proof (Zmod_odd a) as Hm. pose proof (Z.div_mod a 2 ltac:(lia)).
  cbn [node]. destruct (Z.odd a); repeat f_equal; lia.
Qed.

Lemma branch_path leaves i n k tail :
  0 ≤ i →
  branch_root (node leaves k (i / 2 ^ Z.of_nat k)) ((sibling leaves i <$> seq k n) ++ tail) (i / 2 ^ Z.of_nat k) =
  branch_root (node leaves (k + n) (i / 2 ^ Z.of_nat (k + n))) tail (i / 2 ^ Z.of_nat (k + n)).
Proof using Type.
  intros Hi. revert k. induction n as [|n IH]; intros k; [by rewrite Nat.add_0_r|].
  cbn [seq fmap list_fmap app branch_root]. unfold sibling at 1 2. rewrite branch_step.
  assert (i / 2 ^ Z.of_nat k / 2 = i / 2 ^ Z.of_nat (S k)) as ->.
  { rewrite Z.div_div by lia. f_equal. rewrite Nat2Z.inj_succ, Z.pow_succ_r by lia. lia. }
  rewrite (IH (S k)). by replace (S k + n)%nat with (k + S n)%nat by lia.
Qed.

Lemma proof_entry leaves i k :
  0 < zlen leaves → 0 ≤ i → (k < 32)%nat →
  (let subindex := Z.lxor (i / 2 ^ Z.of_nat k) 1 in
   layer ← vec_index (E:=E) (stored_tree leaves) (Z.of_nat k);
   if subindex <? zlen layer then vec_index layer subindex
   else vec_index (zero_node <$> seq 0 32) (Z.of_nat k)) = Ok (sibling leaves i k).
Proof using Type.
  intros Hl Hi Hk. cbv zeta.
  rewrite (proj2 (vec_index_Ok (stored_tree leaves) (Z.of_nat k) (layer leaves k))), res_bind_Ok.
  2: { unfold stored_tree. rewrite Nat2Z.id, lookup_app_l, list_lookup_fmap, lookup_seq_lt
         by (rewrite ?length_fmap, ?length_seq; lia). done. }
  assert (0 ≤ Z.lxor (i / 2 ^ Z.of_nat k) 1) as Hx.
  { assert (0 ≤ i / 2 ^ Z.of_nat k) by (apply Z.div_pos; lia). rewrite lxor_1.
    pose proof (Zmod_odd (i / 2 ^ Z.of_nat k)). pose proof (Z.div_mod (i / 2 ^ Z.of_nat k) 2 ltac:(lia)).
    destruct (Z.odd _); lia. }
  rewrite zlen_layer. unfold sibling.
  generalize dependent (Z.lxor (i / 2 ^ Z.of_nat k) 1). intros j Hj.
  destruct (Z.ltb_spec j (Z.max 0 (layer_len (zlen leaves) k))).
  - unfold layer. by rewrite vec_index_map_zrange by lia.
  - rewrite zerohashes_index by done. f_equal. symmetry. apply node_zero; lia.
Qed.

Lemma deposit_proof_ok leaves i :
  0 < zlen leaves → 0 ≤ i →
  deposit_proof (E:=E) (stored_tree leaves) i =
  Ok ((sibling leaves i <$> seq 0 32) ++ [length_hash (zlen leaves)]).
Proof using Type.
  intros Hl Hi. unfold deposit_proof. rewrite zerohashes_ok, res_bind_Ok.
  rewrite (res_map_total _ (λ k, sibling leaves i (Z.to_nat k))).
  - rewrite res_bind_Ok.
    rewrite (proj2 (vec_index_Ok (stored_tree leaves) 32 [node leaves 32 0; length_hash (zlen leaves)])).
    + rewrite res_bind_Ok. generalize (node leaves 32 0). intros r.
      rewrite (proj2 (vec_index_Ok [r; _] 1 _) eq_refl), res_bind_Ok. f_equal.
    + unfold stored_tree. rewrite lookup_app_r by (rewrite length_fmap, length_seq; lia).
      rewrite length_fmap, length_seq. reflexivity.
  - intros k Hk%elem_of_zrange. change DEPOSIT_CONTRACT_TREE_DEPTH with 32 in Hk.
    rewrite <- (Z2Nat.id k) by lia. rewrite Nat2Z.id. apply proof_entry; lia.
Qed.
End Branches.

Section Genesis.
Context `{Cfg : Config} `{AM : ArithMode} `{BLS : BLSConfig} `{TR : TreeRoot} `{MT : MerkleTree}.
Context `{COk : !ConfigOk Cfg} `{MB : !MerkleBranch}.

Lemma proof_accepted leaves (i : nat) leaf :
  zlen leaves ≤ 2 ^ 32 → leaves !! i = Some leaf →
  is_valid_merkle_branch leaf ((sibling leaves (Z.of_nat i) <$> seq 0 32) ++ [length_hash (zlen leaves)])
    (DEPOSIT_CONTRACT_TREE_DEPTH + 1) (Z.of_nat i) (contract_root leaves) = true.
Proof using MB.
  intros Hl Hi. unfold is_valid_merkle_branch. pose proof (lookup_lt_Some _ _ _ Hi) as Hlt.
  unfold zlen in Hl. assert (0 ≤ Z.of_nat i < 2 ^ 32) as Hi32 by lia.
  assert (zlen ((sibling leaves (Z.of_nat i) <$> seq 0 32) ++ [length_hash (zlen leaves)]) =
    DEPOSIT_CONTRACT_TREE_DEPTH + 1) as Hlen.
  { unfold zlen. rewrite length_app, length_fmap, length_seq. done. }
  rewrite Hlen, Z.eqb_refl. cbn [negb]. rewrite compact_root_branch
    by (exact Hlen || (change (DEPOSIT_CONTRACT_TREE_DEPTH + 1) with 33; lia)).
  pose proof (branch_path leaves (Z.of_nat i) 32 0 [length_hash (zlen leaves)] ltac:(lia)) as Hp.
  assert (node leaves 0 (Z.of_nat i / 2 ^ Z.of_nat 0) = leaf) as H0.
  { change (2 ^ Z.of_nat 0) with 1. rewrite Z.div_1_r. cbn [node]. by rewrite Nat2Z.id, Hi. }
  rewrite H0 in Hp. change (2 ^ Z.of_nat 0) with 1 in Hp. rewrite Z.div_1_r in Hp. rewrite Hp.
  change (0 + 32)%nat with 32%nat. rewrite (Z.div_small _ (2 ^ Z.of_nat 32)) by (change (Z.of_nat 32) with 32; lia).
  apply bool_decide_eq_true. unfold contract_root. reflexivity.
Qed.

(** The deposits as [prove_deposits] returns them. *)
Definition proved_deposit (leaves : list H256) (i : Z) (d : DepositData) : Deposit :=
  mkDeposit ((sibling leaves i <$> seq 0 32) ++ [length_hash (zlen leaves)]) d.

Lemma prove_deposits_ok ds (leaves := tree_root_deposit_data <$> ds) :
  0 < zlen ds →
  prove_deposits (E:=Error) ds (stored_tree leaves) =
  Ok ((λ id, proved_deposit leaves id.1 id.2) <$> enumerate ds).
Proof using Type.
  intros Hl. assert (zlen leaves = zlen ds) as Hlen by apply zlen_fmap.
  apply res_map_total. intros [i d] Hid. apply elem_of_enumerate in Hid as [Hi _].
  rewrite deposit_proof_ok, res_bind_Ok by lia.
  assert (zlen ((sibling leaves i <$> seq 0 32) ++ [length_hash (zlen leaves)]) =?
    DEPOSIT_CONTRACT_TREE_DEPTH + 1 = true) as ->; [|done].
  unfold zlen. rewrite length_app, length_fmap, length_seq. done.
Qed.

(** The state after the deposits [ds] of the genesis. *)
Record after_deposits (ed : Eth1Data) (ds : list DepositData) (s : BeaconState) : Prop := {
  gd_validators : validators s = new_validator <$> ds;
  gd_balances : balances s = dd_amount <$> ds;
  gd_index : eth1_deposit_index s = zlen ds;
  gd_eth1 : eth1_data s = ed;
  gd_slot : State.slot s = 0;
  gd_fork : fork s = Fork_default;
}.

(** A deposit the node generates: an amount that fits, signed with its key. *)
Definition generated (d : DepositData) : Prop :=
  is_u64 (dd_amount d) ∧
  verify (dd_pubkey d) (tree_root_signing_deposit_data (signing_deposit_data d)) (dd_signature d)
    (genesis_domain domain_deposit) = true.

Lemma genesis_deposit ed before d s (proof : list H256) :
  after_deposits ed before s → zlen before < 2 ^ 32 → generated d → dd_pubkey d ∉ dd_pubkey <$> before →
  is_valid_merkle_branch (tree_root_deposit_data d) proof (DEPOSIT_CONTRACT_TREE_DEPTH + 1)
    (zlen before) (e1_deposit_root ed) = true →
  ∃ s', process_deposit (mkDeposit proof d) s = (Ok tt, s') ∧ after_deposits ed (before ++ [d]) s'.
Proof using COk.
  intros [Hv Hb Hi He Hs Hf] Hn [Ha Hsig] Hk Hp. pose proof (zlen_nonneg before). eexists. split.
  - apply process_deposit_new; [exact Ha|rewrite Hi; unfold is_u64; lia|..].
    + unfold deposit_proved. by rewrite Hi, He.
    + unfold pubkeys. rewrite Hv, <- list_fmap_compose. exact Hk.
    + unfold deposit_signed, domain. rewrite current_epoch_ok, Hs, Hf. cbn.
      rewrite Z.div_0_l by (pose proof spe_pos; lia). exact Hsig.
  - split; cbn; [by rewrite Hv, fmap_app|by rewrite Hb, fmap_app|..|done|done|done].
    rewrite Hi. unfold zlen. rewrite length_app. cbn. lia.
Qed.

Lemma genesis_deposit_loop ed ds before rest s (leaves := tree_root_deposit_data <$> ds) :
  ds = before ++ rest → zlen ds ≤ 2 ^ 32 → e1_deposit_root ed = contract_root leaves →
  NoDup (dd_pubkey <$> ds) → Forall generated ds → after_deposits ed before s →
  ∃ s', for_each ((λ id, proved_deposit leaves id.1 id.2) <$> zip (zrange (zlen before) (zlen ds)) rest)
          process_deposit s = (Ok tt, s') ∧ after_deposits ed ds s'.
Proof using COk MB.
  intros Hds Hlen Hroot Hnd Hgen. revert before s Hds.
  induction rest as [|d rest IH]; intros before s Hds Hs.
  { exists s. rewrite zip_with_nil_r. split; [done|]. by rewrite Hds, app_nil_r. }
  assert (zlen before < zlen ds) as Hlt by (rewrite Hds; unfold zlen; rewrite length_app; cbn; lia).
  rewrite zrange_cons by lia. cbn [zip_with fmap list_fmap fst snd for_each].
  assert (ds !! length before = Some d) as Hd by (rewrite Hds; by rewrite list_lookup_middle).
  destruct (genesis_deposit ed before d s (dep_proof (proved_deposit leaves (zlen before) d)))
    as (s1 & Hrun & Hs1); [done|lia|by eapply Forall_lookup_1| | |].
  - rewrite Hds, fmap_app, fmap_cons in Hnd. apply NoDup_app in Hnd as (_ & Hx & _).
    intros Hin. apply (Hx _ Hin). left.
  - rewrite Hroot. apply proof_accepted; [unfold leaves; by rewrite zlen_fmap|].
    unfold leaves. by rewrite list_lookup_fmap, Hd.
  - destruct (IH (before ++ [d]) s1) as (s2 & Hrun2 & Hs2); [by rewrite <- app_assoc|done|].
    exists s2. split; [|done]. rewrite (Mbind_step _ _ _ _ _ Hrun).
    replace (zlen before + 1) with (zlen (before ++ [d])) by (unfold zlen; rewrite length_app; cbn; lia).
    exact Hrun2.
Qed.
End Genesis.

(** C21: the deposit tree.  For every number of deposits it has room for, the
    tree is built, and the proof it gives for each deposit is accepted by the
    check of the beacon chain against its root. *)
Theorem deposit_proofs_valid `{Config} `{TreeRoot} `{MerkleTree} `{!MerkleBranch} {E} (ds : list DepositData) :
  0 < zlen ds ≤ 2 ^ 32 →
  ∃ tree root, deposit_tree (E:=E) ds = Ok tree ∧ deposit_root (E:=E) tree = Ok root ∧
    ∀ i d, ds !! i = Some d →
      ∃ proof, deposit_proof (E:=E) tree (Z.of_nat i) = Ok proof ∧
        is_valid_merkle_branch (tree_root_deposit_data d) proof (DEPOSIT_CONTRACT_TREE_DEPTH + 1)
          (Z.of_nat i) root = true.
Proof.
  intros Hl. assert (zlen (tree_root_deposit_data <$> ds) = zlen ds) as Hlen by apply zlen_fmap.
  eexists _, _. split; [by apply deposit_tree_ok|]. split; [apply deposit_root_ok|].
  intros i d Hd. eexists. split; [apply deposit_proof_ok; lia|].
  apply proof_accepted; [lia|]. by rewrite list_lookup_fmap, Hd.
Qed.

(** The genesis state a node generates from its own deposits.  When the
    keys differ and every deposit is signed, the state is built without an
    error: its registry has one validator per deposit, in order and with its
    amount, and no deposit is outstanding. *)
Theorem generated_genesis_succeeds `{Config} `{ArithMode} `{TreeRoot} `{BLSConfig} `{MerkleTree}
  `{!ConfigOk _} `{!MerkleBranch} (ds : list DepositData) :
  0 < zlen ds ≤ 2 ^ 32 → NoDup (dd_pubkey <$> ds) → Forall generated ds →
  ∃ s, generated_genesis ds = Ok s ∧
    validators s = genesis_activate <$> (new_validator <$> ds) ∧ balances s = dd_amount <$> ds ∧
    eth1_deposit_index s = zlen ds ∧ e1_deposit_count (eth1_data s) = zlen ds.
Proof.
  intros Hl Hnd Hgen. unfold generated_genesis.
  rewrite deposit_tree_ok, res_bind_Ok, prove_deposits_ok, res_bind_Ok, deposit_root_ok, res_bind_Ok by lia.
  cbv zeta. set (leaves := tree_root_deposit_data <$> ds).
  rewrite zlen_fmap. assert (zlen (enumerate ds) = zlen ds) as ->.
  { rewrite <- (zlen_fmap fst), enumerate_fst, zlen_zrange; lia. }
  set (ed := mkEth1Data _ _ _).
  destruct (genesis_deposit_loop ed ds [] ds (genesis_initial 0 ed))
    as (s & Hrun & [Hv Hb Hi He _ _]); [done|lia|done..|].
  unfold genesis_beacon_state. change (zlen (@nil DepositData)) with 0 in Hrun. unfold enumerate.
  fold leaves in Hrun. rewrite Hrun. cbn [unwrap_result]. eexists. split; [reflexivity|].
  cbn. rewrite Hv, Hb, Hi, He. done.
Qed.

(** ** Witnesses: three deposits, the Merkle library as branches *)

Definition branch_merkle `{Config} : MerkleTree := {|
  compact_root := λ leaf proof index depth,
    if (zlen proof =? depth) && (0 <=? index) && (index <? 2 ^ depth)
    then Some (branch_root leaf proof index) else None;
|}.

Lemma branch_merkle_ok `{Config} : MerkleBranch (H0:=branch_merkle).
Proof.
  intros leaf proof index depth Hl Hi. cbn.
  rewrite (proj2 (Z.eqb_eq _ _) Hl), (proj2 (Z.leb_le _ _)), (proj2 (Z.ltb_lt _ _)) by lia. done.
Qed.

Section Witnesses.
#[local] Existing Instances toy_config toy_config_ok toy_mode toy_tree toy_bls branch_merkle branch_merkle_ok.

Definition toy_deposits : list DepositData := dep_data <$> [toy_deposit 1; toy_deposit 2; toy_deposit 3].

Lemma deposit_proofs_valid_witness :
  0 < zlen toy_deposits ≤ 2 ^ 32 ∧
  ∃ tree root, deposit_tree (E:=Error) toy_deposits = Ok tree ∧ deposit_root (E:=Error) tree = Ok root ∧
    ∀ i d, toy_deposits !! i = Some d →
      ∃ proof, deposit_proof (E:=Error) tree (Z.of_nat i) = Ok proof ∧
        is_valid_merkle_branch (tree_root_deposit_data d) proof (DEPOSIT_CONTRACT_TREE_DEPTH + 1)
          (Z.of_nat i) root = true.
Proof.
  assert (0 < zlen toy_deposits ≤ 2 ^ 32) as Hl by (vm_compute; split; done).
  split; [exact Hl|]. exact (deposit_proofs_valid toy_deposits Hl).
Defined.

Lemma generated_genesis_succeeds_witness :
  ∃ s, generated_genesis toy_deposits = Ok s ∧
    validators s = genesis_activate <$> (new_validator <$> toy_deposits) ∧
    balances s = [32000000000; 32000000000; 32000000000] ∧
    eth1_deposit_index s = 3 ∧ e1_deposit_count (eth1_data s) = 3.
Proof.
  apply (generated_genesis_succeeds toy_deposits).
  - vm_compute. split; done.
  - apply (bool_decide_unpack _). vm_compute. exact I.
  - repeat constructor; vm_compute; done.
Defined.
End Witnesses.
