(* ===== verification/Authoring.v ===== *)
(** * Authored blocks are accepted

    A proposer builds a block with the authoring functions of
    [beacon/src/lib.rs]: it advances a copy of the parent state to the slot of
    the block, applies the inherent and the attestations, and finalizes.  The
    header is processed last, while the import of the block processes it first.
    The two orders agree, because the operations neither read nor write the
    header and leave everything the header check reads alone: this file proves
    it, and with it that the sealed block is accepted on the parent state and
    leads to the state the author had. *)
From stdpp Require Import base numbers list.
From Stdlib Require Import ZArith Lia.
From S2P Require Import Prelude Config Types Utils State Accessors Mutators Block Transition Termination.

#[local] Open Scope Z_scope.

(** ** Programs on an updated state

    [commutes f m1 m2 s]: [m1], started from [f s], does what [m2] does from
    [s], and ends in the update of its final state. *)

Definition commutes {S E A} (f : S → S) (m1 m2 : M S E A) (s : S) : Prop :=
  m1 (f s) = ((m2 s).1, f (m2 s).2).

Section Commutes.
Context {S E : Type} (f : S → S).

Lemma commutes_ret {A} (a : A) s : commutes (E:=E) f (mret a) (mret a) s.
Proof using Type. done. Qed.

Lemma commutes_bind {A B} (m1 m2 : M S E A) (g1 g2 : A → M S E B) s :
  commutes f m1 m2 s → (∀ a s', m2 s = (Ok a, s') → commutes f (g1 a) (g2 a) s') →
  commutes f (m1 ≫= g1) (m2 ≫= g2) s.
Proof using Type.
  unfold commutes, mbind, M_bind. intros -> Hg. destruct (m2 s) as [[a| | |] s'] eqn:Hm; cbn; [|done..].
  by apply (Hg a).
Qed.

Lemma commutes_get {B} (g1 g2 : S → M S E B) s :
  commutes f (g1 (f s)) (g2 s) s → commutes f (get ≫= g1) (get ≫= g2) s.
Proof using Type. done. Qed.

Lemma commutes_put {B} (t1 t2 : S) (g1 g2 : unit → M S E B) s :
  t1 = f t2 → commutes f (g1 tt) (g2 tt) t2 → commutes f (put t1 ≫= g1) (put t2 ≫= g2) s.
Proof using Type. by intros ->. Qed.

Lemma commutes_put_end (t1 t2 : S) s : t1 = f t2 → commutes (E:=E) f (put t1) (put t2) s.
Proof using Type. by intros ->. Qed.

Lemma commutes_lift {A B} (m1 m2 : res E A) (g1 g2 : A → M S E B) s :
  m1 = m2 → (∀ a, commutes f (g1 a) (g2 a) s) → commutes f (lift m1 ≫= g1) (lift m2 ≫= g2) s.
Proof using Type. intros -> Hg. apply commutes_bind; [done|]. intros a s' [= _ <-]. apply Hg. Qed.

Lemma commutes_require {B} (b1 b2 : bool) e (g1 g2 : unit → M S E B) s :
  b1 = b2 → commutes f (g1 tt) (g2 tt) s → commutes f (require b1 e ≫= g1) (require b2 e ≫= g2) s.
Proof using Type. intros ->. by destruct b2. Qed.

Lemma commutes_require_end (b1 b2 : bool) (e : E) s : b1 = b2 → commutes f (require b1 e) (require b2 e) s.
Proof using Type. intros ->. by destruct b2. Qed.

Lemma commutes_if {A} (b1 b2 : bool) (m1 m2 n1 n2 : M S E A) s :
  b1 = b2 → commutes f m1 m2 s → commutes f n1 n2 s →
  commutes f (if b1 then m1 else n1) (if b2 then m2 else n2) s.
Proof using Type. intros ->. by destruct b2. Qed.

Lemma commutes_for_each {X} (l : list X) (g : X → M S E unit) s :
  (∀ x s, commutes f (g x) (g x) s) → commutes f (for_each l g) (for_each l g) s.
Proof using Type.
  intros Hg. revert s. induction l as [|x l IH]; intros s; [apply commutes_ret|].
  apply commutes_bind; [apply Hg|]. intros _ s' _. apply IH.
Qed.
End Commutes.

Ltac commute_one :=
  match goal with
  | |- commutes _ (get ≫= _) (get ≫= _) _ => apply commutes_get
  | |- commutes _ (lift _ ≫= _) (lift _ ≫= _) _ => apply commutes_lift; [|intros ?]
  | |- commutes _ (put _ ≫= _) (put _ ≫= _) _ => apply commutes_put
  | |- commutes _ (require _ _ ≫= _) (require _ _ ≫= _) _ => apply commutes_require
  | |- commutes _ (require _ _) (require _ _) _ => apply commutes_require_end
  | |- commutes _ (_ ≫= _) (_ ≫= _) _ => apply commutes_bind; [|intros ? ? ?]
  | |- commutes _ (put _) (put _) _ => apply commutes_put_end
  | |- commutes _ (if _ then _ else _) (if _ then _ else _) _ => apply commutes_if
  | |- commutes _ (mret _) (mret _) _ => apply commutes_ret
  | |- commutes _ (for_each _ _) (for_each _ _) _ => apply commutes_for_each; intros ? ?
  | |- commutes _ (let x := _ in _) _ _ => cbv zeta
  end.

Ltac commute_tac := repeat commute_one.

(** ** The operations do not see the header *)

Section Header.
Context `{Cfg : Config} `{AM : ArithMode} `{BLS : BLSConfig} `{TR : TreeRoot} `{MT : MerkleTree} `{F : Fuel}.

Notation header_free m := (∀ h s, commutes (with_latest_block_header h) m m s).

Lemma proposer_header h s : beacon_proposer_index (with_latest_block_header h s) = beacon_proposer_index s.
Proof using Type. by apply beacon_proposer_index_ext. Qed.

Lemma process_randao_header body : header_free (process_randao body).
Proof using Type. intros h s. unfold process_randao. commute_tac; try done. apply proposer_header. Qed.

Lemma process_eth1_data_header body : header_free (process_eth1_data body).
Proof using Type. intros h s. unfold process_eth1_data. commute_tac; done. Qed.

Lemma process_attestation_header a : header_free (process_attestation a).
Proof using Type. intros h s. unfold process_attestation. commute_tac; try done. apply proposer_header. Qed.

Lemma modify_validator_header i g : header_free (modify_validator i g).
Proof using Type. intros h s. unfold modify_validator. commute_tac; done. Qed.

Lemma increase_balance_header i d : header_free (increase_balance i d).
Proof using Type. intros h s. unfold increase_balance. commute_tac; done. Qed.

Lemma decrease_balance_header i d : header_free (decrease_balance i d).
Proof using Type. intros h s. unfold decrease_balance. commute_tac; done. Qed.

Lemma initiate_validator_exit_header i : header_free (initiate_validator_exit i).
Proof using Type.
  intros h s. unfold initiate_validator_exit. commute_tac; try done; apply modify_validator_header.
Qed.

Lemma slash_validator_header i w : header_free (slash_validator i w).
Proof using Type.
  intros h s. unfold slash_validator. commute_tac; try done.
  all: first [apply initiate_validator_exit_header | apply modify_validator_header | apply proposer_header
    | apply decrease_balance_header | apply increase_balance_header].
Qed.

Lemma slash_all_header_free l b : header_free (slash_all l b).
Proof using Type.
  revert b. induction l as [|i l IH]; intros b h s; cbn [slash_all]; commute_tac; try done.
  apply slash_validator_header.
Qed.

Lemma process_operations_header_free body : header_free (process_operations body).
Proof using Type.
  intros h s. unfold process_operations, process_proposer_slashing, process_attester_slashing,
    process_deposit, push_validator, process_voluntary_exit, check_slashed_header.
  commute_tac; try done.
  all: first [apply slash_validator_header | apply slash_all_header_free | apply process_attestation_header
    | apply increase_balance_header | apply initiate_validator_exit_header].
Qed.
End Header.

(** ** What the header check reads stays

    An operation keeps the slot, the fork, the randao mixes and the header, and
    of the registry what decides who proposes at the current epoch. *)

Record same_duty (epoch : Epoch) (v v' : Validator) : Prop := {
  sd_pubkey : v_pubkey v' = v_pubkey v;
  sd_slashed : v_slashed v = true → v_slashed v' = true;
  sd_balance : v_effective_balance v' = v_effective_balance v;
  sd_active : is_active v' epoch = is_active v epoch;
}.

#[global] Instance same_duty_preorder e : PreOrder (same_duty e).
Proof. split; [intros v; by split|]. intros u v w [] []. split; [congruence|auto|congruence..]. Qed.

Definition duty_registry (epoch : Epoch) (l l' : list Validator) : Prop :=
  (∀ i v, l !! i = Some v → ∃ v', l' !! i = Some v' ∧ same_duty epoch v v') ∧
  (∀ i v', l !! i = None → l' !! i = Some v' → is_active v' epoch = false).

#[global] Instance duty_registry_preorder e : PreOrder (duty_registry e).
Proof.
  split.
  - intros l. split; [|intros i v' H1 H2; congruence]. intros i v Hv. exists v. split; [done|reflexivity].
  - intros l1 l2 l3 [H1 N1] [H2 N2]. split.
    + intros i v Hv. destruct (H1 i v Hv) as (v2 & Hv2 & ?). destruct (H2 i v2 Hv2) as (v3 & Hv3 & ?).
      exists v3. split; [done|]. by etrans.
    + intros i v' Hi Hv'. destruct (l2 !! i) as [v2|] eqn:Hv2; [|by eapply N2].
      destruct (H2 i v2 Hv2) as (v3 & Hv3 & Hd). rewrite Hv' in Hv3. injection Hv3 as <-.
      rewrite (sd_active _ _ _ Hd). by eapply N1.
Qed.

Lemma duty_registry_insert e l k v v' :
  l !! k = Some v → same_duty e v v' → duty_registry e l (<[k := v']> l).
Proof.
  intros Hv Hd. split.
  - intros i w Hw. destruct (decide (k = i)) as [->|Hne].
    + rewrite list_lookup_insert_eq by by eapply lookup_lt_Some. simplify_eq. eauto.
    + rewrite list_lookup_insert_ne by done. exists w. split; [done|reflexivity].
  - intros i w Hi Hw. apply lookup_ge_None in Hi. apply lookup_lt_Some in Hw.
    rewrite length_insert in Hw. lia.
Qed.

Lemma duty_registry_app e l v : is_active v e = false → duty_registry e l (l ++ [v]).
Proof.
  intros Hv. split.
  - intros i w Hw. exists w. split; [by apply lookup_app_l_Some|reflexivity].
  - intros i w Hi Hw. apply lookup_ge_None in Hi. rewrite lookup_app_r in Hw by done.
    apply list_lookup_singleton_Some in Hw as [_ <-]. done.
Qed.

(** The proposer at an epoch only depends on the duties. *)
Section Proposer.
Context `{Cfg : Config} `{AM : ArithMode} `{F : Fuel}.

Lemma filter_active_ext e l l' k n n' :
  duty_registry e l l' → n = k + zlen l → n' = k + zlen l' →
  (filter (λ iv, is_active iv.2 e = true) (zip (zrange k n) l)).*1 =
  (filter (λ iv, is_active iv.2 e = true) (zip (zrange k n') l')).*1.
Proof using Type.
  intros Hd -> ->. revert l' k Hd. induction l as [|v l IH]; intros l' k [Hold Hnew].
  - clear Hold. rewrite zip_with_nil_r. cbn. revert k Hnew. induction l' as [|w l' IHl]; intros k Hnew.
    + by rewrite zip_with_nil_r.
    + rewrite zrange_cons by (unfold zlen; cbn; lia). cbn [zip_with]. rewrite filter_cons_False.
      * replace (k + zlen (w :: l')) with (k + 1 + zlen l') by (unfold zlen; cbn; lia).
        apply (IHl (k + 1)). intros i x _ Hx. by apply (Hnew (S i)).
      * cbn. by rewrite (Hnew 0%nat w).
  - destruct (Hold 0%nat v eq_refl) as (w & Hw & Hvw). destruct l' as [|w' l']; [done|].
    injection Hw as ->.
    rewrite (zrange_cons k (k + zlen (v :: l))), (zrange_cons k (k + zlen (w :: l'))) by (unfold zlen; cbn; lia).
    cbn [zip_with].
    replace (k + zlen (v :: l)) with (k + 1 + zlen l) by (unfold zlen; cbn; lia).
    replace (k + zlen (w :: l')) with (k + 1 + zlen l') by (unfold zlen; cbn; lia).
    assert (duty_registry e l l') as Hd.
    { split; [intros i x Hx; by apply (Hold (S i))|intros i x Hx Hx'; by apply (Hnew (S i))]. }
    destruct (is_active v e) eqn:Ha.
    + rewrite !filter_cons_True by (cbn; by rewrite ?(sd_active _ _ _ Hvw)). cbn. f_equal. by apply IH.
    + rewrite !filter_cons_False by (cbn; rewrite ?(sd_active _ _ _ Hvw), Ha; done). by apply IH.
Qed.

Lemma active_duty e s s' :
  duty_registry e (validators s) (validators s') →
  active_validator_indices s' e = active_validator_indices s e.
Proof using Type. intros Hd. symmetry. apply filter_active_ext; [done|lia..]. Qed.

Lemma proposer_loop_duty e n s s' sd l i :
  duty_registry e (validators s) (validators s') → (∀ k, k ∈ l → ∃ v, validators s !! Z.to_nat k = Some v) →
  proposer_loop n s' sd l i = proposer_loop n s sd l i.
Proof using Type.
  intros Hd Hl. revert i. induction n as [|n IH]; intros i; [done|]. cbn [proposer_loop].
  assert (proposer_candidate s' sd l i = proposer_candidate s sd l i) as ->.
  { unfold proposer_candidate. destruct (u64_rem i (zlen l)) as [j| | |]; cbn; [|done..].
    destruct (shuffled_index j (zlen l) sd) as [k| | |]; cbn; [|done..].
    destruct (vec_index l k) as [c| | |] eqn:Hc; cbn; [|done..].
    destruct (vec_index (hash _) _); cbn; [|done..].
    apply vec_index_Ok, list_elem_of_lookup_2, Hl in Hc as [v Hv].
    destruct (proj1 Hd _ _ Hv) as (v' & Hv' & Hdv).
    rewrite (proj2 (vec_index_Ok (validators s) c v) Hv), (proj2 (vec_index_Ok (validators s') c v') Hv').
    cbn. by rewrite (sd_balance _ _ _ Hdv). }
  destruct (proposer_candidate s sd l i) as [[c []]| | |]; cbn; try done.
  destruct (u64_add i 1); cbn; auto.
Qed.

Lemma proposer_duty e s s' :
  current_epoch s = Ok e → slot s' = slot s → seed s' e domain_beacon_proposer = seed s e domain_beacon_proposer →
  duty_registry e (validators s) (validators s') → beacon_proposer_index s' = beacon_proposer_index s.
Proof using Type.
  intros He Hs Hsd Hd. unfold beacon_proposer_index.
  assert (current_epoch s' = Ok e) as -> by (unfold current_epoch in *; by rewrite Hs).
  rewrite He, !res_bind_Ok, Hsd, Hs. destruct (seed s e _); cbn; [|done..].
  rewrite (active_duty e s s') by done. apply (proposer_loop_duty e); [done|].
  intros k (_ & v & Hv & _)%elem_of_active. eauto.
Qed.
End Proposer.

(** ** Every operation keeps the duties *)

Section Duty.
Context `{Cfg : Config} `{AM : ArithMode} `{BLS : BLSConfig} `{TR : TreeRoot} `{MT : MerkleTree} `{F : Fuel}.
Context `{COk : !ConfigOk Cfg}.

Record duty (s s' : BeaconState) : Prop := {
  duty_slot : slot s' = slot s;
  duty_fork : fork s' = fork s;
  duty_mixes : randao_mixes s' = randao_mixes s;
  duty_header : latest_block_header s' = latest_block_header s;
  duty_validators : duty_registry (slot s / slots_per_epoch) (validators s) (validators s');
}.

#[local] Instance duty_preorder : PreOrder duty.
Proof using Type.
  split; [intros s; by split|]. intros s t u [] []. split; [congruence..|].
  etrans; [eassumption|]. by rewrite <- duty_slot0.
Qed.

(** Time and exits are in the range in which the exit queue does not wrap. *)
Definition exits_ok (s : BeaconState) : Prop :=
  0 ≤ slot s < 2 ^ 62 ∧ Forall (λ v, v_exit_epoch v ≤ u64_max) (validators s).

Lemma wf_exits_ok s : wf_state s → slot s < 2 ^ 62 → exits_ok s.
Proof using Type.
  intros Hwf Hs. split; [pose proof (wf_slot _ Hwf); u64_lia|].
  eapply Forall_impl; [apply Hwf|]. intros v Hv. pose proof (wf_exit_epoch _ Hv). u64_lia.
Qed.

Definition stays (s s' : BeaconState) : Prop := exits_ok s → exits_ok s' ∧ duty s s'.

#[local] Instance stays_preorder : PreOrder stays.
Proof using Type.
  split; [intros s H; by split|]. intros s t u H1 H2 Hs. destruct (H1 Hs) as [Ht D1].
  destruct (H2 Ht) as [Hu D2]. split; [done|]. by etrans.
Qed.

(** A command that leaves all of this alone. *)
Lemma stays_same s s' :
  slot s' = slot s → fork s' = fork s → randao_mixes s' = randao_mixes s →
  latest_block_header s' = latest_block_header s → validators s' = validators s → stays s s'.
Proof using Type.
  intros Hs Hf Hr Hh Hv Hok. unfold exits_ok in *. rewrite Hs, Hv. split; [done|].
  split; [done..|]. by rewrite Hv.
Qed.

Lemma modify_validator_stays i f s :
  (∀ v, validators s !! Z.to_nat i = Some v → exits_ok s →
     same_duty (slot s / slots_per_epoch) v (f v) ∧ v_exit_epoch (f v) ≤ u64_max) →
  stays s (modify_validator i f s).2.
Proof using Type.
  intros Hf. unfold modify_validator. step_tac. apply vec_index_Ok in H. apply vec_set_Ok in H0 as [_ ->].
  intros Hok. destruct (Hf _ H Hok) as [Hd He]. destruct Hok as [Hs Hall]. split.
  - split; [done|]. by apply Forall_insert.
  - split; [done..|]. by eapply duty_registry_insert.
Qed.

Lemma increase_balance_stays i d : steps stays (increase_balance i d).
Proof using Type. unfold increase_balance. step_tac. by apply stays_same. Qed.

Lemma decrease_balance_stays i d : steps stays (decrease_balance i d).
Proof using Type. unfold decrease_balance. step_tac. by apply stays_same. Qed.

(** The epoch the exit queue assigns lies after the current one. *)
Lemma queued_exit_later s c aee limit e :
  exits_ok s → current_epoch s = Ok c → activation_exit_epoch c = Ok (E:=Error) aee →
  (if limit <=? exit_queue_churn s (exit_queue_tail s aee)
   then u64_add (exit_queue_tail s aee) 1 else Ok (E:=Error) (exit_queue_tail s aee)) = Ok e →
  c < e ≤ u64_max ∧ c < 2 ^ 62.
Proof using COk.
  intros [Hs Hall] Hc Ha He. rewrite current_epoch_ok in Hc. injection Hc as <-.
  pose proof (epoch_range (slot s) ltac:(unfold is_u64; lia)) as Hep. pose proof max_lookahead_small.
  unfold activation_exit_epoch in Ha. rewrite u64_add_ok, res_bind_Ok, u64_add_ok in Ha by (unfold is_u64; lia).
  injection Ha as <-. set (a := slot s / slots_per_epoch + 1 + max_seed_lookahead) in *.
  assert (a ≤ exit_queue_tail s a < u64_max) as Ht.
  { unfold exit_queue_tail. cbv zeta. split; [lia|]. apply Z.max_lub_lt; [|unfold u64_max, a; lia].
    enough (foldl Z.max 0 (filter (λ e, e ≠ FAR_FUTURE_EPOCH) (v_exit_epoch <$> validators s)) ≤ u64_max - 1)
      by lia.
    apply foldl_max_lub; [unfold u64_max; lia|].
    intros x [Hx (v & -> & Hv)%list_elem_of_fmap]%list_elem_of_filter.
    rewrite Forall_forall in Hall. specialize (Hall v Hv). unfold FAR_FUTURE_EPOCH in Hx. cbn in Hall. lia. }
  destruct (_ <=? _).
  - rewrite u64_add_ok in He by (unfold is_u64, u64_max in *; lia). injection He as <-. lia.
  - injection He as <-. lia.
Qed.

Lemma initiate_validator_exit_stays i : steps stays (initiate_validator_exit i).
Proof using COk.
  unfold initiate_validator_exit. do 3 step_one.
  destruct (v_exit_epoch a =? FAR_FUTURE_EPOCH) eqn:Hfar; cbn [negb]; [|step_tac].
  apply Z.eqb_eq in Hfar. apply vec_index_Ok in H. step_tac.
  - apply modify_validator_stays. intros v Hv Hok. rewrite H in Hv. injection Hv as <-.
    destruct (queued_exit_later s a0 a1 a2 a3) as [He Hc]; [done..|].
    rewrite current_epoch_ok in H0. injection H0 as <-. split; [|cbn; lia].
    split; [done..|]. unfold is_active. cbn. f_equal. rewrite Hfar.
    rewrite !(proj2 (Z.ltb_lt _ _)); [done|unfold FAR_FUTURE_EPOCH, u64_max; lia|lia].
  - apply modify_validator_stays. intros v Hv [_ Hall]. split; [by split|].
    by apply (Forall_lookup_1 _ _ _ _ Hall Hv).
Qed.

(** Entries that change neither duty nor exit. *)
Lemma modify_validator_stays_free i f s :
  (∀ v, same_duty (slot s / slots_per_epoch) v (f v) ∧ v_exit_epoch (f v) = v_exit_epoch v) →
  stays s (modify_validator i f s).2.
Proof using Type.
  intros Hf. apply modify_validator_stays. intros v Hv [_ Hall]. destruct (Hf v) as [Hd ->]. split; [done|].
  by apply (Forall_lookup_1 _ _ _ _ Hall Hv).
Qed.

Lemma slash_validator_stays i w : steps stays (slash_validator i w).
Proof using COk.
  unfold slash_validator. step_tac; try (by apply stays_same).
  all: first [apply initiate_validator_exit_stays | apply increase_balance_stays | apply decrease_balance_stays
    | apply modify_validator_stays_free; by repeat split].
Qed.

Lemma slash_all_stays l b : steps stays (slash_all l b).
Proof using COk.
  revert b. induction l as [|i l IH]; intros b; cbn; [apply steps_ret; apply _|].
  step_tac; [apply slash_validator_stays|apply IH..].
Qed.

Lemma push_validator_stays v a :
  v_activation_epoch v = FAR_FUTURE_EPOCH → v_exit_epoch v ≤ u64_max → steps stays (push_validator v a).
Proof using COk.
  intros Hv He. unfold push_validator. step_tac; [|by apply stays_same].
  intros [Hs Hall]. split.
  - split; [done|]. cbn. apply Forall_app. split; [done|]. by apply Forall_singleton.
  - split; [done..|]. cbn. apply duty_registry_app. unfold is_active. rewrite Hv.
    pose proof (epoch_range (slot s) ltac:(unfold is_u64; lia)).
    rewrite (proj2 (Z.leb_gt _ _)); [done|]. unfold FAR_FUTURE_EPOCH, u64_max. lia.
Qed.

Lemma process_operations_stays body : steps stays (process_operations body).
Proof using COk.
  unfold process_operations, process_proposer_slashing, process_attester_slashing, process_attestation,
    process_deposit, process_voluntary_exit.
  step_tac; try (by apply stays_same).
  all: first [apply check_slashed_header_steps; apply _ | apply slash_validator_stays | apply slash_all_stays
    | apply increase_balance_stays | apply initiate_validator_exit_stays | by apply push_validator_stays].
Qed.

(** The eth1 vote and the randao reveal; the reveal is mixed into the current
    epoch, which no seed in use depends on. *)
Lemma process_eth1_data_stays body : steps stays (process_eth1_data body).
Proof using Type. unfold process_eth1_data. step_tac; by apply stays_same. Qed.

Lemma seed_index_differs e : 0 ≤ e →
  Z.to_nat (e mod epochs_per_historical_vector) ≠
  Z.to_nat ((e + epochs_per_historical_vector - min_seed_lookahead - 1) mod epochs_per_historical_vector).
Proof using COk.
  intros He. pose proof historical_vector_pos. pose proof seed_lookahead_lt.
  unfold epochs_per_historical_vector. set (V := EpochsPerHistoricalVector) in *.
  set (L := min_seed_lookahead) in *. intros Heq.
  pose proof (Z.mod_pos_bound e V ltac:(lia)). pose proof (Z.mod_pos_bound (e + V - L - 1) V ltac:(lia)).
  pose proof (Z.div_mod e V ltac:(lia)). pose proof (Z.div_mod (e + V - L - 1) V ltac:(lia)).
  assert (V - L - 1 = V * ((e + V - L - 1) / V - e / V)) as Hk by lia.
  destruct (Z.le_gt_cases ((e + V - L - 1) / V - e / V) 0); nia.
Qed.

Lemma seed_mix s e d : 0 ≤ e < 2 ^ 62 →
  seed s e d =
    (mix ← vec_index (randao_mixes s)
       ((e + epochs_per_historical_vector - min_seed_lookahead - 1) mod epochs_per_historical_vector);
     Ok (hash [to_le_bytes 4 d; take 8 (to_le_bytes 8 e); mix])).
Proof using COk.
  intros He. pose proof historical_vector_pos. pose proof seed_lookahead_lt. unfold seed, randao_mix.
  rewrite u64_add_ok, res_bind_Ok by (unfold epochs_per_historical_vector, is_u64; lia).
  rewrite u64_sub_ok, res_bind_Ok by (unfold epochs_per_historical_vector, is_u64; lia).
  rewrite u64_sub_ok, res_bind_Ok by (unfold epochs_per_historical_vector, is_u64; lia).
  rewrite u64_rem_ok, res_bind_Ok by (unfold epochs_per_historical_vector; lia). done.
Qed.

Lemma process_randao_seed body s s' e d :
  exits_ok s → current_epoch s = Ok e → process_randao body s = (Ok tt, s') → seed s' e d = seed s e d.
Proof using COk.
  intros [Hs _] He Hrun. unfold process_randao in Hrun. run_inv.
  rewrite He in Ha4. injection Ha4 as <-. rewrite current_epoch_ok in He. injection He as <-.
  pose proof (epoch_range (slot s) ltac:(unfold is_u64; lia)) as Hep.
  apply u64_rem_inv in Ha6 as [HV ->]. apply vec_set_Ok in Ha7 as [_ ->].
  rewrite !seed_mix by lia. unfold vec_index. cbn [randao_mixes with_randao_mixes].
  by rewrite list_lookup_insert_ne by (apply seed_index_differs; lia).
Qed.

(** The reveal changes the mixes only. *)
Lemma process_randao_duty body s s' :
  process_randao body s = (Ok tt, s') →
  slot s' = slot s ∧ fork s' = fork s ∧ latest_block_header s' = latest_block_header s ∧
  validators s' = validators s.
Proof using Type. intros Hrun. unfold process_randao in Hrun. by run_inv. Qed.

(** What the header check reads, from the start of the body to its end. *)
Record header_view (e : Epoch) (s s' : BeaconState) : Prop := {
  hv_slot : slot s' = slot s;
  hv_fork : fork s' = fork s;
  hv_header : latest_block_header s' = latest_block_header s;
  hv_seed : seed s' e domain_beacon_proposer = seed s e domain_beacon_proposer;
  hv_validators : duty_registry e (validators s) (validators s');
}.

Lemma body_header_view body s0 s1 s2 s3 e :
  exits_ok s0 → current_epoch s0 = Ok e →
  process_randao body s0 = (Ok tt, s1) → process_eth1_data body s1 = (Ok tt, s2) → stays s2 s3 →
  header_view e s0 s3.
Proof using COk.
  intros Hok He Hr Het Hst.
  pose proof (process_randao_seed _ _ _ _ domain_beacon_proposer Hok He Hr) as Hsd.
  apply process_randao_duty in Hr as (Hs1 & Hf1 & Hh1 & Hv1).
  assert (exits_ok s1) as Hok1 by (unfold exits_ok in *; by rewrite Hs1, Hv1).
  assert (stays s1 s2) as Hst1 by (pose proof (process_eth1_data_stays body s1) as Hx; by rewrite Het in Hx).
  destruct (transitivity Hst1 Hst Hok1) as [_ [Hs Hf Hm Hh Hv]].
  rewrite current_epoch_ok in He. injection He as <-.
  split; [congruence..| |].
  - rewrite <- Hsd. by apply seed_ext.
  - by rewrite Hs1, Hv1 in Hv.
Qed.

Lemma header_view_proposer e s s' :
  current_epoch s = Ok e → header_view e s s' → beacon_proposer_index s' = beacon_proposer_index s.
Proof using Type. intros He []. by apply (proposer_duty e). Qed.

(** The header check before the body of a block is the one after it: where the
    author's check succeeds at the end, the one of the import succeeds at the
    beginning, if the signature is that of the proposer. *)
Lemma process_block_header_first e (b : UnsealedBeaconBlock) (blk : BeaconBlock) s s' s'' p v d :
  current_epoch s = Ok e → header_view e s s' → process_block_header b s' = (Ok tt, s'') →
  blk_slot blk = ub_slot b → blk_parent_root blk = ub_parent_root b → blk_body blk = ub_body b →
  beacon_proposer_index s = Ok p → validators s !! Z.to_nat p = Some v →
  domain s domain_beacon_proposer None = Ok d →
  verify (v_pubkey v) (tree_root_unsealed_block (unsealed_from blk)) (blk_signature blk) d = true →
  ∃ h, process_block_header blk s = (Ok tt, with_latest_block_header h s) ∧
    s'' = with_latest_block_header h s'.
Proof using Type.
  intros He Hview Hh Hbs Hbp Hbb Hp Hv Hd Hsig. pose proof (header_view_proposer _ _ _ He Hview) as Hpr.
  destruct Hview as [Hs Hf Hlh _ Hvs].
  unfold process_block_header in Hh. cbn [block_signature block_slot block_parent_root UnsealedBeaconBlock_Block] in Hh.
  run_inv. eexists. split; [|done]. rewrite proposer_header, Hpr, Hp in Ha1. injection Ha1 as <-.
  destruct (proj1 Hvs _ _ Hv) as (v' & Hv' & Hdv). cbn in Ha2.
  apply vec_index_Ok in Ha2. rewrite Hv' in Ha2. injection Ha2 as <-.
  unfold process_block_header. cbn [block_signature block_slot block_parent_root block_body BeaconBlock_Block].
  cbn [block_body UnsealedBeaconBlock_Block].
  rewrite Mbind_get, Hbs, Hbp, Hbb, <- Hs, <- Hlh, Ha, Ha0. cbn [require].
  rewrite !(Mbind_step (mret tt) _ _ tt s) by done. rewrite Mbind_put, Mbind_get, proposer_header, Hp, Mbind_lift_Ok.
  cbn [validators with_latest_block_header]. rewrite (proj2 (vec_index_Ok _ _ _) Hv), Mbind_lift_Ok.
  assert (v_slashed v = false) as ->.
  { destruct (v_slashed v) eqn:Hsl; [|done]. apply (sd_slashed _ _ _ Hdv) in Hsl. by rewrite Hsl in Ha3. }
  cbn [negb require].
  change (domain (with_latest_block_header _ s)) with (domain s).
  rewrite (Mbind_step (mret tt) _ _ tt _ eq_refl), Hd, Mbind_lift_Ok, Hsig. done.
Qed.
End Duty.

(** ** The import of an authored block *)

Section ImportOrder.
Context `{Cfg : Config} `{AM : ArithMode} `{BLS : BLSConfig} `{TR : TreeRoot} `{MT : MerkleTree} `{F : Fuel}.
Context `{COk : !ConfigOk Cfg}.

(** Moving the header to the front: the stages of the author, run in the order
    of the import. *)
Lemma header_first_import e (b : UnsealedBeaconBlock) (blk : BeaconBlock) s s1 s2 s3 s4 s5 p v d :
  process_slots (blk_slot blk) s = (Ok tt, s1) → exits_ok s1 → current_epoch s1 = Ok e →
  process_randao (blk_body blk) s1 = (Ok tt, s2) → process_eth1_data (blk_body blk) s2 = (Ok tt, s3) →
  process_operations (blk_body blk) s3 = (Ok tt, s4) → process_block_header b s4 = (Ok tt, s5) →
  blk_slot blk = ub_slot b → blk_parent_root blk = ub_parent_root b → blk_body blk = ub_body b →
  blk_state_root blk = tree_root_state s5 →
  beacon_proposer_index s1 = Ok p → validators s1 !! Z.to_nat p = Some v →
  domain s1 domain_beacon_proposer None = Ok d →
  verify (v_pubkey v) (tree_root_unsealed_block (unsealed_from blk)) (blk_signature blk) d = true →
  state_transition blk s = (Ok tt, s5).
Proof using COk.
  intros Hsl Hok He Hr Het Hops Hh Hbs Hbp Hbb Hroot Hp Hv Hd Hsig.
  assert (stays s3 s4) as Hst
    by (pose proof (process_operations_stays (blk_body blk) s3) as Hx; by rewrite Hops in Hx).
  pose proof (body_header_view _ _ _ _ _ _ Hok He Hr Het Hst) as Hview.
  destruct (process_block_header_first e b blk s1 s4 s5 p v d) as (h & Hfirst & ->); [done..|].
  unfold state_transition. cbn [block_slot BeaconBlock_Block]. rewrite (Mbind_step _ _ _ _ _ Hsl).
  assert (process_block blk s1 = (Ok tt, with_latest_block_header h s4)) as Hblock.
  { unfold process_block. cbn [block_body BeaconBlock_Block]. rewrite (Mbind_step _ _ _ _ _ Hfirst).
    pose proof (process_randao_header (blk_body blk) h s1) as H1. red in H1. rewrite Hr in H1.
    rewrite (Mbind_step _ _ _ _ _ H1).
    pose proof (process_eth1_data_header (blk_body blk) h s2) as H2. red in H2. rewrite Het in H2.
    rewrite (Mbind_step _ _ _ _ _ H2).
    pose proof (process_operations_header_free (blk_body blk) h s3) as H3. red in H3. by rewrite Hops in H3. }
  rewrite (Mbind_step _ _ _ _ _ Hblock), Mbind_get. cbn [block_state_root BeaconBlock_Block].
  unfold bytes_eqb. by rewrite bool_decide_eq_true_2.
Qed.

(** The transactions of one kind. *)
Section Kind.
Context {X : Type} (tx : X → Transaction) (proc : X → Exec unit) (field : BeaconBlockBody → list X)
  (upd : list X → BeaconBlockBody → BeaconBlockBody) (max : Z) (err : Error).
Context (Happly : ∀ x bs, apply_transaction (tx x) bs =
  (author_room (zlen (field (ub_body bs.1))) max err ;; on_state (proc x) ;;
   modify_body (λ b, upd (field b ++ [x]) b)) bs).
Context (Hget : ∀ l b, field (upd l b) = l) (Hput : ∀ l l' b, upd l (upd l' b) = upd l b)
  (Hid : ∀ b, upd (field b) b = b).

Definition with_ub_body (body : BeaconBlockBody) (b : UnsealedBeaconBlock) : UnsealedBeaconBlock :=
  mkUnsealedBeaconBlock (ub_slot b) (ub_parent_root b) (ub_state_root b) body.

Lemma apply_one x b s b' s' :
  apply_transaction (tx x) (b, s) = (Ok tt, (b', s')) →
  proc x s = (Ok tt, s') ∧ zlen (field (ub_body b)) < max ∧
  b' = with_ub_body (upd (field (ub_body b) ++ [x]) (ub_body b)) b.
Proof using Happly.
  rewrite Happly. cbn [fst]. unfold author_room. destruct (Z.leb_spec max (zlen (field (ub_body b)))); [done|].
  rewrite (Mbind_step (mret tt) _ _ tt _ eq_refl). intros Hrun.
  apply Mbind_Ok in Hrun as ([] & [b1 s1] & H1 & H2). unfold on_state in H1. cbn [fst snd] in H1.
  destruct (proc x s) as [r t]. injection H1 as -> <- <-. injection H2 as <- <-. done.
Qed.

Lemma apply_kind xs b s b' s' :
  for_each (tx <$> xs) apply_transaction (b, s) = (Ok tt, (b', s')) → zlen (field (ub_body b)) ≤ max →
  for_each xs proc s = (Ok tt, s') ∧ zlen (field (ub_body b) ++ xs) ≤ max ∧
  b' = with_ub_body (upd (field (ub_body b) ++ xs) (ub_body b)) b.
Proof using Happly Hget Hput Hid.
  revert b s. induction xs as [|x xs IH]; intros b s Hrun Hle.
  - injection Hrun as <- <-. rewrite app_nil_r, Hid. split; [done|]. split; [done|]. by destruct b.
  - cbn in Hrun. apply Mbind_Ok in Hrun as ([] & [b1 s1] & H1 & Hrun).
    apply apply_one in H1 as (Hp & Hlt & ->). cbn [with_ub_body ub_body] in *.
    destruct (IH _ _ Hrun) as (Hrest & Hmax & ->); cbn [with_ub_body ub_body].
    { rewrite Hget. unfold zlen in *. rewrite length_app. cbn. lia. }
    cbn [with_ub_body ub_body] in Hmax. rewrite Hget, <- app_assoc in Hmax |- *. rewrite Hput.
    split; [|done]. cbn. by rewrite (Mbind_step _ _ _ _ _ Hp).
Qed.
End Kind.

(** The operations of a block, in the order in which a block has them. *)
Definition ordered (ps : list ProposerSlashing) (ass : list AttesterSlashing) (ats : list Attestation)
  (ds : list Deposit) (ves : list VoluntaryExit) : list Transaction :=
  (TxProposerSlashing <$> ps) ++ (TxAttesterSlashing <$> ass) ++ (TxAttestation <$> ats) ++
  (TxDeposit <$> ds) ++ (TxVoluntaryExit <$> ves).

(** The number of deposits the state asks a block for. *)
Definition deposits_due (s : BeaconState) (n : Z) : Prop :=
  ∃ o, u64_sub (e1_deposit_count (eth1_data s)) (eth1_deposit_index s) = Ok (E:=Error) o ∧ n = Z.min max_deposits o.

Lemma apply_ordered ps ass ats ds ves b s b' s' reveal ed graffiti :
  ub_body b = mkBeaconBlockBody reveal ed graffiti [] [] [] [] [] →
  for_each (ordered ps ass ats ds ves) apply_transaction (b, s) = (Ok tt, (b', s')) →
  let body := mkBeaconBlockBody reveal ed graffiti ps ass ats ds ves in
  b' = with_ub_body body b ∧ (deposits_due s (zlen ds) → process_operations body s = (Ok tt, s')).
Proof using COk.
  intros Hb Hrun body. unfold ordered in Hrun. rewrite !for_each_app in Hrun.
  apply Mbind_Ok in Hrun as ([] & [b1 s1] & H1 & Hrun). rewrite for_each_app in Hrun.
  apply Mbind_Ok in Hrun as ([] & [b2 s2] & H2 & Hrun). rewrite for_each_app in Hrun.
  apply Mbind_Ok in Hrun as ([] & [b3 s3] & H3 & Hrun). rewrite for_each_app in Hrun.
  apply Mbind_Ok in Hrun as ([] & [b4 s4] & H4 & H5). pose proof limits_nonneg as (L1 & L2 & L3 & L4 & L5).
  apply (apply_kind _ process_proposer_slashing body_proposer_slashings with_body_proposer_slashings
    max_proposer_slashings TooManyProposerSlashings) in H1 as (P1 & M1 & ->);
    [|done|done|done|by intros []|by rewrite Hb].
  apply (apply_kind _ process_attester_slashing body_attester_slashings with_body_attester_slashings
    max_attester_slashings TooManyAttesterSlashings) in H2 as (P2 & M2 & ->);
    [|done|done|done|by intros []|cbn; by rewrite Hb].
  apply (apply_kind _ process_attestation body_attestations with_body_attestations
    max_attestations TooManyAttestations) in H3 as (P3 & M3 & ->);
    [|done|done|done|by intros []|cbn; by rewrite Hb].
  apply (apply_kind _ process_deposit body_deposits with_body_deposits
    max_deposits TooManyDeposits) in H4 as (P4 & M4 & ->);
    [|done|done|done|by intros []|cbn; by rewrite Hb].
  apply (apply_kind _ process_voluntary_exit body_voluntary_exits with_body_voluntary_exits
    max_voluntary_exits TooManyVoluntaryExits) in H5 as (P5 & M5 & ->);
    [|done|done|done|by intros []|cbn; by rewrite Hb].
  cbn [ub_body with_ub_body ub_slot ub_parent_root ub_state_root] in *. rewrite Hb in *.
  cbn [with_body_proposer_slashings with_body_attester_slashings with_body_attestations with_body_deposits
    with_body_voluntary_exits body_randao_reveal body_eth1_data body_graffiti body_proposer_slashings
    body_attester_slashings body_attestations body_deposits body_voluntary_exits app] in *.
  split; [done|]. intros (o & Ho & Hn). unfold process_operations. rewrite Mbind_get, Ho, Mbind_lift_Ok.
  unfold body. cbn [body_proposer_slashings body_attester_slashings body_attestations body_deposits body_voluntary_exits].
  rewrite (proj2 (Z.eqb_eq _ _) Hn), !(proj2 (Z.leb_le _ _)) by done. cbn [require].
  repeat rewrite (Mbind_step (mret tt) _ _ tt _ eq_refl). rewrite (Mbind_step _ _ _ _ _ P1).
  rewrite (Mbind_step (mret tt) _ _ tt _ eq_refl), (Mbind_step _ _ _ _ _ P2).
  rewrite (Mbind_step (mret tt) _ _ tt _ eq_refl), (Mbind_step _ _ _ _ _ P3).
  rewrite (Mbind_step (mret tt) _ _ tt _ eq_refl), (Mbind_step _ _ _ _ _ P4).
  by rewrite (Mbind_step (mret tt) _ _ tt _ eq_refl).
Qed.

(** The inherent of a block, as the stages of the import. *)
Lemma apply_inherent_stages parent inh s b s' (body : BeaconBlockBody) :
  apply_inherent parent inh s = (Ok b, s') →
  body_randao_reveal body = inh_randao_reveal inh → body_eth1_data body = inh_eth1_data inh →
  (∃ s1, process_randao body s = (Ok tt, s1) ∧ process_eth1_data body s1 = (Ok tt, s')) ∧
  ub_slot b = slot s ∧
  ub_body b = mkBeaconBlockBody (inh_randao_reveal inh) (inh_eth1_data inh) H256_default [] [] [] [] [].
Proof using Type.
  intros Hrun Hr He. unfold apply_inherent in Hrun. rewrite Mbind_get in Hrun.
  apply Mbind_Ok in Hrun as ([] & s1 & H1 & Hrun). apply Mbind_Ok in Hrun as ([] & s2 & H2 & Hrun).
  injection Hrun as <- <-. split; [|done]. exists s1.
  unfold process_randao, process_eth1_data in *. rewrite Hr, He. done.
Qed.

(** The last step of the author. *)
Lemma finalize_block_stages b s b' s' :
  finalize_block (b, s) = (Ok tt, (b', s')) →
  process_block_header b s = (Ok tt, s') ∧
  b' = mkUnsealedBeaconBlock (ub_slot b) (ub_parent_root b) (tree_root_state s') (ub_body b).
Proof using Type.
  intros Hrun. unfold finalize_block in Hrun. rewrite Mbind_get in Hrun. cbn [fst snd] in Hrun.
  destruct (_ <? _); [done|]. apply Mbind_lift in Hrun as (o & Ho & Hrun). destruct (negb _); [done|].
  apply Mbind_Ok in Hrun as ([] & [b1 s1] & H1 & H2). unfold on_state in H1. cbn [fst snd] in H1.
  destruct (process_block_header b s) as [r t]. injection H1 as -> <- <-. by injection H2 as <- <-.
Qed.

(** A block with the signature of its proposer. *)
Definition sealed (b : UnsealedBeaconBlock) (signature : Signature) : BeaconBlock :=
  let block := fake_seal b in
  mkBeaconBlock (blk_slot block) (blk_parent_root block) (blk_state_root block) (blk_body block) signature.

(** What the author relies on to sign: the proposer at the slot of the block. *)
Definition signed_by_proposer (s : BeaconState) (b : UnsealedBeaconBlock) (signature : Signature) : Prop :=
  ∃ p v d, beacon_proposer_index s = Ok p ∧ validators s !! Z.to_nat p = Some v ∧
    domain s domain_beacon_proposer None = Ok d ∧
    verify (v_pubkey v) (tree_root_unsealed_block b) signature d = true.

Lemma authored_import parent inh ps ass ats ds ves target s s1 s2 s3 s4 b0 b1 b2 signature :
  wf_state s → 0 ≤ target < 2 ^ 62 →
  initialize_block target s = (Ok tt, s1) → apply_inherent parent inh s1 = (Ok b0, s2) →
  for_each (ordered ps ass ats ds ves) apply_transaction (b0, s2) = (Ok tt, (b1, s3)) →
  finalize_block (b1, s3) = (Ok tt, (b2, s4)) →
  deposits_due s2 (zlen ds) → signed_by_proposer s1 b2 signature →
  execute_block (sealed b2 signature) s = (Ok tt, s4).
Proof using COk.
  unfold initialize_block. intros Hwf Ht Hin Hinh Htx Hfin Hdue (p & v & d & Hp & Hv & Hd & Hsig).
  assert (slot s1 = target) as Hslot
    by (eapply process_slots_slot; [apply Hwf|unfold is_u64; lia|exact Hin]).
  assert (wf_state s1) as Hwf1 by (pose proof (process_slots_wf target s Hwf) as Hx; by rewrite Hin in Hx).
  set (body := mkBeaconBlockBody (inh_randao_reveal inh) (inh_eth1_data inh) H256_default ps ass ats ds ves).
  apply (apply_inherent_stages _ _ _ _ _ body) in Hinh as ((s15 & Hr & He) & Hbs & Hbb); [|done..].
  apply (apply_ordered _ _ _ _ _ _ _ _ _ _ _ _ Hbb) in Htx as [-> Hops].
  apply finalize_block_stages in Hfin as [Hh ->].
  assert (exits_ok s1) as Hok by (apply wf_exits_ok; [done|lia]).
  assert (process_slots (ub_slot b0) s = (Ok tt, s1)) as Hsl by by rewrite Hbs, Hslot.
  exact (header_first_import (slot s1 / slots_per_epoch) (with_ub_body body b0)
    (mkBeaconBlock (ub_slot b0) (ub_parent_root b0) (tree_root_state s4) body signature) s s1 s15 s2 s3 s4 p v d
    Hsl Hok (current_epoch_ok s1) Hr He (Hops Hdue) Hh eq_refl eq_refl eq_refl eq_refl Hp Hv Hd Hsig).
Qed.
End ImportOrder.

(** C8: what an author builds is accepted.  A block made with the authoring
    functions from a parent state, with operations in the order of a block, the
    deposits that are due and a signature of the proposer, passes the import on
    that state, header check first, and leads to the state the author had. *)
Theorem authored_block_accepted `{Config} `{ArithMode} `{BLSConfig} `{TreeRoot} `{MerkleTree} `{Fuel} `{!ConfigOk _}
  (parent : BeaconBlock) (inherent : Inherent) (ps : list ProposerSlashing) (ass : list AttesterSlashing)
  (ats : list Attestation) (ds : list Deposit) (ves : list VoluntaryExit) (target : Uint)
  (s s1 s2 s3 s4 : BeaconState) (b0 b1 b2 : UnsealedBeaconBlock) (signature : Signature) :
  wf_state s → 0 ≤ target < 2 ^ 62 →
  initialize_block target s = (Ok tt, s1) → apply_inherent parent inherent s1 = (Ok b0, s2) →
  for_each (ordered ps ass ats ds ves) apply_transaction (b0, s2) = (Ok tt, (b1, s3)) →
  finalize_block (b1, s3) = (Ok tt, (b2, s4)) →
  deposits_due s2 (zlen ds) → signed_by_proposer s1 b2 signature →
  execute_block (sealed b2 signature) s = (Ok tt, s4).
Proof. apply authored_import. Qed.

(** ** Witness: a block with one attestation on a state of sixteen validators *)

Section Witnesses.
#[local] Existing Instances toy_config toy_config_ok toy_mode toy_fuel toy_tree toy_merkle toy_bls.

Definition toy_vote : Attestation :=
  mkAttestation [true; false] (mkAttestationData 8 0 H256_default Checkpoint_default (mkCheckpoint 1 H256_default))
    [false; false] H768_default.

(** The stages of the author, one by one. *)
Definition toy_parent : BeaconState := toy_state 16 7.
Definition toy_started : BeaconState := (initialize_block 9 toy_parent).2.
Definition toy_inherent : Inherent := mkInherent H768_default Eth1Data_default.
Definition toy_open : UnsealedBeaconBlock :=
  match (apply_inherent (toy_block 7) toy_inherent toy_started).1 with
  | Ok b => b
  | _ => unsealed_from (toy_block 7)
  end.
Definition toy_applied : UnsealedBeaconBlock * BeaconState :=
  (for_each (ordered [] [] [toy_vote] [] []) apply_transaction
     (toy_open, (apply_inherent (toy_block 7) toy_inherent toy_started).2)).2.
Definition toy_final : UnsealedBeaconBlock * BeaconState := (finalize_block toy_applied).2.

Lemma authored_block_accepted_witness :
  (for_each (ordered [] [] [toy_vote] [] []) apply_transaction
     (toy_open, (apply_inherent (toy_block 7) toy_inherent toy_started).2)).1 = Ok tt ∧
  (finalize_block toy_applied).1 = Ok tt ∧
  execute_block (sealed toy_final.1 H768_default) toy_parent = (Ok tt, toy_final.2).
Proof.
  assert ((initialize_block 9 toy_parent).1 = Ok tt) as H1 by (vm_compute; reflexivity).
  assert ((apply_inherent (toy_block 7) toy_inherent toy_started).1 = Ok toy_open) as H2
    by (vm_compute; reflexivity).
  assert ((for_each (ordered [] [] [toy_vote] [] []) apply_transaction
     (toy_open, (apply_inherent (toy_block 7) toy_inherent toy_started).2)).1 = Ok tt) as H3
    by (vm_compute; reflexivity).
  assert ((finalize_block toy_applied).1 = Ok tt) as H4 by (vm_compute; reflexivity).
  split; [exact H3|]. split; [exact H4|].
  apply (authored_block_accepted (toy_block 7) toy_inherent [] [] [toy_vote] [] [] 9 toy_parent toy_started
    (apply_inherent (toy_block 7) toy_inherent toy_started).2 toy_applied.2 toy_final.2
    toy_open toy_applied.1 toy_final.1 H768_default).
  - apply wf_stateb_spec. vm_compute. reflexivity.
  - lia.
  - exact (run_eta _ _ H1).
  - exact (run_eta _ _ H2).
  - rewrite <- surjective_pairing. exact (run_eta _ _ H3).
  - rewrite <- !surjective_pairing. exact (run_eta _ _ H4).
  - exists 0. split; vm_compute; reflexivity.
  - destruct (beacon_proposer_index toy_started) as [p| | |] eqn:Hp; [|by vm_compute in Hp..].
    destruct (validators toy_started !! Z.to_nat p) as [v|] eqn:Hv;
      [|vm_compute in Hp; injection Hp as <-; by vm_compute in Hv].
    destruct (domain toy_started domain_beacon_proposer None) as [d| | |] eqn:Hd; [|by vm_compute in Hd..].
    exists p, v, d. split; [exact Hp|]. split; [exact Hv|]. split; [exact Hd|]. reflexivity.
Defined.
End Witnesses.
