(* ===== verification/Builder.v ===== *)
(** * The block builder of a node: [builder_thread] of [blockchain/src/main.rs]

    Every turn, the thread advances a copy of the head state by one slot,
    attests with every key whose validator is assigned to that slot, and, when
    it holds the key of the proposer, builds, signs and imports a block with
    the attestations of the pool.  Nothing is returned to a caller: every error
    is unwrapped, so that [Panic] is the only failure.

    The signature scheme is external, a parameter; the theorem assumes of it
    that a signature made with a key of the node verifies under its public key. *)
From stdpp Require Import base numbers list gmap.
From Stdlib Require Import ZArith Lia.
From S2P Require Import Prelude Config Types Utils State Accessors Mutators Epoch Block Transition Lifecycle ChainRoots Termination Node Pool Handler Authoring.

#[local] Open Scope Z_scope.

Section Builder.
Context `{Cfg : Config} `{AM : ArithMode} `{BLS : BLSConfig} `{TR : TreeRoot} `{MT : MerkleTree} `{F : Fuel}.
Context {Secret : Type} (bls_sign : H256 → Uint → Secret → Signature).
Context {E X : Type}.

(** The secret keys by public key, in the order of the map's iteration. *)
Notation Keys := (list (ValidatorId * Secret)).

Definition key_of (keys : Keys) (pubkey : ValidatorId) : option Secret :=
  kv ← list_find (λ kv, kv.1 = pubkey) keys; Some (kv.2).2.

(** The attestation of one key for the slot of the block, if its validator is
    assigned to it; [s] is the head state advanced to that slot. *)
Definition attestation_of (s : BeaconState) (head : H256) (head_block : BeaconBlock)
  (current_slot current_epoch attestation_domain : Uint) (key : ValidatorId * Secret)
  : res X (option Attestation) :=
  match validator_index s key.1 with
  | None => Ok None
  | Some validator_index =>
      assignment ← unwrap_result (committee_assignment s current_epoch validator_index);
      match assignment with
      | None => Ok None
      | Some a =>
          if negb (ca_slot a =? current_slot) then Ok None
          else
            let committee := ca_validators a in
            let target_epoch := current_epoch in
            target_slot ← start_slot_of_epoch target_epoch;
            target_root ← (if target_slot =? current_slot then Ok head
                           else unwrap_result (block_root s target_epoch));
            let source := current_justified_checkpoint s in
            let data := {|
              ad_slot := ca_slot a;
              ad_index := ca_index a;
              ad_beacon_block_root := block_id head_block;
              ad_source := mkCheckpoint (cp_epoch source) (cp_root source);
              ad_target := mkCheckpoint target_epoch target_root;
            |} in
            let signature := bls_sign
              (tree_root_attestation_data (mkAttestationDataAndCustodyBit data false))
              attestation_domain key.2 in
            index_into_committee ← unwrap (position (λ v, v =? validator_index) committee);
            aggregation_bitfield ← vec_set (replicate (length committee) false) index_into_committee true;
            Ok (Some (mkAttestation aggregation_bitfield data (replicate (length committee) false) signature))
      end
  end.

(** The loop over the keys. *)
Definition attest_all (s : BeaconState) (head : H256) (head_block : BeaconBlock)
  (current_slot current_epoch attestation_domain : Uint) (keys : Keys) (pool : AttestationPool)
  : res X AttestationPool :=
  res_fold (λ pool key,
    a ← attestation_of s head head_block current_slot current_epoch attestation_domain key;
    match a with Some attestation => push pool attestation | None => Ok pool end) pool keys.

(** Submitting one attestation of the pool: errors are logged and skipped. *)
Definition submit (acc : (UnsealedBeaconBlock * BeaconState) * list H256) (entry : H256 * Attestation)
  : res X ((UnsealedBeaconBlock * BeaconState) * list H256) :=
  let (r, bs) := executor_apply_extrinsic (TxAttestation entry.2) acc.1 in
  match r with
  | Ok _ => Ok (bs, acc.2 ++ [entry.1])
  | Err _ => Ok (bs, acc.2)
  | Panic => Panic
  | OutOfFuel => OutOfFuel
  end.

(** One turn of the thread up to the import: the block, or [None] when the node
    does not hold the key of the proposer, and the pool. *)
Definition build_block (backend : Backend E) (keys : Keys) (eth1_data : Eth1Data) (pool : AttestationPool)
  : res X (option BeaconBlock * AttestationPool) :=
  let head := q_head backend in
  head_block ← unwrap_result (q_block_at backend head);
  state ← unwrap_result (q_state_at backend head);
  current_slot ← u64_add (blk_slot head_block) 1;
  let (r, state) := executor_initialize_block current_slot state in
  unwrap_result r ;;
  current_epoch ← unwrap_result (current_epoch state);
  randao_domain ← unwrap_result (domain state domain_randao None);
  proposer_domain ← unwrap_result (domain state domain_beacon_proposer None);
  attestation_domain ← unwrap_result (domain state domain_beacon_attester None);
  pool ← attest_all state head head_block current_slot current_epoch attestation_domain keys pool;
  proposer_index ← unwrap_result (beacon_proposer_index state);
  proposer_pubkey ← unwrap (validator_pubkey state proposer_index);
  match key_of keys proposer_pubkey with
  | None => Ok (None, pool)
  | Some seckey =>
      let randao_reveal := bls_sign (tree_root_uint current_epoch) randao_domain seckey in
      let (r, state) := executor_apply_inherent head_block (mkInherent randao_reveal eth1_data) state in
      unsealed_block ← unwrap_result r;
      '(bs, collected) ← res_fold submit ((unsealed_block, state), []) (iter pool);
      let pool := foldl pop pool collected in
      let (r, bs) := executor_finalize_block bs in
      unwrap_result r ;;
      let block := fake_seal bs.1 in
      let signature := bls_sign (tree_root_unsealed_block (unsealed_from block)) proposer_domain seckey in
      Ok (Some (mkBeaconBlock (blk_slot block) (blk_parent_root block) (blk_state_root block) (blk_body block)
                  signature), pool)
  end.
End Builder.

(** ** The attestations of the block *)

Section Submit.
Context `{Cfg : Config} `{AM : ArithMode} `{BLS : BLSConfig} `{TR : TreeRoot} `{MT : MerkleTree} `{F : Fuel}.
Context {X : Type}.

(** A command that changes the state only when it succeeds. *)
Definition all_or_nothing {S E A} (m : M S E A) : Prop := ∀ s e s', m s = (Err e, s') → s' = s.

Lemma atomic_lift {S E A B} (m : res E A) (f : A → M S E B) s :
  (∀ a e s', f a s = (Err e, s') → s' = s) → ∀ e s', (lift m ≫= f) s = (Err e, s') → s' = s.
Proof using Type. intros Hf e s'. rewrite Mbind_lift_case. destruct m; [apply Hf|by intros [= _ <-]|done..]. Qed.

Lemma atomic_require {S E B} (b : bool) (err : E) (f : unit → M S E B) s :
  (∀ e s', f tt s = (Err e, s') → s' = s) → ∀ e s', (require b err ≫= f) s = (Err e, s') → s' = s.
Proof using Type. intros Hf e s'. destruct b; [apply Hf|by intros [= _ <-]]. Qed.

Lemma process_attestation_atomic a : all_or_nothing (process_attestation a).
Proof using Type.
  intros s. unfold process_attestation. rewrite Mbind_get.
  repeat first [apply atomic_lift; intros ? | apply atomic_require | progress cbv zeta].
  destruct (_ =? _); intros e s' Hrun; discriminate Hrun.
Qed.

Lemma apply_attestation_atomic a : all_or_nothing (apply_transaction (TxAttestation a)).
Proof using Type.
  intros [b s] e bs Hrun. unfold apply_transaction in Hrun. rewrite Mbind_get in Hrun. cbn [fst] in Hrun.
  unfold author_room in Hrun. destruct (_ <=? _); [by injection Hrun|].
  rewrite (Mbind_step (mret tt) _ _ tt _ eq_refl) in Hrun. unfold mbind, M_bind, on_state in Hrun. cbn [fst snd] in Hrun.
  destruct (process_attestation a s) as [[[]|e'| |] s'] eqn:Ha; try done.
  injection Hrun as _ <-. by rewrite (process_attestation_atomic _ _ _ _ Ha).
Qed.

(** The loop over the pool is the application of those that succeed. *)
Lemma submit_all entries bs collected bs' collected' :
  res_fold (submit (X:=X)) (bs, collected) entries = Ok (bs', collected') →
  ∃ ats, for_each (TxAttestation <$> ats) apply_transaction bs = (Ok tt, bs') ∧
    (∀ a, a ∈ ats → ∃ h, (h, a) ∈ entries).
Proof using Type.
  revert bs collected. induction entries as [|[h a] entries IH]; intros bs collected Hrun.
  { injection Hrun as <- <-. exists []. split; [done|]. by intros a ?%elem_of_nil. }
  cbn [res_fold] in Hrun. apply bind_Ok in Hrun as ([bs1 c1] & H1 & Hrun).
  destruct (IH _ _ Hrun) as (ats & Hats & Hin). unfold submit, executor_apply_extrinsic in H1. cbn [fst snd] in H1.
  destruct (apply_transaction (TxAttestation a) bs) as [r bs2] eqn:Ha. cbn in H1.
  destruct r as [[]|e| |]; cbn in H1; [injection H1 as <- <-|injection H1 as <- <-|done|done].
  - exists (a :: ats). split; [cbn; by rewrite (Mbind_step _ _ _ _ _ Ha)|].
    intros x [->|Hx]%elem_of_cons; [exists h; left|]. destruct (Hin x Hx) as [k Hk]. exists k. by right.
  - apply apply_attestation_atomic in Ha as ->. exists ats. split; [done|].
    intros x Hx. destruct (Hin x Hx) as [k Hk]. exists k. by right.
Qed.

(** Attestations leave the deposits that are due alone. *)
Lemma attestations_due ats b s b' s' n :
  for_each (TxAttestation <$> ats) apply_transaction (b, s) = (Ok tt, (b', s')) →
  deposits_due s' n → deposits_due s n.
Proof using Type.
  intros Hrun. assert (steps (same (λ bs, (eth1_data bs.2, eth1_deposit_index bs.2)))
    (for_each (TxAttestation <$> ats) apply_transaction)) as Hs.
  { apply steps_for_each_in; [apply _|]. intros x (a & -> & _)%list_elem_of_fmap [b0 s0].
    unfold apply_transaction. rewrite Mbind_get. cbn [fst]. unfold author_room. destruct (_ <=? _); [done|].
    rewrite (Mbind_step (mret tt) _ _ tt _ eq_refl). unfold mbind, M_bind, on_state. cbn [fst snd].
    assert (steps (same (λ s, (eth1_data s, eth1_deposit_index s))) (process_attestation a)) as Ha
      by (unfold process_attestation; step_tac; done).
    specialize (Ha s0). destruct (process_attestation a s0) as [[[]| | |] t]; exact Ha. }
  specialize (Hs (b, s)). rewrite Hrun in Hs. injection Hs as He Hi. cbn in He, Hi.
  unfold deposits_due. by rewrite He, Hi.
Qed.

(** Finalizing checks the deposits that are due. *)
Lemma finalize_due b s b' s' :
  finalize_block (b, s) = (Ok tt, (b', s')) → deposits_due s (zlen (body_deposits (ub_body b))).
Proof using Type.
  intros Hrun. unfold finalize_block in Hrun. rewrite Mbind_get in Hrun. cbn [fst snd] in Hrun.
  destruct (_ <? _); [done|]. apply Mbind_lift in Hrun as (o & Ho & Hrun).
  destruct (Z.eqb_spec (zlen (body_deposits (ub_body b))) (Z.min max_deposits o)); [|done]. by exists o.
Qed.
End Submit.

(** ** What the builder signs *)

Section Built.
Context `{Cfg : Config} `{AM : ArithMode} `{BLS : BLSConfig} `{TR : TreeRoot} `{MT : MerkleTree} `{F : Fuel}.
Context {Secret : Type} (bls_sign : H256 → Uint → Secret → Signature) {E X : Type}.

Lemma unwrap_result_Ok {E1 E2 A} (r : res E1 A) (a : A) : unwrap_result (F:=E2) r = Ok a → r = Ok a.
Proof using Type. destruct r; naive_solver. Qed.

Lemma key_of_elem (keys : list (ValidatorId * Secret)) pubkey sk :
  key_of keys pubkey = Some sk → (pubkey, sk) ∈ keys.
Proof using Type.
  unfold key_of. intros ([i [pk k]] & Hf & Hk)%bind_Some. cbn in Hk. injection Hk as ->.
  apply list_find_Some in Hf as (Hl & <- & _). by eapply list_elem_of_lookup_2.
Qed.

(** The stages of a turn that returns a block. *)
Record build_run (s : BeaconState) (head_block : BeaconBlock) (keys : list (ValidatorId * Secret))
  (pool' : AttestationPool) (block : BeaconBlock) : Prop := {
  br_stages : ∃ slot_ inherent ats s1 s2 s3 s4 b0 b1 b2 p v d sk,
    u64_add (E:=X) (blk_slot head_block) 1 = Ok slot_ ∧
    initialize_block slot_ s = (Ok tt, s1) ∧
    apply_inherent head_block inherent s1 = (Ok b0, s2) ∧
    for_each (TxAttestation <$> ats) apply_transaction (b0, s2) = (Ok tt, (b1, s3)) ∧
    finalize_block (b1, s3) = (Ok tt, (b2, s4)) ∧
    beacon_proposer_index s1 = Ok p ∧ validators s1 !! Z.to_nat p = Some v ∧
    domain s1 domain_beacon_proposer None = Ok d ∧ (v_pubkey v, sk) ∈ keys ∧
    block = sealed b2 (bls_sign (tree_root_unsealed_block b2) d sk) ∧
    (∀ a, a ∈ ats → ∃ h, (h, a) ∈ iter pool');
}.

Lemma build_block_run (backend : Backend E) keys eth1 pool pool' block s head_block :
  q_state_at backend (q_head backend) = Ok s → q_block_at backend (q_head backend) = Ok head_block →
  build_block (X:=X) bls_sign backend keys eth1 pool = Ok (Some block, pool') →
  ∃ pool1, build_run s head_block keys pool1 block.
Proof using Type.
  intros Hs Hb Hrun. unfold build_block in Hrun. rewrite Hs, Hb in Hrun. cbn [unwrap_result] in Hrun.
  rewrite !res_bind_Ok in Hrun. apply bind_Ok in Hrun as (slot_ & Hslot & Hrun).
  unfold executor_initialize_block in Hrun. destruct (initialize_block slot_ s) as [r1 s1] eqn:Hin.
  apply bind_Ok in Hrun as (u & Hr1 & Hrun).
  assert (r1 = Ok tt) as -> by by destruct r1 as [[]| | |].
  apply bind_Ok in Hrun as (e & He & Hrun). apply bind_Ok in Hrun as (d1 & Hd1 & Hrun).
  apply bind_Ok in Hrun as (d & Hd & Hrun). apply bind_Ok in Hrun as (d2 & Hd2 & Hrun).
  apply bind_Ok in Hrun as (pool1 & Hpool & Hrun). apply bind_Ok in Hrun as (p & Hp & Hrun).
  apply bind_Ok in Hrun as (pk & Hpk & Hrun).
  destruct (key_of keys pk) as [sk|] eqn:Hk; [|done]. cbv zeta in Hrun.
  unfold executor_apply_inherent in Hrun. set (inh := mkInherent _ _) in Hrun.
  destruct (apply_inherent head_block inh s1) as [r2 s2] eqn:Hinh.
  apply bind_Ok in Hrun as (b0 & Hr2 & Hrun). apply unwrap_result_Ok in Hr2.
  assert (r2 = Ok b0) as -> by (destruct r2; naive_solver).
  apply bind_Ok in Hrun as ([[b1 s3] collected] & Hsub & Hrun).
  apply submit_all in Hsub as (ats & Hats & Hin').
  unfold executor_finalize_block in Hrun. destruct (finalize_block (b1, s3)) as [r3 [b2 s4]] eqn:Hfin.
  apply bind_Ok in Hrun as (u' & Hr3 & Hrun). assert (r3 = Ok tt) as -> by by destruct r3 as [[]| | |].
  injection Hrun as <- <-. apply unwrap_result_Ok in Hp, Hd.
  assert (∃ v, validators s1 !! Z.to_nat p = Some v ∧ v_pubkey v = pk) as (v & Hv & <-).
  { unfold validator_pubkey in Hpk. destruct (_ <=? _); [done|].
    destruct (validators s1 !! Z.to_nat p) as [v|]; [|done]. injection Hpk as <-. by exists v. }
  exists pool1. split. exists slot_, inh, ats, s1, s2, s3, s4, b0, b1, b2, p, v, d, sk.
  do 9 (split; [by (assumption || apply key_of_elem)|]). split; [by destruct b2|done].
Qed.
End Built.

(** An accepted block ends at its slot. *)
Lemma state_transition_slot `{Config} `{ArithMode} `{BLSConfig} `{TreeRoot} `{MerkleTree} `{Fuel}
  (b : BeaconBlock) s s' :
  wf_state s → state_transition b s = (Ok tt, s') → is_u64 (blk_slot b) → slot s' = blk_slot b.
Proof.
  intros Hwf Hrun Hb. unfold state_transition in Hrun.
  apply Mbind_Ok in Hrun as ([] & s1 & Hsl & Hrun). apply Mbind_Ok in Hrun as ([] & s2 & Hbl & Hrun). run_inv.
  apply process_slots_slot in Hsl; [|apply Hwf|done].
  pose proof (process_block_frame b s1) as Hfr. rewrite Hbl in Hfr. cbn in Hfr.
  apply same_finality in Hfr as [-> _]. done.
Qed.

(** The state is the one a block leads to: it is the genesis state of that
    block, or the result of an accepted transition. *)
Definition led_to `{Config} `{ArithMode} `{BLSConfig} `{TreeRoot} `{MerkleTree} `{Fuel}
  (head_block : BeaconBlock) (s : BeaconState) : Prop :=
  (∃ deposits time eth1, genesis deposits time eth1 = Ok (head_block, s)) ∨
  (∃ s0, wf_state s0 ∧ state_transition head_block s0 = (Ok tt, s)).

Lemma led_to_tip `{Config} `{ArithMode} `{BLSConfig} `{TreeRoot} `{MerkleTree} `{Fuel} (b : BeaconBlock) s :
  led_to b s → is_u64 (blk_slot b) → slot s = blk_slot b ∧ tip_root s = block_id b.
Proof.
  intros [(deposits & time & eth1 & Hg)|(s0 & Hwf & Hrun)] Hb.
  - unfold genesis in Hg. apply bind_Ok in Hg as (s1 & Hs & Heq). injection Heq as <- ->. split; [|by eapply genesis_roots].
    apply genesis_run in Hs as (s1 & Hs & ->). pose proof (steps_for_each (same finality_frame) deposits process_deposit
      process_deposit_frame (genesis_initial time eth1)) as Hf. rewrite Hs in Hf. cbn in Hf. by injection Hf.
  - split; [by eapply state_transition_slot|by eapply state_transition_tip].
Qed.

(** C9: the block a turn of the builder signs is accepted by the executor on the
    state of the head, in the slot after it, when signatures made with the keys
    of the node verify.  When that state is the one the head block leads to,
    genesis or not, and its root is not the zero hash, the block names the head
    block as its parent. *)
Theorem built_block_accepted `{Config} `{ArithMode} `{BLSConfig} `{TreeRoot} `{MerkleTree} `{Fuel} `{!ConfigOk _}
  {Secret E X : Type} (bls_sign : H256 → Uint → Secret → Signature) (backend : Backend E)
  (keys : list (ValidatorId * Secret)) (eth1 : Eth1Data) (pool pool' : AttestationPool)
  (block head_block : BeaconBlock) (s : BeaconState) :
  q_state_at backend (q_head backend) = Ok s → q_block_at backend (q_head backend) = Ok head_block →
  wf_state s → 0 ≤ blk_slot head_block < 2 ^ 62 - 1 →
  (∀ pk sk m d, (pk, sk) ∈ keys → verify pk m (bls_sign m d sk) d = true) →
  build_block (X:=X) bls_sign backend keys eth1 pool = Ok (Some block, pool') →
  ∃ s', executor_execute_block block s = Ok s' ∧ slot s' = blk_slot head_block + 1 ∧
    (led_to head_block s → tree_root_state s ≠ H256_default → blk_parent_root block = block_id head_block).
Proof.
  intros Hs Hb Hwf Hslot Hsign Hrun.
  apply (build_block_run _ _ _ _ _ _ _ s head_block) in Hrun as (pool1 & [Hst]); [|done..].
  destruct Hst as (slot_ & inh & ats & s1 & s2 & s3 & s4 & b0 & b1 & b2 & p & v & d & sk & Hsl & Hin & Hinh
    & Hats & Hfin & Hp & Hv & Hd & Hk & -> & _).
  rewrite u64_add_ok in Hsl by (unfold is_u64; lia). injection Hsl as <-.
  assert (slot s1 = blk_slot head_block + 1) as Hs1
    by (eapply process_slots_slot; [apply Hwf|unfold is_u64; lia|exact Hin]).
  assert (for_each (ordered [] [] ats [] []) apply_transaction (b0, s2) = (Ok tt, (b1, s3))) as Hord
    by (unfold ordered; cbn [fmap list_fmap app]; by rewrite app_nil_r).
  assert (deposits_due s2 0 ∧ ub_slot b2 = blk_slot head_block + 1) as [Hdue Hb2].
  { pose proof (finalize_due _ _ _ _ Hfin) as Hdue. pose proof Hinh as Hinh'.
    apply (apply_inherent_stages _ _ _ _ _ (mkBeaconBlockBody (inh_randao_reveal inh) (inh_eth1_data inh)
      H256_default [] [] [] [] [])) in Hinh' as (_ & Hbs & Hbb); [|done..].
    destruct (apply_ordered [] [] ats [] [] _ _ _ _ _ _ _ Hbb Hord) as [-> _].
    apply finalize_block_stages in Hfin as [_ ->]. split; [|cbn; lia].
    eapply attestations_due; [exact Hats|exact Hdue]. }
  assert (execute_block (sealed b2 (bls_sign (tree_root_unsealed_block b2) d sk)) s = (Ok tt, s4)) as Hex.
  { apply (authored_import head_block inh [] [] ats [] [] (blk_slot head_block + 1) s s1 s2 s3 s4 b0 b1 b2);
      [done|lia|done..|].
    exists p, v, d. split; [done|]. split; [done|]. split; [done|]. by apply Hsign. }
  exists s4. split; [unfold executor_execute_block; by rewrite Hex|].
  split; [rewrite <- Hb2; apply (state_transition_slot _ _ _ Hwf Hex); cbn; unfold is_u64; lia|].
  intros [Hss <-]%led_to_tip Hroot; [|unfold is_u64; lia].
  apply (state_transition_extends _ s s4 Hex); [cbn; lia|done].
Qed.

(** ** Witness: a node that holds the keys of sixteen validators *)

Section Witnesses.
#[local] Existing Instances toy_config toy_config_ok toy_mode toy_fuel toy_tree toy_merkle toy_bls.

Definition toy_sign (m : H256) (d : Uint) (sk : unit) : Signature := H768_default.
Definition toy_keys : list (ValidatorId * unit) := (λ i, (replicate 48 i, tt)) <$> zrange 0 16.
(** The head is the block of slot 7, on the state it leads to. *)
Definition toy_head_state : BeaconState := (state_transition (toy_block 7) (toy_state 16 6)).2.
Definition toy_backend : Backend unit := {|
  q_head := block_id (toy_block 7);
  q_contains := λ _, Ok true;
  q_is_canon := λ _, Ok true;
  q_lookup_canon_depth := λ _, Ok None;
  q_state_at := λ _, Ok toy_head_state;
  q_block_at := λ _, Ok (toy_block 7);
  q_depth_at := λ _, Ok 0;
|}.
#[local] Notation toy_build :=
  (build_block (Cfg:=toy_config) (AM:=toy_mode) (BLS:=toy_bls) (TR:=toy_tree) (MT:=toy_merkle) (F:=toy_fuel)
    (E:=unit) (X:=unit) toy_sign toy_backend toy_keys Eth1Data_default pool_new).

Lemma toy_build_ok : match toy_build with Ok (Some _, _) => true | _ => false end = true.
Proof. vm_compute. reflexivity. Qed.

Lemma toy_head_wf : wf_state toy_head_state.
Proof. apply wf_stateb_spec. vm_compute. reflexivity. Qed.

Lemma toy_led_to : led_to (toy_block 7) toy_head_state.
Proof.
  right. exists (toy_state 16 6). split; [apply wf_stateb_spec; vm_compute; reflexivity|].
  assert ((state_transition (toy_block 7) (toy_state 16 6)).1 = Ok tt) as Hrun by (vm_compute; reflexivity).
  unfold toy_head_state. exact (run_eta _ _ Hrun).
Qed.

Lemma built_block_accepted_witness :
  ∃ block pool', toy_build = Ok (Some block, pool') ∧ blk_parent_root block = block_id (toy_block 7) ∧
    ∃ s', executor_execute_block block toy_head_state = Ok s' ∧ slot s' = 8.
Proof.
  pose proof toy_build_ok as Hok. destruct toy_build as [[[block|] pool']| | |] eqn:Hrun; [|discriminate Hok..].
  exists block, pool'. split; [reflexivity|].
  destruct (built_block_accepted (X:=unit) toy_sign toy_backend toy_keys Eth1Data_default pool_new pool' block
    (toy_block 7) toy_head_state) as (s' & H1 & H2 & H3);
    [reflexivity|reflexivity|exact toy_head_wf|cbn; lia|reflexivity|exact Hrun|].
  split; [apply H3; [exact toy_led_to|discriminate]|]. exists s'. split; [exact H1|exact H2].
Defined.
End Witnesses.
