(* ===== verification/RpcHandler.v ===== *)
(** * The connection handler of the RPC protocol: [common/libp2p-rpc]

    One [RPCHandler] per connection turns the requests of the node into
    outbound substreams and the requests of the peer into events, and matches
    responses with the substreams that wait for them.  [handler.rs] is modelled
    in full: the state, the callbacks libp2p makes and [poll], and from [lib.rs]
    the behaviour that queues the events of all connections.

    The substreams are external: what polling one returns is a parameter.  Time
    is counted in seconds, and one call reads the clock once.

    The theorems describe a run of the handler as a sequence of labelled steps:
    a request of the peer is answered at most once and never after its time,
    [poll] drives every substream exactly once, and a dial that fails is never
    given back. *)
From stdpp Require Import base numbers list gmap fin_maps relations strings.
From Stdlib Require Import ZArith Lia.
From S2P Require Import Prelude Messages.

#[local] Open Scope Z_scope.

(** [u32] arithmetic of the dial counter *)
Definition u32_check `{ArithMode} {E} (z : Z) : res E Z :=
  if (0 <=? z) && (z <? 2 ^ 32) then Ok z
  else if overflow_checks then Panic else Ok (z mod 2 ^ 32).

(** [trait RPCRequest] *)
Class RpcRequestLike (Req : Type) := {
  req_is_goodbye : Req → bool;
  req_expect_response : Req → bool;
}.

#[global] Instance RPCRequest_like : RpcRequestLike RPCRequest := {|
  req_is_goodbye := is_goodbye;
  req_expect_response := expect_response;
|}.

(** [enum RPCError] *)
Inductive RPCError : Type :=
  | Codec (message : string)
  | StreamTimeout
  | Custom (message : string).

(** [enum RPCEvent] *)
Inductive Event (Req Res : Type) : Type :=
  | Request (id : Z) (req : Req)
  | Response (id : Z) (res : Res)
  | Error (id : Z) (error : RPCError).
Arguments Request {Req Res} _ _.
Arguments Response {Req Res} _ _.
Arguments Error {Req Res} _ _.

(** [RPCEvent::id] *)
Definition event_id {Req Res} (e : Event Req Res) : Z :=
  match e with Request id _ => id | Response id _ => id | Error id _ => id end.

(** What polling a substream returns. *)
Inductive SendPoll (Snd : Type) : Type :=
  | SendReady
  | SendNotReady (substream : Snd)
  | SendFailed.
Arguments SendReady {Snd}.
Arguments SendNotReady {Snd} _.
Arguments SendFailed {Snd}.

Inductive ResponsePoll (Outb Res : Type) : Type :=
  | ResponseReady (response : option Res)
  | ResponseNotReady (substream : Outb)
  | ResponseFailed.
Arguments ResponseReady {Outb Res} _.
Arguments ResponseNotReady {Outb Res} _.
Arguments ResponseFailed {Outb Res}.

(** The framed substreams of libp2p and tokio: an inbound one to send a response
    on, one that is sending, and an outbound one a response is awaited on. *)
Class Substreams (Inb Snd Outb Res : Type) := {
  start_send : Inb → Res → Snd;
  poll_send : Snd → SendPoll Snd;
  poll_response : Outb → ResponsePoll Outb Res;
}.

(** [KeepAlive] of libp2p, the values the handler uses *)
Inductive KeepAlive : Type := Yes | Until (instant : Z).

Definition RESPONSE_TIMEOUT : Z := 10.

(** [enum SubstreamState] *)
Inductive SubstreamState (Snd Outb Req Res : Type) : Type :=
  | ResponsePendingSend (substream : Snd)
  | RequestPendingResponse (substream : Outb) (rpc_event : Event Req Res) (timeout : Z).
Arguments ResponsePendingSend {Snd Outb Req Res} _.
Arguments RequestPendingResponse {Snd Outb Req Res} _ _ _.

(** [struct WaitingResponse] *)
Record WaitingResponse (Inb : Type) := mkWaitingResponse {
  wr_substream : Inb;
  wr_timeout : Z;
}.
Arguments mkWaitingResponse {Inb} _ _.
Arguments wr_substream {Inb} _.
Arguments wr_timeout {Inb} _.

(** [struct RPCHandler]; the upgrade values it passes on are left out. *)
Record RPCHandler (Inb Snd Outb Req Res : Type) := mkRPCHandler {
  pending_error : option RPCError;
  events_out : list (Event Req Res);
  dial_queue : list (Event Req Res);
  dial_negotiated : Z;
  waiting_substreams : gmap Z (WaitingResponse Inb);
  substreams : list (SubstreamState Snd Outb Req Res);
  current_substream_id : Z;
  max_dial_negotiated : Z;
  keep_alive : KeepAlive;
  inactive_timeout : Z;
}.
Arguments mkRPCHandler {Inb Snd Outb Req Res} _ _ _ _ _ _ _ _ _ _.
Arguments pending_error {Inb Snd Outb Req Res} _.
Arguments events_out {Inb Snd Outb Req Res} _.
Arguments dial_queue {Inb Snd Outb Req Res} _.
Arguments dial_negotiated {Inb Snd Outb Req Res} _.
Arguments waiting_substreams {Inb Snd Outb Req Res} _.
Arguments substreams {Inb Snd Outb Req Res} _.
Arguments current_substream_id {Inb Snd Outb Req Res} _.
Arguments max_dial_negotiated {Inb Snd Outb Req Res} _.
Arguments keep_alive {Inb Snd Outb Req Res} _.
Arguments inactive_timeout {Inb Snd Outb Req Res} _.

(** What [poll] returns. *)
Inductive HandlerPoll (Req Res : Type) : Type :=
  | CustomEvent (event : Event Req Res)
  | OutboundSubstreamRequest (req : Req) (info : Event Req Res)
  | NotReady.
Arguments CustomEvent {Req Res} _.
Arguments OutboundSubstreamRequest {Req Res} _ _.
Arguments NotReady {Req Res}.

(** Field updates *)
Section Updates.
Context {Inb Snd Outb Req Res : Type}.
Notation H := (RPCHandler Inb Snd Outb Req Res).

Definition set_pending_error (x : option RPCError) (h : H) : H :=
  mkRPCHandler x (events_out h) (dial_queue h) (dial_negotiated h) (waiting_substreams h) (substreams h)
    (current_substream_id h) (max_dial_negotiated h) (keep_alive h) (inactive_timeout h).
Definition set_events_out (x : list (Event Req Res)) (h : H) : H :=
  mkRPCHandler (pending_error h) x (dial_queue h) (dial_negotiated h) (waiting_substreams h) (substreams h)
    (current_substream_id h) (max_dial_negotiated h) (keep_alive h) (inactive_timeout h).
Definition set_dial_queue (x : list (Event Req Res)) (h : H) : H :=
  mkRPCHandler (pending_error h) (events_out h) x (dial_negotiated h) (waiting_substreams h) (substreams h)
    (current_substream_id h) (max_dial_negotiated h) (keep_alive h) (inactive_timeout h).
Definition set_dial_negotiated (x : Z) (h : H) : H :=
  mkRPCHandler (pending_error h) (events_out h) (dial_queue h) x (waiting_substreams h) (substreams h)
    (current_substream_id h) (max_dial_negotiated h) (keep_alive h) (inactive_timeout h).
Definition set_waiting (x : gmap Z (WaitingResponse Inb)) (h : H) : H :=
  mkRPCHandler (pending_error h) (events_out h) (dial_queue h) (dial_negotiated h) x (substreams h)
    (current_substream_id h) (max_dial_negotiated h) (keep_alive h) (inactive_timeout h).
Definition set_substreams (x : list (SubstreamState Snd Outb Req Res)) (h : H) : H :=
  mkRPCHandler (pending_error h) (events_out h) (dial_queue h) (dial_negotiated h) (waiting_substreams h) x
    (current_substream_id h) (max_dial_negotiated h) (keep_alive h) (inactive_timeout h).
Definition set_current_id (x : Z) (h : H) : H :=
  mkRPCHandler (pending_error h) (events_out h) (dial_queue h) (dial_negotiated h) (waiting_substreams h) (substreams h)
    x (max_dial_negotiated h) (keep_alive h) (inactive_timeout h).
Definition set_keep_alive (x : KeepAlive) (h : H) : H :=
  mkRPCHandler (pending_error h) (events_out h) (dial_queue h) (dial_negotiated h) (waiting_substreams h) (substreams h)
    (current_substream_id h) (max_dial_negotiated h) x (inactive_timeout h).
End Updates.

(** ** The operations *)

Section Operations.
Context `{AM : ArithMode} {Inb Snd Outb Req Res : Type}.
Context `{RL : RpcRequestLike Req} `{SS : Substreams Inb Snd Outb Res}.

Notation Handler := (RPCHandler Inb Snd Outb Req Res).
Notation Ev := (Event Req Res).
Notation St := (SubstreamState Snd Outb Req Res).
Notation Op := (M Handler Empty_set).

(** [RPCHandler::new] and [default] *)
Definition handler_new (inactive_timeout_ : Z) : Handler :=
  mkRPCHandler None [] [] 0 ∅ [] 1 8 Yes inactive_timeout_.
Definition handler_default : Handler := handler_new 30.

(** [RPCHandler::pending_requests] *)
Definition pending_requests (h : Handler) : res Empty_set Z :=
  u32_check (dial_negotiated h + zlen (dial_queue h) mod 2 ^ 32).

(** [RPCHandler::send_request] *)
Definition send_request (rpc_event : Ev) : Op unit :=
  h ← get;
  put (set_dial_queue (dial_queue h ++ [rpc_event]) (set_keep_alive Yes h)).

(** [inject_fully_negotiated_inbound]: a goodbye is reported under id 0 and its
    substream dropped; any other request gets the next id. *)
Definition inject_fully_negotiated_inbound (now : Z) (req : Req) (substream : Inb) : Op unit :=
  h ← get;
  if req_is_goodbye req then put (set_events_out (events_out h ++ [Request 0 req]) h)
  else
    let awaiting_stream := mkWaitingResponse substream (now + RESPONSE_TIMEOUT) in
    put (set_waiting (<[current_substream_id h := awaiting_stream]> (waiting_substreams h)) h) ;;
    h ← get;
    put (set_events_out (events_out h ++ [Request (current_substream_id h) req]) h) ;;
    h ← get;
    i ← lift (u64_add (current_substream_id h) 1);
    put (set_current_id i h).

(** [inject_fully_negotiated_outbound]: a substream that was dialed is open, the
    request has been sent. *)
Definition inject_fully_negotiated_outbound (now : Z) (out : Outb) (rpc_event : Ev) : Op unit :=
  h ← get;
  n ← lift (u32_check (dial_negotiated h - 1));
  put (set_dial_negotiated n h) ;;
  h ← get;
  put (set_keep_alive
         (if (dial_negotiated h =? 0) && bool_decide (dial_queue h = []) && bool_decide (waiting_substreams h = ∅)
          then Until (now + inactive_timeout h) else Yes) h) ;;
  match rpc_event with
  | Request id req =>
      if req_expect_response req then
        h ← get;
        put (set_substreams (substreams h ++
               [RequestPendingResponse out (Request id req) (now + RESPONSE_TIMEOUT)]) h)
      else mret tt
  | _ => mret tt
  end.

(** [inject_event]: an event from the node. *)
Definition inject_event (rpc_event : Ev) : Op unit :=
  match rpc_event with
  | Request _ _ => send_request rpc_event
  | Response rpc_id res =>
      h ← get;
      match waiting_substreams h !! rpc_id with
      | Some waiting_stream =>
          put (set_waiting (delete rpc_id (waiting_substreams h)) h) ;;
          h ← get;
          put (set_substreams (substreams h ++ [ResponsePendingSend (start_send (wr_substream waiting_stream) res)]) h)
      | None => mret tt
      end
  | Error _ _ => mret tt
  end.

(** [inject_dial_upgrade_error] *)
Definition inject_dial_upgrade_error (error : RPCError) : Op unit :=
  h ← get;
  put (match pending_error h with None => set_pending_error (Some error) h | Some _ => h end).

(** [connection_keep_alive] *)
Definition connection_keep_alive (h : Handler) : KeepAlive := keep_alive h.

(** [Vec::swap_remove]: the last element takes the place of the removed one;
    an index out of range panics. *)
Definition swap_remove {A} (l : list A) (n : nat) : res Empty_set (A * list A) :=
  match l !! n, last l with
  | Some x, Some y => Ok (x, take (length l - 1) (<[n := y]> l))
  | _, _ => Panic
  end.

(** One substream is polled: it is kept with what is left of it, dropped, or
    ends in an event. *)
Inductive Driven : Type := Keep (state : St) | Drop | Emit (event : Ev).

Definition drive (now : Z) (stream : St) : Driven :=
  match stream with
  | ResponsePendingSend substream =>
      match poll_send substream with
      | SendReady => Drop
      | SendNotReady substream' => Keep (ResponsePendingSend substream')
      | SendFailed => Emit (Error 0 (Codec "send codec error"))
      end
  | RequestPendingResponse substream rpc_event timeout =>
      match poll_response substream with
      | ResponseReady (Some response) => Emit (Response (event_id rpc_event) response)
      | ResponseReady None =>
          Emit (Error (event_id rpc_event) (Custom "Stream closed early. Empty response"))
      | ResponseNotReady substream' =>
          if now <? timeout then Keep (RequestPendingResponse substream' rpc_event timeout) else Drop
      | ResponseFailed => Emit (Error (event_id rpc_event) (Codec "response codec error"))
      end
  end.

(** The loop [for n in (0..self.substreams.len()).rev()]; [Some] is the early
    return. *)
Fixpoint drive_loop (now : Z) (n : nat) (l : list St) : res Empty_set (option Ev * list St) :=
  match n with
  | O => Ok (None, l)
  | S n =>
      '(stream, l) ← swap_remove l n;
      match drive now stream with
      | Keep stream' => drive_loop now n (l ++ [stream'])
      | Drop => drive_loop now n l
      | Emit event => Ok (Some event, l)
      end
  end.

(** The end of [poll]: at most one substream is dialed. *)
Definition poll_dial : Op (HandlerPoll Req Res) :=
  h ← get;
  match dial_queue h with
  | [] => mret NotReady
  | rpc_event :: rest =>
      if dial_negotiated h <? max_dial_negotiated h then
        n ← lift (u32_check (dial_negotiated h + 1));
        put (set_dial_queue rest (set_dial_negotiated n h)) ;;
        match rpc_event with
        | Request id req => mret (OutboundSubstreamRequest req (Request id req))
        | _ => mret NotReady
        end
      else mret NotReady
  end.

(** [poll] *)
Definition poll (now : Z) : Op (HandlerPoll Req Res) :=
  h ← get;
  put (set_pending_error None h) ;;
  h ← get;
  match events_out h with
  | event :: rest => put (set_events_out rest h) ;; mret (CustomEvent event)
  | [] =>
      put (set_waiting (filter (λ kw, now <= wr_timeout kw.2) (waiting_substreams h)) h) ;;
      h ← get;
      '(event, l) ← lift (drive_loop now (length (substreams h)) (substreams h));
      put (set_substreams l h) ;;
      match event with
      | Some event => mret (CustomEvent event)
      | None => poll_dial
      end
  end.
End Operations.

(** ** The behaviour of all connections: [lib.rs] *)

Section Behaviour.
Context {Peer Req Res : Type}.

(** [enum RPCMessage] and the actions of libp2p *)
Inductive RPCMessage : Type :=
  | MessageEvent (peer : Peer) (event : Event Req Res)
  | MessageDialed (peer : Peer)
  | MessageDisconnected (peer : Peer).
Inductive BehaviourAction : Type :=
  | SendEvent (peer : Peer) (event : Event Req Res)
  | GenerateEvent (message : RPCMessage).

(** [struct RPC] is its queue of events. *)
Definition rpc_new : list BehaviourAction := [].
Definition send_rpc (peer : Peer) (event : Event Req Res) (events : list BehaviourAction) : list BehaviourAction :=
  events ++ [SendEvent peer event].
Definition inject_connected (peer : Peer) (events : list BehaviourAction) : list BehaviourAction :=
  events ++ [GenerateEvent (MessageDialed peer)].
Definition inject_disconnected (peer : Peer) (events : list BehaviourAction) : list BehaviourAction :=
  events ++ [GenerateEvent (MessageDisconnected peer)].
Definition inject_node_event (source : Peer) (event : Event Req Res) (events : list BehaviourAction)
  : list BehaviourAction :=
  events ++ [GenerateEvent (MessageEvent source event)].
Definition behaviour_poll (events : list BehaviourAction) : option BehaviourAction * list BehaviourAction :=
  match events with [] => (None, []) | a :: rest => (Some a, rest) end.
End Behaviour.

(** ** The loop over the substreams *)

Section Drive.
Context {Inb Snd Outb Req Res : Type} `{SS : Substreams Inb Snd Outb Res}.
Notation St := (SubstreamState Snd Outb Req Res).

(** What is left of a substream that was polled without an event. *)
Definition kept (now : Z) (stream : St) : option St :=
  match drive now stream with Keep stream' => Some stream' | _ => None end.
Definition emits (now : Z) (stream : St) : Prop := ∃ e, drive now stream = Emit e.

Lemma swap_remove_at {A} (pre post : list A) x :
  ∃ post', swap_remove (pre ++ x :: post) (length pre) = Ok (x, pre ++ post') ∧ post' ≡ₚ post.
Proof using Type.
  unfold swap_remove. rewrite list_lookup_middle by done.
  destruct post as [|y post _] using rev_ind.
  - rewrite last_snoc. exists []. split; [|done]. rewrite insert_app_r_alt, Nat.sub_diag by lia.
    cbn [insert list_insert]. rewrite length_app. cbn [length].
    by rewrite Nat.add_sub, take_app_length, app_nil_r.
  - rewrite (app_comm_cons post [y] x), app_assoc, last_snoc. exists (y :: post).
    split; [|by rewrite Permutation_cons_append]. f_equal. f_equal.
    rewrite <- app_assoc, insert_app_r_alt, Nat.sub_diag by lia. cbn [app insert list_insert].
    rewrite (app_comm_cons post [y] y), app_assoc, !length_app. cbn [length].
    replace (length pre + S (length (post ++ [y])) - 1)%nat with (length (pre ++ y :: post))
      by (rewrite !length_app; cbn; lia).
    by rewrite take_app_length.
Qed.

(** The loop from index [n] down, on a list whose first [n] entries have not
    been touched. *)
Lemma drive_loop_from now (pre done_ : list St) :
  (∃ l', drive_loop (Inb:=Inb) now (length pre) (pre ++ done_) = Ok (None, l') ∧
     Forall (λ st, ¬ emits now st) pre ∧ l' ≡ₚ omap (kept now) pre ++ done_) ∨
  (∃ a st b e l', drive_loop (Inb:=Inb) now (length pre) (pre ++ done_) = Ok (Some e, l') ∧
     pre = a ++ st :: b ∧ drive now st = Emit e ∧ Forall (λ st, ¬ emits now st) b ∧
     l' ≡ₚ a ++ omap (kept now) b ++ done_).
Proof using Type.
  revert done_. induction pre as [|x pre IH] using rev_ind; intros done_.
  { left. exists done_. done. }
  rewrite length_app, Nat.add_1_r. cbn [drive_loop]. rewrite <- app_assoc. cbn [app].
  destruct (swap_remove_at pre done_ x) as (post & -> & Hpost). rewrite res_bind_Ok.
  destruct (drive now x) as [x'| |e] eqn:Hx.
  - assert (¬ emits now x) as Hne by (intros [e He]; congruence).
    assert (omap (kept now) [x] = [x']) as Hk by (cbn; unfold kept; by rewrite Hx).
    rewrite <- app_assoc. destruct (IH (post ++ [x'])) as [(l' & -> & Hp & Hl)|(a & st & b & e & l' & -> & -> & He & Hb & Hl)].
    + left. exists l'. split; [done|]. split; [by apply Forall_app; auto|].
      rewrite Hl, omap_app, Hk, Hpost. solve_Permutation.
    + right. exists a, st, (b ++ [x]), e, l'. split; [done|]. split; [by rewrite <- app_assoc|]. split; [done|].
      split; [by apply Forall_app; auto|]. rewrite Hl, omap_app, Hk, Hpost. solve_Permutation.
  - assert (¬ emits now x) as Hne by (intros [e He]; congruence).
    assert (omap (kept now) [x] = []) as Hk by (cbn; unfold kept; by rewrite Hx).
    destruct (IH post) as [(l' & -> & Hp & Hl)|(a & st & b & e & l' & -> & -> & He & Hb & Hl)].
    + left. exists l'. split; [done|]. split; [by apply Forall_app; auto|].
      by rewrite Hl, omap_app, Hk, app_nil_r, Hpost.
    + right. exists a, st, (b ++ [x]), e, l'. split; [done|]. split; [by rewrite <- app_assoc|]. split; [done|].
      split; [by apply Forall_app; auto|]. by rewrite Hl, omap_app, Hk, app_nil_r, Hpost.
  - right. exists pre, x, [], e, (pre ++ post). split; [done|]. split; [done|]. split; [done|].
    split; [constructor|]. cbn. by rewrite Hpost.
Qed.
End Drive.

(** ** Runs of a handler *)

(** What can be observed of a call. *)
Inductive Seen : Type :=
  | Requested (id : Z)
  | Answered (id : Z)
  | Dialed
  | Opened
  | DialFailed.

#[global] Instance Seen_eq_dec : EqDecision Seen.
Proof. solve_decision. Defined.

(** The ids of a trace, and how often something happens in it. *)
Definition requested (trace : list Seen) : list Z :=
  omap (λ x, match x with Requested id => Some id | _ => None end) trace.
Definition answered (trace : list Seen) : list Z :=
  omap (λ x, match x with Answered id => Some id | _ => None end) trace.
Definition dialed (trace : list Seen) : Z := zlen (filter (λ x, x = Dialed) trace).
Definition opened (trace : list Seen) : Z := zlen (filter (λ x, x = Opened) trace).
Definition failed (trace : list Seen) : Z := zlen (filter (λ x, x = DialFailed) trace).

(** A swarm only reports dials that were asked for and are still open. *)
Definition fair_dials (trace : list Seen) : Prop :=
  ∀ k, opened (take k trace) + failed (take k trace) ≤ dialed (take k trace).
Section Runs.
Context `{AM : ArithMode} {Inb Snd Outb Req Res : Type}.
Context `{RL : RpcRequestLike Req} `{SS : Substreams Inb Snd Outb Res}.
Notation Handler := (RPCHandler Inb Snd Outb Req Res).
Notation Ev := (Event Req Res).

(** The calls libp2p and the node make, in any order. *)
Inductive Call : Type :=
  | NegotiatedInbound (now : Z) (req : Req) (substream : Inb)
  | NegotiatedOutbound (now : Z) (out : Outb) (rpc_event : Ev)
  | Inject (rpc_event : Ev)
  | DialUpgradeError (error : RPCError)
  | Poll (now : Z).

Definition make_call (c : Call) : M Handler Empty_set (HandlerPoll Req Res) :=
  match c with
  | NegotiatedInbound now req substream => inject_fully_negotiated_inbound now req substream ;; mret NotReady
  | NegotiatedOutbound now out rpc_event => inject_fully_negotiated_outbound now out rpc_event ;; mret NotReady
  | Inject rpc_event => inject_event rpc_event ;; mret NotReady
  | DialUpgradeError error => inject_dial_upgrade_error error ;; mret NotReady
  | Poll now => poll now
  end.

Definition seen_of (h : Handler) (c : Call) (r : HandlerPoll Req Res) : list Seen :=
  match c with
  | NegotiatedInbound _ req _ => if req_is_goodbye req then [] else [Requested (current_substream_id h)]
  | NegotiatedOutbound _ _ _ => [Opened]
  | Inject (Response id _) => if waiting_substreams h !! id then [Answered id] else []
  | Inject _ => []
  | DialUpgradeError _ => [DialFailed]
  | Poll _ => match r with OutboundSubstreamRequest _ _ => [Dialed] | _ => [] end
  end.

(** A run: the calls return, and what is seen of them is the trace. *)
Inductive runs : Handler → list Call → list Seen → Handler → Prop :=
  | runs_nil h : runs h [] [] h
  | runs_snoc h calls trace h1 c r h2 :
      runs h calls trace h1 → make_call c h1 = (Ok r, h2) →
      runs h (calls ++ [c]) (trace ++ seen_of h1 c r) h2.


(** *** What the calls change *)

Definition is_request (e : Ev) : bool := match e with Request _ _ => true | _ => false end.

Lemma u32_check_ok {E} z : 0 ≤ z < 2 ^ 32 → u32_check z = Ok (E:=E) z.
Proof using Type.
  intros Hz. unfold u32_check. by rewrite (proj2 (Z.leb_le _ _)), (proj2 (Z.ltb_lt _ _)) by lia.
Qed.

Lemma inbound_effect now req (sub : Inb) (h h' : Handler) :
  inject_fully_negotiated_inbound now req sub h = (Ok tt, h') → is_u64 (current_substream_id h + 1) →
  dial_negotiated h' = dial_negotiated h ∧ dial_queue h' = dial_queue h ∧
  max_dial_negotiated h' = max_dial_negotiated h ∧
  if req_is_goodbye req
  then current_substream_id h' = current_substream_id h ∧ waiting_substreams h' = waiting_substreams h
  else current_substream_id h' = current_substream_id h + 1 ∧
    waiting_substreams h' = <[current_substream_id h := mkWaitingResponse sub (now + RESPONSE_TIMEOUT)]>
                              (waiting_substreams h).
Proof using Type.
  intros Hrun Hid. unfold inject_fully_negotiated_inbound in Hrun. rewrite Mbind_get in Hrun.
  destruct (req_is_goodbye req); [by injection Hrun as <-|]. cbv zeta in Hrun.
  rewrite Mbind_put, Mbind_get, Mbind_put, Mbind_get in Hrun. cbn in Hrun.
  rewrite u64_add_ok in Hrun by done. by injection Hrun as <-.
Qed.

Lemma outbound_effect now out ev (h h' : Handler) :
  inject_fully_negotiated_outbound now out ev h = (Ok tt, h') → 0 < dial_negotiated h ≤ 2 ^ 32 →
  dial_negotiated h' = dial_negotiated h - 1 ∧ dial_queue h' = dial_queue h ∧
  max_dial_negotiated h' = max_dial_negotiated h.
Proof using Type.
  intros Hrun Hn. unfold inject_fully_negotiated_outbound in Hrun. rewrite Mbind_get in Hrun.
  rewrite u32_check_ok, Mbind_lift_Ok, Mbind_put, Mbind_get, Mbind_put in Hrun by lia.
  destruct ev as [id req| |]; [|by injection Hrun as <-..].
  destruct (req_expect_response req); [|by injection Hrun as <-]. by injection Hrun as <-.
Qed.

Lemma outbound_waiting now out ev (h h' : Handler) :
  inject_fully_negotiated_outbound now out ev h = (Ok tt, h') →
  waiting_substreams h' = waiting_substreams h ∧ current_substream_id h' = current_substream_id h.
Proof using Type.
  intros Hrun. unfold inject_fully_negotiated_outbound in Hrun. rewrite Mbind_get in Hrun.
  apply Mbind_lift in Hrun as (n & _ & Hrun). rewrite Mbind_put, Mbind_get, Mbind_put in Hrun.
  destruct ev as [id req| |]; [|by injection Hrun as <-..].
  destruct (req_expect_response req); [|by injection Hrun as <-]. by injection Hrun as <-.
Qed.

Lemma inject_effect ev (h h' : Handler) :
  inject_event ev h = (Ok tt, h') →
  current_substream_id h' = current_substream_id h ∧ dial_negotiated h' = dial_negotiated h ∧
  max_dial_negotiated h' = max_dial_negotiated h ∧
  dial_queue h' = dial_queue h ++ (if is_request ev then [ev] else []) ∧
  waiting_substreams h' = match ev with Response id _ => delete id (waiting_substreams h) | _ => waiting_substreams h end.
Proof using Type.
  intros Hrun. destruct ev as [id req|id res|id e]; cbn in Hrun.
  - by injection Hrun as <-.
  - rewrite Mbind_get in Hrun. destruct (waiting_substreams h !! id) eqn:Hw; [injection Hrun as <-|injection Hrun as <-].
    + cbn. by rewrite app_nil_r.
    + rewrite app_nil_r. repeat split. symmetry. by apply delete_id.
  - injection Hrun as <-. by rewrite app_nil_r.
Qed.

Lemma dial_error_effect e (h h' : Handler) :
  inject_dial_upgrade_error e h = (Ok tt, h') →
  current_substream_id h' = current_substream_id h ∧ dial_negotiated h' = dial_negotiated h ∧
  max_dial_negotiated h' = max_dial_negotiated h ∧ dial_queue h' = dial_queue h ∧
  waiting_substreams h' = waiting_substreams h.
Proof using Type. intros Hrun. unfold inject_dial_upgrade_error in Hrun. injection Hrun as <-. by destruct (pending_error h). Qed.

Lemma poll_dial_effect (h h' : Handler) r :
  poll_dial h = (Ok r, h') →
  current_substream_id h' = current_substream_id h ∧ max_dial_negotiated h' = max_dial_negotiated h ∧
  waiting_substreams h' = waiting_substreams h ∧
  (0 ≤ dial_negotiated h → max_dial_negotiated h < 2 ^ 32 → Forall (λ e, is_request e) (dial_queue h) →
   Forall (λ e, is_request e) (dial_queue h') ∧
   match r with
   | OutboundSubstreamRequest _ _ =>
       dial_negotiated h < max_dial_negotiated h ∧ dial_negotiated h' = dial_negotiated h + 1
   | _ => dial_negotiated h' = dial_negotiated h
   end).
Proof using Type.
  intros Hrun. unfold poll_dial in Hrun. rewrite Mbind_get in Hrun.
  destruct (dial_queue h) as [|ev rest] eqn:Hq; [injection Hrun as <- <-; by rewrite Hq|].
  destruct (Z.ltb_spec (dial_negotiated h) (max_dial_negotiated h)).
  - apply Mbind_lift in Hrun as (n & Hn & Hrun). rewrite Mbind_put in Hrun.
    destruct ev as [id req|id res|id e]; injection Hrun as <- <-;
      (split; [done|]; split; [done|]; split; [done|]; intros H0 Hm [Hev Hrest]%Forall_cons); [|done..].
    rewrite u32_check_ok in Hn by lia. by injection Hn as <-.
  - injection Hrun as <- <-. by rewrite Hq.
Qed.

(** [poll] drops requests that are no longer waited for, and dials at most one. *)
Lemma poll_effect now (h h' : Handler) r :
  poll now h = (Ok r, h') →
  current_substream_id h' = current_substream_id h ∧ max_dial_negotiated h' = max_dial_negotiated h ∧
  waiting_substreams h' ⊆ waiting_substreams h ∧
  (0 ≤ dial_negotiated h → max_dial_negotiated h < 2 ^ 32 → Forall (λ e, is_request e) (dial_queue h) →
   Forall (λ e, is_request e) (dial_queue h') ∧
   match r with
   | OutboundSubstreamRequest _ _ =>
       dial_negotiated h < max_dial_negotiated h ∧ dial_negotiated h' = dial_negotiated h + 1
   | _ => dial_negotiated h' = dial_negotiated h
   end).
Proof using Type.
  intros Hrun. unfold poll in Hrun. rewrite Mbind_get, Mbind_put, Mbind_get in Hrun.
  cbn [events_out set_pending_error] in Hrun. destruct (events_out h) as [|ev rest].
  - rewrite Mbind_put, Mbind_get in Hrun. apply Mbind_lift in Hrun as ([event l] & _ & Hrun).
    rewrite Mbind_put in Hrun. destruct event as [ev|].
    + injection Hrun as <- <-. repeat split; [|done..]. apply map_filter_subseteq.
    + apply poll_dial_effect in Hrun as (H1 & H2 & H3 & H4).
      rewrite H1, H2, H3. repeat split; [|by apply H4..]. apply map_filter_subseteq.
  - rewrite Mbind_put in Hrun. injection Hrun as <- <-. by repeat split.
Qed.

(** *** Requests and answers *)

Record ids_ok (h : Handler) (trace : list Seen) : Prop := {
  ids_requested : requested trace = zrange 1 (current_substream_id h);
  ids_current : 1 ≤ current_substream_id h;
  ids_waiting : ∀ id w, waiting_substreams h !! id = Some w → id ∈ requested trace ∧ id ∉ answered trace;
  ids_answered : NoDup (answered trace) ∧ answered trace ⊆ requested trace;
}.

Lemma ids_ok_keep h h' trace :
  ids_ok h trace → current_substream_id h' = current_substream_id h →
  waiting_substreams h' ⊆ waiting_substreams h → ids_ok h' trace.
Proof using Type.
  intros [Hr Hc Hw Ha] Hid Hsub. split; [by rewrite Hid|by rewrite Hid| |done].
  intros id w Hw'. apply (Hw id w). by eapply lookup_weaken.
Qed.

Lemma ids_ok_seen h trace x :
  (∀ id, x ≠ Requested id) → (∀ id, x ≠ Answered id) → ids_ok h trace → ids_ok h (trace ++ [x]).
Proof using Type.
  intros H1 H2 [Hr Hc Hw Ha].
  assert (requested (trace ++ [x]) = requested trace) as Er
    by (unfold requested; rewrite omap_app; destruct x; cbn; by rewrite ?app_nil_r; naive_solver).
  assert (answered (trace ++ [x]) = answered trace) as Ea
    by (unfold answered; rewrite omap_app; destruct x; cbn; by rewrite ?app_nil_r; naive_solver).
  by split; rewrite ?Er, ?Ea.
Qed.

Lemma ids_ok_step h trace c r h' :
  ids_ok h trace → make_call c h = (Ok r, h') → is_u64 (current_substream_id h + 1) →
  ids_ok h' (trace ++ seen_of h c r).
Proof using Type.
  intros Hok Hrun Hid. destruct c as [now req sub|now out ev|ev|e|now]; cbn [make_call] in Hrun.
  - apply Mbind_Ok in Hrun as ([] & h1 & Hrun & [= <- <-]).
    apply inbound_effect in Hrun as (_ & _ & _ & Heff); [|done]. cbn [seen_of].
    destruct (req_is_goodbye req); destruct Heff as [Hc Hw].
    + rewrite app_nil_r. apply (ids_ok_keep h); [done..|]. by rewrite Hw.
    + destruct Hok as [Kr Kc Kw [Kn Ka]].
      assert (requested (trace ++ [Requested (current_substream_id h)]) = zrange 1 (current_substream_id h + 1)) as Er
        by (unfold requested in *; rewrite omap_app, Kr; cbn; by rewrite zrange_snoc by lia).
      assert (answered (trace ++ [Requested (current_substream_id h)]) = answered trace) as Ea
        by (unfold answered; by rewrite omap_app, app_nil_r).
      split; rewrite ?Er, ?Ea, ?Hc; [done|lia| |].
      * intros id w. rewrite Hw, lookup_insert_Some. intros [[<- _]|[Hne Hl]].
        -- split; [apply elem_of_zrange; lia|]. intros Hin%Ka. rewrite Kr in Hin. apply elem_of_zrange in Hin. lia.
        -- apply Kw in Hl as [Hin Hna]. split; [|done]. rewrite Kr in Hin. apply elem_of_zrange in Hin.
           apply elem_of_zrange. lia.
      * split; [done|]. intros id Hin%Ka. rewrite Kr in Hin. apply elem_of_zrange in Hin. apply elem_of_zrange. lia.
  - apply Mbind_Ok in Hrun as ([] & h1 & Hrun & [= <- <-]). apply outbound_waiting in Hrun as [Hw Hc].
    apply ids_ok_seen; [done..|]. apply (ids_ok_keep h); [done..|]. by rewrite Hw.
  - apply Mbind_Ok in Hrun as ([] & h1 & Hrun & [= <- <-]). apply inject_effect in Hrun as (Hc & _ & _ & _ & Hw).
    destruct ev as [id req|id res|id e]; cbn [seen_of];
      [rewrite app_nil_r; apply (ids_ok_keep h); [done..|]; by rewrite Hw| |
       rewrite app_nil_r; apply (ids_ok_keep h); [done..|]; by rewrite Hw].
    destruct (waiting_substreams h !! id) as [w|] eqn:Hl.
    2:{ rewrite app_nil_r. apply (ids_ok_keep h); [done..|]. rewrite Hw. apply delete_subseteq. }
    destruct Hok as [Kr Kc Kw [Kn Ka]]. destruct (Kw id w Hl) as [Hin Hna].
    assert (requested (trace ++ [Answered id]) = requested trace) as Er
      by (unfold requested; by rewrite omap_app, app_nil_r).
    assert (answered (trace ++ [Answered id]) = answered trace ++ [id]) as Ea by (unfold answered; by rewrite omap_app).
    split; rewrite ?Er, ?Ea, ?Hc; [done|done| |].
    + intros id' w'. rewrite Hw, lookup_delete_Some. intros [Hne Hl']. apply Kw in Hl' as [Hin' Hna'].
      split; [done|]. by intros [?|Heq%list_elem_of_singleton]%elem_of_app.
    + split.
      * apply NoDup_app. split; [done|]. split; [by intros x Hx ->%list_elem_of_singleton|apply NoDup_singleton].
      * intros x [Hx| ->%list_elem_of_singleton]%elem_of_app; [by apply Ka|done].
  - apply Mbind_Ok in Hrun as ([] & h1 & Hrun & [= <- <-]). apply dial_error_effect in Hrun as (Hc & _ & _ & _ & Hw).
    apply ids_ok_seen; [done..|]. apply (ids_ok_keep h); [done..|]. by rewrite Hw.
  - apply poll_effect in Hrun as (Hc & _ & Hw & _). cbn [seen_of].
    destruct r; rewrite ?app_nil_r; try apply ids_ok_seen; try done; by apply (ids_ok_keep h).
Qed.

Lemma requested_length h calls trace h' :
  runs h calls trace h' → zlen (requested trace) ≤ zlen calls.
Proof using Type.
  induction 1 as [|h calls trace h1 c r h2 _ IH _]; [done|]. unfold zlen in *. unfold requested in *.
  rewrite omap_app, !length_app. cbn. enough (length (omap (λ x, match x with Requested id => Some id | _ => None end)
    (seen_of h1 c r)) ≤ 1)%nat by lia.
  destruct c as [? req ?| |[| |]| |]; cbn; try lia.
  - destruct (req_is_goodbye req); cbn; lia.
  - destruct (waiting_substreams h1 !! id); cbn; lia.
  - destruct r; cbn; lia.
Qed.

Lemma runs_ids_ok calls trace t h' :
  runs (handler_new t) calls trace h' → zlen calls < 2 ^ 64 - 2 → ids_ok h' trace.
Proof using Type.
  intros Hrun. remember (handler_new t) as h eqn:Hh.
  induction Hrun as [h|h calls trace h1 c r h2 Hr IH Hc]; intros Hlen.
  { subst h. split; cbn; [done|lia|by intros ?? ?%lookup_empty_Some|split; [constructor|done]]. }
  assert (zlen calls < 2 ^ 64 - 2 ∧ zlen calls + 1 < 2 ^ 64 - 2) as [Hl1 Hl2]
    by (unfold zlen in *; rewrite length_app in Hlen; cbn in Hlen; lia).
  specialize (IH Hh Hl1). apply (ids_ok_step h1 trace c r h2); [done..|].
  pose proof (requested_length _ _ _ _ Hr) as Hreq. rewrite (ids_requested _ _ IH) in Hreq.
  pose proof (ids_current _ _ IH). rewrite zlen_zrange in Hreq by lia. unfold is_u64. lia.
Qed.

(** *** Dials *)

Record dials_ok (h : Handler) (trace : list Seen) : Prop := {
  dials_count : dial_negotiated h = dialed trace - opened trace;
  dials_range : 0 ≤ dial_negotiated h ≤ 8;
  dials_max : max_dial_negotiated h = 8;
  dials_queue : Forall (λ e, is_request e) (dial_queue h);
}.

Lemma fair_prefix t1 t2 : fair_dials (t1 ++ t2) → fair_dials t1.
Proof using Type.
  intros Hf k. destruct (decide (k ≤ length t1)%nat) as [Hk|Hk].
  - specialize (Hf k). by rewrite take_app_le in Hf.
  - specialize (Hf (length t1)). rewrite take_app_length in Hf. by rewrite take_ge by lia.
Qed.

Lemma counts_app t1 t2 :
  dialed (t1 ++ t2) = dialed t1 + dialed t2 ∧ opened (t1 ++ t2) = opened t1 + opened t2 ∧
  failed (t1 ++ t2) = failed t1 + failed t2.
Proof using Type. unfold dialed, opened, failed, zlen. rewrite !filter_app, !length_app. lia. Qed.

Lemma fair_counts trace : fair_dials trace → opened trace + failed trace ≤ dialed trace.
Proof using Type. intros Hf. specialize (Hf (length trace)). by rewrite firstn_all in Hf. Qed.

(** A call that leaves the dials alone. *)
Lemma dials_ok_keep h h' trace x :
  dials_ok h trace → dialed x = opened x → dial_negotiated h' = dial_negotiated h →
  max_dial_negotiated h' = max_dial_negotiated h → Forall (λ e, is_request e) (dial_queue h') →
  dials_ok h' (trace ++ x).
Proof using Type.
  intros [Hc Hr Hm _] Hx Hn Hmax Hq. destruct (counts_app trace x) as (E1 & E2 & _).
  split; rewrite ?E1, ?E2; [lia|by rewrite Hn|by rewrite Hmax|done].
Qed.

Lemma dials_ok_step h trace c r h' :
  dials_ok h trace → make_call c h = (Ok r, h') → is_u64 (current_substream_id h + 1) →
  fair_dials (trace ++ seen_of h c r) → dials_ok h' (trace ++ seen_of h c r).
Proof using Type.
  intros Hok Hrun Hid Hfair. pose proof (dials_queue _ _ Hok) as Hq.
  destruct c as [now req sub|now out ev|ev|e|now]; cbn [make_call] in Hrun.
  - apply Mbind_Ok in Hrun as ([] & h1 & Hrun & [= <- <-]).
    apply inbound_effect in Hrun as (Hn & Hq' & Hm & _); [|done].
    apply (dials_ok_keep h); [done| |done..|by rewrite Hq']. cbn. by destruct (req_is_goodbye req).
  - apply Mbind_Ok in Hrun as ([] & h1 & Hrun & [= <- <-]).
    apply fair_counts in Hfair. cbn [seen_of] in *. destruct (counts_app trace [Opened]) as (E1 & E2 & E3).
    assert (0 ≤ failed trace) by apply zlen_nonneg. rewrite E1, E2, E3 in Hfair.
    change (dialed [Opened]) with 0 in *. change (opened [Opened]) with 1 in *. change (failed [Opened]) with 0 in *.
    destruct Hok as [Hc Hr Hm _]. apply outbound_effect in Hrun as (Hn & Hq' & Hm'); [|lia].
    split; rewrite ?E1, ?E2; [lia|lia|by rewrite Hm'|by rewrite Hq'].
  - apply Mbind_Ok in Hrun as ([] & h1 & Hrun & [= <- <-]). apply inject_effect in Hrun as (_ & Hn & Hm & Hq' & _).
    apply (dials_ok_keep h); [done| |done..|].
    + destruct ev as [|id|]; cbn; [done| |done]. by destruct (waiting_substreams h !! id).
    + rewrite Hq'. apply Forall_app. split; [done|]. destruct (is_request ev) eqn:He; [|constructor].
      apply Forall_singleton. by rewrite He.
  - apply Mbind_Ok in Hrun as ([] & h1 & Hrun & [= <- <-]). apply dial_error_effect in Hrun as (_ & Hn & Hm & Hq' & _).
    apply (dials_ok_keep h); [done..|by rewrite Hq'].
  - pose proof Hok as [Hc Hr Hm _].
    apply poll_effect in Hrun as (_ & Hm' & _ & Hd). destruct Hd as [Hq' Hd]; [lia|lia|done|]. cbn [seen_of].
    destruct r as [ev|req info|]; [by apply (dials_ok_keep h)| |by apply (dials_ok_keep h)].
    destruct Hd as [Hlt Hn]. destruct (counts_app trace [Dialed]) as (E1 & E2 & _).
    change (dialed [Dialed]) with 1 in *. change (opened [Dialed]) with 0 in *.
    split; rewrite ?E1, ?E2; [lia|lia|by rewrite Hm'|done].
Qed.

Lemma runs_dials_ok calls trace t h' :
  runs (handler_new t) calls trace h' → zlen calls < 2 ^ 64 - 2 → fair_dials trace → dials_ok h' trace.
Proof using Type.
  intros Hrun. remember (handler_new t) as h eqn:Hh.
  induction Hrun as [h|h calls trace h1 c r h2 Hr IH Hc]; intros Hlen Hfair.
  { subst h. split; cbn; [done|lia|done|constructor]. }
  assert (zlen calls < 2 ^ 64 - 2 ∧ zlen calls + 1 < 2 ^ 64 - 2) as [Hl1 Hl2]
    by (unfold zlen in *; rewrite length_app in Hlen; cbn in Hlen; lia).
  specialize (IH Hh Hl1 (fair_prefix _ _ Hfair)). apply (dials_ok_step h1 trace c r h2); [done..| |done].
  subst h. pose proof (runs_ids_ok _ _ _ _ Hr Hl1) as Hids.
  pose proof (requested_length _ _ _ _ Hr) as Hreq. rewrite (ids_requested _ _ Hids) in Hreq.
  pose proof (ids_current _ _ Hids). rewrite zlen_zrange in Hreq by lia. unfold is_u64. lia.
Qed.
End Runs.

(** C22: a request of the peer is answered at most once.  In every run the
    requests get the ids 1, 2, 3, ..., a response goes out only for an id that
    was given to a request, and never twice for the same. *)
Theorem rpc_answers_once `{ArithMode} {Inb Snd Outb Req Res} `{RpcRequestLike Req} `{Substreams Inb Snd Outb Res}
  (calls : list Call) (trace : list Seen) (t : Z) (h : RPCHandler Inb Snd Outb Req Res) :
  runs (handler_new t) calls trace h → zlen calls < 2 ^ 64 - 2 →
  requested trace = zrange 1 (zlen (requested trace) + 1) ∧
  NoDup (answered trace) ∧ answered trace ⊆ requested trace ∧
  (∀ id w, waiting_substreams h !! id = Some w → id ∈ requested trace ∧ id ∉ answered trace).
Proof.
  intros Hrun Hlen. destruct (runs_ids_ok _ _ _ _ Hrun Hlen) as [Hr Hc Hw [Hn Ha]].
  split; [|done]. rewrite Hr, zlen_zrange by lia. f_equal. lia.
Qed.

(** [poll] drives every substream exactly once.  The loop, which removes
    while it counts down, never runs out of the list.  Without an event, every
    substream was polled and the ones left are what the polls left of them; the
    first event ends the loop, and only the substreams after its own have been
    polled. *)
Theorem poll_drives_once {Inb Snd Outb Req Res} `{Substreams Inb Snd Outb Res} (now : Z)
  (l : list (SubstreamState Snd Outb Req Res)) :
  (∃ l', drive_loop now (length l) l = Ok (None, l') ∧
     Forall (λ st, ¬ emits now st) l ∧ l' ≡ₚ omap (kept now) l) ∨
  (∃ a st b e l', drive_loop now (length l) l = Ok (Some e, l') ∧
     l = a ++ st :: b ∧ drive now st = Emit e ∧ Forall (λ st, ¬ emits now st) b ∧
     l' ≡ₚ a ++ omap (kept now) b).
Proof.
  destruct (drive_loop_from now l []) as [(l' & H1 & H2 & H3)|(a & st & b & e & l' & H1 & H2 & H3 & H4 & H5)];
    rewrite app_nil_r in *; [left; eauto|right; by exists a, st, b, e, l'].
Qed.

(** A dial that fails is never given back.  In a run in which libp2p only
    reports dials it was asked for, the counter of dials counts the failed ones
    for ever; after eight of them [poll] asks for no substream again, whatever
    requests are queued. *)
Theorem failed_dials_block `{ArithMode} {Inb Snd Outb Req Res} `{RpcRequestLike Req} `{Substreams Inb Snd Outb Res}
  (calls : list Call) (trace : list Seen) (t : Z) (h : RPCHandler Inb Snd Outb Req Res) :
  runs (handler_new t) calls trace h → zlen calls < 2 ^ 64 - 2 → fair_dials trace →
  dial_negotiated h = dialed trace - opened trace ∧ failed trace ≤ dial_negotiated h ≤ 8 ∧
  (8 ≤ failed trace → ∀ now r h', poll now h = (Ok r, h') → ∀ req info, r ≠ OutboundSubstreamRequest req info).
Proof.
  intros Hrun Hlen Hfair. destruct (runs_dials_ok _ _ _ _ Hrun Hlen Hfair) as [Hc Hr Hm Hq].
  pose proof (fair_counts _ Hfair). split; [done|]. split; [lia|].
  intros H8 now r h' Hp req info ->. apply poll_effect in Hp as (_ & _ & _ & Hd).
  destruct Hd as [_ [Hlt _]]; [lia|lia|done|]. lia.
Qed.

(** ** Witnesses

    Substreams that are sent at once and never get a response. *)

Section Witnesses.
Definition toy_streams : Substreams unit unit unit RPCResponse := {|
  start_send := λ _ _, tt;
  poll_send := λ _, SendReady;
  poll_response := λ u, ResponseNotReady u;
|}.
Definition toy_checks : ArithMode := true.
#[local] Existing Instances toy_checks toy_streams.

Notation ToyHandler := (RPCHandler unit unit unit RPCRequest RPCResponse).
Definition toy_request : RPCRequest := RequestRecentBeaconBlocks (mkRecentBeaconBlocksRequest []).

(** Runs, computed. *)
Fixpoint run_from (h : ToyHandler) (calls : list Call) : option (list Seen * ToyHandler) :=
  match calls with
  | [] => Some ([], h)
  | c :: calls =>
      match make_call c h with
      | (Ok r, h1) => '(trace, h2) ← run_from h1 calls; Some (seen_of h c r ++ trace, h2)
      | _ => None
      end
  end.

Lemma run_from_runs h0 pre t h calls trace h' :
  runs h0 pre t h → run_from h calls = Some (trace, h') → runs h0 (pre ++ calls) (t ++ trace) h'.
Proof.
  revert pre t h trace. induction calls as [|c calls IH]; intros pre t h trace Hr Hrun.
  { injection Hrun as <- <-. by rewrite !app_nil_r. }
  cbn in Hrun. destruct (make_call c h) as [[r| | |] h1] eqn:Hc; try done.
  apply bind_Some in Hrun as ([t1 h2] & Hrun & [= <- <-]).
  rewrite (app_assoc t), (app_assoc pre [c] calls : pre ++ c :: calls = _).
  eapply IH; [|done]. by eapply runs_snoc.
Qed.

Definition fair_dialsb (trace : list Seen) : bool :=
  forallb (λ k, opened (take k trace) + failed (take k trace) <=? dialed (take k trace)) (seq 0 (S (length trace))).
Lemma fair_dialsb_spec trace : fair_dialsb trace = true → fair_dials trace.
Proof.
  unfold fair_dialsb. rewrite forallb_forall. intros Hf k.
  destruct (decide (k ≤ length trace)%nat) as [Hk|Hk].
  - apply Z.leb_le, Hf. apply in_seq. lia.
  - rewrite take_ge by lia. specialize (Hf (length trace)). rewrite firstn_all in Hf.
    apply Z.leb_le, Hf. apply in_seq. lia.
Qed.

(** Two requests of the peer, and the node answers the second twice. *)
Definition toy_answers : list (Call (Inb:=unit) (Outb:=unit) (Req:=RPCRequest) (Res:=RPCResponse)) :=
  [NegotiatedInbound 0 toy_request tt; NegotiatedInbound 1 toy_request tt; Poll 1;
   Inject (Response 2 (ResponseUnknown 1 [])); Inject (Response 2 (ResponseUnknown 1 [])); Poll 3].

Lemma rpc_answers_once_witness :
  ∃ trace (h : ToyHandler), runs (handler_new 30) toy_answers trace h ∧
    trace = [Requested 1; Requested 2; Answered 2] ∧
    requested trace = zrange 1 3 ∧ NoDup (answered trace) ∧ answered trace ⊆ requested trace ∧
    (∀ id w, waiting_substreams h !! id = Some w → id ∈ requested trace ∧ id ∉ answered trace).
Proof.
  destruct (run_from (handler_new 30) toy_answers) as [[trace h]|] eqn:Hrun; [|vm_compute in Hrun; discriminate Hrun].
  pose proof (run_from_runs _ _ _ _ _ _ _ (runs_nil (handler_new 30)) Hrun) as Hr. cbn [app] in Hr.
  assert (trace = [Requested 1; Requested 2; Answered 2]) as Ht by (vm_compute in Hrun; congruence).
  exists trace, h. split; [exact Hr|]. split; [exact Ht|].
  destruct (rpc_answers_once _ _ _ _ Hr) as (H1 & H2 & H3 & H4); [vm_compute; reflexivity|].
  rewrite Ht in H1 |- *. rewrite Ht in H2, H3, H4. split; [exact H1|]. split; [exact H2|]. split; [exact H3|exact H4].
Defined.

(** Eight requests that cannot be dialed, and a ninth. *)
Definition toy_failures : list (Call (Inb:=unit) (Outb:=unit) (Req:=RPCRequest) (Res:=RPCResponse)) :=
  concat (replicate 8 [Inject (Request 1 toy_request); Poll 1; DialUpgradeError StreamTimeout]) ++
  [Inject (Request 2 toy_request)].

Lemma failed_dials_block_witness :
  ∃ trace (h : ToyHandler), runs (handler_new 30) toy_failures trace h ∧ failed trace = 8 ∧
    zlen (dial_queue h) = 1 ∧
    ∀ now r h', poll now h = (Ok r, h') → ∀ req info, r ≠ OutboundSubstreamRequest req info.
Proof.
  destruct (run_from (handler_new 30) toy_failures) as [[trace h]|] eqn:Hrun; [|vm_compute in Hrun; discriminate Hrun].
  pose proof (run_from_runs _ _ _ _ _ _ _ (runs_nil (handler_new 30)) Hrun) as Hr. cbn [app] in Hr.
  assert (fair_dialsb trace && (failed trace =? 8) && (zlen (dial_queue h) =? 1) = true) as Hb
    by (vm_compute in Hrun; injection Hrun as <- <-; vm_compute; reflexivity).
  apply andb_true_iff in Hb as [[Hfair Hfail%Z.eqb_eq]%andb_true_iff Hq%Z.eqb_eq].
  exists trace, h. split; [exact Hr|]. split; [exact Hfail|]. split; [exact Hq|].
  destruct (failed_dials_block _ _ _ _ Hr) as (_ & _ & Hblock);
    [vm_compute; reflexivity|exact (fair_dialsb_spec _ Hfair)|].
  apply Hblock. rewrite Hfail. lia.
Defined.
End Witnesses.
