(* ===== verification/Upgrade.v ===== *)
(** * Opening a substream: [common/libp2p-rpc/src/protocol.rs]

    A request travels on a substream of its own.  The client offers the
    protocol of the request, the server all protocols; once they agree, the
    client writes the request with its codec and the server reads one request
    with its own, within a time limit.  The codecs are those of [Messages], by
    [network/src/rpc.rs]; the framed stream, its timer and the negotiation
    belong to [tokio] and [libp2p]. *)
From stdpp Require Import base numbers list strings.
From Stdlib Require Import ZArith Lia.
From S2P Require Import Prelude Config Types State Ssz SszTypes Messages RpcHandler.

#[local] Open Scope Z_scope.
#[local] Open Scope string_scope.

(** In seconds *)
Definition TTFB_TIMEOUT : Z := 5.
Definition REQUEST_TIMEOUT : Z := 15.

(** [tokio::timer::timeout::Error] *)
Inductive TimeoutError : Type := TimeoutElapsed | TimeoutTimer | TimeoutInner (e : SszError).

Definition is_elapsed (err : TimeoutError) : bool := match err with TimeoutElapsed => true | _ => false end.

(** [From<timeout::Error<T>> for RPCError] *)
Definition rpc_error_from (err : TimeoutError) : RPCError :=
  if is_elapsed err then StreamTimeout else Custom "Stream timer failed".

(** [UpgradeInfo] of the two sides *)
Definition inbound_protocol_info : list RPCType := rpc_type_all.
Definition outbound_protocol_info (request : RPCRequest) : list RPCType := [request_typ request].

(** [multistream-select]: the first protocol the client offers that the server
    has *)
Definition negotiate (offered supported : list RPCType) : option RPCType :=
  head (filter (λ typ, typ ∈ supported) offered).

Section Upgrade.
Context `{Config} `{ArithMode} `{U : UviCodec}.

(** What the framed stream gives within the time limit when the socket has
    delivered [src]: [None] is a frame that is not complete yet. *)
Definition framed_next (typ : RPCType) (src : Bytes) : option (res TimeoutError (option RPCRequest)) :=
  match (inbound_decode typ (uvi_default, src)).1 with
  | Ok (Some request) => Some (Ok (Some request))
  | Ok None => None
  | Err e => Some (Err (TimeoutInner e))
  | Panic => Some Panic
  | OutOfFuel => Some OutOfFuel
  end.

(** [upgrade_inbound]: the future after its stream gave [r] *)
Definition upgrade_inbound (r : res TimeoutError (option RPCRequest)) : res RPCError RPCRequest :=
  req ← res_map_err rpc_error_from r;
  match req with
  | Some req => Ok req
  | None => Err (Custom "Stream terminated early")
  end.

(** [upgrade_outbound]: the bytes that go out; [write] is the socket. *)
Definition upgrade_outbound (write : Bytes → res SszError unit) (typ : RPCType) (request : RPCRequest) : res RPCError Bytes :=
  res_map_err (λ _, Codec "outbound upgrade codec error")
    (bytes ← outbound_encode typ request [];
     write bytes ;;
     Ok bytes).
End Upgrade.

Section Props.
Context `{C : Config} `{!ConfigOk C} `{ArithMode} `{U : UviCodec} `{!UviOk U}.
Context (write : Bytes → res SszError unit).

(** The two sides always agree on the protocol of the request. *)
Lemma negotiated request :
  negotiate (outbound_protocol_info request) inbound_protocol_info = Some (request_typ request).
Proof. by destruct request. Qed.

(** Opening a substream for a request.  The client offers one protocol and
    the server has it; with that protocol the codec of the client never
    refuses the request as one of another type, and if the frame can be written
    the server's upgrade returns the request as it was sent, whatever follows
    it.  Every way of not getting a request is an error of the upgrade: the end
    of the stream, the time limit, and a request that does not decode, which is
    reported as a failure of the timer. *)
Theorem upgrade_delivers (request : RPCRequest) :
  negotiate (outbound_protocol_info request) inbound_protocol_info = Some (request_typ request) ∧
  (∀ bytes rest, RPCRequest_valid request → upgrade_outbound write (request_typ request) request = Ok bytes →
    ∃ r, framed_next (request_typ request) (bytes ++ rest) = Some r ∧ upgrade_inbound r = Ok request) ∧
  (∀ e, request_bytes (request_typ request) request ≠ Err e) ∧
  upgrade_inbound (Ok None) = Err (Custom "Stream terminated early") ∧
  upgrade_inbound (Err TimeoutElapsed) = Err StreamTimeout ∧
  (∀ e, upgrade_inbound (Err (TimeoutInner e)) = Err (Custom "Stream timer failed")).
Proof.
  split; [apply negotiated|]. split; [|split; [by destruct request|done]].
  intros bytes rest Hv Hout. unfold upgrade_outbound in Hout.
  destruct (outbound_encode (request_typ request) request []) as [frame|e| |] eqn:He; try done. cbn in Hout.
  destruct (write frame) as [[]|e| |]; try done. injection Hout as <-.
  unfold framed_next. rewrite (request_received request frame rest Hv He). cbn. eauto.
Qed.
End Props.

Section Witnesses.
#[local] Existing Instances toy_config toy_config_ok toy_mode toy_uvi toy_uvi_ok.

Lemma upgrade_delivers_witness :
  ∃ r, framed_next TypeBeaconBlocks (ok_bytes (outbound_encode TypeBeaconBlocks Messages.toy_request []) ++ [1; 2]) = Some r ∧
    upgrade_inbound r = Ok Messages.toy_request.
Proof.
  apply (proj1 (proj2 (upgrade_delivers (U:=toy_uvi) (λ _, Ok tt) Messages.toy_request))
    (ok_bytes (outbound_encode TypeBeaconBlocks Messages.toy_request [])) [1; 2]).
  - exact toy_request_valid.
  - vm_compute. reflexivity.
Defined.
End Witnesses.
