(* ===== verification/Discovery.v ===== *)
(** * Peer discovery: [blockchain/network/src/discovery.rs]

    [Discovery] wraps the discv5 protocol: it keeps the set of connected peers,
    starts a search when a timer fires and there are fewer peers than wanted, and
    turns the result of a search into a dial.  The whole of the file is
    modelled: the constructor, the callbacks and the two loops of [poll].

    The timer of tokio, discv5 and its records are external: [DelayOps] and
    [Discv5Ops] are their operations, [DelayLaws] and [Discv5Laws] what is
    documented of them.  A call of [poll] reads the clock and draws random
    numbers several times: [clock k] and [random k] are the answers it gets, in
    order.  Time is counted in seconds.

    The theorems show when [poll] returns and when it does not, how long a
    search is put off, and that only peers that are wanted and not connected are
    dialed. *)
From stdpp Require Import base numbers list gmap fin_sets strings.
From Stdlib Require Import ZArith Lia.
From S2P Require Import Prelude.

#[local] Open Scope Z_scope.

(** What polling the timer returns. *)
Inductive DelayPoll : Type := DelayReady | DelayNotReady | DelayFailed.

(** [tokio_timer::Delay]: created and reset for an instant, polled at one. *)
Class DelayOps (Delay : Type) := {
  delay_new : Z → Delay;
  delay_reset : Z → Delay → Delay;
  delay_poll : Z → Delay → DelayPoll * Delay;
}.

(** A delay completes once its deadline has been reached, and polling it does
    not move the deadline. *)
Class DelayLaws (Delay : Type) `{DelayOps Delay} := {
  deadline : Delay → Z;
  deadline_new : ∀ t, deadline (delay_new t) = t;
  deadline_reset : ∀ t d, deadline (delay_reset t d) = t;
  deadline_poll : ∀ now d, deadline (delay_poll now d).2 = deadline d;
  delay_poll_result : ∀ now d,
    (delay_poll now d).1 = if deadline d <=? now then DelayReady else DelayNotReady;
}.

(** [Discv5Event]; the events the file does not name are [OtherEvent]. *)
Inductive Discv5Event (PeerId Enr Ip : Type) : Type :=
  | Discovered (enr : Enr)
  | SocketUpdated (ip : Ip)
  | FindNodeResult (closer_peers : list PeerId)
  | OtherEvent.
Arguments Discovered {PeerId Enr Ip} _.
Arguments SocketUpdated {PeerId Enr Ip} _.
Arguments FindNodeResult {PeerId Enr Ip} _.
Arguments OtherEvent {PeerId Enr Ip}.

(** What polling discv5 returns. *)
Inductive Discv5Poll (PeerId Enr Ip : Type) : Type :=
  | GenerateEvent (event : Discv5Event PeerId Enr Ip)
  | OtherAction
  | Discv5NotReady.
Arguments GenerateEvent {PeerId Enr Ip} _.
Arguments OtherAction {PeerId Enr Ip}.
Arguments Discv5NotReady {PeerId Enr Ip}.

(** discv5 and the records and addresses it works on *)
Class Discv5Ops (Discv5 Key NodeId PeerId Enr Ip Multiaddr : Type) := {
  build_enr : Ip → Z → Z → Key → res string Enr;
  discv5_new : Enr → Key → Ip → res string Discv5;
  discv5_local_enr : Discv5 → Enr;
  discv5_add_enr : Enr → Discv5 → Discv5;
  discv5_find_node : NodeId → Discv5 → Discv5;
  discv5_addresses : PeerId → Discv5 → list Multiaddr;
  discv5_poll : Discv5 → Discv5Poll PeerId Enr Ip * Discv5;
  multiaddr_from : Ip → Multiaddr;
  push_tcp : Z → Multiaddr → Multiaddr;
}.

(** discv5 holds finitely many actions to report at a time. *)
Class Discv5Laws (Discv5 Key NodeId PeerId Enr Ip Multiaddr : Type)
  `{!Discv5Ops Discv5 Key NodeId PeerId Enr Ip Multiaddr} := {
  pending : Discv5 → nat;
  discv5_poll_pending : ∀ d, (discv5_poll d).1 ≠ Discv5NotReady → (pending (discv5_poll d).2 < pending d)%nat;
}.

(** [MAX_TIME_BETWEEN_PEER_SEARCHES] and [INITIAL_SEARCH_DELAY] *)
Definition MAX_TIME_BETWEEN_PEER_SEARCHES : Z := 60.
Definition INITIAL_SEARCH_DELAY : Z := 5.

(** The fields of [NetworkConfig] discovery reads *)
Record DiscoveryConfig (Ip Enr : Type) := mkDiscoveryConfig {
  listen_address : Ip;
  discovery_address : Ip;
  libp2p_port : Z;
  discovery_port : Z;
  max_peers_wanted : Z;
  boot_nodes : list Enr;
}.
Arguments mkDiscoveryConfig {Ip Enr} _ _ _ _ _ _.
Arguments listen_address {Ip Enr} _.
Arguments discovery_address {Ip Enr} _.
Arguments libp2p_port {Ip Enr} _.
Arguments discovery_port {Ip Enr} _.
Arguments max_peers_wanted {Ip Enr} _.
Arguments boot_nodes {Ip Enr} _.

(** [struct Discovery] *)
Record Discovery (PeerId Delay Discv5 : Type) `{Countable PeerId} := mkDiscovery {
  connected_peers : gset PeerId;
  max_peers : Z;
  peer_discovery_delay : Delay;
  past_discovery_delay : Z;
  tcp_port : Z;
  discovery : Discv5;
}.
Arguments mkDiscovery {PeerId Delay Discv5 _ _} _ _ _ _ _ _.
Arguments connected_peers {PeerId Delay Discv5 _ _} _.
Arguments max_peers {PeerId Delay Discv5 _ _} _.
Arguments peer_discovery_delay {PeerId Delay Discv5 _ _} _.
Arguments past_discovery_delay {PeerId Delay Discv5 _ _} _.
Arguments tcp_port {PeerId Delay Discv5 _ _} _.
Arguments discovery {PeerId Delay Discv5 _ _} _.

(** What [poll] returns: [NetworkBehaviourAction] or [NotReady]. *)
Inductive DiscoveryPoll (PeerId Multiaddr : Type) : Type :=
  | ReportObservedAddr (address : Multiaddr)
  | DialPeer (peer_id : PeerId)
  | DiscoveryNotReady.
Arguments ReportObservedAddr {PeerId Multiaddr} _.
Arguments DialPeer {PeerId Multiaddr} _.
Arguments DiscoveryNotReady {PeerId Multiaddr}.

(** ** The operations *)

Section Operations.
Context `{AM : ArithMode} `{CP : Countable PeerId} {Delay Discv5 Key NodeId Enr Ip Multiaddr : Type}.
Context `{DO : !DelayOps Delay} `{VO : !Discv5Ops Discv5 Key NodeId PeerId Enr Ip Multiaddr}.

Notation D := (Discovery PeerId Delay Discv5).
Notation Op := (M D Empty_set).

Definition set_connected (x : gset PeerId) (s : D) : D :=
  mkDiscovery x (max_peers s) (peer_discovery_delay s) (past_discovery_delay s) (tcp_port s) (discovery s).
Definition set_delay (x : Delay) (s : D) : D :=
  mkDiscovery (connected_peers s) (max_peers s) x (past_discovery_delay s) (tcp_port s) (discovery s).
Definition set_past (x : Z) (s : D) : D :=
  mkDiscovery (connected_peers s) (max_peers s) (peer_discovery_delay s) x (tcp_port s) (discovery s).
Definition set_discv5 (x : Discv5) (s : D) : D :=
  mkDiscovery (connected_peers s) (max_peers s) (peer_discovery_delay s) (past_discovery_delay s) (tcp_port s) x.

(** [load_enr] *)
Definition load_enr (local_key : Key) (config : DiscoveryConfig Ip Enr) : res string Enr :=
  res_map_err (λ e, "Could not build Local ENR: " +:+ e)%string
    (build_enr (discovery_address config) (libp2p_port config) (discovery_port config) local_key).

(** [Discovery::new] at the instant [now] *)
Definition discovery_new (now : Z) (local_key : Key) (config : DiscoveryConfig Ip Enr) : res string D :=
  local_enr ← load_enr local_key config;
  d ← res_map_err (λ e, "Discv5 service failed. Error: " +:+ e)%string
        (discv5_new local_enr local_key (listen_address config));
  let d := foldl (λ d bootnode_enr, discv5_add_enr bootnode_enr d) d (boot_nodes config) in
  Ok (mkDiscovery ∅ (max_peers_wanted config) (delay_new now) INITIAL_SEARCH_DELAY (libp2p_port config) d).

(** [local_enr], [add_enr], [connected_peers] and [addresses_of_peer] *)
Definition local_enr (s : D) : Enr := discv5_local_enr (discovery s).
Definition add_enr (enr : Enr) : Op unit :=
  s ← get; put (set_discv5 (discv5_add_enr enr (discovery s)) s).
Definition connected_count (s : D) : Z := Z.of_nat (size (connected_peers s)).
Definition addresses_of_peer (peer_id : PeerId) (s : D) : list Multiaddr :=
  discv5_addresses peer_id (discovery s).

(** [find_peers]: start a search for a random node and put off the next one. *)
Definition find_peers (random_node : NodeId) (now : Z) : Op unit :=
  s ← get;
  put (set_discv5 (discv5_find_node random_node (discovery s)) s) ;;
  s ← get;
  delay ←
    (if past_discovery_delay s <? MAX_TIME_BETWEEN_PEER_SEARCHES then
       d ← lift (u64_mul (past_discovery_delay s) 2);
       put (set_past d s) ;; mret d
     else mret MAX_TIME_BETWEEN_PEER_SEARCHES);
  s ← get;
  put (set_delay (delay_reset (now + delay) (peer_discovery_delay s)) s).

(** [discover_peers]: restart the searches. *)
Definition discover_peers (random_node : NodeId) (now : Z) : Op unit :=
  s ← get;
  put (set_past INITIAL_SEARCH_DELAY s) ;;
  find_peers random_node now.

(** [inject_connected] and [inject_disconnected] *)
Definition discovery_connected (peer_id : PeerId) : Op unit :=
  s ← get; put (set_connected ({[peer_id]} ∪ connected_peers s) s).
Definition discovery_disconnected (peer_id : PeerId) : Op unit :=
  s ← get; put (set_connected (connected_peers s ∖ {[peer_id]}) s).

(** The first loop of [poll]: round [k] polls the timer at [clock (2 k)], and a
    search it starts reads the clock again. *)
Fixpoint search_loop (fuel : nat) (clock : nat → Z) (random : nat → NodeId) (k : nat) : Op unit :=
  match fuel with
  | O => lift OutOfFuel
  | S n =>
      s ← get;
      let '(r, delay) := delay_poll (clock (2 * k)%nat) (peer_discovery_delay s) in
      put (set_delay delay s) ;;
      match r with
      | DelayReady =>
          s ← get;
          (if connected_count s <? max_peers s then find_peers (random k) (clock (2 * k + 1)%nat) else mret tt) ;;
          search_loop n clock random (S k)
      | DelayNotReady => mret tt
      | DelayFailed => search_loop n clock random (S k)
      end
  end.

(** The loop over the peers a search has found: the first that is wanted. *)
Fixpoint first_wanted (s : D) (closer_peers : list PeerId) : option PeerId :=
  match closer_peers with
  | [] => None
  | peer_id :: rest =>
      if (connected_count s <? max_peers s) && negb (bool_decide (peer_id ∈ connected_peers s))
      then Some peer_id else first_wanted s rest
  end.

(** The second loop of [poll]: drain the events of discv5. *)
Fixpoint event_loop (fuel : nat) : Op (DiscoveryPoll PeerId Multiaddr) :=
  match fuel with
  | O => lift OutOfFuel
  | S n =>
      s ← get;
      let '(r, d) := discv5_poll (discovery s) in
      put (set_discv5 d s) ;;
      match r with
      | GenerateEvent (SocketUpdated ip) =>
          mret (ReportObservedAddr (push_tcp (tcp_port s) (multiaddr_from ip)))
      | GenerateEvent (FindNodeResult closer_peers) =>
          match first_wanted s closer_peers with
          | Some peer_id => mret (DialPeer peer_id)
          | None => event_loop n
          end
      | GenerateEvent _ => event_loop n
      | OtherAction => event_loop n
      | Discv5NotReady => mret DiscoveryNotReady
      end
  end.

(** [poll] *)
Definition discovery_poll (fuel : nat) (clock : nat → Z) (random : nat → NodeId) :
  Op (DiscoveryPoll PeerId Multiaddr) :=
  search_loop fuel clock random 0 ;; event_loop fuel.
End Operations.

(** * Theorems *)

(** The values [past_discovery_delay] takes, what a search makes of it, and how
    long it puts off the next one. *)
Definition past_ok (past : Z) : Prop := past ∈ [5; 10; 20; 40; 80].
Definition next_past (past : Z) : Z := if past <? 60 then 2 * past else past.
Definition next_delay (past : Z) : Z := if past <? 60 then 2 * past else 60.

Lemma past_ok_next p : past_ok p → past_ok (next_past p) ∧ 10 ≤ next_delay p ≤ 80.
Proof.
  unfold past_ok. rewrite !elem_of_cons, elem_of_nil.
  intros [->|[->|[->|[->|[->|[]]]]]]; cbn; split; try lia; set_solver.
Qed.

Section Theorems.
Context `{AM : ArithMode} `{CP : Countable PeerId} {Delay Discv5 Key NodeId Enr Ip Multiaddr : Type}.
Context `{DO : !DelayOps Delay} `{VO : !Discv5Ops Discv5 Key NodeId PeerId Enr Ip Multiaddr}.

Notation D := (Discovery PeerId Delay Discv5).
Notation Op := (M D Empty_set).

(** ** One search *)

(** The state after a search. *)
Definition searched (random_node : NodeId) (now : Z) (s : D) : D :=
  mkDiscovery (connected_peers s) (max_peers s)
    (delay_reset (now + next_delay (past_discovery_delay s)) (peer_discovery_delay s))
    (next_past (past_discovery_delay s)) (tcp_port s) (discv5_find_node random_node (discovery s)).

Lemma find_peers_run r now (s : D) :
  past_ok (past_discovery_delay s) → find_peers r now s = (Ok tt, searched r now s).
Proof.
  intros Hp. unfold past_ok in Hp. rewrite !elem_of_cons, elem_of_nil in Hp.
  unfold find_peers. rewrite Mbind_get, Mbind_put, Mbind_get. cbn [past_discovery_delay set_discv5].
  unfold searched, next_delay, next_past, MAX_TIME_BETWEEN_PEER_SEARCHES.
  destruct (Z.ltb_spec (past_discovery_delay s) 60); [|done].
  rewrite u64_mul_ok by (unfold is_u64; lia). by rewrite Z.mul_comm.
Qed.

(** ** The first loop *)

(** One round of it. *)
Lemma search_loop_round n clock random k (s : D) :
  let p := delay_poll (clock (2 * k)%nat) (peer_discovery_delay s) in
  let s1 := set_delay p.2 s in
  past_ok (past_discovery_delay s) →
  search_loop (S n) clock random k s =
  match p.1 with
  | DelayReady =>
      search_loop n clock random (S k)
        (if connected_count s <? max_peers s then searched (random k) (clock (2 * k + 1)%nat) s1 else s1)
  | DelayNotReady => (Ok tt, s1)
  | DelayFailed => search_loop n clock random (S k) s1
  end.
Proof.
  intros p s1 Hp. subst p s1. cbn [search_loop]. rewrite Mbind_get.
  destruct (delay_poll _ _) as [r d]. rewrite Mbind_put. destruct r; try done.
  rewrite Mbind_get. change (connected_count (set_delay d s)) with (connected_count s).
  change (max_peers (set_delay d s)) with (max_peers s).
  destruct (connected_count s <? max_peers s); [|done].
  unfold mbind, M_bind. rewrite find_peers_run by done. done.
Qed.

Section Timer.
Context `{DL : !DelayLaws Delay}.

(** The deadline of the timer. *)
Notation due s := (deadline (peer_discovery_delay s)).

(** Within ten seconds the first loop starts a search exactly if the timer has
    fired, provided that peers are wanted when it has. *)
Lemma search_loop_returns n clock random (s : D) :
  past_ok (past_discovery_delay s) →
  (∀ k, clock O ≤ clock k < clock O + 10) →
  (due s ≤ clock O → connected_count s < max_peers s) →
  ∃ s1, search_loop (S (S n)) clock random O s = (Ok tt, s1) ∧
    connected_peers s1 = connected_peers s ∧ max_peers s1 = max_peers s ∧ tcp_port s1 = tcp_port s ∧
    if due s <=? clock O then
      discovery s1 = discv5_find_node (random O) (discovery s) ∧
      past_discovery_delay s1 = next_past (past_discovery_delay s) ∧
      due s1 = clock 1%nat + next_delay (past_discovery_delay s)
    else discovery s1 = discovery s ∧ past_discovery_delay s1 = past_discovery_delay s ∧ due s1 = due s.
Proof.
  intros Hp Hc Hw. destruct (past_ok_next _ Hp) as [Hp' Hd].
  rewrite search_loop_round by done. rewrite delay_poll_result. cbn [Nat.mul Nat.add].
  destruct (Z.leb_spec (due s) (clock O)) as [Hdue|Hdue].
  - rewrite (proj2 (Z.ltb_lt _ _)) by auto. rewrite search_loop_round by done.
    rewrite delay_poll_result. cbn [peer_discovery_delay searched]. rewrite deadline_reset. cbn [past_discovery_delay set_delay].
    rewrite (proj2 (Z.leb_gt _ _)) by (pose proof (Hc 2%nat); pose proof (Hc 1%nat); cbn; lia).
    eexists. split; [done|]. cbn. by rewrite deadline_poll, deadline_reset.
  - eexists. split; [done|]. cbn. by rewrite deadline_poll.
Qed.

(** A timer that has fired at a node with enough peers keeps the loop going. *)
Lemma search_loop_spins n clock random k (s : D) :
  past_ok (past_discovery_delay s) →
  (∀ j, due s ≤ clock j) → max_peers s ≤ connected_count s →
  (search_loop n clock random k s).1 = OutOfFuel.
Proof.
  revert k s. induction n as [|n IH]; intros k s Hp Hc Hw; [done|].
  rewrite search_loop_round by done. rewrite delay_poll_result.
  rewrite (proj2 (Z.leb_le _ _)) by apply Hc. rewrite (proj2 (Z.ltb_ge _ _)) by done.
  apply IH; [done| |done]. intros j. cbn. rewrite deadline_poll. apply Hc.
Qed.
End Timer.

(** ** The second loop *)

Lemma event_loop_round n (s : D) :
  let p := discv5_poll (discovery s) in
  let s1 := set_discv5 p.2 s in
  event_loop (S n) s =
  match p.1 with
  | GenerateEvent (SocketUpdated ip) => (Ok (ReportObservedAddr (push_tcp (tcp_port s) (multiaddr_from ip))), s1)
  | GenerateEvent (FindNodeResult closer_peers) =>
      match first_wanted s closer_peers with
      | Some peer_id => (Ok (DialPeer peer_id), s1)
      | None => event_loop n s1
      end
  | Discv5NotReady => (Ok DiscoveryNotReady, s1)
  | _ => event_loop n s1
  end.
Proof.
  intros p s1. subst p s1. cbn [event_loop]. rewrite Mbind_get.
  destruct (discv5_poll _) as [[[| |cp|]| |] d]; rewrite Mbind_put; try done.
  cbn [fst snd]. by destruct (first_wanted s cp).
Qed.

Lemma event_loop_returns `{DV : !Discv5Laws Discv5 Key NodeId PeerId Enr Ip Multiaddr} n (s : D) :
  (pending (discovery s) < n)%nat → ∃ a s', event_loop n s = (Ok a, s').
Proof.
  revert s. induction n as [|n IH]; intros s Hn; [lia|]. rewrite event_loop_round.
  pose proof (discv5_poll_pending (discovery s)) as Hl.
  destruct (discv5_poll (discovery s)) as [r d]. cbn [fst snd] in *.
  assert (r ≠ Discv5NotReady → ∃ a s', event_loop n (set_discv5 d s) = (Ok a, s')) as Hnext.
  { intros Hr. apply IH. cbn. specialize (Hl Hr). lia. }
  destruct r as [[| |cp|]| |]; try (by apply Hnext); eauto.
  destruct (first_wanted s cp); [by eauto|by apply Hnext].
Qed.

Lemma first_wanted_Some (s : D) l p :
  first_wanted s l = Some p ↔
  connected_count s < max_peers s ∧ p ∉ connected_peers s ∧
  ∃ before after, l = before ++ p :: after ∧ Forall (.∈ connected_peers s) before.
Proof.
  induction l as [|q l IH]; cbn.
  { split; [done|]. intros (_ & _ & [|??] & ? & ? & _); done. }
  destruct (Z.ltb_spec (connected_count s) (max_peers s)) as [Hlt|Hge]; cbn.
  2: { rewrite IH. split; intros [? _]; lia. }
  case_bool_decide as Hq; cbn.
  - rewrite IH. split; intros (_ & Hp & before & after & Heq & Hb); split_and!; try done.
    + exists (q :: before), after. split; [by rewrite Heq|by constructor].
    + destruct before as [|q' before]; injection Heq as -> ->; [done|].
      exists before, after. split; [done|]. by inversion Hb.
  - split.
    + intros [= ->]. split_and!; [done..|]. by exists [], l.
    + intros (_ & Hp & [|q' before] & after & Heq & Hb); injection Heq as -> ->; [done|].
      inversion Hb; done.
Qed.

(** A dial of the second loop. *)
Lemma event_loop_dial n (s s' : D) p :
  event_loop n s = (Ok (DialPeer p), s') →
  connected_count s < max_peers s ∧ p ∉ connected_peers s ∧
  ∃ d before after,
    discv5_poll d = (GenerateEvent (FindNodeResult (before ++ p :: after)), discovery s') ∧
    Forall (.∈ connected_peers s) before.
Proof.
  revert s. induction n as [|n IH]; intros s; [done|]. rewrite event_loop_round.
  destruct (discv5_poll (discovery s)) as [r d] eqn:Hpoll. cbn [fst snd].
  destruct r as [[| |cp|]| |]; try done; [by intros H%IH| |by intros H%IH|by intros H%IH].
  destruct (first_wanted s cp) as [q|] eqn:Hq; [|by intros H%IH].
  intros [= -> <-]. apply first_wanted_Some in Hq as (? & ? & before & after & -> & ?).
  split_and!; [done..|]. by exists (discovery s), before, after.
Qed.

(** ** What every call keeps *)

(** The calls the swarm makes, and the node's own. *)
Inductive Call : Type :=
  | CallConnected (peer_id : PeerId)
  | CallDisconnected (peer_id : PeerId)
  | CallAddEnr (enr : Enr)
  | CallDiscover (random_node : NodeId) (now : Z)
  | CallPoll (fuel : nat) (clock : nat → Z) (random : nat → NodeId).

Definition call (c : Call) (s : D) : D :=
  match c with
  | CallConnected p => (discovery_connected p s).2
  | CallDisconnected p => (discovery_disconnected p s).2
  | CallAddEnr enr => (add_enr enr s).2
  | CallDiscover node now => (discover_peers node now s).2
  | CallPoll fuel clock random => (discovery_poll fuel clock random s).2
  end.

Definition run_calls (calls : list Call) (s : D) : D := foldl (λ s c, call c s) s calls.

(** Whether a peer is connected after a sequence of calls: its last change. *)
Definition connected_after (p : PeerId) (calls : list Call) : bool :=
  foldl (λ b c, match c with
                | CallConnected q => bool_decide (p = q) || b
                | CallDisconnected q => negb (bool_decide (p = q)) && b
                | _ => b
                end) false calls.

(** What searching and polling leave alone. *)
Definition same_peers (s s' : D) : Prop :=
  connected_peers s' = connected_peers s ∧ max_peers s' = max_peers s ∧ tcp_port s' = tcp_port s.

#[local] Instance same_peers_preorder : PreOrder same_peers.
Proof. split; [by intros ?|]. intros x y z (?&?&?) (?&?&?). split_and!; congruence. Qed.

Lemma find_peers_same r now : steps same_peers (find_peers r now : Op unit).
Proof. unfold find_peers. step_tac; done. Qed.

Lemma discover_peers_same r now : steps same_peers (discover_peers r now : Op unit).
Proof. unfold discover_peers. step_tac; [done|apply find_peers_same]. Qed.

Lemma search_loop_same n clock random k : steps same_peers (search_loop n clock random k : Op unit).
Proof.
  revert k. induction n as [|n IH]; intros k; cbn [search_loop]; step_tac.
  destruct (delay_poll _ _) as [[] d]; step_tac; try done; try apply IH. apply find_peers_same.
Qed.

Lemma event_loop_same n : steps same_peers (event_loop n : Op (DiscoveryPoll PeerId Multiaddr)).
Proof.
  induction n as [|n IH]; cbn [event_loop]; step_tac.
  destruct (discv5_poll _) as [[[| |cp|]| |] d]; step_tac; try done; try apply IH.
  destruct (first_wanted _ cp); [done|apply IH].
Qed.

Lemma discovery_poll_same fuel clock random :
  steps same_peers (discovery_poll fuel clock random : Op (DiscoveryPoll PeerId Multiaddr)).
Proof. unfold discovery_poll. step_tac; [apply search_loop_same|apply event_loop_same]. Qed.

Lemma call_peers c (s : D) p :
  p ∈ connected_peers (call c s) ↔
  match c with
  | CallConnected q => p = q ∨ p ∈ connected_peers s
  | CallDisconnected q => p ≠ q ∧ p ∈ connected_peers s
  | _ => p ∈ connected_peers s
  end.
Proof.
  destruct c as [q|q|enr|node now|fuel clock random]; cbn [call].
  - cbn. set_solver.
  - cbn. set_solver.
  - done.
  - by rewrite (proj1 (discover_peers_same node now s)).
  - by rewrite (proj1 (discovery_poll_same fuel clock random s)).
Qed.

Lemma call_max c (s : D) : max_peers (call c s) = max_peers s.
Proof.
  destruct c as [q|q|enr|node now|fuel clock random]; try done; cbn [call].
  by rewrite (proj1 (proj2 (discovery_poll_same fuel clock random s))).
Qed.

(** The set of peers refines the history of connections. *)
Lemma run_calls_peers calls (s : D) p :
  connected_peers s = ∅ →
  (p ∈ connected_peers (run_calls calls s) ↔ connected_after p calls = true) ∧
  max_peers (run_calls calls s) = max_peers s.
Proof.
  intros Hs. induction calls as [|c calls IH] using rev_ind.
  { cbn. rewrite Hs. split; [|done]. split; [set_solver|done]. }
  unfold run_calls, connected_after in *. rewrite !foldl_snoc, call_peers, call_max.
  destruct IH as [IH1 IH2]. split; [|done].
  destruct c; rewrite IH1; try done; case_bool_decide; cbn; naive_solver.
Qed.

(** ** The statements *)

(** [poll] returns, and searches when it is time.  If peers are wanted
    whenever the timer has fired, and the call takes less than ten seconds, then
    [poll] ends with an answer: it has started exactly one search if the timer
    had fired, with the next one put off by the delay of the schedule, and none
    otherwise. *)
Theorem discovery_poll_returns `{DL : !DelayLaws Delay}
  `{DV : !Discv5Laws Discv5 Key NodeId PeerId Enr Ip Multiaddr} clock random (s : D)
  (Hpast : past_ok (past_discovery_delay s))
  (Hclock : ∀ k, clock O ≤ clock k < clock O + 10)
  (Hwant : deadline (peer_discovery_delay s) ≤ clock O → connected_count s < max_peers s) :
  ∃ bound, ∀ fuel, (bound ≤ fuel)%nat → ∃ s1 a s',
    search_loop fuel clock random O s = (Ok tt, s1) ∧
    discovery_poll fuel clock random s = (Ok a, s') ∧
    if deadline (peer_discovery_delay s) <=? clock O then
      discovery s1 = discv5_find_node (random O) (discovery s) ∧
      deadline (peer_discovery_delay s1) = clock 1%nat + next_delay (past_discovery_delay s)
    else discovery s1 = discovery s ∧ deadline (peer_discovery_delay s1) = deadline (peer_discovery_delay s).
Proof.
  exists (S (S (Nat.max (pending (discovery s)) (pending (discv5_find_node (random O) (discovery s)))))).
  intros [|[|n]] Hn; [lia..|].
  destruct (search_loop_returns n clock random s Hpast Hclock Hwant) as (s1 & Hrun & _ & _ & _ & Hs1).
  destruct (event_loop_returns (S (S n)) s1) as (a & s' & Hev).
  { case_match; destruct Hs1 as (-> & _); lia. }
  exists s1, a, s'. split; [done|]. split.
  - unfold discovery_poll. unfold mbind, M_bind. by rewrite Hrun.
  - case_match; naive_solver.
Qed.

(** C32: a node that has all the peers it wants hangs.  Once the timer has fired
    and there are at least [max_peers] connected peers, the first loop of [poll]
    neither searches nor resets the timer, which stays elapsed: no number of
    rounds is enough for [poll] to return. *)
Theorem full_node_never_returns `{DL : !DelayLaws Delay} clock random (s : D)
  (Hpast : past_ok (past_discovery_delay s))
  (Hclock : ∀ k, deadline (peer_discovery_delay s) ≤ clock k)
  (Hfull : max_peers s ≤ connected_count s) :
  ∀ fuel, (discovery_poll fuel clock random s).1 = OutOfFuel.
Proof.
  intros fuel. pose proof (search_loop_spins fuel clock random O s Hpast Hclock Hfull) as H.
  unfold discovery_poll. unfold mbind, M_bind.
  by destruct (search_loop fuel clock random O s) as [[] ?].
Qed.

Lemma searches_run (l : list (NodeId * Z)) (s : D) :
  past_ok (past_discovery_delay s) →
  ∃ s', for_each l (λ x, find_peers x.1 x.2) s = (Ok tt, s') ∧
    past_discovery_delay s' = Nat.iter (length l) next_past (past_discovery_delay s).
Proof.
  revert s. induction l as [|[r t] l IH]; intros s Hp; [by exists s|].
  cbn [for_each fst snd]. unfold mbind, M_bind. rewrite find_peers_run by done.
  destruct (IH (searched r t s)) as (s' & -> & Hs'); [by apply past_ok_next|].
  exists s'. split; [done|]. rewrite Hs'. cbn [past_discovery_delay searched length].
  by rewrite Nat.iter_succ_r.
Qed.

Lemma iter_next_past n : Nat.iter n next_past 5 = nth n [5; 10; 20; 40] 80.
Proof.
  destruct n as [|[|[|[|n]]]]; [done..|]. rewrite nth_overflow by (cbn; lia).
  induction n as [|n IH]; [done|]. rewrite Nat.iter_succ. by rewrite IH.
Qed.

(** The schedule of the searches.  A manual search puts off the next by ten
    seconds, and those that follow by 20, 40, 80 and from then on 60: the delay
    is doubled once more than the documented maximum of 60 seconds allows, and
    no delay overflows, whatever the number of searches. *)
Theorem search_schedule `{DL : !DelayLaws Delay} (s : D) (r0 : NodeId) t0 (l : list (NodeId * Z)) r t :
  ∃ s', (discover_peers r0 t0 ;; for_each l (λ x, find_peers x.1 x.2) ;; find_peers r t) s = (Ok tt, s') ∧
    deadline (peer_discovery_delay s') = t + nth (length l) [20; 40; 80] 60 ∧
    past_ok (past_discovery_delay s').
Proof.
  assert (past_ok 5) as H5 by (unfold past_ok; set_solver).
  set (s0 := searched r0 t0 (set_past INITIAL_SEARCH_DELAY s)).
  rewrite (Mbind_step _ _ s tt s0) by (unfold discover_peers; rewrite Mbind_get, Mbind_put; by apply find_peers_run).
  destruct (searches_run l s0) as (s1 & Hl & Hp); [by apply past_ok_next|].
  rewrite (Mbind_step _ _ _ _ _ Hl). cbn [past_discovery_delay searched set_past s0] in Hp.
  change (next_past INITIAL_SEARCH_DELAY) with (next_past 5) in Hp. rewrite <- Nat.iter_succ_r, iter_next_past in Hp.
  assert (past_ok (past_discovery_delay s1)) as Hok.
  { rewrite Hp. unfold past_ok. destruct (length l) as [|[|[|n]]]; [cbn; set_solver..|].
    rewrite nth_overflow by (cbn; lia). set_solver. }
  rewrite find_peers_run by done. eexists. split; [done|]. cbn. rewrite deadline_reset, Hp.
  split; [|rewrite <- Hp; by apply past_ok_next]. f_equal. destruct (length l) as [|[|[|n]]]; [done..|]. rewrite !nth_overflow by (cbn; lia). by destruct n.
Qed.

(** Only a wanted peer is dialed.  After any calls on a fresh behaviour, a
    peer [poll] asks to dial is not connected according to the history of
    connections, there are fewer peers than wanted, and it is the first such
    peer of a finished query; the peers after it are dropped with the query. *)
Theorem dialed_peer_wanted calls fuel clock random (s0 s' : D) p
  (Hempty : connected_peers s0 = ∅)
  (Hdial : discovery_poll fuel clock random (run_calls calls s0) = (Ok (DialPeer p), s')) :
  connected_after p calls = false ∧ connected_count s' < max_peers s0 ∧
  ∃ d before after,
    discv5_poll d = (GenerateEvent (FindNodeResult (before ++ p :: after)), discovery s') ∧
    Forall (λ q, connected_after q calls = true) before.
Proof.
  pose proof (discovery_poll_same fuel clock random (run_calls calls s0)) as (Hc' & _).
  rewrite Hdial in Hc'. cbn in Hc'.
  unfold discovery_poll in Hdial. apply Mbind_Ok in Hdial as ([] & s1 & Hs & He).
  pose proof (search_loop_same fuel clock random O (run_calls calls s0)) as (Hc & Hm & _).
  rewrite Hs in Hc, Hm. cbn in Hc, Hm.
  apply event_loop_dial in He as (Hlt & Hp & d & before & after & Hpoll & Hb).
  unfold connected_count in *. rewrite Hc in Hlt, Hp, Hb. rewrite Hm in Hlt. rewrite Hc'.
  destruct (run_calls_peers calls s0 p Hempty) as [Hpeer Hmax]. rewrite Hmax in Hlt.
  split; [|split; [done|]].
  - apply not_true_iff_false. by rewrite <- Hpeer.
  - exists d, before, after. split; [done|]. eapply Forall_impl; [exact Hb|].
    intros q Hq. by apply (run_calls_peers calls s0 q Hempty).
Qed.
End Theorems.

(** ** Witnesses *)

(** A timer that is its deadline, and a discv5 that is a queue of finished
    queries, to which a search adds one. *)
#[local] Instance toy_delay : DelayOps Z := {|
  delay_new := id;
  delay_reset t _ := t;
  delay_poll now d := (if d <=? now then DelayReady else DelayNotReady, d);
|}.

#[local] Instance toy_delay_laws : DelayLaws Z.
Proof. by refine {| deadline := id |}. Defined.

#[local] Instance toy_discv5 : Discv5Ops (list (list Z)) unit Z Z unit Z (Z * Z) := {|
  build_enr _ _ _ _ := Ok tt;
  discv5_new _ _ _ := Ok [];
  discv5_local_enr _ := tt;
  discv5_add_enr _ d := d;
  discv5_find_node node d := d ++ [[node; node + 1; node + 2]];
  discv5_addresses _ _ := [];
  discv5_poll d := match d with
                   | [] => (Discv5NotReady, [])
                   | peers :: d => (GenerateEvent (FindNodeResult peers), d)
                   end;
  multiaddr_from ip := (ip, 0);
  push_tcp port a := (a.1, port);
|}.

#[local] Instance toy_discv5_laws : Discv5Laws (list (list Z)) unit Z Z unit Z (Z * Z).
Proof. refine {| pending := length |}. intros [|]; cbn; [done|lia]. Defined.

#[local] Instance toy_arith : ArithMode := true.

Definition toy_state (peers : list Z) (due : Z) : Discovery Z Z (list (list Z)) :=
  mkDiscovery (list_to_set peers) 2 due 40 9000 [].

(** A clock that advances one second at a reading, nine in all. *)
Definition toy_clock (k : nat) : Z := 100 + Z.min 9 (Z.of_nat k).

Lemma discovery_poll_returns_witness :
  ∃ bound, ∀ fuel, (bound ≤ fuel)%nat → ∃ s1 a s',
    search_loop fuel toy_clock (λ _, 7) O (toy_state [7] 100) = (Ok tt, s1) ∧
    discovery_poll fuel toy_clock (λ _, 7) (toy_state [7] 100) = (Ok a, s') ∧
    (discovery s1 = [[7; 8; 9]] ∧ peer_discovery_delay s1 = 181).
Proof.
  destruct (discovery_poll_returns toy_clock (λ _, 7) (toy_state [7] 100)) as [bound Hb].
  - unfold past_ok. set_solver.
  - intros k. unfold toy_clock. lia.
  - intros _. vm_compute. reflexivity.
  - exists bound. intros fuel Hf. destruct (Hb fuel Hf) as (s1 & a & s' & H1 & H2 & H3 & H4).
    exists s1, a, s'. split; [exact H1|]. split; [exact H2|]. split; [exact H3|exact H4].
Defined.

Lemma full_node_never_returns_witness :
  connected_count (toy_state [3; 4] 90) = 2 ∧
  ∀ fuel, (discovery_poll fuel toy_clock (λ _, 7) (toy_state [3; 4] 90)).1 = OutOfFuel.
Proof.
  split; [vm_compute; reflexivity|].
  apply (full_node_never_returns toy_clock (λ _, 7) (toy_state [3; 4] 90)).
  - unfold past_ok. set_solver.
  - intros k. unfold toy_clock. cbn. lia.
  - vm_compute. discriminate.
Defined.

Lemma dialed_peer_wanted_witness :
  ∃ s', discovery_poll 5 toy_clock (λ _, 7)
          (run_calls [CallConnected 3; CallConnected 7; CallDisconnected 3] (toy_state [] 100)) = (Ok (DialPeer 8), s') ∧
    connected_after 8 [CallConnected 3; CallConnected 7; @CallDisconnected Z Z unit 3] = false ∧
    connected_count s' < 2.
Proof.
  eexists. split; [vm_compute; reflexivity|].
  edestruct (dialed_peer_wanted [CallConnected 3; CallConnected 7; CallDisconnected 3] 5 toy_clock (λ _, 7)
    (toy_state [] 100)) as (H1 & H2 & _); [reflexivity|vm_compute; reflexivity|].
  split; [exact H1|exact H2].
Defined.
