(* ===== verification/Swarm.v ===== *)
(** * The network behaviour and service: [behaviour.rs], [service.rs], [config.rs]
    and the main loop of [lib.rs] in [blockchain/network/src]

    [Behaviour] combines gossip, the RPC protocol, discovery, ping and identify;
    what concerns the node becomes a [Libp2pEvent] in a queue that [poll]
    empties.  [Service::new] sets it up: it listens, dials the configured nodes
    and subscribes to the topics.  [start_network_simple_sync] then handles the
    events of the swarm and of the sync component in turns.

    The swarm, gossipsub, ping, identify and the sync component are external.
    The derived part of [Behaviour], which polls its parts and hands what they
    report to [inject_event], is generated by libp2p: a run of the behaviour is a
    sequence of such reports and polls, in any order. *)
From stdpp Require Import base numbers list gmap strings.
From Stdlib Require Import ZArith Lia.
From S2P Require Import Prelude Config Types Utils State Node Ssz SszTypes Messages Handler RpcHandler Discovery.

#[local] Open Scope Z_scope.

(** [Gossipsub], and the public half of a key *)
Class GossipsubOps (Gs Peer Key : Type) := {
  key_peer : Key → Peer;
  gs_new : Peer → Gs;
  gs_subscribe : string → Gs → bool * Gs;
  gs_publish : string → Bytes → Gs → Gs;
}.

(** A node receives on the topics it subscribed to; subscribing twice to one is
    refused. *)
Class GossipsubLaws (Gs Peer Key : Type) `{!GossipsubOps Gs Peer Key} := {
  subscriptions : Gs → gset string;
  gs_subscribe_adds : ∀ t g, subscriptions (gs_subscribe t g).2 = {[t]} ∪ subscriptions g;
}.

(** [config.rs] *)
Record NetworkConfig (Ip Enr Multiaddr : Type) := mkNetworkConfig {
  nc_discovery : DiscoveryConfig Ip Enr;
  nc_libp2p_nodes : list Multiaddr;
  nc_client_version : string;
  nc_topics : list string;
}.
Arguments mkNetworkConfig {Ip Enr Multiaddr} _ _ _ _.
Arguments nc_discovery {Ip Enr Multiaddr} _.
Arguments nc_libp2p_nodes {Ip Enr Multiaddr} _.
Arguments nc_client_version {Ip Enr Multiaddr} _.
Arguments nc_topics {Ip Enr Multiaddr} _.

Definition network_config_default {Ip Enr Multiaddr} (localhost : Ip) : NetworkConfig Ip Enr Multiaddr :=
  mkNetworkConfig (mkDiscoveryConfig localhost localhost 9000 9000 10 []) [] "v0.1" [].

(** [enum Error] of [error.rs], as far as the service returns it *)
Inductive NetworkError : Type := OtherError (message : string).

(** What the parts of the behaviour report *)
Inductive GossipsubEvent (Peer : Type) : Type :=
  | GsMessage (source : Peer) (topics : list string) (data : Bytes)
  | GsSubscribed
  | GsUnsubscribed.
Arguments GsMessage {Peer} _ _ _.
Arguments GsSubscribed {Peer}.
Arguments GsUnsubscribed {Peer}.

Inductive IdentifyEvent (Peer Multiaddr : Type) : Type :=
  | IdentifyReceived (peer : Peer) (listen_addrs : list Multiaddr)
  | IdentifySent
  | IdentifyError.
Arguments IdentifyReceived {Peer Multiaddr} _ _.
Arguments IdentifySent {Peer Multiaddr}.
Arguments IdentifyError {Peer Multiaddr}.

Definition MAX_IDENTIFY_ADDRESSES : nat := 20.

(** An event of the RPC protocol, as [start_network_simple_sync] reads it: the
    error it carries is only logged. *)
Definition rpc_event_of (event : Event RPCRequest RPCResponse) : RPCEvent :=
  match event with
  | Request id request => EventRequest id request
  | Response id response => EventResponse id response
  | Error id _ => EventError id
  end.

(** [struct Behaviour]: [ping] and [identify] are left out, their state is
    external and nothing here reads it. *)
Record Behaviour (Peer Delay Discv5 Gs : Type) `{Countable Peer} := mkBehaviour {
  b_gossipsub : Gs;
  b_rpc : list (@BehaviourAction Peer RPCRequest RPCResponse);
  b_discovery : Discovery Peer Delay Discv5;
  b_events : list (Libp2pEvent Peer);
}.
Arguments mkBehaviour {Peer Delay Discv5 Gs _ _} _ _ _ _.
Arguments b_gossipsub {Peer Delay Discv5 Gs _ _} _.
Arguments b_rpc {Peer Delay Discv5 Gs _ _} _.
Arguments b_discovery {Peer Delay Discv5 Gs _ _} _.
Arguments b_events {Peer Delay Discv5 Gs _ _} _.

Section Behaviour.
Context `{C : Config} `{AM : ArithMode} `{CP : Countable Peer} {Delay Discv5 Key NodeId Enr Ip Multiaddr Gs : Type}.
Context `{DO : !DelayOps Delay} `{VO : !Discv5Ops Discv5 Key NodeId Peer Enr Ip Multiaddr}.
Context `{GO : !GossipsubOps Gs Peer Key}.

Notation B := (Behaviour Peer Delay Discv5 Gs).
Notation Op := (M B Empty_set).

(** [Behaviour::new] at the instant [now] *)
Definition behaviour_new (now : Z) (local_key : Key) (net_conf : NetworkConfig Ip Enr Multiaddr) : res string B :=
  d ← discovery_new now local_key (nc_discovery net_conf);
  Ok (mkBehaviour (gs_new (key_peer local_key)) rpc_new d []).

Definition push_event (event : Libp2pEvent Peer) : Op unit :=
  s ← get; put (mkBehaviour (b_gossipsub s) (b_rpc s) (b_discovery s) (b_events s ++ [event])).

(** [inject_event] of the five parts *)
Definition inject_gossipsub (event : GossipsubEvent Peer) : Op unit :=
  match event with
  | GsMessage source topics data =>
      match gossip_received topics data with
      | Ok (Some message) => push_event (Pubsub source message)
      | Ok None | Err _ => mret tt
      | Panic => lift Panic
      | OutOfFuel => lift OutOfFuel
      end
  | GsSubscribed | GsUnsubscribed => mret tt
  end.

Definition inject_rpc (event : @RPCMessage Peer RPCRequest RPCResponse) : Op unit :=
  match event with
  | MessageDialed peer_id => push_event (PeerDialed peer_id)
  | MessageDisconnected peer_id => push_event (PeerDisconnected peer_id)
  | MessageEvent peer_id rpc_event => push_event (RPC peer_id (rpc_event_of rpc_event))
  end.

Definition inject_ping : Op unit := mret tt.

(** The list of addresses is cut for the log, and only there. *)
Definition identify_logged (listen_addrs : list Multiaddr) : list Multiaddr :=
  if (MAX_IDENTIFY_ADDRESSES <? length listen_addrs)%nat then take MAX_IDENTIFY_ADDRESSES listen_addrs
  else listen_addrs.
Definition inject_identify (event : IdentifyEvent Peer Multiaddr) : Op unit :=
  match event with
  | IdentifyReceived peer_id _ => push_event (PeerDialed peer_id)
  | IdentifySent | IdentifyError => mret tt
  end.

Definition inject_discv5 (event : Discv5Event Peer Enr Ip) : Op unit := mret tt.

(** [Behaviour::poll] *)
Definition poll_events : Op (option (Libp2pEvent Peer)) :=
  s ← get;
  match b_events s with
  | [] => mret None
  | event :: rest => put (mkBehaviour (b_gossipsub s) (b_rpc s) (b_discovery s) rest) ;; mret (Some event)
  end.

(** [subscribe], [publish], [send_rpc], [connected_peers] *)
Definition behaviour_subscribe (topic : string) : Op bool :=
  s ← get;
  let '(ok, gs) := gs_subscribe topic (b_gossipsub s) in
  put (mkBehaviour gs (b_rpc s) (b_discovery s) (b_events s)) ;; mret ok.

Definition behaviour_publish (message : PubsubMessage) : Op unit :=
  s ← get;
  let '(topic, data) := publish message in
  put (mkBehaviour (gs_publish topic data (b_gossipsub s)) (b_rpc s) (b_discovery s) (b_events s)).

Definition behaviour_send_rpc (peer_id : Peer) (event : Event RPCRequest RPCResponse) : Op unit :=
  s ← get; put (mkBehaviour (b_gossipsub s) (send_rpc peer_id event (b_rpc s)) (b_discovery s) (b_events s)).

Definition behaviour_connected_peers (s : B) : Z := connected_count (b_discovery s).
End Behaviour.

(** ** The service *)

(** The part of the swarm around the behaviour *)
Class SwarmOps (Net Key Multiaddr : Type) := {
  swarm_new : Key → Net;
  listen_on : Multiaddr → Net → res string unit * Net;
  dial_addr : Multiaddr → Net → res string unit * Net;
}.

(** [struct Service] *)
Record Service (Peer Delay Discv5 Gs Net : Type) `{Countable Peer} := mkService {
  local_peer_id : Peer;
  service_net : Net;
  service_behaviour : Behaviour Peer Delay Discv5 Gs;
}.
Arguments mkService {Peer Delay Discv5 Gs Net _ _} _ _ _.
Arguments local_peer_id {Peer Delay Discv5 Gs Net _ _} _.
Arguments service_net {Peer Delay Discv5 Gs Net _ _} _.
Arguments service_behaviour {Peer Delay Discv5 Gs Net _ _} _.

Section Service.
Context `{AM : ArithMode} `{CP : Countable Peer} {Delay Discv5 Key NodeId Enr Ip Multiaddr Gs Net : Type}.
Context `{DO : !DelayOps Delay} `{VO : !Discv5Ops Discv5 Key NodeId Peer Enr Ip Multiaddr}.
Context `{GO : !GossipsubOps Gs Peer Key} `{SO : !SwarmOps Net Key Multiaddr}.

(** The topics of [Service::new], in order *)
Definition service_topics (config : NetworkConfig Ip Enr Multiaddr) : list string :=
  (gossipsub_topic <$> [PubsubBlock; PubsubAttestation; PubsubVoluntaryExit; PubsubProposerSlashing; PubsubAttesterSlashing])
  ++ nc_topics config.

(** The loop that subscribes, with the topics it logs *)
Fixpoint subscribe_all (topics subscribed_topics : list string) :
  M (Behaviour Peer Delay Discv5 Gs) Empty_set (list string) :=
  match topics with
  | [] => mret subscribed_topics
  | topic :: topics' =>
      ok ← behaviour_subscribe topic;
      subscribe_all topics' (if (ok : bool) then subscribed_topics ++ [topic] else subscribed_topics)
  end.

(** [Service::new] with a fresh key, at the instant [now] *)
Definition service_new (now : Z) (local_private_key : Key) (config : NetworkConfig Ip Enr Multiaddr) :
  res NetworkError (Service Peer Delay Discv5 Gs Net) :=
  behaviour ← res_map_err OtherError (behaviour_new now local_private_key config);
  let net := swarm_new local_private_key in
  let listen_multiaddr :=
    push_tcp (libp2p_port (nc_discovery config)) (multiaddr_from (listen_address (nc_discovery config))) in
  match listen_on listen_multiaddr net with
  | (Ok _, net) =>
      let net := foldl (λ net multiaddr, (dial_addr multiaddr net).2) net (nc_libp2p_nodes config) in
      Ok (mkService (key_peer local_private_key) net (subscribe_all (service_topics config) [] behaviour).2)
  | (Err _, _) => Err (OtherError "Libp2p was unable to listen on the given listen address.")
  | (Panic, _) => Panic
  | (OutOfFuel, _) => OutOfFuel
  end.
End Service.

(** ** The main loop: [start_network_simple_sync] *)

(** What polling the service returns. *)
Inductive ServicePoll (Peer : Type) : Type :=
  | ServiceReady (message : Libp2pEvent Peer)
  | ServiceEnd
  | ServiceNotReady
  | ServiceFailed.
Arguments ServiceReady {Peer} _.
Arguments ServiceEnd {Peer}.
Arguments ServiceNotReady {Peer}.
Arguments ServiceFailed {Peer}.

(** The service, the sync component and the store behind them *)
Class NetworkWorld (World Peer E : Type) := {
  world_backend : World → Backend E;
  service_poll : World → ServicePoll Peer * World;
  sync_poll : World → option (SyncEvent Peer) * World;
  perform : Action Peer → World → World;
  has_listener : World → bool;
}.

Section Turn.
Context `{AM : ArithMode} {World Peer E : Type} `{NW : !NetworkWorld World Peer E}.

(** The state of the closure: [listening] and what it captured *)
Notation Op := (M (bool * World) E).

Definition perform_all (actions : list (Action Peer)) (w : World) : World :=
  foldl (λ w a, perform a w) w actions.

Definition handle (actions : World → res E (list (Action Peer))) : Op unit :=
  s ← get;
  acts ← lift (actions s.2);
  put (s.1, perform_all acts s.2).

(** [depth] bounds the search of a start block, see [seek_slot]. *)
Fixpoint message_loop (depth fuel : nat) : Op unit :=
  match fuel with
  | O => lift OutOfFuel
  | S n =>
      s ← get;
      let '(r, w) := service_poll s.2 in
      put (s.1, w) ;;
      match r with
      | ServiceReady message =>
          handle (λ w, on_message (world_backend w) depth message) ;; message_loop depth n
      | ServiceEnd | ServiceNotReady =>
          s ← get; put (s.1 || has_listener s.2, s.2)
      | ServiceFailed => lift Panic
      end
  end.

Fixpoint sync_loop (fuel : nat) : Op unit :=
  match fuel with
  | O => lift OutOfFuel
  | S n =>
      s ← get;
      let '(r, w) := sync_poll s.2 in
      put (s.1, w) ;;
      match r with
      | None => mret tt
      | Some event => handle (λ w, on_sync_event (world_backend w) event) ;; sync_loop n
      end
  end.

(** One poll of the future *)
Definition network_turn (depth fuel : nat) : Op unit := message_loop depth fuel ;; sync_loop fuel.
End Turn.

(** * Theorems *)

Section Events.
Context `{C : Config} `{AM : ArithMode} `{CP : Countable Peer} {Delay Discv5 Key NodeId Enr Ip Multiaddr Gs : Type}.
Context `{DO : !DelayOps Delay} `{VO : !Discv5Ops Discv5 Key NodeId Peer Enr Ip Multiaddr}.
Context `{GO : !GossipsubOps Gs Peer Key}.

Notation B := (Behaviour Peer Delay Discv5 Gs).
Notation Op := (M B Empty_set).

(** What can happen to the behaviour: its parts report, the swarm polls it, the
    node calls it. *)
Inductive Input : Type :=
  | InGossipsub (event : GossipsubEvent Peer)
  | InRpc (event : @RPCMessage Peer RPCRequest RPCResponse)
  | InPing
  | InIdentify (event : IdentifyEvent Peer Multiaddr)
  | InDiscv5 (event : Discv5Event Peer Enr Ip)
  | InPoll
  | InSubscribe (topic : string)
  | InPublish (message : PubsubMessage)
  | InSendRpc (peer : Peer) (event : Event RPCRequest RPCResponse).

(** One of them, with the event it hands to the swarm. *)
Definition input (i : Input) : Op (option (Libp2pEvent Peer)) :=
  match i with
  | InGossipsub event => inject_gossipsub event ;; mret None
  | InRpc event => inject_rpc event ;; mret None
  | InPing => inject_ping ;; mret None
  | InIdentify event => inject_identify event ;; mret None
  | InDiscv5 event => inject_discv5 event ;; mret None
  | InPoll => poll_events
  | InSubscribe topic => behaviour_subscribe topic ;; mret None
  | InPublish message => behaviour_publish message ;; mret None
  | InSendRpc peer event => behaviour_send_rpc peer event ;; mret None
  end.

Fixpoint run_inputs (inputs : list Input) : Op (list (Libp2pEvent Peer)) :=
  match inputs with
  | [] => mret []
  | i :: inputs' =>
      o ← input i;
      out ← run_inputs inputs';
      mret (match o with Some event => event :: out | None => out end)
  end.

(** The events an input stands for. *)
Definition reported (i : Input) : list (Libp2pEvent Peer) :=
  match i with
  | InGossipsub (GsMessage source topics data) =>
      match gossip_received topics data with Ok (Some message) => [Pubsub source message] | _ => [] end
  | InRpc (MessageDialed peer) => [PeerDialed peer]
  | InRpc (MessageDisconnected peer) => [PeerDisconnected peer]
  | InRpc (MessageEvent peer event) => [RPC peer (rpc_event_of event)]
  | InIdentify (IdentifyReceived peer _) => [PeerDialed peer]
  | _ => []
  end.

Lemma input_events i (s s' : B) o :
  input i s = (Ok o, s') → b_events s ++ reported i = option_list o ++ b_events s'.
Proof.
  destruct i as [[source topics data| |]|[]| |[]| | | | |]; cbn [input];
    try (intros H; injection H as <- <-; cbn; by rewrite ?app_nil_r).
  - cbn [inject_gossipsub reported]. destruct (gossip_received topics data) as [[m|]| | |];
      intros H; try discriminate H; injection H as <- <-; cbn; by rewrite ?app_nil_r.
  - unfold poll_events. rewrite Mbind_get. destruct (b_events s) as [|e rest] eqn:He.
    + intros H. injection H as <- <-. cbn. by rewrite He.
    + intros H. injection H as <- <-. cbn. by rewrite app_nil_r.
  - unfold behaviour_subscribe. intros H. run_inv. destruct (gs_subscribe _ _). run_inv.
    cbn. by rewrite app_nil_r.
Qed.

(** C30: events reach the node once and in order.  Whatever the order of the
    reports of the protocols, the polls and the node's own calls, the events
    handed to the node followed by those still queued are the reported ones, in
    the order of the reports; and a valid message that a node publishes is
    reported by its receiver as that message, with its source. *)
Theorem events_in_order `{CO : !ConfigOk C} (inputs : list Input) (s s' : B) out
  (Hrun : run_inputs inputs s = (Ok out, s')) :
  out ++ b_events s' = b_events s ++ concat (reported <$> inputs) ∧
  ∀ source message others, PubsubMessage_valid message → omap from_gossipsub_topic_hash others = [] →
    reported (InGossipsub (GsMessage source (others ++ [(publish message).1]) (publish message).2)) =
    [Pubsub source message].
Proof.
  split.
  - revert s out Hrun. induction inputs as [|i inputs IH]; intros s out Hrun; cbn in Hrun.
    + injection Hrun as <- <-. by rewrite app_nil_r.
    + apply Mbind_Ok in Hrun as (o & s1 & Hi & Hrun). apply Mbind_Ok in Hrun as (out1 & s2 & Hout & Hrun).
      injection Hrun as <- <-. apply IH in Hout. apply input_events in Hi.
      cbn [fmap list_fmap concat]. rewrite app_assoc, Hi, <- app_assoc, <- Hout. by destruct o.
  - intros source message others Hv Ho. cbn [reported]. by rewrite gossip_roundtrip.
Qed.

(** ** The service *)

Context {Net : Type} `{SO : !SwarmOps Net Key Multiaddr}.

Lemma subscribe_all_spec `{GL : !GossipsubLaws Gs Peer Key} topics l (s : B) :
  ∃ l' s', subscribe_all topics l s = (Ok l', s') ∧
    subscriptions (b_gossipsub s') = list_to_set topics ∪ subscriptions (b_gossipsub s) ∧
    b_rpc s' = b_rpc s ∧ b_discovery s' = b_discovery s ∧ b_events s' = b_events s.
Proof.
  revert l s. induction topics as [|t topics IH]; intros l s; cbn [subscribe_all].
  { exists l, s. split; [done|]. split; [set_solver|done]. }
  unfold behaviour_subscribe. pose proof (gs_subscribe_adds t (b_gossipsub s)) as Hs.
  destruct (gs_subscribe t (b_gossipsub s)) as [ok gs] eqn:Hg. cbn [snd] in Hs.
  set (s1 := mkBehaviour gs (b_rpc s) (b_discovery s) (b_events s)).
  rewrite (Mbind_step _ _ s ok s1) by (rewrite Mbind_get, Hg; done).
  destruct (IH (if ok then l ++ [t] else l) s1) as (l' & s' & Hrun & Hsub & Hr & Hd & He).
  exists l', s'. split; [done|]. split; [|done]. rewrite Hsub. cbn. rewrite Hs. set_solver.
Qed.

(** A started node hears what it and its peers publish.  [Service::new]
    fails exactly when the behaviour cannot be built or the address cannot be
    listened on; otherwise the node is subscribed to the topic of every message
    type, so of every message a node publishes, and to the configured ones; no
    event is queued, no peer is connected, and the first search is due at
    once.  A node that cannot be dialed does not stop it. *)
Theorem service_new_correct `{GL : !GossipsubLaws Gs Peer Key} `{DL : !DelayLaws Delay}
  now (key : Key) (config : NetworkConfig Ip Enr Multiaddr) :
  let conf := nc_discovery config in
  let listen := listen_on (push_tcp (libp2p_port conf) (multiaddr_from (listen_address conf))) (swarm_new (Net:=Net) key) in
  match (behaviour_new now key config : res string B), listen.1 with
  | Ok _, Ok _ => ∃ service : Service Peer Delay Discv5 Gs Net,
      service_new now key config = Ok service ∧ local_peer_id service = key_peer key ∧
      let b := service_behaviour service in
      (∀ message, (publish message).1 ∈ subscriptions (b_gossipsub b)) ∧
      (∀ topic, topic ∈ nc_topics config → topic ∈ subscriptions (b_gossipsub b)) ∧
      b_events b = [] ∧ behaviour_connected_peers b = 0 ∧ deadline (peer_discovery_delay (b_discovery b)) = now
  | Ok _, Err _ => ∃ message,
      (service_new now key config : res _ (Service Peer Delay Discv5 Gs Net)) = Err (OtherError message)
  | Err message, _ =>
      (service_new now key config : res _ (Service Peer Delay Discv5 Gs Net)) = Err (OtherError message)
  | _, _ => True
  end.
Proof.
  intros conf listen. subst listen. unfold service_new.
  destruct (behaviour_new now key config) as [behaviour| | |] eqn:Hbehaviour; cbn [res_map_err mbind res_bind]; try done.
  fold conf. destruct (listen_on _ _) as [[[]| | |] net]; cbn [fst]; try done; [|by eexists].
  destruct (subscribe_all_spec (service_topics config) [] behaviour) as (l & b & Hrun & Hsub & _ & Hd & He).
  eexists. split; [done|]. split; [done|]. cbn [service_behaviour]. rewrite Hrun. cbn [snd].
  unfold behaviour_new in Hbehaviour. res_inv. cbn in Hd, He. rewrite He.
  rename select (discovery_new _ _ _ = _) into Hnew. unfold discovery_new in Hnew. res_inv.
  unfold behaviour_connected_peers. rewrite Hd. split_and!.
  - intros message. rewrite Hsub. apply elem_of_union_l, elem_of_list_to_set.
    unfold service_topics. apply elem_of_app. left. destruct message; cbn; set_solver.
  - intros topic Ht. rewrite Hsub. apply elem_of_union_l, elem_of_list_to_set.
    unfold service_topics. apply elem_of_app. by right.
  - done.
  - done.
  - cbn. apply deadline_new.
Qed.
End Events.

(** ** Turns of the main loop *)

(** The swarm and the sync component hold finitely many events at a time, and
    the calls a turn makes add no event of the swarm. *)
Class NetworkWorldLaws (World Peer E : Type) `{!NetworkWorld World Peer E} := {
  swarm_pending : World → nat;
  sync_pending : World → nat;
  service_poll_pending : ∀ w message w', service_poll w = (ServiceReady message, w') →
    (swarm_pending w' < swarm_pending w)%nat;
  service_poll_runs : ∀ w, (service_poll w).1 ≠ ServiceFailed;
  perform_swarm_pending : ∀ a w, (swarm_pending (perform a w) ≤ swarm_pending w)%nat;
  sync_poll_pending : ∀ w event w', sync_poll w = (Some event, w') → (sync_pending w' < sync_pending w)%nat;
  perform_sync_pending : ∀ hello w, (sync_pending (perform (NoteStatus hello) w) ≤ sync_pending w)%nat;
  perform_send_pending : ∀ peer event w, (sync_pending (perform (SendRpc peer event) w) ≤ sync_pending w)%nat;
}.

Section Turns.
Context `{AM : ArithMode} {World Peer E : Type} `{NW : !NetworkWorld World Peer E} `{NL : !NetworkWorldLaws World Peer E}.

(** No answer of the handler fails. *)
Definition answers (depth : nat) : Prop :=
  ∀ w : World, (∀ message : Libp2pEvent Peer, ∃ l, on_message (world_backend w) depth message = Ok l) ∧
               (∀ event : SyncEvent Peer, ∃ l, on_sync_event (world_backend w) event = Ok l).

Lemma perform_all_swarm acts (w : World) : (swarm_pending (perform_all acts w) ≤ swarm_pending w)%nat.
Proof.
  revert w. induction acts as [|a acts IH]; intros w; cbn; [done|].
  etrans; [apply IH|]. apply perform_swarm_pending.
Qed.

Lemma message_loop_returns depth n l (w : World) :
  answers depth → (swarm_pending w < n)%nat → ∃ s', message_loop depth n (l, w) = (Ok tt, s').
Proof.
  intros Ha. revert l w. induction n as [|n IH]; intros l w Hn; [lia|]. cbn [message_loop].
  rewrite Mbind_get. cbn [fst snd]. pose proof (service_poll_runs w) as Hf.
  destruct (service_poll w) as [[message| | |] w'] eqn:Hp; rewrite Mbind_put;
    [|by eexists|by eexists|done].
  apply service_poll_pending in Hp. destruct (proj1 (Ha w') message) as [acts Hacts].
  rewrite (Mbind_step _ _ _ tt (l, perform_all acts w'))
    by (unfold handle; rewrite Mbind_get; cbn [fst snd]; by rewrite Hacts).
  apply IH. pose proof (perform_all_swarm acts w'). lia.
Qed.

Lemma sync_acts event (w : World) acts :
  on_sync_event (world_backend w) event = Ok acts →
  (sync_pending (perform_all acts w) ≤ sync_pending w)%nat.
Proof.
  unfold on_sync_event. destruct event; intros H; res_inv; cbn;
    [apply perform_sync_pending|apply perform_send_pending..].
Qed.

Lemma sync_loop_returns depth n l (w : World) :
  answers depth → (sync_pending w < n)%nat → ∃ s', sync_loop n (l, w) = (Ok tt, s').
Proof.
  intros Ha. revert l w. induction n as [|n IH]; intros l w Hn; [lia|]. cbn [sync_loop].
  rewrite Mbind_get. cbn [fst snd].
  destruct (sync_poll w) as [[event|] w'] eqn:Hp; rewrite Mbind_put; [|by eexists].
  apply sync_poll_pending in Hp. destruct (proj2 (Ha w') event) as [acts Hacts].
  rewrite (Mbind_step _ _ _ tt (l, perform_all acts w'))
    by (unfold handle; rewrite Mbind_get; cbn [fst snd]; by rewrite Hacts).
  apply IH. pose proof (sync_acts _ _ _ Hacts). lia.
Qed.

(** More rounds than needed change nothing. *)
Lemma message_loop_mono depth n m (s s' : bool * World) :
  message_loop depth n s = (Ok tt, s') → (n ≤ m)%nat → message_loop depth m s = (Ok tt, s').
Proof.
  revert m s. induction n as [|n IH]; intros m s Hn Hm; [done|]. destruct m as [|m]; [lia|].
  cbn [message_loop] in *. rewrite Mbind_get in *.
  destruct (service_poll s.2) as [[message| | |] w]; rewrite Mbind_put in *; try done.
  apply Mbind_Ok in Hn as ([] & s1 & Hh & Hn). rewrite (Mbind_step _ _ _ _ _ Hh). apply IH; [done|lia].
Qed.

(** A turn of the main loop ends: it returns to the executor when the swarm and
    the sync component have nothing more to report. *)
Theorem network_turn_returns depth l (w : World) :
  answers depth → ∃ bound, ∀ fuel, (bound ≤ fuel)%nat → ∃ s', network_turn depth fuel (l, w) = (Ok tt, s').
Proof.
  intros Ha. destruct (message_loop_returns depth (S (swarm_pending w)) l w Ha) as [[l1 w1] H1]; [lia|].
  exists (S (Nat.max (swarm_pending w) (sync_pending w1))). intros fuel Hf. unfold network_turn.
  rewrite (Mbind_step _ _ _ tt (l1, w1)) by (eapply message_loop_mono; [done|lia]).
  eapply sync_loop_returns; [done|lia].
Qed.
End Turns.

(** ** Witnesses *)

#[local] Instance toy_gossipsub : GossipsubOps (gset string) Z unit := {|
  key_peer _ := 1;
  gs_new _ := ∅;
  gs_subscribe t g := (negb (bool_decide (t ∈ g)), {[t]} ∪ g);
  gs_publish _ _ g := g;
|}.

#[local] Instance toy_gossipsub_laws : GossipsubLaws (gset string) Z unit.
Proof. by refine {| subscriptions := id |}. Defined.

Section Witness.
#[local] Existing Instances toy_config toy_config_ok toy_mode.


Definition toy_behaviour : Behaviour Z unit unit (gset string) :=
  mkBehaviour ∅ [] (mkDiscovery ∅ 10 tt 5 9000 tt) [PeerDialed 4].

Definition toy_exit : PubsubMessage := MessageVoluntaryExit (mkVoluntaryExit 3 7 (replicate 96 0)).

(** A peer is identified and publishes an exit; two of the three events have
    been handed over. *)
Definition toy_inputs : list (@Input Z unit unit unit) :=
  [InIdentify (IdentifyReceived 5 []); InPoll;
   InGossipsub (GsMessage 5 ["other"; (publish toy_exit).1] (publish toy_exit).2); InPoll].

Lemma events_in_order_witness :
  ∃ out (s' : Behaviour Z unit unit (gset string)),
    run_inputs toy_inputs toy_behaviour = (Ok out, s') ∧ out = [PeerDialed 4; PeerDialed 5] ∧
    out ++ b_events s' = [PeerDialed 4; PeerDialed 5; Pubsub 5 toy_exit].
Proof.
  eexists _, _. split; [vm_compute; reflexivity|]. split; [reflexivity|].
  edestruct (events_in_order toy_inputs toy_behaviour) as [H _]; [vm_compute; reflexivity|].
  rewrite H. vm_compute. reflexivity.
Defined.
End Witness.
