(* ===== verification/Startup.v ===== *)
(** * Starting the node: [blockchain/src/main.rs] and [preset.rs]

    From the command line to the arguments of [run]: the configuration, the
    secret keys of the validators, the genesis state (read from a file, taken
    from a preset chain or generated with ten random keys), the genesis block
    and the configuration of the network.  Opening the store is
    [RocksStore.open_or_create]; what runs afterwards is in [NodeRun].

    Files, the YAML and hexadecimal decoders, the secret keys of the crate
    [bls] and multiaddresses are external: the class [NodeEnv].  Every failure
    of this code is an [unwrap], so results are values or panics.

    [standalone_node_authors] shows that a node without a given genesis state
    holds the secret key of every validator of the state it generates. *)
From stdpp Require Import base numbers list gmap strings.
From Stdlib Require Import ZArith Lia.
From Stdlib Require Import Ascii String.
From S2P Require Import Prelude Config Types Utils State Transition Operations Ssz SszTypes Serde DepositTree Discovery Swarm.

#[local] Open Scope string_scope.
#[local] Open Scope list_scope.
#[local] Open Scope Z_scope.

(** [struct ValidatorKey] *)
Record ValidatorKey := mkValidatorKey { privkey : string; pubkey : string }.

Class NodeEnv (Secret Multiaddr : Type) := {
  read_file : string → option Bytes;
  yaml_keys : Bytes → option (list ValidatorKey);
  hex_decode : string → option Bytes;
  secret_from_bytes : Bytes → option Secret;
  public_of : Secret → ValidatorId;
  secret_sign : H256 → Uint → Secret → Signature;
  from_low_u64_le : Z → H256;
  multiaddr_of_str : string → option Multiaddr;
}.

(** The arguments of the command line that were given *)
Record Matches := mkMatches {
  arg_port : option string;
  arg_data : option string;
  arg_libp2p_nodes : option string;
  arg_author : bool;
  arg_genesis_state : option string;
  arg_validator_keys : option string;
  arg_chain : option string;
  arg_config : option string;
}.

(** [struct Preset] and [presets]; the genesis state is a file that the build
    includes. *)
Record Preset := mkPreset { bootnodes : list string; preset_genesis : Bytes }.
Definition presets (sapphire_genesis : Bytes) : gmap string Preset :=
  {[ "sapphire" := mkPreset ["/dns4/prylabs.net/tcp/30001"] sapphire_genesis ]}.

(** [u16::from_str]: that of [u64], within the smaller range *)
Definition u16_from_str (s : string) : option Z :=
  match from_str_radix (list_ascii_of_string s) 10 with
  | Some v => if v <? 2 ^ 16 then Some v else None
  | None => None
  end.

(** [nodes.split(',')] *)
Fixpoint split_comma (s : string) : list string :=
  match s with
  | EmptyString => [EmptyString]
  | String a s' =>
      if bool_decide (a = ","%char) then EmptyString :: split_comma s'
      else match split_comma s' with
           | first :: rest => String a first :: rest
           | [] => [String a EmptyString]
           end
  end.

Definition PRIVATE_KEY_BYTES : Z := 48.

(** What [main_with_config] hands to [run], with the path of the database *)
Record Started (Secret Ip Enr Multiaddr : Type) := mkStarted {
  st_network : NetworkConfig Ip Enr Multiaddr;
  st_author : bool;
  st_data : option string;
  st_block : BeaconBlock;
  st_state : BeaconState;
  st_eth1_data : Eth1Data;
  st_keys : gmap ValidatorId Secret;
}.
Arguments mkStarted {Secret Ip Enr Multiaddr} _ _ _ _ _ _ _.
Arguments st_network {Secret Ip Enr Multiaddr} _.
Arguments st_author {Secret Ip Enr Multiaddr} _.
Arguments st_data {Secret Ip Enr Multiaddr} _.
Arguments st_block {Secret Ip Enr Multiaddr} _.
Arguments st_state {Secret Ip Enr Multiaddr} _.
Arguments st_eth1_data {Secret Ip Enr Multiaddr} _.
Arguments st_keys {Secret Ip Enr Multiaddr} _.

Section Keys.
Context {Secret Multiaddr : Type} `{NE : !NodeEnv Secret Multiaddr}.
Notation Keys := (gmap ValidatorId Secret).
Notation Run := (res Error).

Definition string_to_bytes (s : string) : option Bytes :=
  hex_decode (if String.prefix "0x" s then String.substring 2 (String.length s - 2) s else s).

(** A key of more than [PRIVATE_KEY_BYTES] panics: the length of the padding
    overflows or is too long for a vector. *)
Definition load_secret (key : ValidatorKey) : Run Secret :=
  privkey ← unwrap (string_to_bytes (privkey key));
  if zlen privkey <=? PRIVATE_KEY_BYTES
  then unwrap (secret_from_bytes (replicate (Z.to_nat (PRIVATE_KEY_BYTES - zlen privkey)) 0 ++ privkey))
  else Panic.

Definition load_keys (coll : list ValidatorKey) : Run Keys :=
  res_fold (λ keys key, sk ← load_secret key; Ok (<[public_of sk := sk]> keys)) ∅ coll.

(** The keys of the command line *)
Definition file_keys (matches : Matches) : Run Keys :=
  match arg_validator_keys matches with
  | Some path =>
      bytes ← unwrap (read_file path);
      coll ← unwrap (yaml_keys bytes);
      load_keys coll
  | None => Ok ∅
  end.
End Keys.

Section Startup.
Context {Secret Multiaddr : Type} `{NE : !NodeEnv Secret Multiaddr}.
Notation Keys := (gmap ValidatorId Secret).
Notation Run := (res Error).
Context `{Cfg : Config} `{AM : ArithMode} `{BLS : BLSConfig} `{TR : TreeRoot} `{MT : MerkleTree}.

(** One turn of [for i in 0..10]: [seckey] is drawn at random. *)
Definition generated_deposit (i : Z) (seckey : Secret) : DepositData :=
  let data := mkDepositData (public_of seckey) (from_low_u64_le i) 32000000000 H768_default in
  let signature := secret_sign (tree_root_signing_deposit_data (signing_deposit_data data))
                     (genesis_domain domain_deposit) seckey in
  mkDepositData (public_of seckey) (from_low_u64_le i) 32000000000 signature.

(** The loop: the deposits and the keys, [draw i] is the [i]-th secret key. *)
Definition insert_key (draw : Z → Secret) (keys : Keys) (i : Z) : Keys := <[public_of (draw i) := draw i]> keys.
Definition generate_deposits (draw : Z → Secret) (keys : Keys) : list DepositData * Keys :=
  foldl (λ '(deposit_datas, keys) i, (deposit_datas ++ [generated_deposit i (draw i)], insert_key draw keys i))
    ([], keys) (zrange 0 10).

(** [genesis_state] of [main_with_config], with the keys *)
Definition startup_state (draw : Z → Secret) (matches : Matches) (preset : option Preset) (keys : Keys) :
  Run (BeaconState * Keys) :=
  match arg_genesis_state matches, preset with
  | Some genesis_file, _ =>
      data ← unwrap (read_file genesis_file);
      state ← unwrap_result (ssz_decode ssz_BeaconState data);
      Ok (state, keys)
  | None, Some preset =>
      state ← unwrap_result (ssz_decode ssz_BeaconState (preset_genesis preset));
      Ok (state, keys)
  | None, None =>
      let '(deposit_datas, keys) := generate_deposits draw keys in
      state ← generated_genesis deposit_datas;
      Ok (state, keys)
  end.

(** [network_config]; [localhost] is the default address. *)
Definition startup_network {Ip Enr : Type} (localhost : Ip) (matches : Matches) (preset : option Preset) :
  Run (NetworkConfig Ip Enr Multiaddr) :=
  port ← unwrap (arg_port matches);
  port ← unwrap (u16_from_str port);
  nodes ← (match arg_libp2p_nodes matches, preset with
           | Some nodes, _ => res_map (λ v, unwrap (multiaddr_of_str v)) (rev (split_comma nodes))
           | None, Some preset => res_map (λ v, unwrap (multiaddr_of_str v)) (bootnodes preset)
           | None, None => Ok []
           end);
  let default : NetworkConfig Ip Enr Multiaddr := network_config_default localhost in
  let d := nc_discovery default in
  Ok (mkNetworkConfig
    (mkDiscoveryConfig (listen_address d) (discovery_address d) port port (max_peers_wanted d) (boot_nodes d))
    nodes (nc_client_version default) (nc_topics default)).

(** The first part of [main_with_config], up to the opening of the store: what
    it hands to [run].  The whole function is [NodeRun.main_with_config]. *)
Definition startup {Ip Enr : Type} (localhost : Ip) (draw : Z → Secret) (matches : Matches)
  (preset : option Preset) : Run (Started Secret Ip Enr Multiaddr) :=
  keys ← file_keys matches;
  '(genesis_state, keys) ← startup_state draw matches preset keys;
  let genesis_block := mkBeaconBlock 0 H256_default (tree_root_state genesis_state) BeaconBlockBody_default H768_default in
  network_config ← startup_network localhost matches preset;
  Ok (mkStarted network_config (arg_author matches) (arg_data matches) genesis_block genesis_state
    (eth1_data genesis_state) keys).
End Startup.

(** The name of the configuration, in [main] *)
Definition config_name (matches : Matches) : string :=
  match arg_config matches with
  | Some name => name
  | None => if bool_decide (arg_chain matches = Some "sapphire") then "sapphire" else "minimal"
  end.

(** * Theorems *)

Section KeyProps.
Context {Secret Multiaddr : Type} `{NE : !NodeEnv Secret Multiaddr}.
Notation Keys := (gmap ValidatorId Secret).

(** A key table has every secret key under its own public key. *)
Definition keys_paired (keys : Keys) : Prop := ∀ pk sk, keys !! pk = Some sk → public_of sk = pk.

Lemma keys_paired_insert sk keys : keys_paired keys → keys_paired (<[public_of sk := sk]> keys).
Proof. intros Hk pk sk' [[<- <-]|[_ Hl]]%lookup_insert_Some; [done|by apply Hk]. Qed.

Lemma load_keys_paired coll keys : load_keys coll = Ok keys → keys_paired keys.
Proof.
  apply (res_fold_inv keys_paired); [|by intros pk sk Hl; rewrite lookup_empty in Hl].
  intros b key b' _ Hb. rewrite bind_Ok. intros (sk & _ & [= <-]). by apply keys_paired_insert.
Qed.

Lemma file_keys_paired matches keys : file_keys matches = Ok keys → keys_paired keys.
Proof.
  unfold file_keys. destruct (arg_validator_keys matches).
  - rewrite bind_Ok. setoid_rewrite bind_Ok. intros (bytes & _ & coll & _ & Hl). by eapply load_keys_paired.
  - intros [= <-] pk sk Hl. by rewrite lookup_empty in Hl.
Qed.
End KeyProps.

Section StartupProps.
Context {Secret Multiaddr : Type} `{NE : !NodeEnv Secret Multiaddr}.
Notation Keys := (gmap ValidatorId Secret).
Context `{Cfg : Config} `{AM : ArithMode} `{BLS : BLSConfig} `{TR : TreeRoot} `{MT : MerkleTree}.

(** The loop that generates the deposits, as a map over its indices. *)
Lemma generate_loop (draw : Z → Secret) (idxs : list Z) (ds : list DepositData) (keys : Keys) :
  foldl (λ '(deposit_datas, keys) i, (deposit_datas ++ [generated_deposit i (draw i)], insert_key draw keys i))
    (ds, keys) idxs =
  (ds ++ ((λ i, generated_deposit i (draw i)) <$> idxs), foldl (insert_key draw) keys idxs).
Proof.
  revert ds keys. induction idxs as [|i idxs IH]; intros ds keys; cbn; [by rewrite app_nil_r|].
  by rewrite IH, <- app_assoc.
Qed.

Lemma generated_keys (draw : Z → Secret) (idxs : list Z) (keys : Keys) :
  keys_paired keys → let keys' := foldl (insert_key draw) keys idxs in
  keys_paired keys' ∧ (∀ i, i ∈ idxs → is_Some (keys' !! public_of (draw i))) ∧
  (∀ pk, is_Some (keys !! pk) → is_Some (keys' !! pk)).
Proof.
  cbn zeta. revert keys. induction idxs as [|i idxs IH]; intros keys Hk; cbn [foldl].
  { split_and!; [done|by intros i ?%elem_of_nil|done]. }
  destruct (IH _ (keys_paired_insert (draw i) keys Hk)) as (H1 & H2 & H3). split_and!; [done| |].
  - intros j [-> |Hj]%elem_of_cons; [|by apply H2]. apply H3. by rewrite lookup_insert_eq.
  - intros pk Hpk. apply H3. destruct (decide (public_of (draw i) = pk)) as [->|]; [by rewrite lookup_insert_eq|].
    by rewrite lookup_insert_ne.
Qed.

Lemma generate_deposits_eq (draw : Z → Secret) (keys : Keys) :
  generate_deposits draw keys =
  ((λ i, generated_deposit i (draw i)) <$> zrange 0 10,
   foldl (insert_key draw) keys (zrange 0 10)).
Proof. unfold generate_deposits. by rewrite generate_loop. Qed.

Lemma generated_deposit_generated i sk :
  (∀ m d, verify (public_of sk) m (secret_sign m d sk) d = true) → generated (generated_deposit i sk).
Proof. intros Hsign. split; [done|]. apply Hsign. Qed.

(** C20: What a node without a genesis state, a preset and a list of nodes starts
    with.  When the port is a number, the key file, if there is one, can be
    loaded, the ten random keys differ and signatures made with a secret key
    verify, the startup computes the arguments of [run] without a panic: the
    genesis state has ten validators, one per key; the node holds, under the
    public key of every one of them, the secret key that belongs to it, so that
    it can author every slot; the keys read from the file are kept and paired
    likewise; and the genesis block commits to the genesis state. *)
Theorem standalone_node_authors `{COk : !ConfigOk Cfg} `{MB : !MerkleBranch} {Ip Enr : Type} (localhost : Ip)
  (draw : Z → Secret) (matches : Matches) (port : string) (port_number : Z) (keys0 : Keys) :
  arg_genesis_state matches = None → arg_libp2p_nodes matches = None →
  arg_port matches = Some port → u16_from_str port = Some port_number →
  file_keys matches = Ok keys0 →
  NoDup ((λ i, public_of (draw i)) <$> zrange 0 10) →
  (∀ sk m d, verify (public_of sk) m (secret_sign m d sk) d = true) →
  ∃ st : Started Secret Ip Enr Multiaddr,
    startup localhost draw matches None = Ok st ∧
    v_pubkey <$> validators (st_state st) = (λ i, public_of (draw i)) <$> zrange 0 10 ∧
    (∀ v, v ∈ validators (st_state st) → ∃ sk, st_keys st !! v_pubkey v = Some sk ∧ public_of sk = v_pubkey v) ∧
    keys_paired (st_keys st) ∧ (∀ pk, is_Some (keys0 !! pk) → is_Some (st_keys st !! pk)) ∧
    blk_state_root (st_block st) = tree_root_state (st_state st).
Proof.
  intros Hg Hn Hp Hport Hf Hnd Hsign. unfold startup, startup_state, startup_network.
  rewrite Hf, Hg, Hn, Hp, res_bind_Ok, generate_deposits_eq. cbn [unwrap mbind res_bind]. rewrite Hport.
  set (ds := (λ i, generated_deposit i (draw i)) <$> zrange 0 10).
  assert (dd_pubkey <$> ds = (λ i, public_of (draw i)) <$> zrange 0 10) as Hpk
    by (unfold ds; by rewrite <- list_fmap_compose).
  destruct (generated_genesis_succeeds ds) as (s & Hs & Hv & _); [done|by rewrite Hpk| |].
  { apply Forall_fmap, Forall_forall. intros i _. by apply generated_deposit_generated. }
  rewrite Hs. cbn [mbind res_bind unwrap]. eexists. split; [reflexivity|]. cbn [st_state st_keys st_block blk_state_root].
  destruct (generated_keys draw (zrange 0 10) keys0 (file_keys_paired _ _ Hf)) as (Hpair & Hall & Hkeep).
  assert (v_pubkey <$> validators s = (λ i, public_of (draw i)) <$> zrange 0 10) as Hpks.
  { rewrite Hv, <- Hpk, <- !list_fmap_compose. apply list_fmap_ext. intros _ d _. cbn.
    unfold genesis_activate. by case_match. }
  split; [exact Hpks|]. split; [|split; [exact Hpair|split; [exact Hkeep|reflexivity]]]. intros v Hin.
  assert (v_pubkey v ∈ (λ i, public_of (draw i)) <$> zrange 0 10) as (i & Heq & Hi)%list_elem_of_fmap
    by (rewrite <- Hpks; by apply list_elem_of_fmap_2).
  destruct (Hall i Hi) as [sk Hsk]. rewrite Heq. exists sk. split; [done|]. by apply Hpair in Hsk.
Qed.
End StartupProps.

(** ** Witness: keys that are numbers *)

Section Witnesses.
#[local] Existing Instances toy_config toy_config_ok toy_mode toy_tree toy_bls branch_merkle branch_merkle_ok.

#[local] Instance toy_env : NodeEnv Z string := {|
  read_file := λ _, None;
  yaml_keys := λ _, None;
  hex_decode := λ _, None;
  secret_from_bytes := λ _, None;
  public_of := λ sk, replicate 48 sk;
  secret_sign := λ _ _ _, H768_default;
  from_low_u64_le := λ i, replicate 32 i;
  multiaddr_of_str := Some;
|}.

Definition toy_matches : Matches := mkMatches (Some "9000") None None true None None None None.

Lemma standalone_node_authors_witness :
  ∃ st : Started Z unit unit string,
    startup tt (λ i, i + 1) toy_matches None = Ok st ∧
    v_pubkey <$> validators (st_state st) = (λ i, replicate 48 (i + 1)) <$> zrange 0 10 ∧
    (∀ v, v ∈ validators (st_state st) → ∃ sk, st_keys st !! v_pubkey v = Some sk ∧ public_of sk = v_pubkey v) ∧
    keys_paired (st_keys st) ∧ (∀ pk, is_Some ((∅ : gmap ValidatorId Z) !! pk) → is_Some (st_keys st !! pk)) ∧
    blk_state_root (st_block st) = tree_root_state (st_state st).
Proof.
  apply (standalone_node_authors (NE:=toy_env) (Enr:=unit) tt (λ i, i + 1) toy_matches "9000" 9000 ∅).
  - reflexivity.
  - reflexivity.
  - reflexivity.
  - vm_compute. reflexivity.
  - reflexivity.
  - apply (bool_decide_unpack _). vm_compute. exact I.
  - reflexivity.
Defined.
End Witnesses.
