(* ===== verification/NodeRun.v ===== *)
(** * Running the node: the end of [blockchain/src/main.rs]

    [main_with_config] opens the store and calls [run], which builds the
    importer, spawns the builder thread of an author and starts the network;
    [start_network_simple_sync] begins by asking the handler for the status of
    the store.  Here these steps put [Startup], [BeaconStore], [Handler] and
    [Swarm] together: a node that starts on an empty database is one of those
    [BeaconStore] is about, and the status it tells its peers, then and after
    any imports and restarts, is that of a block it holds, with a finalized
    block on the same chain. *)
From stdpp Require Import base numbers list gmap fin_maps strings.
From Stdlib Require Import ZArith Lia.
From S2P Require Import Prelude Config Types Utils State Accessors Transition Lifecycle LmdGhost Node Externalities ChainRoots RocksStore GhostStore StoreImporter BeaconStore.
From S2P Require Import Ssz SszTypes Messages Handler DepositTree Discovery Swarm Startup.

#[local] Open Scope Z_scope.

(** [struct SyncConfig] as [start_network_simple_sync] fills it *)
Record SyncConfig := mkSyncConfig {
  peer_update_frequency : Z;
  update_frequency : Z;
  request_timeout : Z;
}.

(** What [start_network_simple_sync] sets up *)
Notation Network Peer Delay Discv5 Gs Net := (HelloMessage * SyncConfig * Service Peer Delay Discv5 Gs Net)%type.

Section Run.
Context `{Cfg : Config} `{AM : ArithMode} `{BLS : BLSConfig} `{TR : TreeRoot} `{MT : MerkleTree} `{F : Fuel}.
Context `{R : RocksApi} {Aux AuxKey : Type}.
Context `{Codec H256} `{Codec (BlockData H256 BeaconBlock BeaconState)} `{Codec Aux} `{Codec AuxKey} `{Codec Z} `{Codec string}.

Notation Ba := (ShasperBackend (RocksBackend (Id:=H256))).
Notation Im := (Importer (Ba:=Ba) (Id:=H256)).

(** The store as the handler asks it *)
Definition node_backend (ba : Ba) : Backend StoreError := {|
  q_head := shasper_head ba;
  q_contains := shasper_contains (Block:=BeaconBlock) (Raw:=BeaconState) ba;
  q_is_canon := shasper_is_canon (Block:=BeaconBlock) (Raw:=BeaconState) ba;
  q_lookup_canon_depth := shasper_lookup_canon_depth ba;
  q_state_at := λ h, s ← shasper_state_at (Block:=BeaconBlock) rocks_from_raw ba h; Ok (ext_state s);
  q_block_at := shasper_block_at (Raw:=BeaconState) ba;
  q_depth_at := shasper_depth_at (Block:=BeaconBlock) (Raw:=BeaconState) ba;
|}.

(** [main_with_config] with a path: the database is opened or created with the
    genesis block and state. *)
Definition start_store {E : Type} (open_db : string → res RocksError DB) (path : string)
  (genesis_block : BeaconBlock) (genesis_state : BeaconState) : res E Ba :=
  backend ← unwrap_result (open_or_create block_id parent_id rocks_into_raw (open_db path)
              (λ _, Ok (genesis_block, rocks_from_beacon genesis_state)));
  Ok (mkShasperBackend backend).

(** What [run] sets up: [ArchiveGhostImporter::new], and for an author the
    arguments of the builder thread *)
Record Running (Secret : Type) := mkRunning {
  rn_importer : Im;
  rn_builder : option (Im * Eth1Data * gmap ValidatorId Secret);
}.
Definition importer_new (backend : Ba) : Im := mkImporter backend ghost_new.
Definition run_threads {Secret : Type} (author : bool) (backend : Ba) (eth1_data : Eth1Data)
  (keys : gmap ValidatorId Secret) : Running Secret :=
  let importer := importer_new backend in
  mkRunning Secret importer (if author then Some (importer, eth1_data, keys) else None).

Definition sync_config : SyncConfig := mkSyncConfig 2 1 4.

(** The start of [start_network_simple_sync]: the status the sync component is
    made with, then the service *)
Definition start_network `{CP : Countable Peer} {Delay Discv5 Key NodeId Enr Ip Multiaddr Gs Net : Type}
  `{DO : !DelayOps Delay} `{VO : !Discv5Ops Discv5 Key NodeId Peer Enr Ip Multiaddr}
  `{GO : !GossipsubOps Gs Peer Key} `{SO : !SwarmOps Net Key Multiaddr}
  (now : Z) (service_key : Key) (config : NetworkConfig Ip Enr Multiaddr) (backend : Ba) :
  res NetworkError (HelloMessage * SyncConfig * Service Peer Delay Discv5 Gs Net) :=
  head_status ← unwrap_result (status (node_backend backend));
  service ← service_new now service_key config;
  Ok (head_status, sync_config, service).

Section Main.
Context `{CP : Countable Peer} {Secret Delay Discv5 Key NodeId Enr Ip Multiaddr Gs Net : Type}.
Context `{DO : !DelayOps Delay} `{VO : !Discv5Ops Discv5 Key NodeId Peer Enr Ip Multiaddr}.
Context `{GO : !GossipsubOps Gs Peer Key} `{SO : !SwarmOps Net Key Multiaddr} `{NE : !NodeEnv Secret Multiaddr}.

(** [run], over a database *)
Definition run (now : Z) (service_key : Key) (config : NetworkConfig Ip Enr Multiaddr) (author : bool) (backend : Ba)
  (eth1_data : Eth1Data) (keys : gmap ValidatorId Secret) :
  res Error (Running Secret * Network Peer Delay Discv5 Gs Net) :=
  let running := run_threads author backend eth1_data keys in
  network ← unwrap_result (start_network now service_key config backend);
  Ok (running, network).

(** [main_with_config]: without a path the node runs on the in-memory store of
    the external crate, [in_memory]. *)
Definition main_with_config {X : Type} (in_memory : Started Secret Ip Enr Multiaddr → res Error X)
  (open_db : string → res RocksError DB) (now : Z) (service_key : Key) (localhost : Ip) (draw : Z → Secret)
  (matches : Matches) (preset : option Preset) :
  res Error (Running Secret * Network Peer Delay Discv5 Gs Net + X) :=
  st ← startup localhost draw matches preset;
  match st_data st with
  | Some path =>
      backend ← start_store open_db path (st_block st) (st_state st);
      inl <$> run now service_key (st_network st) (st_author st) backend (st_eth1_data st) (st_keys st)
  | None => inr <$> in_memory st
  end.
End Main.
End Run.

(** [main]: the preset, then the configuration by its name *)
Section Main.
Context `{AM : ArithMode} `{BLS : BLSConfig} `{TR : TreeRoot} `{MT : MerkleTree}.
Context `{R : RocksApi} `{Codec H256} `{Codec (BlockData H256 BeaconBlock BeaconState)} `{Codec Z} `{Codec string}.
Context `{CP : Countable Peer} {Secret Delay Discv5 Key NodeId Enr Ip Multiaddr Gs Net : Type}.
Context `{DO : !DelayOps Delay} `{VO : !Discv5Ops Discv5 Key NodeId Peer Enr Ip Multiaddr}.
Context `{GO : !GossipsubOps Gs Peer Key} `{SO : !SwarmOps Net Key Multiaddr} `{NE : !NodeEnv Secret Multiaddr}.

Definition main {X : Type} (sha256 : Bytes → H256) (sapphire_genesis : Bytes)
  (in_memory : Started Secret Ip Enr Multiaddr → res Error X) (open_db : string → res RocksError DB) (now : Z)
  (service_key : Key) (localhost : Ip) (draw : Z → Secret) (matches : Matches) :
  res Error (Running Secret * Network Peer Delay Discv5 Gs Net + X) :=
  preset ← (match arg_chain matches with
            | Some name => Some <$> unwrap (presets sapphire_genesis !! name)
            | None => Ok None
            end);
  let run (C : Config) := main_with_config (Cfg:=C) in_memory open_db now service_key localhost draw matches preset in
  if bool_decide (config_name matches = "minimal"%string) then run (MinimalConfig sha256)
  else if bool_decide (config_name matches = "mainnet"%string) then run (MainnetConfig sha256)
  else if bool_decide (config_name matches = "sapphire"%string) then run (SapphireConfig sha256)
  else Panic.
End Main.

(** * Theorems *)

Section RunProps.
Context `{Cfg : Config} `{AM : ArithMode} `{BLS : BLSConfig} `{TR : TreeRoot} `{MT : MerkleTree} `{F : Fuel}.
Context `{R : RocksApi} {Aux AuxKey : Type}.
Context `{Codec H256} `{Codec (BlockData H256 BeaconBlock BeaconState)} `{Codec Aux} `{Codec AuxKey} `{Codec Z} `{Codec string}.
Context `{IA : !ImportAction H256 BeaconBlock RocksState Aux AuxKey}.
Context `{!EqDecision ColumnFamily} `{!RocksOk R}.
Context `{!CodecOk H256} `{!CodecOk (BlockData H256 BeaconBlock BeaconState)} `{!CodecOk Aux} `{!CodecOk AuxKey} `{!CodecOk Z} `{!CodecOk string}.
Context `{!EqDecision AuxKey} `{!Countable AuxKey}.
Context `{AO : !ActionOk (Raw:=BeaconState) block_id parent_id rocks_into_raw}.

Notation Store := (RocksStore.Chain (Id:=H256) (Block:=BeaconBlock) (Raw:=BeaconState) (Aux:=Aux) (AuxKey:=AuxKey)).
Notation Ba := (ShasperBackend (RocksBackend (Id:=H256))).
Notation Im := (Importer (Ba:=Ba) (Id:=H256)).
Notation ghost := (ghost_chain parent_id).

(** C18: The status a node tells its peers is consistent.  After any sequence of
    restarts and of imports, successful, failed or ended by a panic, on a
    generated genesis, where the imported blocks are new to the store or refused
    by the external [ImportAction] and no state root is the zero hash, the
    handler answers a status request without a panic; the head it names is a
    block of the store, with the slot of its state, and the finalized root it
    names is an ancestor of that head, or the zero hash before the first
    finalization. *)
Theorem hello_on_chain (im : Im) :
  node_reached (Aux:=Aux) (AuxKey:=AuxKey) im →
  ∃ (hello : HelloMessage) (ch : Store) (d : BlockData H256 BeaconBlock BeaconState),
    status (node_backend (im_backend im)) = Ok hello ∧ represents (inner_backend (im_backend im)) ch ∧
    hello_head_root hello = shasper_head (im_backend im) ∧
    ch_blocks ch !! hello_head_root hello = Some d ∧ hello_head_slot hello = slot (bd_state d) ∧
    (hello_finalized_root hello = H256_default ∨ descends (ghost ch) (hello_head_root hello) (hello_finalized_root hello)).
Proof.
  intros (ch & [Hst Hh _ _] & Hok)%node_reached_ok. destruct (stored_ok _ _ _ _ _ Hst) as [Hrep _].
  apply known_block in Hh as [d Hd]. assert (shasper_head (im_backend im) = ch_head ch) as Hhead by apply Hrep.
  eexists _, ch, d. split.
  - unfold status. cbn [q_head q_state_at node_backend]. unfold shasper_state_at, RocksStore.state_at.
    rewrite Hhead, (block_data_represents _ ch _ Hrep), Hd. cbn. reflexivity.
  - cbn. destruct (Hok _ d Hd) as [_ _ [_ _ _ Hf]]. by rewrite Hhead.
Qed.

Lemma generated_genesis_deposits (datas : list DepositData) (s : BeaconState) :
  generated_genesis datas = Ok s → ∃ deposits eth1, genesis_beacon_state deposits 0 eth1 = Ok s.
Proof.
  unfold generated_genesis. intros (tree & _ & (deposits & _ & (root & _ & Hs)%bind_Ok)%bind_Ok)%bind_Ok.
  exists deposits. eexists. revert Hs. unfold unwrap_result.
  destruct (genesis_beacon_state deposits 0 _) as [s1| | |] eqn:Hgen; intros Hs; try discriminate Hs.
  injection Hs as ->. exact Hgen.
Qed.

Lemma startup_generated {Secret Multiaddr : Type} `{NE : !NodeEnv Secret Multiaddr} (draw : Z → Secret)
  (matches : Matches) (keys keys' : gmap ValidatorId Secret) (s : BeaconState) :
  arg_genesis_state matches = None → startup_state draw matches None keys = Ok (s, keys') →
  ∃ datas, generated_genesis datas = Ok s.
Proof.
  unfold startup_state. intros ->. destruct (generate_deposits draw keys) as [datas keys2].
  intros (s0 & Hs & Heq)%bind_Ok. injection Heq as -> _. by exists datas.
Qed.

(** A node without a genesis file or a preset starts from a generated genesis. *)
Lemma started_genesis {Secret Multiaddr Ip Enr : Type} `{NE : !NodeEnv Secret Multiaddr} (localhost : Ip) (draw : Z → Secret)
  (matches : Matches) (st : Started Secret Ip Enr Multiaddr) :
  startup localhost draw matches None = Ok st → arg_genesis_state matches = None →
  ∃ deposits eth1, genesis_beacon_state deposits 0 eth1 = Ok (st_state st) ∧ st_block st = genesis_block_of (st_state st).
Proof.
  unfold startup. intros (keys & _ & ([state keys'] & Hs & (config & _ & Hmain)%bind_Ok)%bind_Ok)%bind_Ok Hg.
  injection Hmain as <-. cbn [st_state st_block].
  destruct (startup_generated draw matches keys keys' state Hg Hs) as [datas Hdatas].
  destruct (generated_genesis_deposits datas state Hdatas) as (deposits & eth1 & Hgen).
  exists deposits, eth1. split; [exact Hgen|reflexivity].
Qed.

(** The store of a generated genesis on an empty database *)
Lemma start_store_reached (deposits : list Deposit) eth1 (s : BeaconState) (open_db : string → res RocksError DB)
  (path : string) (db : DB) (ba : Ba) :
  genesis_beacon_state deposits 0 eth1 = Ok s → open_db path = Ok db → has_columns db →
  (∀ c k, c ∈ columns → fetch_raw db c k = Ok None) → tree_root_state s ≠ H256_default →
  start_store (E:=Error) open_db path (genesis_block_of s) s = Ok ba →
  node_reached (Aux:=Aux) (AuxKey:=AuxKey) (importer_new ba) ∧ shasper_head ba = block_id (genesis_block_of s).
Proof.
  intros Hgen Hopen Hcols Hempty Hroot Hstore.
  unfold start_store in Hstore. rewrite Hopen in Hstore. apply bind_Ok in Hstore as (b & Hb & [= <-]).
  assert (new_with_genesis block_id parent_id rocks_into_raw (Ok db) (genesis_block_of s) (rocks_from_beacon s) = Ok b) as Hnew.
  { apply create_empty; [done|]. unfold unwrap_result in Hb. destruct (open_or_create _ _ _ _ _); try done. by injection Hb as ->. }
  split; [exact (node_new db deposits 0 eth1 s b Hcols Hempty Hgen Hroot Hnew)|].
  by pose proof (new_with_genesis_ok (Aux:=Aux) (AuxKey:=AuxKey) _ _ _ _ _ _ _ Hcols Hnew) as (_ & Hhead & _).
Qed.

(** A node with a generated genesis whose [main_with_config] returns, on an
    empty database, is one of those above: the importer [run] builds has the
    genesis block as its head, the builder thread of an author works with the
    same importer, and the status the network starts with names that head. *)
Theorem started_node `{CP : Countable Peer} {Secret Delay Discv5 Key NodeId Enr Ip Multiaddr Gs Net X : Type}
  `{DO : !DelayOps Delay} `{VO : !Discv5Ops Discv5 Key NodeId Peer Enr Ip Multiaddr}
  `{GO : !GossipsubOps Gs Peer Key} `{SO : !SwarmOps Net Key Multiaddr} `{NE : !NodeEnv Secret Multiaddr}
  (in_memory : Started Secret Ip Enr Multiaddr → res Error X) (open_db : string → res RocksError DB) (now : Z)
  (service_key : Key) (localhost : Ip) (draw : Z → Secret) (matches : Matches) (path : string) (db : DB)
  (running : Running Secret) (hello : HelloMessage) (config : SyncConfig) (service : Service Peer Delay Discv5 Gs Net) :
  main_with_config in_memory open_db now service_key localhost draw matches None = Ok (inl (running, (hello, config, service))) →
  arg_genesis_state matches = None → arg_data matches = Some path → open_db path = Ok db → has_columns db →
  (∀ c k, c ∈ columns → fetch_raw db c k = Ok None) →
  (∀ st : Started Secret Ip Enr Multiaddr, startup localhost draw matches None = Ok st → tree_root_state (st_state st) ≠ H256_default) →
  node_reached (Aux:=Aux) (AuxKey:=AuxKey) (rn_importer _ running) ∧
  (∀ im eth1 keys, rn_builder _ running = Some (im, eth1, keys) → im = rn_importer _ running) ∧
  hello_head_root hello = shasper_head (im_backend (rn_importer _ running)).
Proof.
  intros Hmain Hg Hpath Hopen Hcols Hempty Hroot. unfold main_with_config in Hmain.
  apply bind_Ok in Hmain as (st & Hst & Hmain). pose proof Hst as (deposits & eth1 & Hgen & Hblock)%started_genesis; [|done].
  assert (st_data st = Some path) as Hdata.
  { revert Hst. unfold startup. intros Hst. apply bind_Ok in Hst as (keys & _ & ([state keys'] & Hs & (cfg & _ & Hx)%bind_Ok)%bind_Ok). by injection Hx as <-. }
  rewrite Hdata, Hblock in Hmain. apply bind_Ok in Hmain as (ba & Hba & Hmain).
  destruct (start_store_reached deposits eth1 (st_state st) open_db path db ba Hgen Hopen Hcols Hempty (Hroot st Hst) Hba) as [Hreach Hhead].
  destruct (run _ _ _ _ _ _ _) as [[rn nw]| | |] eqn:Hrun; try done. cbn in Hmain. injection Hmain as -> ->.
  unfold run in Hrun. apply bind_Ok in Hrun as (nw & Hnw & Hx). injection Hx as <- ->.
  split; [exact Hreach|]. split; [cbn; intros im e k; destruct (st_author st); by intros [=]|].
  destruct (start_network now service_key (st_network st) ba) as [nw| | |] eqn:Hn; try done. cbn in Hnw. injection Hnw as ->.
  unfold start_network in Hn. apply bind_Ok in Hn as (hs & Hs & (sv & _ & Hx)%bind_Ok). injection Hx as <- _ _.
  destruct (status (node_backend ba)) as [h0| | |] eqn:Hst0; try done. cbn in Hs. injection Hs as ->.
  unfold status in Hst0. apply bind_Ok in Hst0 as (hd & _ & Hx). by injection Hx as <-.
Qed.
End RunProps.

(** ** Witness: the node after its first import *)

Section Witnesses.
#[local] Existing Instances toy_config toy_config_ok toy_mode toy_fuel toy_merkle toy_bls slot_tree
  toy_rocks toy_cf_eq toy_rocks_ok toy_codec_Z toy_codec_string toy_codec_Z_ok toy_codec_string_ok
  codec_H256 codec_H256_ok codec_data codec_data_ok node_action.

Lemma hello_on_chain_witness :
  ∃ hello, status (node_backend (im_backend node_run.2)) = Ok hello ∧ hello_head_root hello = shasper_head (im_backend node_run.2).
Proof.
  destruct (hello_on_chain (R:=toy_rocks) (Aux:=Z) (AuxKey:=Z) (AO:=node_action_ok) node_run.2 node_run_reached)
    as (hello & ch & d & Hs & _ & Hh & _).
  exists hello. exact (conj Hs Hh).
Defined.
End Witnesses.
