(* ===== verification/TestNames.v ===== *)
(** * Test descriptions: [yamltests/src/description.rs]

    A specification test is a directory whose last six path components name its
    network, phase, type (two components), origin and case.  The parsers of the
    components are tables of names; [read_descriptions] walks a directory tree
    and describes every directory that holds only files.  The file system is a
    parameter: a record of the calls the code makes.

    The theorems show that a description and its name determine each other and
    that the walk finds exactly the leaf directories. *)
From stdpp Require Import base numbers list strings sets.
From Stdlib Require Import ZArith Lia Ascii.
From S2P Require Import Prelude.

#[local] Open Scope string_scope.
#[local] Open Scope Z_scope.
#[local] Open Scope list_scope.

(** [enum Error] of [lib.rs]; an I/O error is its message. *)
Inductive TestError : Type := InvalidType | IO (error : string).

(** [s.split("/").collect::<Vec<_>>()] *)
Fixpoint split_slash (s : string) : list string :=
  match s with
  | EmptyString => [""]
  | String a s' =>
      if bool_decide (a = "/"%char) then "" :: split_slash s'
      else match split_slash s' with
           | first :: rest => String a first :: rest
           | [] => [String a ""]
           end
  end.

(** A [match] on a string whose last arm is an error. *)
Fixpoint match_name {A} (table : list (string * A)) (s : string) : res TestError A :=
  match table with
  | [] => Err InvalidType
  | (name, x) :: table' => if bool_decide (s = name) then Ok x else match_name table' s
  end.

(** ** The enumerations and their names *)

Inductive TestPhase : Type := Phase0.
Definition TestPhase_names : list (string * TestPhase) :=
  [("phase0", Phase0)].
#[global] Instance TestPhase_eq_dec : EqDecision TestPhase.
Proof. solve_decision. Defined.

Inductive TestNetwork : Type := General | Mainnet | Minimal.
Definition TestNetwork_names : list (string * TestNetwork) :=
  [("general", General);
   ("mainnet", Mainnet);
   ("minimal", Minimal)].
#[global] Instance TestNetwork_eq_dec : EqDecision TestNetwork.
Proof. solve_decision. Defined.

Inductive BLSType : Type := AggregatePubkeys | AggregateSigs | MsgHashCompressed | MsgHashUncompressed | PrivToPub | SignMsg.
Definition BLSType_names : list (string * BLSType) :=
  [("aggregate_pubkeys", AggregatePubkeys);
   ("aggregate_sigs", AggregateSigs);
   ("msg_hash_compressed", MsgHashCompressed);
   ("msg_hash_uncompressed", MsgHashUncompressed);
   ("priv_to_pub", PrivToPub);
   ("sign_msg", SignMsg)].
#[global] Instance BLSType_eq_dec : EqDecision BLSType.
Proof. solve_decision. Defined.

Inductive SszGenericType : Type := BasicVector | Bitlist | Bitvector | Boolean | Containers | Uints.
Definition SszGenericType_names : list (string * SszGenericType) :=
  [("basic_vector", BasicVector);
   ("bitlist", Bitlist);
   ("bitvector", Bitvector);
   ("boolean", Boolean);
   ("containers", Containers);
   ("uints", Uints)].
#[global] Instance SszGenericType_eq_dec : EqDecision SszGenericType.
Proof. solve_decision. Defined.

Inductive EpochProcessingType : Type := FinalUpdates | JustificationAndFinalization | RegistryUpdates | RewardsAndPenalties | Slashings.
Definition EpochProcessingType_names : list (string * EpochProcessingType) :=
  [("final_updates", FinalUpdates);
   ("justification_and_finalization", JustificationAndFinalization);
   ("registry_updates", RegistryUpdates);
   ("rewards_and_penalties", RewardsAndPenalties);
   ("slashings", Slashings)].
#[global] Instance EpochProcessingType_eq_dec : EqDecision EpochProcessingType.
Proof. solve_decision. Defined.

Inductive GenesisType : Type := Initialization | Validity.
Definition GenesisType_names : list (string * GenesisType) :=
  [("initialization", Initialization);
   ("validity", Validity)].
#[global] Instance GenesisType_eq_dec : EqDecision GenesisType.
Proof. solve_decision. Defined.

Inductive OperationsType : Type := OpAttestation | OpAttesterSlashing | OpBlockHeader | OpDeposit | OpProposerSlashing | OpVoluntaryExit.
Definition OperationsType_names : list (string * OperationsType) :=
  [("attestation", OpAttestation);
   ("attester_slashing", OpAttesterSlashing);
   ("block_header", OpBlockHeader);
   ("deposit", OpDeposit);
   ("proposer_slashing", OpProposerSlashing);
   ("voluntary_exit", OpVoluntaryExit)].
#[global] Instance OperationsType_eq_dec : EqDecision OperationsType.
Proof. solve_decision. Defined.

Inductive SanityType : Type := Blocks | Slots.
Definition SanityType_names : list (string * SanityType) :=
  [("blocks", Blocks);
   ("slots", Slots)].
#[global] Instance SanityType_eq_dec : EqDecision SanityType.
Proof. solve_decision. Defined.

Inductive ShufflingType : Type := ShufflingCore.
Definition ShufflingType_names : list (string * ShufflingType) :=
  [("core", ShufflingCore)].
#[global] Instance ShufflingType_eq_dec : EqDecision ShufflingType.
Proof. solve_decision. Defined.

Inductive SszStaticType : Type := SszAggregateAndProof | SszAttestation | SszAttestationData | SszAttestationDataAndCustodyBit | SszAttesterSlashing | SszBeaconBlock | SszBeaconBlockBody | SszBeaconBlockHeader | SszBeaconState | SszCheckpoint | SszDeposit | SszDepositData | SszEth1Data | SszFork | SszHistoricalBatch | SszIndexedAttestation | SszPendingAttestation | SszProposerSlashing | SszValidator | SszVoluntaryExit.
Definition SszStaticType_names : list (string * SszStaticType) :=
  [("AggregateAndProof", SszAggregateAndProof);
   ("Attestation", SszAttestation);
   ("AttestationData", SszAttestationData);
   ("AttestationDataAndCustodyBit", SszAttestationDataAndCustodyBit);
   ("AttesterSlashing", SszAttesterSlashing);
   ("BeaconBlock", SszBeaconBlock);
   ("BeaconBlockBody", SszBeaconBlockBody);
   ("BeaconBlockHeader", SszBeaconBlockHeader);
   ("BeaconState", SszBeaconState);
   ("Checkpoint", SszCheckpoint);
   ("Deposit", SszDeposit);
   ("DepositData", SszDepositData);
   ("Eth1Data", SszEth1Data);
   ("Fork", SszFork);
   ("HistoricalBatch", SszHistoricalBatch);
   ("IndexedAttestation", SszIndexedAttestation);
   ("PendingAttestation", SszPendingAttestation);
   ("ProposerSlashing", SszProposerSlashing);
   ("Validator", SszValidator);
   ("VoluntaryExit", SszVoluntaryExit)].
#[global] Instance SszStaticType_eq_dec : EqDecision SszStaticType.
Proof. solve_decision. Defined.

(** [trait FromStr] *)
Class FromStr (A : Type) := from_str : string → res TestError A.
#[global] Instance TestPhase_from_str : FromStr TestPhase := match_name TestPhase_names.
#[global] Instance TestNetwork_from_str : FromStr TestNetwork := match_name TestNetwork_names.
#[global] Instance BLSType_from_str : FromStr BLSType := match_name BLSType_names.
#[global] Instance SszGenericType_from_str : FromStr SszGenericType := match_name SszGenericType_names.
#[global] Instance EpochProcessingType_from_str : FromStr EpochProcessingType := match_name EpochProcessingType_names.
#[global] Instance GenesisType_from_str : FromStr GenesisType := match_name GenesisType_names.
#[global] Instance OperationsType_from_str : FromStr OperationsType := match_name OperationsType_names.
#[global] Instance SanityType_from_str : FromStr SanityType := match_name SanityType_names.
#[global] Instance ShufflingType_from_str : FromStr ShufflingType := match_name ShufflingType_names.
#[global] Instance SszStaticType_from_str : FromStr SszStaticType := match_name SszStaticType_names.

(** [enum TestType] *)
Inductive TestType : Type :=
  | TypeBls (typ : BLSType)
  | TypeSszGeneric (typ : SszGenericType)
  | TypeEpochProcessing (typ : EpochProcessingType)
  | TypeGenesis (typ : GenesisType)
  | TypeOperations (typ : OperationsType)
  | TypeSanity (typ : SanityType)
  | TypeShuffling (typ : ShufflingType)
  | TypeSszStatic (typ : SszStaticType).

#[global] Instance TestType_from_str : FromStr TestType := λ s,
  match split_slash s with
  | [s0; s1] =>
      if bool_decide (s0 = "bls") then TypeBls <$> from_str s1
      else if bool_decide (s0 = "ssz_generic") then TypeSszGeneric <$> from_str s1
      else if bool_decide (s0 = "epoch_processing") then TypeEpochProcessing <$> from_str s1
      else if bool_decide (s0 = "genesis") then TypeGenesis <$> from_str s1
      else if bool_decide (s0 = "operations") then TypeOperations <$> from_str s1
      else if bool_decide (s0 = "sanity") then TypeSanity <$> from_str s1
      else if bool_decide (s0 = "shuffling") then TypeShuffling <$> from_str s1
      else if bool_decide (s0 = "ssz_static") then TypeSszStatic <$> from_str s1
      else Err InvalidType
  | _ => Err InvalidType
  end.

(** [struct TestDescription] *)
Record TestDescription := mkTestDescription {
  desc_network : TestNetwork;
  desc_phase : TestPhase;
  desc_typ : TestType;
  desc_origin : string;
  desc_name : string;
  desc_path : option string;
}.

#[global] Instance TestDescription_from_str : FromStr TestDescription := λ s,
  match split_slash s with
  | [s0; s1; s2; s3; s4; s5] =>
      network ← from_str s0;
      phase ← from_str s1;
      typ ← from_str (s2 +:+ "/" +:+ s3);
      Ok (mkTestDescription network phase typ s4 s5 None)
  | _ => Err InvalidType
  end.

(** [test_name] of [lib.rs]: the last six components of a path *)
Definition test_name (path : string) : res TestError string :=
  let ss := split_slash path in
  if (length ss <? 6)%nat then Err InvalidType
  else match drop (length ss - 6) ss with
       | [s0; s1; s2; s3; s4; s5] =>
           Ok (s0 +:+ "/" +:+ s1 +:+ "/" +:+ s2 +:+ "/" +:+ s3 +:+ "/" +:+ s4 +:+ "/" +:+ s5)
       | _ => Panic
       end.

(** ** Walking the tests *)

(** The calls on the file system: an entry of a directory may fail to be read. *)
Record FileSystem := mkFileSystem {
  read_dir : string → res TestError (list (res TestError string));
  is_dir : string → bool;
  canonicalize : string → res TestError string;
}.

Section Walk.
Context (fs : FileSystem).

(** The loop over the entries, with [read_descriptions] for the directories;
    the accumulator is [(is_all_files, ret)]. *)
Definition walk_entry (walk : string → res TestError (list TestDescription))
  (acc : bool * list TestDescription) (entry : res TestError string) : res TestError (bool * list TestDescription) :=
  path ← entry;
  if is_dir fs path then more ← walk path; Ok (false, acc.2 ++ more) else Ok acc.

(** [read_descriptions], with a bound on the depth of the tree *)
Fixpoint read_descriptions (depth : nat) (root : string) : res TestError (list TestDescription) :=
  match depth with
  | O => OutOfFuel
  | S n =>
      entries ← read_dir fs root;
      '(is_all_files, ret) ← res_fold (walk_entry (read_descriptions n)) (true, []) entries;
      if (is_all_files : bool) then
        path ← canonicalize fs root;
        name ← test_name path;
        desc ← from_str name;
        Ok (ret ++ [mkTestDescription (desc_network desc) (desc_phase desc) (desc_typ desc) (desc_origin desc)
                      (desc_name desc) (Some path)])
      else Ok ret
  end.
End Walk.

(** * Theorems *)

(** ** Splitting and joining *)

Fixpoint no_slash (s : string) : bool :=
  match s with EmptyString => true | String a s' => negb (bool_decide (a = "/"%char)) && no_slash s' end.

Fixpoint join_slash (l : list string) : string :=
  match l with
  | [] => ""
  | [s] => s
  | s :: l' => s +:+ "/" +:+ join_slash l'
  end.

Lemma split_slash_cons s : ∃ first rest, split_slash s = first :: rest.
Proof. destruct s as [|a s]; cbn; [eauto|]. case_bool_decide; [eauto|]. destruct (split_slash s); eauto. Qed.

Lemma split_no_slash s t : no_slash s = true →
  split_slash (s +:+ "/" +:+ t) = s :: split_slash t ∧ split_slash s = [s].
Proof.
  induction s as [|a s IH]; cbn; intros Hs; [done|].
  apply andb_true_iff in Hs as [Ha Hs]. destruct (IH Hs) as [IH1 IH2].
  case_bool_decide; [done|].
  rewrite IH2. split; [|done].
  change (split_slash (String a (s +:+ "/" +:+ t)) = String a s :: split_slash t).
  cbn [split_slash]. by rewrite bool_decide_eq_false_2, IH1 by done.
Qed.

Lemma split_join l : l ≠ [] → Forall (λ s, no_slash s = true) l → split_slash (join_slash l) = l.
Proof.
  intros Hl Hf. induction Hf as [|s l Hs Hf IH]; [done|]. destruct l as [|s' l].
  - cbn. by apply (split_no_slash s "").
  - change (join_slash (s :: s' :: l)) with (s +:+ "/" +:+ join_slash (s' :: l)).
    rewrite (proj1 (split_no_slash s _ Hs)), IH by done. done.
Qed.

Lemma join_split s : join_slash (split_slash s) = s ∧ Forall (λ s, no_slash s = true) (split_slash s).
Proof.
  induction s as [|a s [IH1 IH2]]; cbn; [split; [done|by repeat constructor]|].
  destruct (split_slash_cons s) as (first & rest & Hs). rewrite Hs in *.
  case_bool_decide as Ha; [split; [|by constructor]|].
  - subst a. by rewrite <- IH1.
  - inversion IH2 as [|?? Hf Hr]; subst. split.
    + by destruct rest.
    + constructor; [|done]. cbn. by rewrite bool_decide_eq_false_2.
Qed.

(** ** Names *)

(** The first name of a value. *)
Fixpoint name_in {A} `{EqDecision A} (table : list (string * A)) (x : A) : string :=
  match table with
  | [] => ""
  | (name, y) :: table' => if bool_decide (x = y) then name else name_in table' x
  end.

(** Every value has one name and a name one value; a name has no slash. *)
Record good_names {A} (table : list (string * A)) : Prop := {
  good_fst : NoDup table.*1;
  good_snd : NoDup table.*2;
  good_all : ∀ x, x ∈ table.*2;
  good_slash : forallb (λ e, no_slash e.1) table = true;
}.

Lemma match_name_Ok {A} (table : list (string * A)) s x : NoDup table.*1 → match_name table s = Ok x ↔ (s, x) ∈ table.
Proof.
  induction table as [|[n y] table IH]; cbn.
  { intros _. split; [done|]. by intros ?%not_elem_of_nil. }
  intros [Hn Hnd]%NoDup_cons. rewrite elem_of_cons. case_bool_decide as Hs.
  - subst n. split; [intros [= ->]; by left|]. intros [[= ->]|Hin]; [done|].
    exfalso. apply Hn. by apply (list_elem_of_fmap_2 fst _ (s, x)).
  - rewrite IH by done. naive_solver.
Qed.

Lemma name_in_elem {A} `{EqDecision A} (table : list (string * A)) n x :
  NoDup table.*2 → (n, x) ∈ table ↔ x ∈ table.*2 ∧ n = name_in table x.
Proof.
  induction table as [|[m y] table IH]; cbn.
  { intros _. rewrite !elem_of_nil. naive_solver. }
  intros [Hy Hnd]%NoDup_cons. rewrite !elem_of_cons. case_bool_decide as Hx.
  - subst y. split; [intros [[= ->]|Hin]; [auto|]|intros [_ ->]; by left].
    exfalso. apply Hy. by apply (list_elem_of_fmap_2 snd _ (n, x)).
  - rewrite IH by done. naive_solver.
Qed.

Lemma match_name_in {A} `{EqDecision A} (table : list (string * A)) s x :
  good_names table → match_name table s = Ok x ↔ s = name_in table x.
Proof.
  intros [H1 H2 H3 _]. rewrite match_name_Ok, name_in_elem by done. split; [by intros [_ ?]|]. split; [apply H3|done].
Qed.

Lemma name_in_slash {A} `{EqDecision A} (table : list (string * A)) x : good_names table → no_slash (name_in table x) = true.
Proof.
  intros [H1 H2 H3 H4]. rewrite forallb_forall in H4.
  assert ((name_in table x, x) ∈ table) as Hin by (by apply name_in_elem).
  apply (H4 (name_in table x, x)). by apply list_elem_of_In.
Qed.

(** The tables are decided by evaluation. *)
Ltac solve_names :=
  split; [apply (bool_decide_unpack _); vm_compute; exact I|apply (bool_decide_unpack _); vm_compute; exact I
         |intros []; apply (bool_decide_unpack _); vm_compute; exact I|reflexivity].

Lemma TestPhase_good : good_names TestPhase_names.
Proof. solve_names. Qed.
Lemma TestNetwork_good : good_names TestNetwork_names.
Proof. solve_names. Qed.
Lemma BLSType_good : good_names BLSType_names.
Proof. solve_names. Qed.
Lemma SszGenericType_good : good_names SszGenericType_names.
Proof. solve_names. Qed.
Lemma EpochProcessingType_good : good_names EpochProcessingType_names.
Proof. solve_names. Qed.
Lemma GenesisType_good : good_names GenesisType_names.
Proof. solve_names. Qed.
Lemma OperationsType_good : good_names OperationsType_names.
Proof. solve_names. Qed.
Lemma SanityType_good : good_names SanityType_names.
Proof. solve_names. Qed.
Lemma ShufflingType_good : good_names ShufflingType_names.
Proof. solve_names. Qed.
Lemma SszStaticType_good : good_names SszStaticType_names.
Proof. solve_names. Qed.

#[local] Hint Resolve TestPhase_good TestNetwork_good BLSType_good SszGenericType_good EpochProcessingType_good
  GenesisType_good OperationsType_good SanityType_good ShufflingType_good SszStaticType_good name_in_slash : shasper.

(** The two components of the name of a type, and the name of a description *)
Definition type_names (typ : TestType) : string * string :=
  match typ with
  | TypeBls t => ("bls", name_in BLSType_names t)
  | TypeSszGeneric t => ("ssz_generic", name_in SszGenericType_names t)
  | TypeEpochProcessing t => ("epoch_processing", name_in EpochProcessingType_names t)
  | TypeGenesis t => ("genesis", name_in GenesisType_names t)
  | TypeOperations t => ("operations", name_in OperationsType_names t)
  | TypeSanity t => ("sanity", name_in SanityType_names t)
  | TypeShuffling t => ("shuffling", name_in ShufflingType_names t)
  | TypeSszStatic t => ("ssz_static", name_in SszStaticType_names t)
  end.

Definition description_parts (d : TestDescription) : list string :=
  [name_in TestNetwork_names (desc_network d); name_in TestPhase_names (desc_phase d);
   (type_names (desc_typ d)).1; (type_names (desc_typ d)).2; desc_origin d; desc_name d].

Lemma type_names_slash typ : no_slash (type_names typ).1 = true ∧ no_slash (type_names typ).2 = true.
Proof. destruct typ; cbn [type_names fst snd]; auto with shasper. Qed.

Lemma fmap_res_Ok {E A B} (f : A → B) (m : res E A) y : f <$> m = Ok y ↔ ∃ x, m = Ok x ∧ y = f x.
Proof. destruct m; cbn; naive_solver. Qed.

Lemma TestType_from_str_Ok s typ :
  from_str s = Ok typ ↔ s = (type_names typ).1 +:+ "/" +:+ (type_names typ).2.
Proof.
  unfold from_str, TestType_from_str. split.
  - destruct (join_split s) as [Hj _]. destruct (split_slash s) as [|s0 [|s1 [|]]]; try done.
    cbn [join_slash] in Hj. subst s. intros H.
    repeat case_bool_decide; subst; try discriminate H; apply fmap_res_Ok in H as (x & Hx & ->);
      apply match_name_in in Hx; auto with shasper; subst; done.
  - intros ->. destruct (type_names_slash typ) as [H1 H2].
    rewrite (proj1 (split_no_slash _ _ H1)), (proj2 (split_no_slash _ "" H2)).
    destruct typ; apply fmap_res_Ok; eexists; (split; [|reflexivity]); apply match_name_in; auto with shasper.
Qed.

Lemma description_from_str_Ok s d :
  from_str s = Ok d ↔ s = join_slash (description_parts d) ∧ Forall (λ s, no_slash s = true) (description_parts d) ∧
    desc_path d = None.
Proof.
  unfold from_str, TestDescription_from_str. split.
  - destruct (join_split s) as [Hj Hf].
    destruct (split_slash s) as [|s0 [|s1 [|s2 [|s3 [|s4 [|s5 [|]]]]]]]; try done. intros H.
    apply bind_Ok in H as (network & Hn & H). apply bind_Ok in H as (phase & Hp & H).
    apply bind_Ok in H as (typ & Ht & H). injection H as <-.
    apply match_name_in in Hn, Hp; auto with shasper. apply TestType_from_str_Ok in Ht.
    rewrite !Forall_cons in Hf. destruct Hf as (_ & _ & H2 & H3 & H4 & H5 & _).
    destruct (type_names_slash typ) as [Ht1 Ht2].
    apply (f_equal split_slash) in Ht. rewrite (proj1 (split_no_slash _ _ H2)), (proj1 (split_no_slash _ _ Ht1)),
      (proj2 (split_no_slash _ "" H3)), (proj2 (split_no_slash _ "" Ht2)) in Ht. injection Ht as -> ->.
    unfold description_parts. cbn [desc_network desc_phase desc_typ desc_origin desc_name desc_path]. subst s0 s1.
    split; [done|]. split; [|done]. repeat constructor; auto with shasper.
  - intros (-> & Hf & Hp). rewrite split_join by done. unfold description_parts.
    rewrite (proj2 (match_name_in TestNetwork_names _ _ TestNetwork_good) eq_refl : from_str _ = _).
    cbn [mbind res_bind].
    rewrite (proj2 (match_name_in TestPhase_names _ _ TestPhase_good) eq_refl : from_str _ = _).
    cbn [mbind res_bind]. rewrite (proj2 (TestType_from_str_Ok _ (desc_typ d)) eq_refl). cbn [mbind res_bind].
    destruct d. cbn in *. by subst.
Qed.

Lemma split_app p s : split_slash (p +:+ "/" +:+ s) = split_slash p ++ split_slash s.
Proof.
  induction p as [|a p IH]; [done|].
  change (split_slash (String a (p +:+ "/" +:+ s)) = split_slash (String a p) ++ split_slash s).
  cbn [split_slash]. case_bool_decide; rewrite IH; [done|].
  by destruct (split_slash_cons p) as (first & rest & ->).
Qed.

(** A test and its directory determine each other.  A string parses as a
    description exactly if it is the name of that description, the names of its
    network, phase, type, origin and case joined by slashes; and the name of a
    test found below any directory is that of the test, so it parses to its
    description. *)
Theorem description_roundtrip d (prefix : string)
  (Hparts : Forall (λ s, no_slash s = true) (description_parts d)) (Hpath : desc_path d = None) :
  from_str (join_slash (description_parts d)) = Ok d ∧
  (∀ s d', from_str s = Ok d' → s = join_slash (description_parts d') ∧
    (s = join_slash (description_parts d) → d' = d)) ∧
  (name ← test_name (prefix +:+ "/" +:+ join_slash (description_parts d)); from_str name) = Ok d.
Proof.
  assert (from_str (join_slash (description_parts d)) = Ok d) as Hd by (by apply description_from_str_Ok).
  split; [done|]. split.
  - intros s d' Hs. split; [by apply description_from_str_Ok in Hs as [? _]|]. intros ->. congruence.
  - unfold test_name. rewrite split_app, split_join by done. rewrite length_app. change (length (description_parts d)) with 6%nat.
    rewrite (proj2 (Nat.ltb_ge _ _)) by lia.
    rewrite drop_app_length' by lia. exact Hd.
Qed.

(** ** The walk *)

Section WalkTheorems.
Context (fs : FileSystem).

(** The directories below [root] that hold no directory. *)
Inductive leaf_dir : string → string → Prop :=
  | leaf_here root entries :
      read_dir fs root = Ok entries → (∀ path, Ok path ∈ entries → is_dir fs path = false) → leaf_dir root root
  | leaf_below root entries path p :
      read_dir fs root = Ok entries → Ok path ∈ entries → is_dir fs path = true → leaf_dir path p → leaf_dir root p.

(** [d] is the description of the directory [p]. *)
Definition described (p : string) (d : TestDescription) : Prop :=
  ∃ cp d0, canonicalize fs p = Ok cp ∧ (name ← test_name cp; from_str name) = Ok d0 ∧
    d = mkTestDescription (desc_network d0) (desc_phase d0) (desc_typ d0) (desc_origin d0) (desc_name d0) (Some cp).

Lemma walk_entries walk entries b ret b' ret' :
  res_fold (walk_entry fs walk) (b, ret) entries = Ok (b', ret') →
  (b' = true ↔ b = true ∧ ∀ path, Ok path ∈ entries → is_dir fs path = false) ∧
  (∀ path, Ok path ∈ entries → is_dir fs path = true → ∃ m, walk path = Ok m) ∧
  (∀ d, d ∈ ret' ↔ d ∈ ret ∨ ∃ path m, Ok path ∈ entries ∧ is_dir fs path = true ∧ walk path = Ok m ∧ d ∈ m).
Proof.
  revert b ret. induction entries as [|e entries IH]; intros b ret; cbn [res_fold].
  { intros [= <- <-]. setoid_rewrite elem_of_nil. naive_solver. }
  setoid_rewrite elem_of_cons. destruct e as [path| | |]; try done.
  change (walk_entry fs walk (b, ret) (Ok path)) with
    (if is_dir fs path then more ← walk path; Ok (false, ret ++ more) else Ok (b, ret) : res TestError _).
  destruct (is_dir fs path) eqn:Hdir.
  - destruct (walk path) as [m| | |] eqn:Hm; try done. cbn [mbind res_bind snd].
    cbn [mbind res_bind]. intros (H1 & H2 & H3)%IH. split_and!.
    + rewrite H1. split; [by intros [? _]|]. intros [_ Hall]. specialize (Hall path (or_introl eq_refl)). congruence.
    + intros q [[= ->]|Hq] Hqd; eauto.
    + intros d. rewrite H3, elem_of_app. split.
      * intros [[?|?]|(q & mq & ? & ?)]; [by left|right; exists path, m; auto|right; exists q, mq; naive_solver].
      * intros [?|(q & mq & [[= ->]|Hq] & Hqd & Hw & Hd)]; [by left; left| |right; by exists q, mq].
        left. right. congruence.
  - cbn [mbind res_bind]. intros (H1 & H2 & H3)%IH. split_and!.
    + rewrite H1. split; intros [Hb Hp]; (split; [done|]); intros q.
      * intros [[= ->]|Hq]; auto.
      * intros Hq. apply Hp. by right.
    + intros q [[= ->]|Hq] Hqd; [congruence|by apply H2].
    + intros d. rewrite H3. split.
      * intros [?|(q & mq & ? & ?)]; [by left|]. right. exists q, mq. split; [by right|done].
      * intros [?|(q & mq & [[= ->]|Hq] & Hqd & ?)]; [by left|congruence|]. right. by exists q, mq.
Qed.

(** The walk finds every test and nothing else.  When it succeeds, the
    descriptions it returns are exactly those of the directories below the root
    that hold no directory, each with its canonical path. *)
Theorem read_descriptions_correct depth root l (Hrun : read_descriptions fs depth root = Ok l) d :
  d ∈ l ↔ ∃ p, leaf_dir root p ∧ described p d.
Proof.
  revert root l d Hrun. induction depth as [|depth IH]; intros root l d; [done|]. cbn [read_descriptions].
  intros H. apply bind_Ok in H as (entries & Hdir & H). apply bind_Ok in H as ([all ret] & Hfold & H).
  apply walk_entries in Hfold as (Hall & Hok & Hret).
  assert (∀ d, d ∈ ret ↔ ∃ path p, Ok path ∈ entries ∧ is_dir fs path = true ∧ leaf_dir path p ∧ described p d) as Hbelow.
  { intros d'. rewrite Hret, elem_of_nil. split.
    - intros [?|(path & m & Hp & Hd & Hw & Hm)]; [done|]. apply (IH _ _ d' Hw) in Hm as (p & ? & ?). by exists path, p.
    - intros (path & p & Hp & Hd & Hl & Hdesc). right. destruct (Hok path Hp Hd) as [m Hm].
      exists path, m. split_and!; try done. apply (IH _ _ d' Hm). eauto. }
  destruct all; [destruct (proj1 Hall eq_refl) as [_ Hnone]|].
  - apply bind_Ok in H as (cp & Hcp & H). apply bind_Ok in H as (name & Hname & H).
    apply bind_Ok in H as (d0 & Hd0 & H). injection H as <-. rewrite elem_of_app, list_elem_of_singleton, Hbelow. split.
    + intros [(path & p & Hp & Hd & _)| -> ]; [rewrite Hnone in Hd by done; done|].
      exists root. split; [by eapply leaf_here|]. exists cp, d0. split_and!; try done. by rewrite Hname.
    + intros (p & Hl & cp' & d0' & Hcp' & Hd0' & ->). right. inversion Hl; subst.
      * rewrite Hcp in Hcp'. injection Hcp' as <-. rewrite Hname in Hd0'. cbn in Hd0'. congruence.
      * rewrite Hdir in *. simplify_eq. rewrite Hnone in *; done.
  - injection H as <-. rewrite Hbelow. split.
    + intros (path & p & Hp & Hd & Hl & Hdesc). exists p. split; [by eapply leaf_below|done].
    + intros (p & Hl & Hdesc). inversion Hl; subst.
      * rewrite Hdir in *. simplify_eq. assert (false = true); [|done]. by apply Hall.
      * rewrite Hdir in *. simplify_eq. naive_solver.
Qed.
End WalkTheorems.

(** ** Witnesses *)

Definition toy_description : TestDescription :=
  mkTestDescription Minimal Phase0 (TypeSanity Slots) "pyspec_tests" "slots_1" None.

Lemma description_roundtrip_witness :
  join_slash (description_parts toy_description) = "minimal/phase0/sanity/slots/pyspec_tests/slots_1" ∧
  from_str "minimal/phase0/sanity/slots/pyspec_tests/slots_1" = Ok toy_description ∧
  (name ← test_name "/home/tests/minimal/phase0/sanity/slots/pyspec_tests/slots_1"; from_str name) = Ok toy_description.
Proof.
  split; [vm_compute; reflexivity|].
  destruct (description_roundtrip toy_description "/home/tests") as (H1 & _ & H3);
    [repeat constructor|reflexivity|].
  split; [exact H1|exact H3].
Defined.

(** A root with two cases, one of which holds a file. *)
Definition toy_tests : FileSystem := {|
  read_dir path :=
    if bool_decide (path = "/t/minimal/phase0/sanity/slots/pyspec_tests") then
      Ok [Ok "/t/minimal/phase0/sanity/slots/pyspec_tests/slots_1"; Ok "/t/minimal/phase0/sanity/slots/pyspec_tests/slots_2"]
    else Ok [Ok "/t/pre.yaml"];
  is_dir path := negb (bool_decide (path = "/t/pre.yaml"));
  canonicalize := Ok;
|}.

Lemma read_descriptions_correct_witness :
  ∃ l, read_descriptions toy_tests 2 "/t/minimal/phase0/sanity/slots/pyspec_tests" = Ok l ∧ length l = 2%nat ∧
    ∃ d p, d ∈ l ∧ leaf_dir toy_tests "/t/minimal/phase0/sanity/slots/pyspec_tests" p ∧ described toy_tests p d.
Proof.
  eexists. split; [vm_compute; reflexivity|]. split; [reflexivity|].
  edestruct (read_descriptions_correct toy_tests 2 "/t/minimal/phase0/sanity/slots/pyspec_tests") as [H _];
    [vm_compute; reflexivity|].
  eexists. destruct H as (p & H1 & H2); [left|]. exists p. split; [left|]. split; [exact H1|exact H2].
Defined.
