(* ===== verification/TestRunners.v ===== *)
(** * Running the specification tests: [yamltests/src/lib.rs], [operations.rs],
    [sanity.rs], [epoch_processing.rs], [ssz_static.rs] and [main.rs]

    A test reads a state before and, if the operation should be accepted, one
    after from the files of its directory, runs one part of the state transition
    and compares.  A test that fails panics, so a run that ends in [Ok] has
    passed.

    The files are a function from paths to their contents, the YAML parser and
    the tree codec of the external crates are parameters, one per type.  What is
    printed is left out.

    The theorems show what a passed test says about the state transition. *)
From stdpp Require Import base numbers list strings pretty.
From Stdlib Require Import ZArith Lia.
From S2P Require Import Prelude Config Types Utils State Accessors Mutators Epoch Block Transition Bls Ssz SszTypes TestNames.

#[local] Open Scope Z_scope.
#[local] Open Scope list_scope.

(** The contents of the files *)
Class Files := file : string → option Bytes.

(** [serde_yaml::from_reader] at one type *)
Class Deserialize (T : Type) := yaml_parse : Bytes → option T.

(** [IntoTree] and [FromTree] at one type, with the in-memory database *)
Class TreeCodec (Db T : Type) := {
  into_tree : T → option (H256 * Db);
  from_tree : H256 → Db → option T;
}.

(** A test: it passes or panics. *)
Notation Test := (res Empty_set).

Definition assert (cond : bool) : Test unit := if cond then Ok tt else Panic.

(** [path.push(name)] *)
Definition push_path (path name : string) : string := path +:+ "/" +:+ name.

Section Reading.
Context `{FS : Files}.

(** [read_raw_unwrap] and [read_value_unwrap] *)
Definition read_raw_unwrap (path : string) : Test Bytes := unwrap (file path).
Definition read_value_unwrap {T} `{Deserialize T} (path : string) : Test T :=
  bytes ← unwrap (file path);
  unwrap (yaml_parse bytes).

(** [test_name(path).unwrap()] *)
Definition test_name_unwrap (path : string) : Test string := unwrap_result (test_name path).

Context `{AM : ArithMode} `{Cfg : Config} `{YS : !Deserialize BeaconState}.

(** [read_pre_post_unwrap] *)
Definition read_pre_post_unwrap (path : string) : Test (BeaconState * option BeaconState) :=
  pre ← read_value_unwrap (push_path path "pre.yaml");
  pre_ssz ← read_raw_unwrap (push_path path "pre.ssz");
  assert (bytes_eqb (ssz_encode ssz_BeaconState pre) pre_ssz) ;;
  post ← (match file (push_path path "post.yaml") with
          | Some _ => Some <$> read_value_unwrap (push_path path "post.yaml")
          | None => Ok None
          end);
  (match post with
   | Some post =>
       post_ssz ← read_raw_unwrap (push_path path "post.ssz");
       assert (bytes_eqb (ssz_encode ssz_BeaconState post) post_ssz)
   | None => Ok tt
   end) ;;
  Ok (pre, post).
End Reading.

(** [test_state_with] *)
Definition test_state_with (pre : BeaconState) (post : option BeaconState) (f : Exec unit) : Test unit :=
  match f pre with
  | (Ok _, state) => post ← unwrap post; assert (bool_decide (state = post))
  | (Err _, _) => assert (bool_decide (post = None))
  | (Panic, _) => Panic
  | (OutOfFuel, _) => OutOfFuel
  end.

(** ** The four kinds of tests *)

Section Runners.
Context `{FS : Files} `{AM : ArithMode} `{Cfg : Config} `{BC : BlsCrate} `{TR : TreeRoot} `{MT : MerkleTree} `{F : Fuel}.
Context `{YS : !Deserialize BeaconState}.
#[local] Existing Instance BLSVerification.

(** [test_epoch_processing] and the stage of each type *)
Definition epoch_stage (typ : EpochProcessingType) : Exec unit :=
  match typ with
  | FinalUpdates => process_final_updates
  | JustificationAndFinalization => process_justification_and_finalization
  | RegistryUpdates => process_registry_updates
  | RewardsAndPenalties => process_rewards_and_penalties
  | TestNames.Slashings => process_slashings
  end.

Definition test_epoch_processing (path : string) (f : Exec unit) : Test unit :=
  '(pre, post) ← read_pre_post_unwrap path;
  test_name_unwrap path ;;
  test_state_with pre post f.

(** [test_operation] *)
Definition test_operation {T} `{Deserialize T} (codec : SszType T) (path operation_id : string)
  (f : T → Exec unit) : Test unit :=
  '(pre, post) ← read_pre_post_unwrap path;
  value ← read_value_unwrap (push_path path (operation_id +:+ ".yaml"));
  value_ssz ← read_raw_unwrap (push_path path (operation_id +:+ ".ssz"));
  assert (bytes_eqb (ssz_encode codec value) value_ssz) ;;
  test_name_unwrap path ;;
  test_state_with pre post (f value).

Context `{!Deserialize Attestation} `{!Deserialize AttesterSlashing} `{!Deserialize BeaconBlock}
  `{!Deserialize Deposit} `{!Deserialize ProposerSlashing} `{!Deserialize VoluntaryExit}.

Definition test_operations (typ : OperationsType) (path : string) : Test unit :=
  match typ with
  | OpAttestation => test_operation ssz_Attestation path "attestation" process_attestation
  | OpAttesterSlashing => test_operation ssz_AttesterSlashing path "attester_slashing" process_attester_slashing
  | OpBlockHeader => test_operation ssz_BeaconBlock path "block" process_block_header
  | OpDeposit => test_operation ssz_Deposit path "deposit" process_deposit
  | OpProposerSlashing => test_operation ssz_ProposerSlashing path "proposer_slashing" process_proposer_slashing
  | OpVoluntaryExit => test_operation ssz_VoluntaryExit path "voluntary_exit" process_voluntary_exit
  end.

(** [test_blocks]: [Meta] is its count of blocks. *)
Record Meta := mkMeta { blocks_count : Z }.
Context `{!Deserialize Meta} `{!Deserialize Z}.

Definition read_block (path : string) (i : Z) : Test BeaconBlock :=
  block ← read_value_unwrap (push_path path ("blocks_" +:+ pretty i +:+ ".yaml"));
  block_ssz ← read_raw_unwrap (push_path path ("blocks_" +:+ pretty i +:+ ".ssz"));
  assert (bytes_eqb (ssz_encode ssz_BeaconBlock block) block_ssz) ;;
  Ok block.

Definition run_blocks (blocks : list BeaconBlock) : Exec unit := for_each blocks state_transition.

Definition test_blocks (path : string) (pre : BeaconState) (post : option BeaconState) : Test unit :=
  meta ← read_value_unwrap (push_path path "meta.yaml");
  blocks ← res_map (read_block path) (zrange 0 (blocks_count meta));
  test_name_unwrap path ;;
  test_state_with pre post (run_blocks blocks).

(** [test_slots] *)
Definition run_slots (slots : Z) : Exec unit :=
  s ← get;
  target_slot ← lift (u64_add (slot s) slots);
  process_slots target_slot.

Definition test_slots (path : string) (pre : BeaconState) (post : option BeaconState) : Test unit :=
  slots ← read_value_unwrap (push_path path "slots.yaml");
  test_name_unwrap path ;;
  test_state_with pre post (run_slots slots).

Definition test_sanity (typ : SanityType) (path : string) : Test unit :=
  '(pre, post) ← read_pre_post_unwrap path;
  match typ with
  | Blocks => test_blocks path pre post
  | Slots => test_slots path pre post
  end.

(** [test_ssz] *)
Record Roots := mkRoots { root : H256; signing_root : option H256 }.
Context `{!Deserialize Roots} {Db : Type}.

Definition test_ssz {T} `{EqDecision T} `{Deserialize T} `{TreeCodec Db T} (codec : SszType T) (path : string) : Test unit :=
  test_name_unwrap path ;;
  roots ← read_value_unwrap (push_path path "roots.yaml");
  serialized ← read_raw_unwrap (push_path path "serialized.ssz");
  value ← read_value_unwrap (push_path path "value.yaml");
  let encoded := ssz_encode codec value in
  assert (bytes_eqb encoded serialized) ;;
  decoded ← unwrap_result (ssz_decode codec encoded);
  assert (bool_decide (decoded = value)) ;;
  '(encoded_root, db) ← unwrap (into_tree value);
  assert (bytes_eqb encoded_root (root roots)) ;;
  decoded_root ← unwrap (from_tree encoded_root db);
  assert (bool_decide (decoded_root = value)).
End Runners.

(** ** Running a described test *)

(** The parser and the tree codec at every type of the tests *)
Class TestTypes (Db : Type) := {
  yaml_Attestation :: Deserialize Attestation;
  tree_Attestation :: TreeCodec Db Attestation;
  yaml_AttestationData :: Deserialize AttestationData;
  tree_AttestationData :: TreeCodec Db AttestationData;
  yaml_AttestationDataAndCustodyBit :: Deserialize AttestationDataAndCustodyBit;
  tree_AttestationDataAndCustodyBit :: TreeCodec Db AttestationDataAndCustodyBit;
  yaml_AttesterSlashing :: Deserialize AttesterSlashing;
  tree_AttesterSlashing :: TreeCodec Db AttesterSlashing;
  yaml_BeaconBlock :: Deserialize BeaconBlock;
  tree_BeaconBlock :: TreeCodec Db BeaconBlock;
  yaml_BeaconBlockBody :: Deserialize BeaconBlockBody;
  tree_BeaconBlockBody :: TreeCodec Db BeaconBlockBody;
  yaml_BeaconBlockHeader :: Deserialize BeaconBlockHeader;
  tree_BeaconBlockHeader :: TreeCodec Db BeaconBlockHeader;
  yaml_BeaconState :: Deserialize BeaconState;
  tree_BeaconState :: TreeCodec Db BeaconState;
  yaml_Checkpoint :: Deserialize Checkpoint;
  tree_Checkpoint :: TreeCodec Db Checkpoint;
  yaml_Deposit :: Deserialize Deposit;
  tree_Deposit :: TreeCodec Db Deposit;
  yaml_DepositData :: Deserialize DepositData;
  tree_DepositData :: TreeCodec Db DepositData;
  yaml_Eth1Data :: Deserialize Eth1Data;
  tree_Eth1Data :: TreeCodec Db Eth1Data;
  yaml_Fork :: Deserialize Fork;
  tree_Fork :: TreeCodec Db Fork;
  yaml_HistoricalBatch :: Deserialize HistoricalBatch;
  tree_HistoricalBatch :: TreeCodec Db HistoricalBatch;
  yaml_IndexedAttestation :: Deserialize IndexedAttestation;
  tree_IndexedAttestation :: TreeCodec Db IndexedAttestation;
  yaml_PendingAttestation :: Deserialize PendingAttestation;
  tree_PendingAttestation :: TreeCodec Db PendingAttestation;
  yaml_ProposerSlashing :: Deserialize ProposerSlashing;
  tree_ProposerSlashing :: TreeCodec Db ProposerSlashing;
  yaml_Validator :: Deserialize Validator;
  tree_Validator :: TreeCodec Db Validator;
  yaml_VoluntaryExit :: Deserialize VoluntaryExit;
  tree_VoluntaryExit :: TreeCodec Db VoluntaryExit;
  yaml_Meta :: Deserialize Meta;
  yaml_Roots :: Deserialize Roots;
  yaml_u64 :: Deserialize Z;
}.

Section Tests.
Context `{FS : Files} `{AM : ArithMode} `{BC : BlsCrate} `{TR : TreeRoot} `{MT : MerkleTree} `{F : Fuel}.
Context {Db : Type} `{TT : !TestTypes Db} (sha256 : Bytes → H256).

Definition test_ssz_static `{Cfg : Config} (typ : SszStaticType) (path : string) : Test unit :=
  match typ with
  | SszAggregateAndProof => test_name_unwrap path ;; Ok tt
  | SszAttestation => test_ssz ssz_Attestation path
  | SszAttestationData => test_ssz ssz_AttestationData path
  | SszAttestationDataAndCustodyBit => test_ssz ssz_AttestationDataAndCustodyBit path
  | SszAttesterSlashing => test_ssz ssz_AttesterSlashing path
  | SszBeaconBlock => test_ssz ssz_BeaconBlock path
  | SszBeaconBlockBody => test_ssz ssz_BeaconBlockBody path
  | SszBeaconBlockHeader => test_ssz ssz_BeaconBlockHeader path
  | SszBeaconState => test_ssz ssz_BeaconState path
  | SszCheckpoint => test_ssz ssz_Checkpoint path
  | SszDeposit => test_ssz ssz_Deposit path
  | SszDepositData => test_ssz ssz_DepositData path
  | SszEth1Data => test_ssz ssz_Eth1Data path
  | SszFork => test_ssz ssz_Fork path
  | SszHistoricalBatch => test_ssz ssz_HistoricalBatch path
  | SszIndexedAttestation => test_ssz ssz_IndexedAttestation path
  | SszPendingAttestation => test_ssz ssz_PendingAttestation path
  | SszProposerSlashing => test_ssz ssz_ProposerSlashing path
  | SszValidator => test_ssz ssz_Validator path
  | SszVoluntaryExit => test_ssz ssz_VoluntaryExit path
  end.

(** The [test] of a kind: the configuration by the network, the phase and the
    path; [unimplemented!] panics. *)
Definition test_with_network (run : ∀ C : Config, string → Test unit) (desc : TestDescription) : Test unit :=
  match desc_network desc with
  | General => Panic
  | network =>
      assert (bool_decide (desc_phase desc = Phase0)) ;;
      path ← unwrap (desc_path desc);
      run (match network with Mainnet => MainnetConfig sha256 | _ => MinimalConfig sha256 end) path
  end.

(** [yamltests::test] *)
Definition test (desc : TestDescription) : Test unit :=
  match desc_typ desc with
  | TypeSszStatic typ => test_with_network (λ C, test_ssz_static typ) desc
  | TypeOperations typ => test_with_network (λ C, test_operations typ) desc
  | TypeSanity typ => test_with_network (λ C, test_sanity typ) desc
  | TypeEpochProcessing typ => test_with_network (λ C path, test_epoch_processing path (epoch_stage typ)) desc
  | _ => path ← unwrap (desc_path desc); test_name_unwrap path ;; Ok tt
  end.

(** [main] of [yamltests/src/main.rs] on the directory of the command line *)
Definition yamltests_main (fs : FileSystem) (depth : nat) (dir : string) : Test unit :=
  descs ← unwrap_result (read_descriptions fs depth dir);
  res_fold (λ _ desc, test desc) tt descs.
End Tests.

(** * Theorems *)

Lemma assert_Ok b : assert b = Ok tt ↔ b = true.
Proof. by destruct b. Qed.

(** A run of a part of the transition against the state that is expected of
    it: [None] when it must be refused. *)
Definition meets (f : Exec unit) (pre : BeaconState) (post : option BeaconState) : Prop :=
  match post with
  | Some post => f pre = (Ok tt, post)
  | None => ∃ e s, f pre = (Err e, s)
  end.

Lemma test_state_with_passes pre post f : test_state_with pre post f = Ok tt ↔ meets f pre post.
Proof.
  unfold test_state_with, meets. destruct (f pre) as [[[]|e| |] s]; destruct post as [post|]; cbn [unwrap mbind res_bind];
    rewrite ?assert_Ok, ?bool_decide_eq_true; try naive_solver.
Qed.

Section Passed.
Context `{FS : Files} `{AM : ArithMode} `{Cfg : Config} `{COk : !ConfigOk Cfg} `{BC : BlsCrate} `{TR : TreeRoot}
  `{MT : MerkleTree} `{F : Fuel}.
Context `{YS : !Deserialize BeaconState} `{YB : !Deserialize BeaconBlock} `{YM : !Deserialize Meta} `{YZ : !Deserialize Z}.
#[local] Existing Instance BLSVerification.

Lemma run_blocks_chain blocks pre post :
  Forall (λ b, wf_body (blk_body b) ∧ blk_slot b < 2 ^ 62) blocks → wf_state pre → finality_ok pre →
  run_blocks blocks pre = (Ok tt, post) →
  wf_state post ∧ finality_ok post ∧ slot pre ≤ slot post ∧
  cp_epoch (finalized_checkpoint pre) ≤ cp_epoch (finalized_checkpoint post) ∧
  (∀ b, last blocks = Some b → slot post = blk_slot b ∧ tree_root_state post = blk_state_root b).
Proof using COk.
  unfold run_blocks. intros Hb. revert pre.
  induction Hb as [|b blocks [Hbody Hslot] Hb IH]; intros pre Hwf Hf Hrun; cbn [for_each] in Hrun.
  { injection Hrun as <-. split_and!; done. }
  apply Mbind_Ok in Hrun as ([] & s1 & H1 & Hrun).
  assert (wf_state s1) as Hwf1.
  { pose proof (state_transition_wf b Hbody pre Hwf) as H. by rewrite H1 in H. }
  pose proof (state_transition_epochs b pre s1 Hwf Hf) as Hstep.
  destruct (Hstep Hslot H1) as (Hs & Hs1 & Hroot & Hf1 & Hfin & _).
  destruct (IH s1 Hwf1 Hf1 Hrun) as (Hwf2 & Hf2 & Hs2 & Hfin2 & Hlast).
  split_and!; [done|done|lia|lia|]. intros b' Hb'. destruct blocks as [|b2 blocks].
  - injection Hrun as <-. by injection Hb' as <-.
  - apply Hlast. by rewrite last_cons_cons in Hb'.
Qed.

(** What a passed test of blocks has read and run. *)
Lemma test_sanity_blocks_Ok path pre post :
  read_pre_post_unwrap path = Ok (pre, post) → test_sanity Blocks path = Ok tt →
  ∃ meta blocks, read_value_unwrap (push_path path "meta.yaml") = Ok meta ∧
    Forall2 (λ i b, read_block path i = Ok b) (zrange 0 (blocks_count meta)) blocks ∧
    meets (run_blocks blocks) pre post.
Proof using Type.
  intros Hread. unfold test_sanity, test_blocks. rewrite Hread. cbn [mbind res_bind]. intros H.
  apply bind_Ok in H as (meta & Hm & H). apply bind_Ok in H as (blocks & Hb & H).
  apply bind_Ok in H as (name & _ & H). exists meta, blocks. split; [done|]. split; [by apply res_map_Ok|].
  by apply test_state_with_passes.
Qed.

Lemma read_block_parsed path i b : read_block path i = Ok b → ∃ bytes, yaml_parse bytes = Some b.
Proof using Type.
  unfold read_block, read_value_unwrap. intros H. apply bind_Ok in H as (b' & Hb & H).
  apply bind_Ok in Hb as (bytes & _ & Hb). exists bytes. res_inv.
  unfold unwrap in Hb. destruct (yaml_parse bytes); congruence.
Qed.

(** What a passed test of blocks shows.  If the parser yields blocks with
    fields in range, and the test of a directory with a state after passes from a
    well-formed state, then the blocks of the directory, all of them and in
    order, lead from the state before exactly to the state after; that state is
    well-formed, has the slot and the state root of the last block, and no
    finalized epoch was moved back.  With no state after, a passed test shows
    that some block is refused. *)
Theorem passed_blocks_test path pre post
  (Hparse : ∀ bytes b, yaml_parse bytes = Some b → wf_body (blk_body b) ∧ blk_slot b < 2 ^ 62)
  (Hread : read_pre_post_unwrap path = Ok (pre, post)) (Hwf : wf_state pre) (Hf : finality_ok pre)
  (Hpass : test_sanity Blocks path = Ok tt) :
  ∃ blocks meta, read_value_unwrap (push_path path "meta.yaml") = Ok meta ∧
    Forall2 (λ i b, read_block path i = Ok b) (zrange 0 (blocks_count meta)) blocks ∧
    match post with
    | Some post => run_blocks blocks pre = (Ok tt, post) ∧ wf_state post ∧ finality_ok post ∧
        cp_epoch (finalized_checkpoint pre) ≤ cp_epoch (finalized_checkpoint post) ∧
        (∀ b, last blocks = Some b → slot post = blk_slot b ∧ tree_root_state post = blk_state_root b)
    | None => ∃ e s, run_blocks blocks pre = (Err e, s)
    end.
Proof using COk.
  destruct (test_sanity_blocks_Ok path pre post Hread Hpass) as (meta & blocks & Hm & Hb & Hmeets).
  exists blocks, meta. split; [done|]. split; [done|]. destruct post as [post|]; [|done]. cbn in Hmeets.
  assert (Forall (λ b, wf_body (blk_body b) ∧ blk_slot b < 2 ^ 62) blocks) as Hall.
  { apply Forall_forall. intros b (k & Hk)%list_elem_of_lookup.
    destruct (Forall2_lookup_r _ _ _ _ _ Hb Hk) as (i & _ & Hi). apply read_block_parsed in Hi as [bytes Hi]. eauto. }
  destruct (run_blocks_chain blocks pre post Hall Hwf Hf Hmeets) as (? & ? & _ & ? & ?). done.
Qed.
End Passed.

(** ** What a passed serialization test adds *)

(** On values in range a serialization test can only fail at its data.  For a
    type with a correct codec, and a tree codec that gives back what it was
    given, the test of a valid value passes exactly if the serialized file holds
    the encoding of the value and the file of roots its root. *)
Theorem ssz_test_passes_iff `{FS : Files} `{YR : !Deserialize Roots} {Db T : Type} `{EqDecision T} `{YT : !Deserialize T}
  `{TC : !TreeCodec Db T} (codec : SszType T) (valid : T → Prop) `{SL : !SszLaws codec valid} path name (roots : Roots) (value : T) serialized
  (Hname : test_name path = Ok name)
  (Hroots : read_value_unwrap (push_path path "roots.yaml") = Ok roots)
  (Hserialized : file (push_path path "serialized.ssz") = Some serialized)
  (Hvalue : read_value_unwrap (push_path path "value.yaml") = Ok value) (Hvalid : valid value)
  (Htree : ∀ x, ∃ hash db, into_tree x = Some (hash, db) ∧ from_tree hash db = Some x) :
  test_ssz (Db:=Db) codec path = Ok tt ↔
  serialized = ssz_encode codec value ∧ ∃ db, into_tree value = Some (root roots, db).
Proof.
  unfold test_ssz, test_name_unwrap, read_raw_unwrap.
  rewrite Hname, Hroots, Hserialized, Hvalue. cbn [unwrap_result unwrap mbind res_bind].
  destruct (Htree value) as (hash & db & Hinto & Hfrom). rewrite (ssz_decode_encode value Hvalid), Hinto.
  cbn [unwrap_result unwrap mbind res_bind]. rewrite Hfrom. cbn [unwrap mbind res_bind].
  rewrite (bool_decide_eq_true_2 (value = value)) by done. unfold bytes_eqb.
  do 2 case_bool_decide; cbn; naive_solver.
Qed.

(** ** Witnesses *)

Section Witnesses.
#[local] Existing Instances toy_config toy_config_ok toy_mode toy_fuel toy_tree toy_merkle.

(** A crate that verifies every signature. *)
#[local] Instance any_crate : BlsCrate := {|
  public_from_bytes := Some;
  signature_from_bytes := Some;
  aggregate_public_from_bytes := Some;
  aggregate_signature_from_bytes bytes := if decide (length bytes = 96%nat) then Some bytes else None;
  aggregate_public_new := H384_default;
  aggregate_public_add _ key := key;
  aggregate_public_bytes := id;
  aggregate_signature_new := H768_default;
  aggregate_signature_add _ signature := signature;
  aggregate_signature_bytes := id;
  crate_verify _ _ _ _ := true;
  crate_verify_multiple _ _ _ _ := true;
|}.

Definition toy_pre : BeaconState := toy_state 16 7.
Definition toy_post : BeaconState := (state_transition (BLS:=BLSVerification) (Transition.toy_block 8) toy_pre).2.
Definition toy_dir : string := "/t/minimal/phase0/sanity/blocks/pyspec_tests/one".

(** A directory with one block; a YAML file is a number. *)
#[local] Instance toy_files : Files := λ path,
  if bool_decide (path = push_path toy_dir "pre.yaml") then Some [0]
  else if bool_decide (path = push_path toy_dir "pre.ssz") then Some (ssz_encode ssz_BeaconState toy_pre)
  else if bool_decide (path = push_path toy_dir "post.yaml") then Some [1]
  else if bool_decide (path = push_path toy_dir "post.ssz") then Some (ssz_encode ssz_BeaconState toy_post)
  else if bool_decide (path = push_path toy_dir "meta.yaml") then Some [1]
  else if bool_decide (path = push_path toy_dir "blocks_0.yaml") then Some [0]
  else if bool_decide (path = push_path toy_dir "blocks_0.ssz")
    then Some (ssz_encode ssz_BeaconBlock (Transition.toy_block 8))
  else if bool_decide (path = push_path toy_dir "roots.yaml") then Some [7]
  else if bool_decide (path = push_path toy_dir "serialized.ssz") then Some (ssz_encode ssz_Checkpoint Checkpoint_default)
  else if bool_decide (path = push_path toy_dir "value.yaml") then Some [0]
  else None.
#[local] Instance toy_yaml_state : Deserialize BeaconState := λ b,
  if bool_decide (b = [0]) then Some toy_pre else if bool_decide (b = [1]) then Some toy_post else None.
#[local] Instance toy_yaml_block : Deserialize BeaconBlock := λ _, Some (Transition.toy_block 8).
#[local] Instance toy_yaml_meta : Deserialize Meta := λ _, Some (mkMeta 1).
#[local] Instance toy_yaml_u64 : Deserialize Z := λ _, Some 1.

Lemma passed_blocks_test_witness :
  test_sanity Blocks toy_dir = Ok tt ∧ slot toy_post = 8 ∧
  ∃ blocks, length blocks = 1%nat ∧ run_blocks blocks toy_pre = (Ok tt, toy_post).
Proof.
  assert (test_sanity Blocks toy_dir = Ok tt) as Hpass by (vm_compute; reflexivity).
  split; [exact Hpass|]. split; [vm_compute; reflexivity|].
  destruct (passed_blocks_test toy_dir toy_pre (Some toy_post)) as (blocks & meta & Hm & Hb & Hrun & _).
  - intros bytes b Hb. injection Hb as <-. split; [constructor|reflexivity].
  - vm_compute. reflexivity.
  - apply wf_stateb_spec. vm_compute. reflexivity.
  - exact toy_state_finality.
  - exact Hpass.
  - exists blocks. split; [|exact Hrun]. apply Forall2_length in Hb. rewrite <- Hb.
    vm_compute in Hm. injection Hm as <-. reflexivity.
Defined.

#[local] Instance toy_yaml_roots : Deserialize Roots := λ b, Some (mkRoots b None).
#[local] Instance toy_yaml_checkpoint : Deserialize Checkpoint := λ _, Some Checkpoint_default.
#[local] Instance toy_tree_checkpoint : TreeCodec Checkpoint Checkpoint := {|
  into_tree x := Some ([7], x);
  from_tree _ db := Some db;
|}.

Lemma ssz_test_passes_iff_witness : test_ssz (Db:=Checkpoint) ssz_Checkpoint toy_dir = Ok tt.
Proof.
  apply (ssz_test_passes_iff ssz_Checkpoint Checkpoint_valid toy_dir "minimal/phase0/sanity/blocks/pyspec_tests/one"
    (mkRoots [7] None) Checkpoint_default (ssz_encode ssz_Checkpoint Checkpoint_default)).
  - vm_compute. reflexivity.
  - vm_compute. reflexivity.
  - vm_compute. reflexivity.
  - vm_compute. reflexivity.
  - solve_valid.
  - intros x. exists [7], x. split; reflexivity.
  - split; [reflexivity|]. exists Checkpoint_default. reflexivity.
Defined.
End Witnesses.
