(* ===== verification/Wasm.v ===== *)
(** * The WebAssembly entry point: [beacon/wasm/src/lib.rs]

    Two exported functions run a block on a state, both given as JavaScript
    values, with the minimal or the mainnet configuration and without any
    signature check.  The conversions of [wasm_bindgen] and serde are external,
    the class [JsApi]; every failure is turned into a JavaScript string. *)
From stdpp Require Import base numbers list.
From Stdlib Require Import ZArith Lia.
From S2P Require Import Prelude Config Types Utils State Accessors Mutators Block Transition Node.

#[local] Open Scope Z_scope.

(** [JsValue] with [into_serde] and [from_serde] of the two types, and the
    strings of the errors *)
Class JsApi := {
  JsValue : Type;
  SerdeError : Type;
  block_into_serde : JsValue → res SerdeError BeaconBlock;
  state_into_serde : JsValue → res SerdeError BeaconState;
  state_from_serde : BeaconState → res SerdeError JsValue;
  debug_serde : SerdeError → JsValue;
  debug_error : Error → JsValue;
}.

Section Wasm.
Context `{JS : JsApi} `{AM : ArithMode} `{TR : TreeRoot} `{MT : MerkleTree} `{F : Fuel}.

(** [execute] *)
Definition execute `{Cfg : Config} `{BLS : BLSConfig} (block state : JsValue) : res JsValue JsValue :=
  block ← res_map_err debug_serde (block_into_serde block);
  state ← res_map_err debug_serde (state_into_serde state);
  let (r, state) := execute_block block state in
  _ ← res_map_err debug_error r;
  res_map_err debug_serde (state_from_serde state).

(** [execute_minimal] and [execute_mainnet] *)
Definition execute_minimal (sha256 : Bytes → H256) : JsValue → JsValue → res JsValue JsValue :=
  execute (Cfg:=MinimalConfig sha256) (BLS:=BLSNoVerification).
Definition execute_mainnet (sha256 : Bytes → H256) : JsValue → JsValue → res JsValue JsValue :=
  execute (Cfg:=MainnetConfig sha256) (BLS:=BLSNoVerification).

(** What a page gets: the state the node's executor gives for the block, or the
    text of the first error on the way. *)
Theorem execute_correct `{Cfg : Config} `{BLS : BLSConfig} (block state out : JsValue) :
  execute block state = Ok out ↔
  ∃ b s s', block_into_serde block = Ok b ∧ state_into_serde state = Ok s ∧
    executor_execute_block b s = Ok s' ∧ state_from_serde s' = Ok out.
Proof.
  unfold execute, executor_execute_block. split.
  - destruct (block_into_serde block) as [b| | |]; try done. destruct (state_into_serde state) as [s| | |]; try done. cbn.
    destruct (execute_block b s) as [r s'] eqn:Hx. destruct r as [[]| | |]; try done. cbn.
    destruct (state_from_serde s') as [o| | |] eqn:Ho; try done. intros [= <-]. exists b, s, s'. by rewrite Hx.
  - intros (b & s & s' & -> & -> & Hx & Ho). cbn. destruct (execute_block b s) as [[[]| | |] s0]; try done.
    cbn in *. injection Hx as ->. by rewrite Ho.
Qed.
End Wasm.
